(* ===== verification/_CoqProject ===== *)
-Q . S2P
Prelude.v
Sockets.v
Crypto.v
Packets.v
Wire.v
Backed.v
WriterSpec.v
ReaderSpec.v
Connection.v
Endpoint.v
Apart.v
Activity.v
Session.v
ClientConnection.v
ServerConnection.v
Forwarding.v
TunnelsApart.v
Router.v
CxxText.v
HostParsing.v
TunnelUtils.v
UnixSockets.v
TcpSockets.v
SocketPromises.v
Descriptors.v
RawSockets.v
TerminalMessages.v
FifoPath.v
Loops.v
TextFlow.v
UserTerminal.v
TerminalServer.v
ServerSession.v
ClientStart.v
TerminalClient.v
ClientSession.v
ClientFlow.v
ServerFlow.v
Conversation.v
ConversationRun.v
Jumphost.v
Scrollback.v
Multiplexer.v
MultiplexerSpec.v
HtmJson.v
HtmServer.v
HtmSpec.v
Processes.v
ConsoleModes.v
Telemetry.v
LogFiles.v
TelemetryStart.v
HtmPrograms.v
SshPattern.v
SshTokens.v
SshOptions.v
SshSetup.v
EtTerminal.v
KeyAgreement.v
EtServer.v
SshConfig.v
SshConfigSpec.v
SshTermination.v
SshClient.v
SshMisread.v
SshExamples.v
EtClient.v
EtClientSpec.v
