(* ===== verification/Prelude.v ===== *)
(** * Eternal Terminal: a verification library

    Eternal Terminal keeps a remote shell alive across network failures.  This library
    models the logic of its sources (under [src/src/]) as executable definitions and proves
    what makes them correct.  Paths below are relative to [src/src/].

    ** The program and its parts

    A client ([et], [terminal/TerminalClientMain.cpp]) reads its command line and the ssh
    configuration, has ssh start [etterminal] on the server (and on a jump host), which
    makes the key of the session, and connects to the server ([etserver]).  From then on
    both ends hold a [Connection]: packets are encrypted with a counting nonce, kept in a
    backup by a [BackedWriter], and read by a [BackedReader].  When the network fails, the
    client reconnects, the two ends exchange the positions they have reached, and each sends
    again what the other has missed.  The server keeps the keys and connections of its
    clients; terminals register with a router over a pipe; a thread of the server joins a
    client and its terminal; port forwarding relays sockets through packets.  A jump host
    runs a proxy that is a terminal to its server and a client to the destination.  [htm] is
    a terminal multiplexer of its own: a daemon with panes that have a scroll-back buffer
    and are arranged in splits and tabs, and a client that copies bytes.

    ** Files

    - [Prelude] (this file): bytes, machine integers, the effect monad [M S] (state and
      [outcome]: a value, an exception, an abort of the process, undefined behaviour, or out
      of fuel), [wp] reasoning and the tactics [run], [wp_step], [b2p].
    - [Sockets]: [base/SocketHandler].  The system calls are the class [SocketHandler], the
      promises of a stream socket the classes [StreamSocket], [StreamHandler] (the same for
      buffers of less than 2^31 bytes), [CleanRetry] and [Stalls]; [steady] is a handler
      followed as long as no write gives up in the middle of a buffer.  Protobuf messages are
      the class [Proto] with a round-trip law.  [Wire] is a concrete in-memory world with all
      these laws, on which the examples are evaluated.
    - [Crypto]: [base/CryptoHandler]; libsodium's secretbox is the class [SecretBox].
    - [Packets]: [base/Packet] and the packet transfer of [base/SocketHandler.hpp].
    - [Backed]: [base/BackedWriter] (module [Writer]) and [base/BackedReader] (module
      [Reader]).  [WriterSpec]: a writer refines an append-only history.  [ReaderSpec]: a
      reader delivers the packets of a framed stream, however it is cut.
    - [Connection]: [base/Connection] (modules [Conn] and [ConnOps]; the virtual method
      is the class [ConnectionObject]).  [Endpoint]: the two halves of an endpoint on one
      network connection.  [Session]: two endpoints over any number of reconnects.
    - [ClientConnection]: [base/ClientConnection] (module [Client]), and its locks as a
      step relation (module [Lock]).  [ServerConnection]: [base/ServerClientConnection]
      (module [ServerClient]) and [base/ServerConnection] (module [Server]), with a heap of
      shared connection objects.
    - [Forwarding]: [terminal/forwarding/] (modules [Source], [Destination], [Forward]).
    - [Router]: [terminal/UserTerminalRouter].
    - [CxxText]: what the sources use of the C and C++ text functions, and the helpers of
      [base/Headers.hpp].  [HostParsing]: [terminal/HostParsing.hpp].  [TunnelUtils]:
      [base/TunnelUtils.cpp].
    - [UnixSockets]: [base/UnixSocketHandler] (module [Unix]) over the system calls, which
      are the class [Kernel].  [TcpSockets]: [base/TcpSocketHandler] and
      [base/PipeSocketHandler] (modules [Tcp] and [Pipe]).  [SocketPromises]: the handler as
      an instance of [SocketHandler], and which of the promises it keeps.  [Descriptors]:
      its bookkeeping of descriptors.
    - [RawSockets]: [base/RawSocketUtils.cpp] (module [Raw]).  [Scrollback]:
      [htm/TerminalHandler] (module [Terminal]).  [Multiplexer]: [htm/MultiplexerState]
      (module [Mux]); [MultiplexerSpec]: its layout is a forest.
    - [SshPattern], [SshTokens], [SshOptions], [SshConfig]: [terminal/ParseConfigFile.hpp]:
      host patterns, words, options and path expansion, lines and files.  [SshConfigSpec]
      is the meaning of rendered files, [SshTermination] the recursion through [Include],
      [SshMisread] the lines that do not do what they say.  [SshClient] is the resolution
      of hosts in [terminal/TerminalClientMain.cpp], and [SshExamples] applies the theorems.
    - [TerminalMessages]: the messages of a terminal session.  [Loops]: what the loops over
      [select] use ([Poll]), and how an iteration goes on ([stage]).  [FifoPath]:
      [terminal/ServerFifoPath] (module [Fifo]).
    - [UserTerminal]: [terminal/UserTerminalHandler] (module [UserTerm]).  [TerminalServer]:
      [terminal/TerminalServer] (module [Term]); [ServerSession]: what is typed through it.
      [Apart] is what both ends share: a descriptor that the operations of a connection
      leave alone; [Activity] what is written to and read from a connection while a program
      runs; [TextFlow] the messages with terminal text among its packets.
    - [ClientStart]: the first exchange of a client, [TerminalClient]:
      [terminal/TerminalClient] and [terminal/Console.hpp] (module [TermClient]),
      [ClientSession]: what is shown through it.  [Jumphost]:
      [terminal/UserJumphostHandler] (module [JumpHost]).
    - [TunnelsApart]: forwarded sockets and the other descriptors of a program.
      [ClientFlow], [ServerFlow]: one iteration of the client, and of the server's terminal,
      as what it moves between its terminal and its connection.  [Conversation]: the two
      programs and their connection over any number of reconnects; [ConversationRun]: one
      such run, computed.
    - [HtmJson]: the layout as JSON.  [HtmServer]: [htm/HtmServer], the pipe and
      [htm/HtmClient] (modules [Htm] and [HtmPipe]); [HtmSpec]: its commands.
    - [Processes]: [base/SubprocessUtils], [base/DaemonCreator] and
      [terminal/PseudoUserTerminal.hpp] (modules [Subproc], [Daemon], [PseudoTerm]).
      [ConsoleModes]: [terminal/PseudoTerminalConsole.hpp] (module [PseudoConsole]).
      [HtmPrograms]: [htm/HtmServerMain.cpp] and [htm/HtmClientMain.cpp].  [Telemetry],
      [TelemetryStart]: [terminal/TelemetryService] (modules [Tele] and [TeleStart]).
      [LogFiles]: [base/LogHandler] (module [Logs]).
    - [SshSetup]: [terminal/SshSetupHandler].  [EtTerminal], [EtServer], [EtClient]: the
      programs [terminal/TerminalMain.cpp], [terminal/TerminalServerMain.cpp] and
      [terminal/TerminalClientMain.cpp], each [main] from the options to the components it
      runs.  [KeyAgreement]: the key from ssh to the terminal; [EtClientSpec]: the target
      and the tunnels of a client.

    An object is a record with the fields of its class; a method is a definition with the
    method's name that runs on that record (and the world of sockets beside it); its guards,
    early returns and exceptions are the code's.  Mutexes are the atomicity of the modelled
    calls; where a method releases one, what other threads do there is a parameter.
    Unordered maps are finite maps, and where their iteration order matters it is a
    parameter.

    ** What the theorems show

    - End to end, over any number of connections that the network cuts anywhere: what the
      terminal on the server is given is a prefix of what was typed at the console, and what
      the console shows a prefix of what the shell has written
      ([Conversation.console_to_shell]); when neither end has anything left to read, nothing
      is missing ([Conversation.nothing_lost]).
    - A session delivers every packet exactly once and in order ([Session.session_delivery]),
      a recovery catches up, honest ends do not abort each other; the writer refines its
      history, the reader the framed stream; nonces are never used twice.
    - Positions of 2^31, headers that are ahead and bad frame lengths break a connection or
      the process, as stated; the memory of a writer is bounded per reconnect only.
    - The socket handlers keep the promises of a stream but one ([SocketPromises]: bytes are
      sent twice after a long stall); they leak no descriptor, but for two cases
      ([Descriptors]).  What needs that promise (the delivery theorems above, and the relay of
      the terminal process) is proved of every handler with the other promises
      ([StreamHandler]; [SocketPromises.tcp_stream_handler]), for the runs without such a
      stall ([steady]): [CleanRetry] is a hypothesis of lemmas, which are used with [steady]
      handlers, and of supporting theorems that say so.
    - The handshake, run at both ends, opens a session; the server's tables stay
      consistent on every path of its handler; the reconnect thread ends only when the
      connection is live or shut down, and a deadlock of its locks is reachable.
    - Forwarded sockets and destinations are never mixed up; terminals are never replaced.
    - The same for each program alone ([ServerSession], [ClientSession], [UserTerminal]); a
      server that is silent is given up; a client whose first connection fails does not
      notice.
    - The client, the server's terminal and the jump host agree on the key that ssh has given
      back; the target and
      the tunnels of a client are those of its command line and its configuration.  The
      settings of the server are those of its command line, its file and its defaults, in
      this order ([EtServer]).
    - The pipe of the router is made in a directory of the user's own.
    - The text parsers read everything that is written as documented (host strings, tunnel
      arguments, the host argument, ssh patterns and configuration files), with their error
      behaviour and, for the ssh configuration, termination.
    - The scroll-back buffer keeps its bounds; the layout of the multiplexer stays a forest,
      and is told to its client completely; the daemon does what the bytes of a command say,
      and does not survive a client that goes away.
    - A log file is a new file that nobody else can read, but its descriptor leaks
      ([LogFiles]); the telemetry keeps the id of a user, loses nothing when it is shut down,
      and does not let a process end that has crashed ([Telemetry], [TelemetryStart]).

    ** Fuel and bounds

    Loops that wait for a socket take fuel; [Stalls] (a socket stalls only finitely often)
    gives enough of it ([Sockets.readAll_total] and its companions).  [dec], [replaceAll],
    [match_pattern_list] and [host_line] compute a fuel that is the length of their input
    (or its number of digits), of which every round uses up at least one.  The fuel of
    [ssh_config_parse_line] bounds the nesting of [Include] and [Match], and
    [SshTermination.parse_terminates] shows when some fuel is enough.  The loops of the
    programs run as long as the process: they take the number of their iterations, or the
    list of what other threads do between two of them, and the theorems hold for all of
    these.  Integers are [Z] with
    the conversions of the code written out ([to_i32], [to_u8], ...).

    ** Not modelled

    - Log output and the messages for the user, as far as they change nothing (also the few
      events that components report to the telemetry); how easylogging writes its files.  The Windows, NetBSD and FreeBSD variants of the code; the limit of [select]
      on the number of a descriptor ([FD_SETSIZE]).
    - In a [Conversation]: iterations in which an exception reaches the loop of a program, and
      a client that has given up its connection; the reconnect thread, and every other, while
      an iteration is running (the connection is replaced between two of them); writes that
      give up in the middle of a buffer.  Forwarded sockets have descriptors of their own, and
      a packet is not longer than a frame can say.
    - What [cxxopts] and SimpleIni make of their input (records of options and of values),
      protobuf's wire format, libsodium, base64, UUIDs, the text of JSON values and
      [std::regex] (third-party or library code, taken as parameters with their laws where a
      theorem needs them); failing memory allocation; the C locale is assumed. *)

From Stdlib Require Export ZArith Lia Ascii.
From stdpp Require Export prelude list gmap strings numbers.
From Stdlib Require String.

#[global] Open Scope Z_scope.
#[global] Set Default Goal Selector "!".

(** ** Text and bytes

    A C++ [std::string] (text or raw bytes) is a list of 8-bit characters. *)

Abbreviation str := (list ascii).

Declare Scope et_scope.
Delimit Scope et_scope with et.
#[global] Open Scope et_scope.

(** [lit "abc"] is the string literal of the source. *)
Definition lit (s : string) : str := String.list_ascii_of_string s.

(** [std::string::length] and the other [size_t] counts, as integers. *)
Abbreviation len l := (Z.of_nat (length l)).

(** The value of a character as [unsigned char], and the (wrapping) conversion
    of an integer to a character. *)
Definition bval (a : ascii) : Z := Z.of_N (N_of_ascii a).
Definition byte (z : Z) : ascii := ascii_of_N (Z.to_N (z mod 256)).

(** ** Machine integers: conversion to a width wraps around *)

Definition to_u8 (z : Z) : Z := z mod 256.
Definition to_i32 (z : Z) : Z := (z + 2 ^ 31) mod 2 ^ 32 - 2 ^ 31.
Definition to_u32 (z : Z) : Z := z mod 2 ^ 32.
Definition to_i64 (z : Z) : Z := (z + 2 ^ 63) mod 2 ^ 64 - 2 ^ 63.

(** ** Memory representation of integers (little-endian host) *)

Fixpoint le_encode (n : nat) (z : Z) : str :=
  match n with
  | O => []
  | S n' => byte z :: le_encode n' (z / 256)
  end.

Fixpoint le_decode (l : str) : Z :=
  match l with
  | [] => 0
  | b :: l' => bval b + 256 * le_decode l'
  end.

(** [htonl] followed by [memcpy] into the first four bytes of a buffer, and the
    converse ([memcpy] out of the buffer, then [ntohl], into an [int]). *)
Definition be32_encode (z : Z) : str := rev (le_encode 4 z).
Definition be32_decode (l : str) : Z := to_i32 (le_decode (rev l)).

(** The eight bytes of an [int64_t] as [writeAllOrThrow(fd, &length, 8)] sends
    them, and back. *)
Definition le64_encode (z : Z) : str := le_encode 8 z.
Definition le64_decode (l : str) : Z := to_i64 (le_decode l).

(** ** Effects

    A C++ operation on an object state [S] returns a value, throws an
    exception, aborts the process ([STFATAL], [CHECK]), reaches behaviour the
    C++ standard leaves undefined, or (in a model with fuel) needs more fuel.
    The state reached so far is kept in every case, as in the source. *)

Inductive exn_kind := RuntimeError | LogicError | TunnelParseException.

Record exn := Exn { exn_type : exn_kind; what : string }.

Inductive failure :=
| Throw (e : exn)
| Fatal (why : string)
| UB (why : string)
| OutOfFuel.

Inductive outcome (A : Type) :=
| Ok (a : A)
| Stop (f : failure).
Arguments Ok {A} _.
Arguments Stop {A} _.

(** Functions without a state are sequenced on their outcomes. *)
#[global] Instance outcome_ret : MRet outcome := @Ok.
#[global] Instance outcome_bind : MBind outcome := λ A B f o,
  match o with Ok a => f a | Stop e => Stop e end.

Definition M (S A : Type) : Type := S → outcome A * S.

#[global] Instance M_ret {S} : MRet (M S) := λ A a s, (Ok a, s).
#[global] Instance M_bind {S} : MBind (M S) := λ A B f m s,
  match m s with
  | (Ok a, s') => f a s'
  | (Stop e, s') => (Stop e, s')
  end.

Section Effects.
Context {S : Type}.

Definition get : M S S := λ s, (Ok s, s).
Definition put (s : S) : M S unit := λ _, (Ok tt, s).
Definition modify (f : S → S) : M S unit := λ s, (Ok tt, f s).
Definition stop {A} (f : failure) : M S A := λ s, (Stop f, s).
Definition throw {A} (k : exn_kind) (w : string) : M S A := stop (Throw (Exn k w)).
Definition fatal {A} (w : string) : M S A := stop (Fatal w).
Definition undefined {A} (w : string) : M S A := stop (UB w).

(** [try { m } catch (const std::runtime_error& e) { h(e) }] *)
Definition catch_runtime {A} (m : M S A) (h : string → M S A) : M S A := λ s,
  match m s with
  | (Stop (Throw (Exn RuntimeError w)), s') => h w s'
  | r => r
  end.

(** [try { m } catch (const std::exception& e) { h(e) }] *)
Definition catch_all {A} (m : M S A) (h : exn → M S A) : M S A := λ s,
  match m s with
  | (Stop (Throw e), s') => h e s'
  | r => r
  end.
End Effects.

(** Running an operation of a component inside the state of its owner. *)
Definition zoom {S T A} (get_part : S → T) (set_part : T → S → S)
    (m : M T A) : M S A := λ s,
  let '(r, t) := m (get_part s) in (r, set_part t s).

Definition on_fst {S W A} (m : M S A) : M (S * W) A :=
  zoom fst (λ t p, (t, p.2)) m.
Definition on_snd {S W A} (m : M W A) : M (S * W) A :=
  zoom snd (λ t p, (p.1, t)) m.

Definition lift {S A} (o : outcome A) : M S A := λ s, (o, s).

(** An operation on a new object, with what becomes of the object. *)
Definition with_new {W A O} (o : O) (m : M (O * W) A) : M W (A * O) := λ k,
  let '(r, (o', k')) := m (o, k) in
  (match r with Ok a => Ok (a, o') | Stop e => Stop e end, k').

(** An object that lives as long as the operation. *)
Definition scoped {W A O} (o : O) (m : M (O * W) A) : M W A := λ k,
  let '(r, (_, k')) := m (o, k) in (r, k').

(** ** Automation *)

(** Split every [match], [if] and [decide] of the goal or of the hypotheses. *)
Ltac break_goal :=
  repeat (case_match; simplify_eq/=).
Ltac break_in H :=
  repeat match type of H with
  | context [match ?x with _ => _ end] => destruct x eqn:?; simplify_eq/=
  end.

(** Booleans of the code to propositions. *)
Ltac b2p :=
  repeat match goal with
  | H : (_ <? _) = true |- _ => apply Z.ltb_lt in H
  | H : (_ <? _) = false |- _ => apply Z.ltb_ge in H
  | H : (_ <=? _) = true |- _ => apply Z.leb_le in H
  | H : (_ <=? _) = false |- _ => apply Z.leb_gt in H
  | H : (_ =? _) = true |- _ => apply Z.eqb_eq in H
  | H : (_ =? _) = false |- _ => apply Z.eqb_neq in H
  | H : (_ && _)%bool = true |- _ => apply andb_true_iff in H as [? ?]
  | H : (_ || _)%bool = false |- _ => apply orb_false_iff in H as [? ?]
  | H : negb _ = true |- _ => apply negb_true_iff in H
  | H : negb _ = false |- _ => apply negb_false_iff in H
  | H : bool_decide _ = true |- _ => apply bool_decide_eq_true in H
  | H : bool_decide _ = false |- _ => apply bool_decide_eq_false in H
  end.

Create HintDb et discriminated.
Create Rewrite HintDb et_rw.

(** ** Reasoning about runs

    [wp m Q s]: the run of [m] from [s] ends in an outcome and state that
    satisfy [Q]. *)

Definition wp {S A} (m : M S A) (Q : outcome A → S → Prop) (s : S) : Prop :=
  Q (m s).1 (m s).2.

Lemma wp_run {S A} (m : M S A) Q s o s' : wp m Q s → m s = (o, s') → Q o s'.
Proof. unfold wp. intros HQ E. by rewrite E in HQ. Qed.

(** A fact about every run of [m], as a law of a class states it. *)
Lemma wp_law {S A} (m : M S A) (Q : outcome A → S → Prop) s :
  (∀ o s', m s = (o, s') → Q o s') → wp m Q s.
Proof. intros H. apply H, surjective_pairing. Qed.

Lemma wp_mono {S A} (m : M S A) (Q Q' : outcome A → S → Prop) s :
  wp m Q s → (∀ o s', Q o s' → Q' o s') → wp m Q' s.
Proof. unfold wp. eauto. Qed.

(** A sequence: [R] describes the first operation; [f] goes on after a normal
    return, and every other outcome ends the run. *)
Lemma wp_bind {S A B} (m : M S A) (f : A → M S B) R (Q : outcome B → S → Prop) s :
  (∀ o s1, m s = (o, s1) → R o s1) →
  (∀ a s1, R (Ok a) s1 → wp (f a) Q s1) →
  (∀ e s1, R (Stop e) s1 → Q (Stop e) s1) →
  wp (m ≫= f) Q s.
Proof.
  cbv [wp mbind M_bind]. intros Hm Hf He. destruct (m s) as [[a|e] s1] eqn:E; eauto.
Qed.

(** [wp_step law as x s H]: one step by [law], giving the returned value, the
    next state and what [law] says of them; a second goal for a stop. *)
Tactic Notation "wp_step" uconstr(law) "as" simple_intropattern(x) ident(s) ident(H) :=
  eapply wp_bind; [eapply law
                  |intros x s H; cbn beta iota in H
                  |intros ? s H; cbn beta iota in H].

(** The run of a sequence, when the run of its first operation is known. *)
Lemma M_bind_ok {S A B} (m : M S A) (f : A → M S B) s a s1 :
  m s = (Ok a, s1) → (m ≫= f) s = f a s1.
Proof. unfold mbind, M_bind. by intros ->. Qed.

Lemma M_bind_stop {S A B} (m : M S A) (f : A → M S B) s e s1 :
  m s = (Stop e, s1) → (m ≫= f) s = (Stop e, s1).
Proof. unfold mbind, M_bind. by intros ->. Qed.

Lemma M_bind_stop_inv {S A B} (m : M S A) (f : A → M S B) s :
  (m ≫= f) s = match m s with (Ok a, s1) => f a s1 | (Stop e, s1) => (Stop e, s1) end.
Proof. done. Qed.

Lemma M_bind_inv {S A B} (m : M S A) (f : A → M S B) s b s' :
  (m ≫= f) s = (Ok b, s') → ∃ a s1, m s = (Ok a, s1) ∧ f a s1 = (Ok b, s').
Proof. rewrite M_bind_stop_inv. destruct (m s) as [[a|e] s1]; [|done]. eauto. Qed.

(** One step of a run, for the basic operations. *)
Section RunLemmas.
Context {S W A B : Type}.
Implicit Types (s : S) (w : W).

Lemma run_ret (a : A) (f : A → M S B) s : (mret a ≫= f) s = f a s.
Proof. done. Qed.
Lemma run_get (f : S → M S B) s : (get ≫= f) s = f s s.
Proof. done. Qed.
Lemma run_put s' (f : unit → M S B) s : (put s' ≫= f) s = f tt s'.
Proof. done. Qed.
Lemma run_modify g (f : unit → M S B) s : (modify g ≫= f) s = f tt (g s).
Proof. done. Qed.
Lemma run_lift_ok (a : A) (f : A → M S B) s : (lift (Ok a) ≫= f) s = f a s.
Proof. done. Qed.
Lemma run_lift_stop e (f : A → M S B) s : (lift (Stop e) ≫= f) s = (Stop e, s).
Proof. done. Qed.
Lemma run_stop e (f : A → M S B) s : (stop e ≫= f) s = (Stop e, s).
Proof. done. Qed.
Lemma run_throw k e (f : A → M S B) s :
  (throw k e ≫= f) s = (Stop (Throw (Exn k e)), s).
Proof. done. Qed.

Lemma run_fst_get (f : S → M (S * W) B) s w : (on_fst get ≫= f) (s, w) = f s (s, w).
Proof. done. Qed.
Lemma run_fst_put s' (f : unit → M (S * W) B) s w :
  (on_fst (put s') ≫= f) (s, w) = f tt (s', w).
Proof. done. Qed.
Lemma run_fst_modify g (f : unit → M (S * W) B) s w :
  (on_fst (modify g) ≫= f) (s, w) = f tt (g s, w).
Proof. done. Qed.
Lemma run_fst (m : M S A) (f : A → M (S * W) B) s w :
  (on_fst m ≫= f) (s, w) =
    match m s with
    | (Ok a, s1) => f a (s1, w)
    | (Stop e, s1) => (Stop e, (s1, w))
    end.
Proof. cbv [mbind M_bind on_fst zoom fst snd]. by destruct (m s) as [[]]. Qed.
Lemma run_snd (m : M W A) (f : A → M (S * W) B) s w :
  (on_snd m ≫= f) (s, w) =
    match m w with
    | (Ok a, w1) => f a (s, w1)
    | (Stop e, w1) => (Stop e, (s, w1))
    end.
Proof. cbv [mbind M_bind on_snd zoom fst snd]. by destruct (m w) as [[]]. Qed.
End RunLemmas.

Create Rewrite HintDb run.
#[export] Hint Rewrite @run_ret @run_get @run_put @run_modify @run_lift_ok @run_lift_stop
  @run_stop @run_throw @run_fst_get @run_fst_put @run_fst_modify : run.

(** Run the basic operations of a goal. *)
Ltac run := autorewrite with run; cbn [fst snd].

Lemma on_snd_inv {S W A} (m : M W A) (p : S * W) o p' :
  on_snd m p = (o, p') → m p.2 = (o, p'.2) ∧ p'.1 = p.1.
Proof. unfold on_snd, zoom. destruct (m _) as [r k]. by intros [= <- <-]. Qed.

(** ** Runs that return *)

(** [finishes m Q s]: if [m] finishes from [s], the result and the state satisfy [Q]. *)
Definition finishes {S A} (m : M S A) (Q : A → S → Prop) (s : S) : Prop :=
  ∀ a s', m s = (Ok a, s') → Q a s'.

Section Returns.
Context {S : Type}.
Implicit Types (s : S).

Lemma finishes_ret {A} (a : A) (Q : A → S → Prop) s : Q a s → finishes (mret a) Q s.
Proof. by intros HQ ?? [= <- <-]. Qed.

Lemma finishes_stop {A} e (Q : A → S → Prop) s : finishes (stop e) Q s.
Proof. by intros ??. Qed.

Lemma finishes_bind {A B} (m : M S A) (f : A → M S B) Q s :
  finishes m (λ a s1, finishes (f a) Q s1) s → finishes (m ≫= f) Q s.
Proof.
  intros Hm b s'. rewrite M_bind_stop_inv. destruct (m s) as [[a|e] s1] eqn:E; [|done].
  by apply (Hm a s1).
Qed.

Lemma finishes_mono {A} (m : M S A) (Q Q' : A → S → Prop) s :
  finishes m Q s → (∀ a s', Q a s' → Q' a s') → finishes m Q' s.
Proof. unfold finishes. eauto. Qed.
End Returns.

Lemma finishes_on_snd {S W A} (m : M W A) (Q : A → S * W → Prop) s w :
  finishes m (λ a w', Q a (s, w')) w → finishes (on_snd m) Q (s, w).
Proof.
  intros Hm a [s' w'] [Hr Hs]%on_snd_inv. cbn in Hr, Hs. subst. by apply Hm.
Qed.

(** [keeps I m]: if [m] returns, the invariant [I] of the state holds again. *)
Definition keeps {S A} (I : S → Prop) (m : M S A) : Prop :=
  ∀ s, I s → finishes m (λ _ s', I s') s.

Section Keeps.
Context {S : Type} (I : S → Prop).

Lemma keeps_bind {A B} (m : M S A) (f : A → M S B) :
  keeps I m → (∀ a, keeps I (f a)) → keeps I (m ≫= f).
Proof.
  intros Hm Hf s Hs. apply finishes_bind. eapply finishes_mono; [by apply Hm|].
  intros a s' Hs'. by apply Hf.
Qed.

Lemma keeps_ret {A} (a : A) : keeps I (mret a).
Proof. intros s Hs. by apply finishes_ret. Qed.

Lemma keeps_stop {A} e : keeps I (stop (A := A) e).
Proof. intros s Hs. apply finishes_stop. Qed.

Lemma keeps_lift {A} (o : outcome A) : keeps I (lift o).
Proof. intros s Hs a s'. unfold lift. by intros [= _ <-]. Qed.
End Keeps.

(** The parts of a state of two components. *)
Section KeepsParts.
Context {S W : Type} (I : S * W → Prop).

Lemma keeps_get {B} (f : S → M (S * W) B) :
  (∀ s k, I (s, k) → finishes (f s) (λ _ p, I p) (s, k)) → keeps I (on_fst get ≫= f).
Proof. intros Hf [s k] Hs b p. rewrite run_fst_get. by apply Hf. Qed.

Lemma keeps_modify g : (∀ s k, I (s, k) → I (g s, k)) → keeps I (on_fst (modify g)).
Proof. intros Hg [s k] Hs a p [= _ <-]. by apply Hg. Qed.

Lemma keeps_snd {A} (m : M W A) :
  (∀ s k o k', m k = (o, k') → I (s, k) → I (s, k')) → keeps I (on_snd m).
Proof. intros Hm [s k] Hs. apply finishes_on_snd. intros a k' E. by eapply Hm. Qed.
End KeepsParts.

(** ** Bytes and machine integers: lemmas *)

Lemma bval_range a : 0 <= bval a < 256.
Proof.
  unfold bval. pose proof (N_ascii_bounded a). lia.
Qed.

Lemma bval_byte z : bval (byte z) = z mod 256.
Proof.
  unfold bval, byte. pose proof (Z.mod_pos_bound z 256 ltac:(lia)).
  rewrite N_ascii_embedding; lia.
Qed.

Lemma byte_bval a : byte (bval a) = a.
Proof.
  unfold byte. rewrite Z.mod_small by apply bval_range.
  unfold bval. rewrite N2Z.id. apply ascii_N_embedding.
Qed.

Lemma byte_inj_small z z' :
  0 <= z < 256 → 0 <= z' < 256 → byte z = byte z' → z = z'.
Proof.
  intros Hz Hz' E. apply (f_equal bval) in E.
  rewrite !bval_byte, !Z.mod_small in E by lia. done.
Qed.

Lemma to_i32_small z : - 2 ^ 31 <= z < 2 ^ 31 → to_i32 z = z.
Proof. intros H. unfold to_i32. rewrite Z.mod_small; lia. Qed.

Lemma to_i32_range z : - 2 ^ 31 <= to_i32 z < 2 ^ 31.
Proof.
  unfold to_i32. pose proof (Z.mod_pos_bound (z + 2 ^ 31) (2 ^ 32) ltac:(lia)). lia.
Qed.

Lemma to_i32_congr z : ∃ k, to_i32 z = z + k * 2 ^ 32.
Proof.
  unfold to_i32. exists (- ((z + 2 ^ 31) / 2 ^ 32)).
  rewrite Z.mod_eq by lia. lia.
Qed.

Lemma to_i64_small z : - 2 ^ 63 <= z < 2 ^ 63 → to_i64 z = z.
Proof. intros H. unfold to_i64. rewrite Z.mod_small; lia. Qed.

Lemma to_i32_mod z : to_i32 (z mod 2 ^ 32) = to_i32 z.
Proof.
  unfold to_i32. rewrite Zplus_mod_idemp_l. done.
Qed.

Lemma to_i64_mod z : to_i64 (z mod 2 ^ 64) = to_i64 z.
Proof.
  unfold to_i64. rewrite Zplus_mod_idemp_l. done.
Qed.

Lemma length_le_encode n z : length (le_encode n z) = n.
Proof. revert z. induction n; intros z; simpl; auto. Qed.

Lemma le_decode_encode n z : le_decode (le_encode n z) = z mod 256 ^ Z.of_nat n.
Proof.
  revert z. induction n as [|n IH]; intros z; [by rewrite Z.mod_1_r|].
  cbn [le_encode le_decode]. rewrite IH, bval_byte, Nat2Z.inj_succ, Z.pow_succ_r by lia.
  rewrite Z.rem_mul_r; lia.
Qed.

Lemma le_decode_range l : 0 <= le_decode l < 256 ^ len l.
Proof.
  induction l as [|b l IH]; [done|].
  cbn [le_decode length]. rewrite Nat2Z.inj_succ, Z.pow_succ_r by lia.
  pose proof (bval_range b). nia.
Qed.

Lemma le_encode_decode l : le_encode (length l) (le_decode l) = l.
Proof.
  induction l as [|b l IH]; [done|]. cbn [length le_encode le_decode].
  pose proof (bval_range b).
  replace (bval b + 256 * le_decode l) with (bval b + le_decode l * 256) by lia.
  rewrite Z.div_add, (Z.div_small (bval b)), Z.add_0_l, IH by lia.
  f_equal. unfold byte. rewrite Z.mod_add by lia. apply byte_bval.
Qed.

Lemma length_be32 z : length (be32_encode z) = 4%nat.
Proof. unfold be32_encode. rewrite length_rev. apply length_le_encode. Qed.

Lemma be32_roundtrip z : be32_decode (be32_encode z) = to_i32 z.
Proof.
  unfold be32_decode, be32_encode.
  rewrite rev_involutive, le_decode_encode. apply to_i32_mod.
Qed.

Lemma length_le64 z : length (le64_encode z) = 8%nat.
Proof. apply length_le_encode. Qed.

Lemma le64_roundtrip z : le64_decode (le64_encode z) = to_i64 z.
Proof.
  unfold le64_decode, le64_encode. rewrite le_decode_encode. apply to_i64_mod.
Qed.

#[export] Hint Rewrite length_be32 length_le64 length_le_encode be32_roundtrip
  le64_roundtrip bval_byte byte_bval : et_rw.
#[export] Hint Resolve bval_range to_i32_range : et.

(** ** Lists *)

Lemma prefix_app_cases {A} (a b l : list A) :
  a ++ b `prefix_of` l ↔ a `prefix_of` l ∧ b `prefix_of` drop (length a) l.
Proof.
  split.
  - intros [k ->]. rewrite <-app_assoc. split; [by apply prefix_app_r|].
    rewrite drop_app_length. by apply prefix_app_r.
  - intros [[k ->] H]. rewrite drop_app_length in H. by apply prefix_app.
Qed.

Lemma prefix_take_eq {A} (a l : list A) : a `prefix_of` l → a = take (length a) l.
Proof. intros [k ->]. by rewrite take_app_length. Qed.

