(* ===== verification/Sockets.v ===== *)
(** * The socket layer: [SocketHandler]

    The pure virtual methods of [et::SocketHandler] are the class
    [SocketHandler] (one operation per method, over a world [W] that stands for
    the kernel); the methods that [SocketHandler] implements itself
    ([readAll], [writeAllOrThrow], [writeAllOrReturn], [readProto],
    [writeProto]) are defined over it, with fuel for their [while] loops.
    [StreamSocket] states what a stream socket promises (no byte is lost,
    duplicated or reordered) and [Stalls] that it makes progress; under them the
    loops read exactly the bytes that are next in the stream, write exactly the
    buffer (a prefix of it when they fail), and terminate. *)

From S2P Require Import Prelude.

(** ** errno (Linux values) *)

Definition EINTR : Z := 4.
Definition EBADF : Z := 9.
Definition EAGAIN : Z := 11.
Definition EWOULDBLOCK : Z := 11.
Definition EPIPE : Z := 32.
Definition EPROTOTYPE : Z := 91.
Definition ENETDOWN : Z := 100.
Definition ENETUNREACH : Z := 101.
Definition ENETRESET : Z := 102.
Definition ECONNABORTED : Z := 103.
Definition ECONNRESET : Z := 104.
Definition ENOTCONN : Z := 107.
Definition ETIMEDOUT : Z := 110.
Definition ECONNREFUSED : Z := 111.
Definition EHOSTDOWN : Z := 112.
Definition EHOSTUNREACH : Z := 113.

Definition would_block (e : Z) : bool := (e =? EAGAIN) || (e =? EWOULDBLOCK).

(** A call that returns a count (or a descriptor), or [-1] with [errno] set. *)
Inductive io_result (A : Type) :=
| IoOk (a : A)
| IoErr (errno : Z).
Arguments IoOk {A} _.
Arguments IoErr {A} _.

(** [message SocketEndpoint] of [proto/ET.proto]. *)
Record SocketEndpoint := mkEndpoint { ep_name : option str; ep_port : option Z }.

#[export] Instance SocketEndpoint_eq_dec : EqDecision SocketEndpoint.
Proof. solve_decision. Defined.

(** ** The interface: the virtual methods of [SocketHandler]

    [sh_read fd n] yields the bytes read ([IoOk []] is a return value of 0);
    [sh_wait] is [waitOnSocketData], [sh_time] is [time(NULL)], [sh_sleep] a
    sleep in microseconds, [sh_rand] is [rand()]. *)
Class SocketHandler (W : Type) := {
  sh_hasData : Z → M W bool;
  sh_read : Z → nat → M W (io_result str);
  sh_write : Z → str → M W (io_result Z);
  sh_connect : SocketEndpoint → M W (io_result Z);
  sh_listen : SocketEndpoint → M W unit;
  sh_getEndpointFds : SocketEndpoint → M W (list Z);
  sh_accept : Z → M W (io_result Z);
  sh_stopListening : SocketEndpoint → M W unit;
  sh_close : Z → M W unit;
  sh_wait : Z → M W bool;
  sh_time : M W Z;
  sh_sleep : Z → M W unit;
  sh_rand : M W Z;
}.

(** Generated protobuf code: serialisation and parsing of a message type. *)
Class Proto (T : Type) := {
  serialize : T → option str;
  parse : str → option T;
  proto_default : T;
}.

Class ProtoLaws (T : Type) `{Proto T} := {
  parse_serialize t s : serialize t = Some s → parse s = Some t;
  parse_empty : parse [] = Some proto_default;
}.

(** [stringToProto] and [protoToString] abort on failure. *)
Definition stringToProto {S} (T : Type) `{Proto T} (s : str) : M S T :=
  match parse s with
  | Some t => mret t
  | None => fatal "Error parsing string to proto"
  end.

Definition protoToString {S T} `{Proto T} (t : T) : M S str :=
  match serialize t with
  | Some s => mret s
  | None => fatal "Error serializing proto to string"
  end.

Definition SOCKET_DATA_TRANSFER_TIMEOUT : Z := 30.

(** The largest protobuf or packet accepted on a socket. *)
Definition MAX_PROTO_LENGTH : Z := 128 * 1024 * 1024.

Section Methods.
Context {W : Type} `{SocketHandler W}.

(** Iterations of [readAll]'s loop; [acc] are the [pos] bytes read so far. *)
Fixpoint readAll_loop (fuel : nat) (fd : Z) (count : nat) (timeout : bool)
    (startTime : Z) (acc : str) : M W str :=
  if decide (length acc < count)%nat then
    match fuel with
    | O => stop OutOfFuel
    | S fuel' =>
      ready ← sh_wait fd;
      if negb ready then
        currentTime ← sh_time;
        if timeout && (startTime + SOCKET_DATA_TRANSFER_TIMEOUT <? currentTime)
        then throw RuntimeError "Socket Timeout"
        else readAll_loop fuel' fd count timeout startTime acc
      else
        r ← sh_read fd (count - length acc);
        match r with
        | IoOk (b :: bs) =>
          now ← sh_time;
          readAll_loop fuel' fd count timeout now (acc ++ b :: bs)
        | IoOk [] => throw RuntimeError "Failed a call to readAll"
        | IoErr e =>
          if would_block e
          then readAll_loop fuel' fd count timeout startTime acc
          else throw RuntimeError "Failed a call to readAll"
        end
    end
  else mret acc.

Definition readAll (fuel : nat) (fd : Z) (count : nat) (timeout : bool) : M W str :=
  startTime ← sh_time;
  readAll_loop fuel fd count timeout startTime [].

(** [todo] is the part of the buffer from [pos] on. *)
Fixpoint writeAllOrThrow_loop (fuel : nat) (fd : Z) (timeout : bool)
    (startTime : Z) (todo : str) : M W unit :=
  match todo with
  | [] => mret tt
  | _ :: _ =>
    match fuel with
    | O => stop OutOfFuel
    | S fuel' =>
      currentTime ← sh_time;
      if timeout && (startTime + SOCKET_DATA_TRANSFER_TIMEOUT <? currentTime)
      then throw RuntimeError "Socket Timeout"
      else
        r ← sh_write fd todo;
        match r with
        | IoErr e =>
          if would_block e || (negb timeout && (e =? ETIMEDOUT)) then
            _ ← sh_sleep 100000;
            writeAllOrThrow_loop fuel' fd timeout startTime todo
          else throw RuntimeError "Failed a call to writeAll"
        | IoOk n =>
          if n =? 0 then throw RuntimeError "Socket closed during writeAll"
          else writeAllOrThrow_loop fuel' fd timeout currentTime (drop (Z.to_nat n) todo)
        end
    end
  end.

Definition writeAllOrThrow (fuel : nat) (fd : Z) (buf : str) (timeout : bool) : M W unit :=
  startTime ← sh_time;
  writeAllOrThrow_loop fuel fd timeout startTime buf.

(** Returns [count] (as an [int]), 0 when the peer closed, -1 on failure. *)
Fixpoint writeAllOrReturn_loop (fuel : nat) (fd : Z) (startTime : Z)
    (count : Z) (todo : str) : M W Z :=
  match todo with
  | [] => mret (to_i32 count)
  | _ :: _ =>
    match fuel with
    | O => stop OutOfFuel
    | S fuel' =>
      currentTime ← sh_time;
      if startTime + SOCKET_DATA_TRANSFER_TIMEOUT <? currentTime then mret (-1)
      else
        r ← sh_write fd todo;
        match r with
        | IoErr e =>
          if would_block e then
            _ ← sh_sleep 100000;
            writeAllOrReturn_loop fuel' fd startTime count todo
          else mret (-1)
        | IoOk n =>
          if n =? 0 then mret 0
          else writeAllOrReturn_loop fuel' fd currentTime count (drop (Z.to_nat n) todo)
        end
    end
  end.

Definition writeAllOrReturn (fuel : nat) (fd : Z) (buf : str) : M W Z :=
  startTime ← sh_time;
  writeAllOrReturn_loop fuel fd startTime (len buf) buf.

(** A length-prefixed protobuf. *)
Definition readProto (T : Type) `{Proto T} (fuel : nat) (fd : Z) (timeout : bool) : M W T :=
  raw ← readAll fuel fd 8 timeout;
  let length := le64_decode raw in
  if (length <? 0) || (MAX_PROTO_LENGTH <? length)
  then throw RuntimeError "Invalid size (<0 or >128 MB)"
  else if length =? 0 then mret proto_default
  else
    s ← readAll fuel fd (Z.to_nat length) timeout;
    match parse s with
    | Some t => mret t
    | None => throw RuntimeError "Invalid proto"
    end.

Definition writeProto {T : Type} `{Proto T} (fuel : nat) (fd : Z) (t : T)
    (timeout : bool) : M W unit :=
  match serialize t with
  | None => fatal "Serialization failed!"
  | Some s =>
    let length := len s in
    if (length <? 0) || (MAX_PROTO_LENGTH <? length)
    then fatal "Invalid proto length"
    else
      _ ← writeAllOrThrow fuel fd (le64_encode length) timeout;
      if 0 <? length then writeAllOrThrow fuel fd s timeout else mret tt
  end.
End Methods.

(** ** What a stream socket promises *)

(** [incoming w fd] are the bytes that reads of [fd] will still return, in
    order; [outgoing w fd] the bytes the kernel has accepted on [fd]. *)
Class Streams (W : Type) := {
  incoming : W → Z → str;
  outgoing : W → Z → str;
}.

(** Between [w] and [w'], [r] was read from [fd] and [s] written to it, and
    no other descriptor was touched. *)
Definition xfer `{Streams W} (fd : Z) (r s : str) (w w' : W) : Prop :=
  incoming w fd = r ++ incoming w' fd ∧ outgoing w' fd = outgoing w fd ++ s ∧
  ∀ fd', fd' ≠ fd → incoming w' fd' = incoming w fd' ∧ outgoing w' fd' = outgoing w fd'.

Definition quiet `{Streams W} (w w' : W) : Prop :=
  ∀ fd, incoming w' fd = incoming w fd ∧ outgoing w' fd = outgoing w fd.

Class StreamSocket (W : Type) `{SocketHandler W} `{Streams W} := {
  stream_read fd n w o w' : sh_read fd n w = (o, w') →
    match o with
    | Ok (IoOk r) => (length r ≤ n)%nat ∧ xfer fd r [] w w'
    | _ => quiet w w'
    end;
  stream_write fd s w o w' : sh_write fd s w = (o, w') →
    match o with
    | Ok (IoOk n) => 0 <= n <= len s ∧ xfer fd [] (take (Z.to_nat n) s) w w'
    | _ => ∃ k, xfer fd [] (take k s) w w'
    end;
  stream_wait fd w o w' : sh_wait fd w = (o, w') → quiet w w';
  stream_time w o w' : sh_time w = (o, w') → quiet w w';
  stream_sleep us w o w' : sh_sleep us w = (o, w') → quiet w w';
  stream_close fd w o w' : sh_close fd w = (o, w') → quiet w w';
  stream_hasData fd w o w' : sh_hasData fd w = (o, w') → quiet w w';
}.

(** The same for buffers of less than 2^31 bytes: this is what [UnixSocketHandler] and its
    subclasses promise ([SocketPromises.tcp_stream_handler]). *)
Class StreamHandler (W : Type) `{SocketHandler W} `{Streams W} := {
  handler_read fd n w o w' : sh_read fd n w = (o, w') →
    match o with
    | Ok (IoOk r) => (length r ≤ n)%nat ∧ xfer fd r [] w w'
    | _ => quiet w w'
    end;
  handler_write fd s w o w' : len s < 2 ^ 31 → sh_write fd s w = (o, w') →
    match o with
    | Ok (IoOk n) => 0 <= n <= len s ∧ xfer fd [] (take (Z.to_nat n) s) w w'
    | _ => ∃ k, xfer fd [] (take k s) w w'
    end;
  handler_wait fd w o w' : sh_wait fd w = (o, w') → quiet w w';
  handler_time w o w' : sh_time w = (o, w') → quiet w w';
  handler_sleep us w o w' : sh_sleep us w = (o, w') → quiet w w';
  handler_close fd w o w' : sh_close fd w = (o, w') → quiet w w';
  handler_hasData fd w o w' : sh_hasData fd w = (o, w') → quiet w w';
}.

(** A write that asks to be retried has sent nothing.  It is a promise of [send(2)], but
    [UnixSocketHandler::write] breaks it (see [SocketPromises]): what is said of the handlers of
    the program is said of [steady] ones (below), which have it by construction. *)
Class CleanRetry (W : Type) `{SocketHandler W} `{Streams W} := {
  clean_retry fd s w e w' : sh_write fd s w = (Ok (IoErr e), w') →
    would_block e = true ∨ e = ETIMEDOUT → quiet w w';
}.

(** The environment stalls at most [stalls w] more times. *)
Class Stalls (W : Type) `{SocketHandler W} := {
  stalls : W → nat;
  stalls_wait fd w o w' : sh_wait fd w = (o, w') →
    o ≠ Stop OutOfFuel ∧
    match o with
    | Ok true => (stalls w' ≤ stalls w)%nat
    | Ok false => (stalls w' < stalls w)%nat
    | _ => True
    end;
  stalls_read fd n w o w' : sh_read fd n w = (o, w') →
    o ≠ Stop OutOfFuel ∧
    match o with
    | Ok (IoErr e) => would_block e = true → (stalls w' < stalls w)%nat
    | _ => (stalls w' ≤ stalls w)%nat
    end;
  stalls_write fd s w o w' : sh_write fd s w = (o, w') →
    o ≠ Stop OutOfFuel ∧
    match o with
    | Ok (IoErr e) => would_block e = true ∨ e = ETIMEDOUT → (stalls w' < stalls w)%nat
    | Ok (IoOk n) => 0 <= n ∧ (stalls w' ≤ stalls w)%nat
    | _ => True
    end;
  stalls_time w o w' : sh_time w = (o, w') → o ≠ Stop OutOfFuel ∧ (stalls w' ≤ stalls w)%nat;
  stalls_sleep us w o w' : sh_sleep us w = (o, w') → o ≠ Stop OutOfFuel ∧ (stalls w' ≤ stalls w)%nat;
}.

Section StreamLemmas.
Context `{Streams W}.

#[global] Instance quiet_preorder : PreOrder (quiet (W := W)).
Proof.
  split; [by intros w fd|]. intros w1 w2 w3 H1 H2 fd.
  destruct (H1 fd), (H2 fd). split; congruence.
Qed.

Lemma quiet_xfer fd w w' : quiet w w' ↔ xfer fd [] [] w w'.
Proof.
  unfold quiet, xfer. setoid_rewrite app_nil_r. split.
  - intros Hq. destruct (Hq fd). split_and!; auto.
  - intros (? & ? & Ho) fd'. destruct (decide (fd' = fd)) as [->|]; auto.
Qed.

Lemma xfer_trans fd r1 s1 r2 s2 w w1 w2 :
  xfer fd r1 s1 w w1 → xfer fd r2 s2 w1 w2 → xfer fd (r1 ++ r2) (s1 ++ s2) w w2.
Proof.
  intros (Hr1 & Hs1 & Ho1) (Hr2 & Hs2 & Ho2). unfold xfer.
  rewrite Hr1, Hr2, Hs2, Hs1, <-!app_assoc. split_and!; auto.
  intros fd' Hne. destruct (Ho1 fd' Hne), (Ho2 fd' Hne). split; congruence.
Qed.

Lemma xfer_quiet_l fd r s w w1 w2 : quiet w w1 → xfer fd r s w1 w2 → xfer fd r s w w2.
Proof. intros Hq%(quiet_xfer fd) Hx. by apply (xfer_trans fd [] [] r s w w1 w2). Qed.

Lemma xfer_quiet_r fd r s w w1 w2 : xfer fd r s w w1 → quiet w1 w2 → xfer fd r s w w2.
Proof.
  intros Hx Hq%(quiet_xfer fd). pose proof (xfer_trans _ _ _ _ _ _ _ _ Hx Hq) as Hx'.
  by rewrite !app_nil_r in Hx'.
Qed.
End StreamLemmas.

#[export] Hint Resolve xfer_quiet_l xfer_quiet_r : et.

(** ** Runs without a stall in the middle of a buffer *)

(** [UnixSocketHandler::write] gives up after five seconds, also when it has sent a part of
    its buffer; its callers then send that part again ([SocketPromises]).  A theorem that is
    about the other runs is stated with the handler [steady S]: it does what [S] does, and
    the run is followed no further when a write asks to be retried although it has sent a
    part (or is given 2^31 bytes).  Nothing catches [OutOfFuel], so a run over [steady S]
    that returns is the run over [S]. *)
Definition steady {W} `{Streams W} (S : SocketHandler W) : SocketHandler W := {|
  sh_hasData := sh_hasData;
  sh_read := sh_read;
  sh_write fd s := λ w,
    if 2 ^ 31 <=? len s then (Stop OutOfFuel, w)
    else
      match sh_write fd s w with
      | (Ok (IoErr e), w') =>
        if would_block e || (e =? ETIMEDOUT) then
          if bool_decide (outgoing w' fd = outgoing w fd) then (Ok (IoErr e), w') else (Stop OutOfFuel, w')
        else (Ok (IoErr e), w')
      | r => r
      end;
  sh_connect := sh_connect;
  sh_listen := sh_listen;
  sh_getEndpointFds := sh_getEndpointFds;
  sh_accept := sh_accept;
  sh_stopListening := sh_stopListening;
  sh_close := sh_close;
  sh_wait := sh_wait;
  sh_time := sh_time;
  sh_sleep := sh_sleep;
  sh_rand := sh_rand;
|}.

Section Steady.
Context {W : Type} `{!Streams W} (S : SocketHandler W).

(** It is [S], or the run ends. *)
Lemma steady_write fd s w r :
  @sh_write W (steady S) fd s w = r → r.1 = Stop OutOfFuel ∨ @sh_write W S fd s w = r.
Proof.
  cbn [sh_write steady]. destruct (_ <=? _); [intros <-; by left|].
  destruct (sh_write fd s w) as [[[n|e]|f] w']; [by right| |by right].
  destruct (_ || _); [|by right]. destruct (bool_decide _); [by right|intros <-; by left].
Qed.

Context `{!@StreamHandler W S _}.

#[export] Instance steady_streams : @StreamSocket W (steady S) _.
Proof.
  split.
  - exact (@handler_read W S _ _).
  - intros fd s w o w'. cbn [sh_write steady].
    destruct (Z.leb_spec (2 ^ 31) (len s)) as [|Hl].
    { intros [= <- <-]. exists O. by apply quiet_xfer. }
    destruct (sh_write fd s w) as [o1 w1] eqn:E. apply (handler_write _ _ _ _ _ Hl) in E.
    destruct o1 as [[n|e]|f]; [by intros [= <- <-]| |by intros [= <- <-]].
    destruct (_ || _); [destruct (bool_decide _)|]; by intros [= <- <-].
  - exact (@handler_wait W S _ _).
  - exact (@handler_time W S _ _).
  - exact (@handler_sleep W S _ _).
  - exact (@handler_close W S _ _).
  - exact (@handler_hasData W S _ _).
Qed.

#[export] Instance steady_clean : @CleanRetry W (steady S) _.
Proof.
  split. intros fd s w e w'. cbn [sh_write steady].
  destruct (Z.leb_spec (2 ^ 31) (len s)) as [|Hl]; [done|].
  destruct (sh_write fd s w) as [[[n|e1]|f] w1] eqn:E; [done| |done].
  apply (handler_write _ _ _ _ _ Hl) in E as [k Hx].
  destruct (would_block e1 || (e1 =? ETIMEDOUT)) eqn:Hr.
  - destruct (bool_decide _) eqn:Hb; [|done]. intros [= <- <-] _. b2p.
    pose proof Hx as (_ & Ho & _). rewrite Hb in Ho.
    rewrite <-(app_nil_r (outgoing w fd)) in Ho at 1. apply app_inv_head in Ho.
    rewrite <-Ho in Hx. by apply quiet_xfer in Hx.
  - intros [= <- <-] Hc. apply orb_false_iff in Hr as [H1 H2]. b2p. destruct Hc; congruence.
Qed.
End Steady.

(** A promise for every buffer is one for the short ones. *)
Lemma stream_handler {W} `{StreamSocket W} : StreamHandler W.
Proof.
  split; [exact stream_read|intros fd s w o w' _; apply stream_write|exact stream_wait|exact stream_time
    |exact stream_sleep|exact stream_close|exact stream_hasData].
Qed.

(** ** The loops transfer exactly their buffer *)

(** What a run of [readAll] that has read [acc] so far does to the world. *)
Definition read_post `{Streams W} (fd : Z) (count : nat) (acc : str) (w : W)
    (o : outcome str) (w' : W) : Prop :=
  ∃ r, xfer fd r [] w w' ∧ (length (acc ++ r) ≤ count)%nat ∧
       match o with Ok s => s = acc ++ r ∧ length s = count | Stop _ => True end.

(** What a run of a write loop with [todo] left does to the world: it sends a
    prefix of [todo], all of it when [done]. *)
Definition write_post `{Streams W} (fd : Z) (todo : str) (all : Prop) (w w' : W) : Prop :=
  ∃ s, xfer fd [] s w w' ∧ s `prefix_of` todo ∧ (all → s = todo).

Section Loops.
Context {W : Type} `{StreamSocket W}.

Lemma read_post_stop fd count acc w f w' :
  quiet w w' → (length acc ≤ count)%nat → read_post fd count acc w (Stop f) w'.
Proof. intros. exists []. rewrite app_nil_r. split_and!; auto. by apply quiet_xfer. Qed.

Lemma read_post_ok fd count acc w w' :
  quiet w w' → length acc = count → read_post fd count acc w (Ok acc) w'.
Proof.
  intros. exists []. rewrite app_nil_r. split_and!; auto; [by apply quiet_xfer|lia].
Qed.

Lemma read_post_step fd count acc r w w1 o w' :
  xfer fd r [] w w1 → read_post fd count (acc ++ r) w1 o w' →
  read_post fd count acc w o w'.
Proof.
  intros Hx (r' & Hx' & Hlen & Ho). exists (r ++ r').
  rewrite app_assoc. split_and!; auto. apply (xfer_trans fd r [] r' [] w w1 w'); auto.
Qed.

Lemma read_post_quiet fd count acc w w1 o w' :
  quiet w w1 → read_post fd count acc w1 o w' → read_post fd count acc w o w'.
Proof.
  intros Hq Hp. apply (read_post_step _ _ _ [] w w1); [by apply quiet_xfer|].
  by rewrite app_nil_r.
Qed.

Lemma readAll_loop_spec fuel fd count timeout st acc w :
  (length acc ≤ count)%nat →
  wp (readAll_loop fuel fd count timeout st acc) (read_post fd count acc w) w.
Proof.
  revert st acc w. induction fuel as [|fuel IH]; intros st acc w Hacc;
    cbn [readAll_loop]; case_decide as Hlt.
  1: by apply read_post_stop.
  1,3: apply read_post_ok; [done|lia].
  wp_step stream_wait as ready w1 Hq1; [|by apply read_post_stop].
  eapply wp_mono; [|intros o w' Hp; apply (read_post_quiet _ _ _ w w1); [done|exact Hp]].
  destruct ready; cbn [negb].
  - wp_step stream_read as [[|b bs]|e] w2 Hr; [| | |by apply read_post_stop].
    + apply read_post_stop; [by apply (quiet_xfer fd), Hr|done].
    + destruct Hr as [Hle Hr]. eapply wp_mono;
        [|intros o w' Hp; eapply read_post_step; [exact Hr|exact Hp]].
      assert (length (acc ++ b :: bs) ≤ count)%nat by (rewrite length_app; lia).
      wp_step stream_time as now w3 Hq3; [|by apply read_post_stop].
      eapply wp_mono; [by apply IH|eauto using read_post_quiet].
    + case_match; [|by apply read_post_stop].
      eapply wp_mono; [by apply IH|eauto using read_post_quiet].
  - wp_step stream_time as now w2 Hq2; [|by apply read_post_stop].
    case_match; [by apply read_post_stop|].
    eapply wp_mono; [by apply IH|eauto using read_post_quiet].
Qed.

(** [readAll] takes from the stream only what it returns, and when it
    returns it has read exactly [count] bytes. *)
Lemma readAll_spec fuel fd count timeout w :
  wp (readAll fuel fd count timeout) (read_post fd count [] w) w.
Proof.
  unfold readAll. wp_step stream_time as st w1 Hq.
  - eapply wp_mono; [apply readAll_loop_spec; simpl; lia|].
    eauto using read_post_quiet.
  - apply read_post_stop; [done|simpl; lia].
Qed.

Lemma readAll_ok fuel fd count timeout w s w' :
  readAll fuel fd count timeout w = (Ok s, w') →
  length s = count ∧ xfer fd s [] w w'.
Proof.
  intros Hrun. pose proof (wp_run _ _ _ _ _ (readAll_spec fuel fd count timeout w) Hrun)
    as (r & Hx & _ & -> & Hlen). done.
Qed.

(** *** Writing *)

Context `{!CleanRetry W}.

Lemma write_post_none fd todo (all : Prop) w w' :
  quiet w w' → ¬ all ∨ todo = [] → write_post fd todo all w w'.
Proof.
  intros Hq Hall. exists []. split_and!; [by apply quiet_xfer|apply prefix_nil|].
  intros ?. by destruct Hall.
Qed.

Lemma write_post_quiet fd todo all w w1 w' :
  quiet w w1 → write_post fd todo all w1 w' → write_post fd todo all w w'.
Proof. intros Hq (s & Hx & ?). exists s. eauto with et. Qed.

Lemma write_post_step fd todo (all : Prop) n w w1 w' :
  xfer fd [] (take n todo) w w1 → write_post fd (drop n todo) all w1 w' →
  write_post fd todo all w w'.
Proof.
  intros Hx (s & Hx' & [k Hs] & Hall). exists (take n todo ++ s). split_and!.
  - by apply (xfer_trans fd [] _ [] s w w1 w').
  - exists k. by rewrite <-app_assoc, <-Hs, take_drop.
  - intros ->%Hall. apply take_drop.
Qed.

Lemma writeAllOrThrow_loop_spec fuel fd timeout st todo w :
  wp (writeAllOrThrow_loop fuel fd timeout st todo)
     (λ o, write_post fd todo (o = Ok tt) w) w.
Proof.
  revert st todo w. induction fuel as [|fuel IH]; intros st [|b bs] w;
    cbn [writeAllOrThrow_loop].
  1,3: by apply write_post_none; auto.
  1: by apply write_post_none; auto.
  set (todo := b :: bs).
  wp_step stream_time as now w1 Hq1; [|by apply write_post_none; auto].
  eapply wp_mono; [|intros o w' Hp; eapply write_post_quiet; [exact Hq1|exact Hp]].
  case_match; [by apply write_post_none; auto|].
  eapply wp_bind; [intros o w2 E; exact (conj (stream_write _ _ _ _ _ E) E)| |].
  2: { intros f w2 [[k Hx] _]. exists (take k todo). split_and!; [done|apply prefix_take|done]. }
  intros [n|e] w2 [Hx E].
  - destruct Hx as [Hn Hx]. case_match.
    + exists (take (Z.to_nat n) todo). split_and!; [done|apply prefix_take|done].
    + eapply wp_mono; [apply IH|]. eauto using write_post_step.
  - case_match eqn:Hretry.
    + assert (quiet w1 w2) as Hq2.
      { apply (clean_retry _ _ _ _ _ E). apply orb_true_iff in Hretry as [?|?]; b2p; auto. }
      eapply wp_mono; [|intros o w' Hp; eapply write_post_quiet; [exact Hq2|exact Hp]].
      wp_step stream_sleep as [] w3 Hq3; [|by apply write_post_none; auto].
      eapply wp_mono; [apply IH|]. eauto using write_post_quiet.
    + destruct Hx as [k Hx]. exists (take k todo).
      split_and!; [done|apply prefix_take|done].
Qed.

(** [writeAllOrThrow] returns normally only after the whole buffer was sent,
    and an exception leaves a prefix of it in the stream. *)
Lemma writeAllOrThrow_spec fuel fd buf timeout w :
  wp (writeAllOrThrow fuel fd buf timeout) (λ o, write_post fd buf (o = Ok tt) w) w.
Proof.
  unfold writeAllOrThrow. wp_step stream_time as st w1 Hq.
  - eapply wp_mono; [apply writeAllOrThrow_loop_spec|].
    eauto using write_post_quiet.
  - apply write_post_none; auto.
Qed.

Lemma writeAllOrThrow_ok fuel fd buf timeout w w' :
  writeAllOrThrow fuel fd buf timeout w = (Ok tt, w') → xfer fd [] buf w w'.
Proof.
  intros Hrun.
  pose proof (wp_run _ _ _ _ _ (writeAllOrThrow_spec fuel fd buf timeout w) Hrun)
    as (s & Hx & _ & Hs). by rewrite <-Hs.
Qed.

Lemma writeAllOrReturn_loop_spec fuel fd st count todo w :
  wp (writeAllOrReturn_loop fuel fd st count todo)
     (λ o, write_post fd todo (∃ n, o = Ok n ∧ 0 < n) w) w.
Proof.
  revert st todo w. induction fuel as [|fuel IH]; intros st [|b bs] w;
    cbn [writeAllOrReturn_loop].
  1,3: by apply write_post_none; auto.
  1: by apply write_post_none; [done|left; by intros (n & [=] & ?)].
  set (todo := b :: bs).
  assert (∀ (o : outcome Z) k k', quiet k k' → (∀ n, o = Ok n → n <= 0) →
    write_post fd todo (∃ n, o = Ok n ∧ 0 < n) k k') as Hnone.
  { intros o k k' Hq Ho. apply write_post_none; [done|]. left. intros (n & -> & Hn).
    specialize (Ho n eq_refl). lia. }
  wp_step stream_time as now w1 Hq1; [|by apply Hnone].
  eapply wp_mono; [|intros o w' Hp; eapply write_post_quiet; [exact Hq1|exact Hp]].
  case_match; [apply Hnone; [done|by intros n [= <-]]|].
  eapply wp_bind; [intros o w2 E; exact (conj (stream_write _ _ _ _ _ E) E)| |].
  2: { intros f w2 [[k Hx] _]. exists (take k todo). split_and!; [done|apply prefix_take|].
       by intros (m & [=] & ?). }
  intros [n|e] w2 [Hx E].
  - destruct Hx as [Hn Hx]. case_match; b2p.
    + exists (take (Z.to_nat n) todo). split_and!; [done|apply prefix_take|].
      intros (m & [= <-] & ?). lia.
    + eapply wp_mono; [apply IH|]. eauto using write_post_step.
  - destruct (would_block e) eqn:Hretry.
    + assert (quiet w1 w2) as Hq2 by (apply (clean_retry _ _ _ _ _ E); auto).
      eapply wp_mono; [|intros o w' Hp; eapply write_post_quiet; [exact Hq2|exact Hp]].
      wp_step stream_sleep as [] w3 Hq3; [|by apply Hnone].
      eapply wp_mono; [apply IH|]. eauto using write_post_quiet.
    + destruct Hx as [k Hx]. exists (take k todo).
      split_and!; [done|apply prefix_take|]. intros (m & [= <-] & ?). lia.
Qed.

(** [writeAllOrReturn] sends a prefix of the buffer, and all of it when its
    result is positive. *)
Lemma writeAllOrReturn_run fuel fd buf w o w' :
  writeAllOrReturn fuel fd buf w = (o, w') →
  write_post fd buf (∃ n, o = Ok n ∧ 0 < n) w w'.
Proof.
  apply (wp_run _ (λ o, write_post fd buf (∃ n, o = Ok n ∧ 0 < n) w)). unfold writeAllOrReturn.
  wp_step stream_time as st w1 Hq.
  - eapply wp_mono; [apply writeAllOrReturn_loop_spec|]. eauto using write_post_quiet.
  - apply write_post_none; [done|]. left. by intros (n & [=] & ?).
Qed.

Lemma readAll_run fuel fd count timeout w o w' :
  readAll fuel fd count timeout w = (o, w') → read_post fd count [] w o w'.
Proof. apply (wp_run _ (read_post fd count [] w)), readAll_spec. Qed.

Lemma writeAllOrThrow_run fuel fd buf timeout w o w' :
  writeAllOrThrow fuel fd buf timeout w = (o, w') →
  write_post fd buf (o = Ok tt) w w'.
Proof. apply (wp_run _ (λ o, write_post fd buf (o = Ok tt) w)), writeAllOrThrow_spec. Qed.

Lemma write_post_app fd a b (all : Prop) w w1 w' :
  xfer fd [] a w w1 → write_post fd b all w1 w' → write_post fd (a ++ b) all w w'.
Proof.
  intros Hx (s & Hx' & Hpre & Hall). exists (a ++ s). split_and!.
  - by apply (xfer_trans fd [] a [] s w w1 w').
  - by apply prefix_app.
  - intros H'. by rewrite Hall.
Qed.
End Loops.

(** ** The loops terminate *)

Section Termination.
Context {W : Type} `{StreamSocket W} `{!Stalls W}.

Definition returns {A} (o : outcome A) : Prop := o ≠ Stop OutOfFuel.

(** A stop of an interface operation is not for lack of fuel. *)
Ltac stopped :=
  unfold returns in *; intros [= ->]; intuition congruence.

Lemma readAll_loop_total fuel fd count timeout st acc w :
  (count - length acc + stalls w ≤ fuel)%nat →
  wp (readAll_loop fuel fd count timeout st acc) (λ o _, returns o) w.
Proof.
  revert st acc w. induction fuel as [|fuel IH]; intros st acc w Hf;
    cbn [readAll_loop]; case_decide as Hlt; try done; [lia|].
  wp_step stalls_wait as ready w1 Hw; [|by stopped]. destruct Hw as [_ Hw].
  destruct ready; cbn [negb].
  - wp_step (λ o w' E, conj (stream_read _ _ _ o w' E) (stalls_read _ _ _ _ _ E))
      as [[|b bs]|e] w2 Hr; [done| | |by stopped].
    + destruct Hr as [[Hle _] [_ Hs]]. cbn [length] in Hle.
      wp_step stalls_time as now w3 Ht; [|by stopped].
      apply IH. rewrite length_app. cbn [length]. lia.
    + destruct (would_block e); [|done]. apply IH. destruct Hr as (_ & _ & Hs).
      specialize (Hs eq_refl). lia.
  - wp_step stalls_time as now w2 Ht; [|by stopped].
    case_match; [done|]. apply IH. lia.
Qed.

(** With fuel for the bytes asked for and for every stall of the
    environment, [readAll] returns or throws. *)
Lemma readAll_total fuel fd count timeout w :
  (count + stalls w ≤ fuel)%nat →
  wp (readAll fuel fd count timeout) (λ o _, returns o) w.
Proof.
  intros Hf. unfold readAll. wp_step stalls_time as st w1 Ht; [|by stopped].
  apply readAll_loop_total. simpl. lia.
Qed.

Lemma writeAllOrThrow_loop_total fuel fd timeout st todo w :
  (length todo + stalls w ≤ fuel)%nat →
  wp (writeAllOrThrow_loop fuel fd timeout st todo) (λ o _, returns o) w.
Proof.
  revert st todo w. induction fuel as [|fuel IH]; intros st [|b bs] w Hf;
    cbn [writeAllOrThrow_loop length] in *; try done; [lia|].
  wp_step stalls_time as now w1 Ht; [|by stopped]. case_match; [done|].
  wp_step stalls_write as [n|e] w2 Hr; [| |by stopped].
  - case_match; [done|]. b2p. apply IH. rewrite length_drop. cbn [length]. lia.
  - case_match eqn:Hretry; [|done].
    assert (stalls w2 < stalls w1)%nat.
    { apply Hr. apply orb_true_iff in Hretry as [?|?]; b2p; auto. }
    wp_step stalls_sleep as [] w3 Hs; [|by stopped]. apply IH. cbn [length]. lia.
Qed.

Lemma writeAllOrThrow_total fuel fd buf timeout w :
  (length buf + stalls w ≤ fuel)%nat →
  wp (writeAllOrThrow fuel fd buf timeout) (λ o _, returns o) w.
Proof.
  intros Hf. unfold writeAllOrThrow. wp_step stalls_time as st w1 Ht; [|by stopped].
  apply writeAllOrThrow_loop_total. lia.
Qed.

Lemma writeAllOrReturn_loop_total fuel fd st count todo w :
  (length todo + stalls w ≤ fuel)%nat →
  wp (writeAllOrReturn_loop fuel fd st count todo) (λ o _, returns o) w.
Proof.
  revert st todo w. induction fuel as [|fuel IH]; intros st [|b bs] w Hf;
    cbn [writeAllOrReturn_loop length] in *; try done; [lia|].
  wp_step stalls_time as now w1 Ht; [|by stopped]. case_match; [done|].
  wp_step stalls_write as [n|e] w2 Hr; [| |by stopped].
  - case_match; [done|]. b2p. apply IH. rewrite length_drop. cbn [length]. lia.
  - case_match eqn:Hretry; [|done].
    assert (stalls w2 < stalls w1)%nat by (apply Hr; auto).
    wp_step stalls_sleep as [] w3 Hs; [|by stopped]. apply IH. cbn [length]. lia.
Qed.
End Termination.

(** ** Length-prefixed messages round trip *)

(** The bytes of a message on the wire. *)
Definition proto_frame (s : str) : str := le64_encode (len s) ++ s.

Section Protos.
Context {W : Type} `{StreamSocket W} `{!CleanRetry W} {T : Type} `{ProtoLaws T}.

Lemma writeProto_ok fuel fd (t : T) timeout w w' :
  writeProto fuel fd t timeout w = (Ok tt, w') →
  ∃ s, serialize t = Some s ∧ len s <= MAX_PROTO_LENGTH ∧
       xfer fd [] (proto_frame s) w w'.
Proof.
  unfold writeProto. destruct (serialize t) as [s|] eqn:Es; [|done].
  case_match eqn:Hlen; [done|]. b2p. intros Hrun.
  exists s. split_and!; [done|lia|]. revert Hrun.
  destruct (writeAllOrThrow fuel fd (le64_encode (len s)) timeout w)
    as [[[]|e] w1] eqn:E1; [|by erewrite M_bind_stop by done].
  erewrite M_bind_ok by done. apply writeAllOrThrow_ok in E1.
  intros Hrun. apply (xfer_trans fd [] _ [] s w w1 w'); [done|].
  case_match eqn:Hpos; b2p.
  - by apply writeAllOrThrow_ok in Hrun.
  - injection Hrun as <-. destruct s; [|simpl in *; lia]. by apply quiet_xfer.
Qed.

(** However it ends, [writeProto] has sent a prefix of the framed message. *)
Lemma writeProto_spec fuel fd (t : T) s timeout w :
  serialize t = Some s →
  wp (writeProto fuel fd t timeout) (λ o, write_post fd (proto_frame s) (o = Ok tt) w) w.
Proof.
  intros Es. unfold writeProto. rewrite Es.
  case_match eqn:Hlen; b2p; [apply write_post_none; [done|by left]|].
  wp_step writeAllOrThrow_run as [] w1 Hx.
  - destruct Hx as (s1 & Hx & _ & Hall). rewrite (Hall eq_refl) in Hx.
    eapply wp_mono; [|intros o w' Hp; eapply write_post_app; [exact Hx|exact Hp]].
    case_match eqn:Hpos; b2p; [apply writeAllOrThrow_spec|].
    apply write_post_none; [done|]. right. destruct s; [done|cbn [length] in *; lia].
  - destruct Hx as (s1 & Hx & Hpre & _). exists s1.
    split_and!; [done|by apply prefix_app_r|done].
Qed.

Lemma readProto_spec fuel fd timeout w :
  wp (readProto T fuel fd timeout) (λ o w', ∃ r, xfer fd r [] w w') w.
Proof.
  unfold readProto. wp_step readAll_run as raw w1 Hx.
  2: { destruct Hx as (r & Hx & _). eauto. }
  destruct Hx as (r & Hx & _). case_match; [by exists r|]. case_match; [by exists r|].
  apply (wp_mono _ (λ o w', ∃ r', xfer fd r' [] w1 w')); [|intros o w' [r' Hx']; exists (r ++ r');
    exact (xfer_trans fd r [] r' [] _ _ _ Hx Hx')].
  wp_step readAll_run as s w2 Hx2; destruct Hx2 as (r2 & Hx2 & _);
    [case_match; by exists r2|by exists r2].
Qed.

Lemma readProto_ok fuel fd timeout w (t : T) w' :
  readProto T fuel fd timeout w = (Ok t, w') →
  ∃ raw s, length raw = 8%nat ∧ le64_decode raw = len s ∧ xfer fd (raw ++ s) [] w w' ∧
           parse s = Some t.
Proof.
  unfold readProto.
  destruct (readAll fuel fd 8 timeout w) as [[raw|e] w1] eqn:E1;
    [erewrite M_bind_ok by done|by erewrite M_bind_stop by done].
  apply readAll_ok in E1 as [Hraw Hx1].
  case_match eqn:Hlen; [done|]. b2p. case_match; b2p.
  - intros [= <- <-]. exists raw, []. rewrite app_nil_r.
    split_and!; auto using parse_empty.
  - destruct (readAll fuel fd (Z.to_nat (le64_decode raw)) timeout w1) as [[s|e] w2] eqn:E2;
      [erewrite M_bind_ok by done|by erewrite M_bind_stop by done].
    apply readAll_ok in E2 as [Hs Hx2].
    destruct (parse s) eqn:Hp; [|done]. intros [= <- <-].
    exists raw, s. split_and!; [done|lia| |done].
    apply (xfer_trans fd raw [] s [] w w1 w2); done.
Qed.

Lemma writeProto_outcome fuel fd (t : T) timeout w o w' :
  writeProto fuel fd t timeout w = (o, w') → (∀ why, o ≠ Stop (Fatal why)) →
  ∃ s, serialize t = Some s ∧ len s <= MAX_PROTO_LENGTH ∧
       write_post fd (proto_frame s) (o = Ok tt) w w'.
Proof.
  intros Hrun Ho. destruct (serialize t) as [s|] eqn:Es.
  2: { unfold writeProto in Hrun. rewrite Es in Hrun. injection Hrun as <- <-. by edestruct Ho. }
  exists s. split; [done|]. split.
  - unfold writeProto in Hrun. rewrite Es in Hrun.
    case_match eqn:Hlen; b2p; [|lia]. injection Hrun as <- <-. by edestruct Ho.
  - exact (wp_run _ _ _ _ _ (writeProto_spec fuel fd t s timeout w Es) Hrun).
Qed.

Lemma readProto_run fuel fd timeout w o w' :
  readProto T fuel fd timeout w = (o, w') → ∃ r, xfer fd r [] w w'.
Proof. apply (wp_run _ (λ _ w', ∃ r, xfer fd r [] w w')), readProto_spec. Qed.

(** A stream that starts with a framed message is read as that message. *)
Lemma readProto_frame fuel fd timeout w t w' s rest :
  incoming w fd = proto_frame s ++ rest → len s <= MAX_PROTO_LENGTH →
  readProto T fuel fd timeout w = (Ok t, w') →
  parse s = Some t ∧ incoming w' fd = rest.
Proof.
  intros Hin Hlen (raw & s' & Hraw & Hdec & (Hx & _) & Hp)%readProto_ok.
  rewrite Hin in Hx. unfold proto_frame in Hx. rewrite <-!app_assoc in Hx.
  apply app_inj_1 in Hx as [<- Hx]; [|by rewrite length_le64, Hraw].
  rewrite le64_roundtrip, to_i64_small in Hdec by (unfold MAX_PROTO_LENGTH in Hlen; lia).
  apply app_inj_1 in Hx as [<- Hx]; [done|lia].
Qed.
End Protos.
