(* ===== verification/Crypto.v ===== *)
(** * [CryptoHandler]: secretbox encryption with a counting nonce

    libsodium's [crypto_secretbox_easy] and [crypto_secretbox_open_easy] are the
    class [SecretBox]; [SecretBoxLaws] is their documented contract.  The
    component is the 24-byte nonce counter: it counts in little-endian order, so
    no nonce is used twice in a direction, and the two directions, which differ
    in the most significant byte, never use the same nonce. *)

From S2P Require Import Prelude.

Definition crypto_secretbox_KEYBYTES : Z := 32.
Definition crypto_secretbox_NONCEBYTES : nat := 24.
Definition crypto_secretbox_MACBYTES : nat := 16.

(** Nonces for the two directions of a connection ([Headers.hpp]). *)
Definition CLIENT_SERVER_NONCE_MSB : Z := 0.
Definition SERVER_CLIENT_NONCE_MSB : Z := 1.

(** [secretbox key nonce message] and [secretbox_open key nonce box], [None]
    when the authenticator does not match. *)
Class SecretBox := {
  secretbox : str → list Z → str → str;
  secretbox_open : str → list Z → str → option str;
}.

Class SecretBoxLaws `{SecretBox} := {
  open_secretbox key nonce m : secretbox_open key nonce (secretbox key nonce m) = Some m;
  length_secretbox key nonce m :
    length (secretbox key nonce m) = (length m + crypto_secretbox_MACBYTES)%nat;
}.

(** The state of a handler; [nonce] is an array of [unsigned char]. *)
Record CryptoHandler := mkCrypto { nonce : list Z; key : str }.

Definition CryptoHandler_new (k : str) (nonceMSB : Z) : outcome CryptoHandler :=
  if len k =? crypto_secretbox_KEYBYTES
  then Ok (mkCrypto (replicate (crypto_secretbox_NONCEBYTES - 1) 0 ++ [nonceMSB]) k)
  else Stop (Fatal "Invalid key length").

(** [nonce[a]++] on bytes, carrying on while a byte rolls over to 0. *)
Fixpoint incrementNonce (n : list Z) : list Z :=
  match n with
  | [] => []
  | b :: n' =>
    let b' := to_u8 (b + 1) in
    if b' =? 0 then b' :: incrementNonce n' else b' :: n'
  end.

Definition CryptoHandler_incrementNonce : M CryptoHandler unit :=
  modify (λ c, mkCrypto (incrementNonce (nonce c)) (key c)).

Section Ops.
Context `{SecretBox}.

Definition CryptoHandler_encrypt (buffer : str) : M CryptoHandler str :=
  _ ← CryptoHandler_incrementNonce;
  c ← get;
  mret (secretbox (key c) (nonce c) buffer).

(** [buffer.length() - crypto_secretbox_MACBYTES] is a [size_t]: on a shorter
    buffer it wraps and the [string] constructor throws [length_error]. *)
Definition CryptoHandler_decrypt (buffer : str) : M CryptoHandler str :=
  _ ← CryptoHandler_incrementNonce;
  if decide (length buffer < crypto_secretbox_MACBYTES)%nat
  then throw LogicError "basic_string::_M_create"
  else
    c ← get;
    match secretbox_open (key c) (nonce c) buffer with
    | Some m => mret m
    | None => fatal "Decrypt failed.  Possible key mismatch?"
    end.
End Ops.

(** ** The nonce as a counter *)

Fixpoint nonce_val (n : list Z) : Z :=
  match n with
  | [] => 0
  | b :: n' => b + 256 * nonce_val n'
  end.

Definition nonce_ok (n : list Z) : Prop := Forall (λ b, 0 <= b < 256) n.

(** The handler after [i] calls. *)
Definition nonce_at (n : list Z) (i : nat) : list Z := Nat.iter i incrementNonce n.

Lemma nonce_ok_increment n : nonce_ok n → nonce_ok (incrementNonce n).
Proof.
  induction 1 as [|b n Hb Hn IH]; simpl; [constructor|].
  unfold to_u8. pose proof (Z.mod_pos_bound (b + 1) 256 ltac:(lia)).
  case_match; by constructor.
Qed.

Lemma length_incrementNonce n : length (incrementNonce n) = length n.
Proof. induction n; simpl; [done|]. case_match; simpl; auto. Qed.

Lemma nonce_val_range n : nonce_ok n → 0 <= nonce_val n < 256 ^ len n.
Proof.
  induction 1 as [|b n Hb Hn IH]; [done|]. cbn [nonce_val length].
  rewrite Nat2Z.inj_succ, Z.pow_succ_r by lia. lia.
Qed.

Lemma nonce_val_increment n :
  nonce_ok n → nonce_val (incrementNonce n) = (nonce_val n + 1) mod 256 ^ len n.
Proof.
  induction 1 as [|b n Hb Hn IH]; [done|]. cbn [incrementNonce nonce_val length].
  pose proof (nonce_val_range n Hn).
  rewrite Nat2Z.inj_succ, Z.pow_succ_r by lia. unfold to_u8.
  assert (0 < 256 ^ len n) by (apply Z.pow_pos_nonneg; lia).
  rewrite Z.rem_mul_r by lia.
  destruct (decide (b = 255)) as [->|Hne].
  - change ((255 + 1) mod 256) with 0. rewrite Z.eqb_refl. cbn [nonce_val]. rewrite IH.
    replace (255 + 256 * nonce_val n + 1) with ((nonce_val n + 1) * 256) by lia.
    rewrite Z.mod_mul, Z.div_mul by lia. done.
  - rewrite (Z.mod_small (b + 1)) by lia.
    destruct (b + 1 =? 0) eqn:E; b2p; [lia|]. cbn [nonce_val].
    replace (b + 256 * nonce_val n + 1) with (b + 1 + nonce_val n * 256) by lia.
    rewrite Z.mod_add, Z.div_add, Z.mod_small, (Z.div_small (b + 1)), Z.add_0_l,
      Z.mod_small by lia. lia.
Qed.

Lemma nonce_val_inj n n' :
  nonce_ok n → nonce_ok n' → length n = length n' → nonce_val n = nonce_val n' → n = n'.
Proof.
  intros Hn. revert n'. induction Hn as [|b n Hb Hn IH]; intros [|b' n'] Hn' Hl Hv;
    try done. inversion Hn'; subst. cbn [nonce_val] in Hv. injection Hl as Hl.
  assert (b = b' ∧ nonce_val n = nonce_val n') as [-> Hv'] by lia.
  f_equal. by apply IH.
Qed.

Lemma nonce_at_ok n i :
  nonce_ok n → nonce_ok (nonce_at n i) ∧ length (nonce_at n i) = length n.
Proof.
  intros Hn. induction i as [|i [IH1 IH2]]; [done|]. cbn.
  split; [by apply nonce_ok_increment|by rewrite length_incrementNonce].
Qed.

Lemma nonce_at_val n i :
  nonce_ok n → nonce_val (nonce_at n i) = (nonce_val n + Z.of_nat i) mod 256 ^ len n.
Proof.
  intros Hn. induction i as [|i IH].
  - rewrite Z.add_0_r, Z.mod_small; [done|by apply nonce_val_range].
  - destruct (nonce_at_ok n i Hn) as [Hok Hlen].
    change (nonce_at n (S i)) with (incrementNonce (nonce_at n i)).
    rewrite nonce_val_increment, IH, Hlen, Zplus_mod_idemp_l by done.
    f_equal. lia.
Qed.

(** The initial nonce of a direction. *)
Definition initial_nonce (msb : Z) : list Z :=
  replicate (crypto_secretbox_NONCEBYTES - 1) 0 ++ [msb].

Lemma initial_nonce_ok msb : 0 <= msb < 256 → nonce_ok (initial_nonce msb).
Proof. intros. repeat constructor; lia. Qed.

Lemma initial_nonce_val msb : nonce_val (initial_nonce msb) = msb * 256 ^ 23.
Proof. cbn -[Z.mul Z.add]. lia. Qed.

Lemma nonce_at_S n i : nonce_at (incrementNonce n) i = nonce_at n (S i).
Proof. unfold nonce_at. by rewrite Nat.iter_succ_r. Qed.

(** A secretbox for examples: the tag is sixteen copies of the low nonce byte. *)
Definition example_tag (n : list Z) : str :=
  replicate crypto_secretbox_MACBYTES (byte (default 0 (head n))).

Definition example_secretbox : SecretBox := {|
  secretbox k n m := m ++ example_tag n;
  secretbox_open k n c :=
    let m := take (length c - crypto_secretbox_MACBYTES) c in
    if decide (m ++ example_tag n = c) then Some m else None
|}.

Lemma example_secretbox_laws : @SecretBoxLaws example_secretbox.
Proof.
  assert (∀ n, length (example_tag n) = 16%nat) as Htag by (intros; apply length_replicate).
  split; intros k n m; cbn -[example_tag]; rewrite length_app, Htag; [|done].
  change crypto_secretbox_MACBYTES with 16%nat.
  replace (length m + 16 - 16)%nat with (length m) by lia.
  rewrite take_app_length. by rewrite decide_True.
Qed.

(** ** Properties *)

(** Over the two directions, the nonce determines the direction and the number of calls. *)
Lemma nonce_at_inj msb1 msb2 i j :
  msb1 ∈ [CLIENT_SERVER_NONCE_MSB; SERVER_CLIENT_NONCE_MSB] →
  msb2 ∈ [CLIENT_SERVER_NONCE_MSB; SERVER_CLIENT_NONCE_MSB] →
  Z.of_nat i < 2 ^ 184 → Z.of_nat j < 2 ^ 184 →
  nonce_at (initial_nonce msb1) i = nonce_at (initial_nonce msb2) j →
  msb1 = msb2 ∧ i = j.
Proof.
  intros H1 H2 Hi Hj Heq. apply (f_equal nonce_val) in Heq.
  rewrite !list_elem_of_In in H1, H2. change (2 ^ 184) with (256 ^ 23) in *.
  assert ((msb1 = 0 ∨ msb1 = 1) ∧ (msb2 = 0 ∨ msb2 = 1)) as [Hm1 Hm2].
  { unfold CLIENT_SERVER_NONCE_MSB, SERVER_CLIENT_NONCE_MSB in *.
    simpl in H1, H2. intuition lia. }
  rewrite !nonce_at_val, !initial_nonce_val in Heq by (apply initial_nonce_ok; lia).
  change (256 ^ len (initial_nonce msb1)) with (256 ^ 23 * 256) in Heq.
  change (256 ^ len (initial_nonce msb2)) with (256 ^ 23 * 256) in Heq.
  revert Hi Hj Heq. generalize (256 ^ 23) as B. intros B Hi Hj Heq.
  rewrite !Z.mod_small in Heq by (destruct Hm1, Hm2; subst; lia).
  destruct Hm1, Hm2; subst; lia.
Qed.

Section Nonces.
Context `{SecretBox}.

Lemma encrypt_run c m :
  CryptoHandler_encrypt m c =
    (Ok (secretbox (key c) (incrementNonce (nonce c)) m),
     mkCrypto (incrementNonce (nonce c)) (key c)).
Proof. done. Qed.

(** The nonces of the next [n] messages. *)
Definition next_nonces (n : list Z) (count : nat) : list (list Z) :=
  (λ i, nonce_at n (S i)) <$> seq 0 count.

Lemma next_nonces_S n count : next_nonces n (S count) = incrementNonce n :: next_nonces (incrementNonce n) count.
Proof.
  unfold next_nonces. cbn [seq fmap list_fmap]. f_equal. rewrite <-fmap_S_seq, <-list_fmap_compose.
  apply list_fmap_ext. intros i x _. cbn [compose]. by rewrite nonce_at_S.
Qed.

(** A stream of messages is encrypted under the next nonces, one each. *)
Lemma encrypts_run ms c cs c' :
  mapM CryptoHandler_encrypt ms c = (Ok cs, c') →
  cs = zip_with (secretbox (key c)) (next_nonces (nonce c) (length ms)) ms.
Proof.
  revert c cs c'. induction ms as [|m ms IH]; intros c cs c' Hrun; [by injection Hrun as <- <-|].
  cbn [mapM] in Hrun. rewrite (M_bind_ok _ _ _ _ _ (encrypt_run c m)) in Hrun.
  apply M_bind_inv in Hrun as (cs1 & c1 & E & Hrun). injection Hrun as <- _.
  cbn [length]. rewrite next_nonces_S. cbn [zip_with]. f_equal. exact (IH _ _ _ E).
Qed.

Lemma next_nonces_nodup msb count :
  msb ∈ [CLIENT_SERVER_NONCE_MSB; SERVER_CLIENT_NONCE_MSB] → Z.of_nat count < 2 ^ 184 →
  NoDup (next_nonces (initial_nonce msb) count).
Proof.
  intros Hm Hc. apply NoDup_fmap_2_strong; [|apply NoDup_seq].
  intros i j Hi%elem_of_seq Hj%elem_of_seq Heq.
  destruct (nonce_at_inj msb msb (S i) (S j) Hm Hm ltac:(lia) ltac:(lia) Heq). lia.
Qed.

(** C8. No nonce is used twice.  Two handlers are made with the key of a session, one for each
    direction, and each encrypts a stream of fewer than 2^184 messages: then every message is
    sealed under a nonce of its own, different from those of the messages before and after it
    in its direction and from those of the other direction. *)
Theorem nonces_never_reused k up down ms1 ms2 cs1 cs2 up' down' :
  CryptoHandler_new k CLIENT_SERVER_NONCE_MSB = Ok up →
  CryptoHandler_new k SERVER_CLIENT_NONCE_MSB = Ok down →
  mapM CryptoHandler_encrypt ms1 up = (Ok cs1, up') →
  mapM CryptoHandler_encrypt ms2 down = (Ok cs2, down') →
  len ms1 < 2 ^ 184 → len ms2 < 2 ^ 184 →
  ∃ ns1 ns2,
    length ns1 = length ms1 ∧ cs1 = zip_with (secretbox k) ns1 ms1 ∧
    length ns2 = length ms2 ∧ cs2 = zip_with (secretbox k) ns2 ms2 ∧
    NoDup (ns1 ++ ns2).
Proof.
  unfold CryptoHandler_new. destruct (len k =? _); [|done]. intros [= <-] [= <-] E1 E2 H1 H2.
  exists (next_nonces (initial_nonce CLIENT_SERVER_NONCE_MSB) (length ms1)),
    (next_nonces (initial_nonce SERVER_CLIENT_NONCE_MSB) (length ms2)).
  split; [unfold next_nonces; by rewrite length_fmap, length_seq|].
  split; [exact (encrypts_run _ _ _ _ E1)|].
  split; [unfold next_nonces; by rewrite length_fmap, length_seq|].
  split; [exact (encrypts_run _ _ _ _ E2)|].
  apply list.NoDup_app. split; [apply next_nonces_nodup; [by left|done]|].
  split; [|apply next_nonces_nodup; [by right; left|done]].
  intros n (i & -> & Hi%elem_of_seq)%list_elem_of_fmap (j & Heq & Hj%elem_of_seq)%list_elem_of_fmap.
  by destruct (nonce_at_inj CLIENT_SERVER_NONCE_MSB SERVER_CLIENT_NONCE_MSB (S i) (S j)
    ltac:(by left) ltac:(by right; left) ltac:(lia) ltac:(lia) Heq).
Qed.
End Nonces.

(** Three messages on the way to the server and two back, with a box that shows its nonce. *)
Lemma nonces_never_reused_witness :
  let _ := example_secretbox in
  let k := lit "0123456789abcdef0123456789abcdef" in
  let h msb := mkCrypto (initial_nonce msb) k in
  let ms1 := [lit "a"; lit "a"; lit "b"] in
  let ms2 := [lit "a"; lit "a"] in
  let boxes ms c := match (mapM CryptoHandler_encrypt ms c).1 with Ok cs => cs | Stop _ => [] end in
  ∃ ns1 ns2,
    length ns1 = 3%nat ∧ boxes ms1 (h 0) = zip_with (secretbox k) ns1 ms1 ∧
    length ns2 = 2%nat ∧ boxes ms2 (h 1) = zip_with (secretbox k) ns2 ms2 ∧
    NoDup (ns1 ++ ns2).
Proof.
  intros b k h ms1 ms2 boxes.
  apply (@nonces_never_reused b k (h 0) (h 1) ms1 ms2 (boxes ms1 (h 0)) (boxes ms2 (h 1))
    (mapM CryptoHandler_encrypt ms1 (h 0)).2 (mapM CryptoHandler_encrypt ms2 (h 1)).2);
    vm_compute; reflexivity.
Defined.

Section StreamCipher.
Context `{SecretBoxLaws}.

Lemma decrypt_run c m :
  CryptoHandler_decrypt (secretbox (key c) (incrementNonce (nonce c)) m) c =
    (Ok m, mkCrypto (incrementNonce (nonce c)) (key c)).
Proof.
  unfold CryptoHandler_decrypt, CryptoHandler_incrementNonce, modify.
  erewrite M_bind_ok by done. rewrite decide_False by (rewrite length_secretbox; lia).
  erewrite M_bind_ok by done. cbn [key nonce]. by rewrite open_secretbox.
Qed.

(** C9. The two ends of a direction stay in step: whatever one handler
    encrypts, a handler that started in the same state decrypts, in order, to
    the same messages, and both end in the same state. *)
Theorem encrypt_decrypt_stream ms c cs c' :
  mapM CryptoHandler_encrypt ms c = (Ok cs, c') →
  mapM CryptoHandler_decrypt cs c = (Ok ms, c').
Proof.
  revert c cs c'. induction ms as [|m ms IH]; intros c cs c' Hrun; [by injection Hrun as <- <-|].
  cbn [mapM] in Hrun. rewrite (M_bind_ok _ _ _ _ _ (encrypt_run c m)) in Hrun.
  destruct (mapM CryptoHandler_encrypt ms (mkCrypto (incrementNonce (nonce c)) (key c)))
    as [[cs'|e] c1] eqn:E;
    [|by rewrite (M_bind_stop _ _ _ _ _ E) in Hrun].
  rewrite (M_bind_ok _ _ _ _ _ E) in Hrun. injection Hrun as <- <-.
  cbn [mapM]. rewrite (M_bind_ok _ _ _ _ _ (decrypt_run c m)).
  by rewrite (M_bind_ok _ _ _ _ _ (IH _ _ _ E)).
Qed.

(** A ciphertext shorter than the authenticator is not decrypted: the
    length subtraction wraps and [length_error] (a [logic_error]) is thrown,
    after the nonce was advanced. *)
Theorem decrypt_short buffer c :
  (length buffer < crypto_secretbox_MACBYTES)%nat →
  CryptoHandler_decrypt buffer c =
    (Stop (Throw (Exn LogicError "basic_string::_M_create")),
     mkCrypto (incrementNonce (nonce c)) (key c)).
Proof.
  intros Hshort. unfold CryptoHandler_decrypt, CryptoHandler_incrementNonce, modify.
  erewrite M_bind_ok by done. by rewrite decide_True.
Qed.
End StreamCipher.

Lemma encrypt_decrypt_stream_witness :
  let _ := example_secretbox in
  let c := mkCrypto (initial_nonce 0) (lit "k") in
  let ms := [lit "hello"; lit ""; lit "world"] in
  mapM CryptoHandler_decrypt (match (mapM CryptoHandler_encrypt ms c).1 with
    | Ok cs => cs | Stop _ => [] end) c =
  (Ok ms, (mapM CryptoHandler_encrypt ms c).2).
Proof.
  apply (@encrypt_decrypt_stream example_secretbox example_secretbox_laws).
  vm_compute. reflexivity.
Defined.
