(* ===== verification/Packets.v ===== *)
(** * [Packet]: the unit of the protocol, and its transfer over a socket

    [Packet.hpp] (construction from bytes, [serialize], [encrypt], [decrypt],
    [length]) and the packet framing of [SocketHandler.hpp] ([readPacket],
    [writePacket]). *)

From S2P Require Import Prelude Sockets Crypto.

Definition HEADER_SIZE : Z := 2.

Record Packet := mkPacket { encrypted : bool; header : Z; payload : str }.

#[export] Instance Packet_eq_dec : EqDecision Packet.
Proof. solve_decision. Defined.

(** [Packet()] *)
Definition Packet_empty : Packet := mkPacket false 255 [].

(** [Packet(header, payload)]: the header is a [uint8_t]. *)
Definition Packet_new (header : Z) (payload : str) : Packet :=
  mkPacket false (to_u8 header) payload.

(** [Packet(serializedPacket)]: [s[1]] of an empty string is out of range, and
    [substr(2)] of a one-byte string throws. *)
Definition Packet_of_string (s : str) : outcome Packet :=
  match s with
  | [] => Stop (UB "operator[] past the end of the string")
  | [_] => Stop (Throw (Exn LogicError "basic_string::substr"))
  | e :: h :: p => Ok (mkPacket (negb (bval e =? 0)) (bval h) p)
  end.

Definition Packet_length (p : Packet) : Z := HEADER_SIZE + len (payload p).

Definition Packet_serialize (p : Packet) : str :=
  byte (if encrypted p then 1 else 0) :: byte (header p) :: payload p.

Section PacketCrypto.
Context `{SecretBox}.

Definition Packet_decrypt (p : Packet) : M CryptoHandler Packet :=
  if encrypted p then
    s ← CryptoHandler_decrypt (payload p);
    mret (mkPacket false (header p) s)
  else fatal "Tried to decrypt a packet that wasn't encrypted".

Definition Packet_encrypt (p : Packet) : M CryptoHandler Packet :=
  if encrypted p then fatal "Tried to encrypt a packet that was already encrypted"
  else
    s ← CryptoHandler_encrypt (payload p);
    mret (mkPacket true (header p) s).
End PacketCrypto.

Section PacketIO.
Context {W : Type} `{SocketHandler W}.

(** [None] is the return value [false]. *)
Definition readPacket (fuel : nat) (fd : Z) : M W (option Packet) :=
  raw ← readAll fuel fd 8 false;
  let length := le64_decode raw in
  if (length <? 0) || (MAX_PROTO_LENGTH <? length)
  then throw RuntimeError "Invalid size (<0 or >128 MB)"
  else if length =? 0 then mret None
  else
    s ← readAll fuel fd (Z.to_nat length) false;
    p ← lift (Packet_of_string s);
    mret (Some p).

Definition writePacket (fuel : nat) (fd : Z) (p : Packet) : M W unit :=
  let s := Packet_serialize p in
  let length := len s in
  if (length <? 0) || (MAX_PROTO_LENGTH <? length)
  then fatal "Invalid message length"
  else
    _ ← writeAllOrThrow fuel fd (le64_encode length) false;
    if negb (length =? 0) then writeAllOrThrow fuel fd s false else mret tt.
End PacketIO.

(** ** Lemmas *)

(** The header byte of a packet of the program is a [uint8_t]. *)
Definition packet_ok (p : Packet) : Prop := 0 <= header p < 256.

Lemma length_serialize p : len (Packet_serialize p) = Packet_length p.
Proof. unfold Packet_length, HEADER_SIZE. cbn [Packet_serialize length]. lia. Qed.

Lemma serialize_long p : (2 ≤ length (Packet_serialize p))%nat.
Proof. cbn [Packet_serialize length]. lia. Qed.

Lemma of_string_serialize p : packet_ok p → Packet_of_string (Packet_serialize p) = Ok p.
Proof.
  intros Hp. destruct p as [e h d]. unfold packet_ok in Hp. cbn in *.
  rewrite !bval_byte, (Z.mod_small h) by done. by destruct e.
Qed.

Lemma serialize_of_string s p :
  Packet_of_string s = Ok p →
  packet_ok p ∧ drop 1 (Packet_serialize p) = drop 1 s ∧
  (encrypted p = true ↔ ∃ e s', s = e :: s' ∧ bval e ≠ 0).
Proof.
  destruct s as [|e [|h d]]; try done. intros [= <-].
  unfold packet_ok. cbn. rewrite byte_bval. split_and!; try apply bval_range; [done|].
  rewrite negb_true_iff, Z.eqb_neq. split; [eauto|]. by intros (? & ? & [= <- <-] & ?).
Qed.

#[export] Hint Resolve serialize_long : et.

(** ** Properties *)

(** Serialisation round trip: every packet with an 8-bit header is recovered
    exactly (flag, header and payload) from its serialisation, which is
    [length()] bytes long. *)
Theorem packet_roundtrip p :
  packet_ok p →
  Packet_of_string (Packet_serialize p) = Ok p ∧
  len (Packet_serialize p) = Packet_length p.
Proof. intros Hp. split; [by apply of_string_serialize|apply length_serialize]. Qed.

Lemma packet_roundtrip_witness :
  let p := mkPacket true 254 (lit "ping") in
  Packet_of_string (Packet_serialize p) = Ok p ∧
  len (Packet_serialize p) = Packet_length p.
Proof. apply packet_roundtrip. unfold packet_ok. cbn. lia. Defined.

Section PacketTransfer.
Context {W : Type} `{StreamSocket W} `{!CleanRetry W}.

Lemma writePacket_ok fuel fd p w w' :
  writePacket fuel fd p w = (Ok tt, w') →
  len (Packet_serialize p) <= MAX_PROTO_LENGTH ∧
  xfer fd [] (proto_frame (Packet_serialize p)) w w'.
Proof.
  unfold writePacket. case_match eqn:Hlen; [done|]. b2p. intros Hrun. split; [lia|].
  destruct (writeAllOrThrow fuel fd (le64_encode (len (Packet_serialize p))) false w)
    as [[[]|e] w1] eqn:E1; [|by erewrite M_bind_stop in Hrun by done].
  erewrite M_bind_ok in Hrun by done. apply writeAllOrThrow_ok in E1.
  pose proof (serialize_long p).
  case_match eqn:Hz; b2p; [|exfalso; lia].
  apply writeAllOrThrow_ok in Hrun. by apply (xfer_trans fd [] _ [] _ w w1 w').
Qed.

Lemma readPacket_frame fuel fd w r w' s rest :
  incoming w fd = proto_frame s ++ rest → len s <= MAX_PROTO_LENGTH → s ≠ [] →
  readPacket fuel fd w = (Ok r, w') →
  incoming w' fd = rest ∧ ∃ p, r = Some p ∧ Packet_of_string s = Ok p.
Proof.
  intros Hin Hlen Hne Hrun. unfold readPacket in Hrun.
  unfold proto_frame in Hin. rewrite <-app_assoc in Hin.
  destruct (readAll fuel fd 8 false w) as [[raw|e] w1] eqn:E1;
    [erewrite M_bind_ok in Hrun by done|by erewrite M_bind_stop in Hrun by done].
  apply readAll_ok in E1 as [Hraw (Hx & _)]. rewrite Hin in Hx.
  apply app_inj_1 in Hx as [<- Hx]; [|by rewrite length_le64, Hraw].
  assert (len s ≠ 0) by (destruct s; [done|cbn [length]; lia]).
  rewrite le64_roundtrip, to_i64_small in Hrun
    by (unfold MAX_PROTO_LENGTH in Hlen; lia).
  case_match eqn:Hb; [done|]. case_match; b2p; [lia|].
  rewrite Nat2Z.id in Hrun.
  destruct (readAll fuel fd (length s) false w1) as [[s'|e] w2] eqn:E2;
    [erewrite M_bind_ok in Hrun by done|by erewrite M_bind_stop in Hrun by done].
  apply readAll_ok in E2 as [Hs' (Hx2 & _)]. rewrite <-Hx in Hx2.
  apply app_inj_1 in Hx2 as [<- Hx2]; [|done].
  unfold lift, mbind, M_bind in Hrun. destruct (Packet_of_string s) eqn:Ep; [|done].
  injection Hrun as <- <-. eauto.
Qed.

End PacketTransfer.

Section RoundTrip.
Context {W : Type} `{!Streams W} (S : SocketHandler W) `{!@StreamHandler W S _}.

(** A run over the steady handler that returns is the run over the handler itself. *)
Lemma steady_throw_loop fuel fd timeout st todo w w' :
  @writeAllOrThrow_loop W (steady S) fuel fd timeout st todo w = (Ok tt, w') →
  @writeAllOrThrow_loop W S fuel fd timeout st todo w = (Ok tt, w').
Proof.
  revert st todo w. induction fuel as [|fuel IH]; intros st [|b bs] w; cbn [writeAllOrThrow_loop]; try done.
  change (@sh_time W (steady S)) with (@sh_time W S).
  rewrite !(M_bind_stop_inv (S := W)). destruct (sh_time w) as [[now|f] w1]; [|done].
  destruct (timeout && _); [done|]. rewrite !(M_bind_stop_inv (S := W)).
  destruct (@sh_write W (steady S) fd (b :: bs) w1) as [o w2] eqn:E.
  destruct (steady_write S fd (b :: bs) w1 _ E) as [Ho|Hs]; cbn [fst] in *; [by rewrite Ho|].
  rewrite Hs. destruct o as [[n|e]|f]; [|..|done].
  - destruct (n =? 0); [done|]. apply IH.
  - destruct (_ || _); [|done]. change (@sh_sleep W (steady S)) with (@sh_sleep W S).
    rewrite !(M_bind_stop_inv (S := W)). destruct (sh_sleep 100000 w2) as [[[]|f] w3]; [apply IH|done].
Qed.

Lemma steady_throw fuel fd s timeout w w' :
  @writeAllOrThrow W (steady S) fuel fd s timeout w = (Ok tt, w') →
  @writeAllOrThrow W S fuel fd s timeout w = (Ok tt, w').
Proof.
  unfold writeAllOrThrow. change (@sh_time W (steady S)) with (@sh_time W S).
  rewrite !(M_bind_stop_inv (S := W)). destruct (sh_time w) as [[now|f] w1]; [apply steady_throw_loop|done].
Qed.

Lemma steady_writePacket fuel fd p w w' :
  @writePacket W (steady S) fuel fd p w = (Ok tt, w') → @writePacket W S fuel fd p w = (Ok tt, w').
Proof.
  unfold writePacket. destruct ((_ <? _) || _); [done|]. rewrite !(M_bind_stop_inv (S := W)).
  destruct (@writeAllOrThrow W (steady S) _ _ _ _ w) as [[[]|f] w1] eqn:E; [|done].
  rewrite (steady_throw _ _ _ _ _ _ E). destruct (negb _); [apply steady_throw|done].
Qed.

(** C25. Transfer round trip.  If [writePacket] returns normally on one end, and none of its
    writes has given up in the middle of a buffer (which sends a part twice: the run is one
    over the [steady] handler, and then also one over the handler itself), then it has sent
    exactly the framed packet, and any [readPacket] that returns on an end whose stream
    starts with what was sent returns that packet and leaves the stream right after it. *)
Theorem packet_transfer fuel fd p w1 w1' fuel2 fd2 w2 w2' r rest :
  packet_ok p →
  @writePacket W (steady S) fuel fd p w1 = (Ok tt, w1') →
  incoming w2 fd2 = drop (length (outgoing w1 fd)) (outgoing w1' fd) ++ rest →
  @readPacket W S fuel2 fd2 w2 = (Ok r, w2') →
  @writePacket W S fuel fd p w1 = (Ok tt, w1') ∧
  outgoing w1' fd = outgoing w1 fd ++ proto_frame (Packet_serialize p) ∧
  r = Some p ∧ incoming w2' fd2 = rest.
Proof.
  intros Hp Hw Hin Hrun. split; [by apply steady_writePacket|].
  apply writePacket_ok in Hw as [Hlen (_ & Hout & _)]. split; [done|].
  rewrite Hout, drop_app_length in Hin.
  change (@readPacket W (steady S) fuel2 fd2 w2 = (Ok r, w2')) in Hrun.
  eapply readPacket_frame in Hrun as (Hrest & p' & -> & Hp'); [|done|done|done].
  rewrite of_string_serialize in Hp' by done. by simplify_eq.
Qed.
End RoundTrip.
