(* ===== verification/Wire.v ===== *)
(** * [Wire]: an in-memory socket world

    A concrete instance of the interface [SocketHandler] with the laws of a
    stream socket: finite buffers per descriptor, and a plan that says how many
    bytes each next call transfers (0: the call would block).  The examples of
    the other files evaluate the program's operations on it. *)

From S2P Require Import Prelude Sockets Packets.

Record Wire := mkWire {
  w_in : gmap Z str;
  w_out : gmap Z str;
  w_plan : list nat;
  w_clock : Z;
  w_connects : list (io_result Z);
  w_accepts : list Z;
  w_broken : list Z;
  w_closed : list Z;
  w_listening : list SocketEndpoint;
  w_rands : list Z;
}.

(** A quiet network: nothing to read, no stalls. *)
Definition wire0 : Wire := mkWire ∅ ∅ [] 0 [] [] [] [] [] [].

Definition wire_in (w : Wire) (fd : Z) : str := default [] (w_in w !! fd).
Definition wire_out (w : Wire) (fd : Z) : str := default [] (w_out w !! fd).

Definition with_plan (w : Wire) (pl : list nat) : Wire :=
  mkWire (w_in w) (w_out w) pl (w_clock w) (w_connects w) (w_accepts w) (w_broken w)
    (w_closed w) (w_listening w) (w_rands w).
Definition with_in (w : Wire) (fd : Z) (s : str) : Wire :=
  mkWire (<[fd := s]> (w_in w)) (w_out w) (w_plan w) (w_clock w) (w_connects w)
    (w_accepts w) (w_broken w) (w_closed w) (w_listening w) (w_rands w).
Definition with_out (w : Wire) (fd : Z) (s : str) : Wire :=
  mkWire (w_in w) (<[fd := s]> (w_out w)) (w_plan w) (w_clock w) (w_connects w)
    (w_accepts w) (w_broken w) (w_closed w) (w_listening w) (w_rands w).
Definition with_clock (w : Wire) (t : Z) : Wire :=
  mkWire (w_in w) (w_out w) (w_plan w) t (w_connects w) (w_accepts w) (w_broken w)
    (w_closed w) (w_listening w) (w_rands w).
Definition with_connects (w : Wire) (l : list (io_result Z)) : Wire :=
  mkWire (w_in w) (w_out w) (w_plan w) (w_clock w) l (w_accepts w) (w_broken w)
    (w_closed w) (w_listening w) (w_rands w).
Definition with_accepts (w : Wire) (l : list Z) : Wire :=
  mkWire (w_in w) (w_out w) (w_plan w) (w_clock w) (w_connects w) l (w_broken w)
    (w_closed w) (w_listening w) (w_rands w).
Definition with_broken (w : Wire) (l : list Z) : Wire :=
  mkWire (w_in w) (w_out w) (w_plan w) (w_clock w) (w_connects w) (w_accepts w) l
    (w_closed w) (w_listening w) (w_rands w).
Definition with_closed (w : Wire) (l : list Z) : Wire :=
  mkWire (w_in w) (w_out w) (w_plan w) (w_clock w) (w_connects w) (w_accepts w)
    (w_broken w) l (w_listening w) (w_rands w).
Definition with_listening (w : Wire) (l : list SocketEndpoint) : Wire :=
  mkWire (w_in w) (w_out w) (w_plan w) (w_clock w) (w_connects w) (w_accepts w)
    (w_broken w) (w_closed w) l (w_rands w).
Definition with_rands (w : Wire) (l : list Z) : Wire :=
  mkWire (w_in w) (w_out w) (w_plan w) (w_clock w) (w_connects w) (w_accepts w)
    (w_broken w) (w_closed w) (w_listening w) l.

Definition is_broken (w : Wire) (fd : Z) : bool := bool_decide (fd ∈ w_broken w).

Definition wire_read (fd : Z) (n : nat) : M Wire (io_result str) := λ w,
  if is_broken w fd then (Ok (IoErr ECONNRESET), w) else
  match w_plan w with
  | O :: pl => (Ok (IoErr EAGAIN), with_plan w pl)
  | pl =>
    let k := match pl with k :: _ => Nat.min k n | [] => n end in
    let q := wire_in w fd in
    (Ok (IoOk (take k q)), with_in (with_plan w (tail pl)) fd (drop k q))
  end.

Definition wire_write (fd : Z) (s : str) : M Wire (io_result Z) := λ w,
  if is_broken w fd then (Ok (IoErr EPIPE), w) else
  match w_plan w with
  | O :: pl => (Ok (IoErr EAGAIN), with_plan w pl)
  | pl =>
    let k := match pl with k :: _ => Nat.min k (length s) | [] => length s end in
    (Ok (IoOk (Z.of_nat k)),
     with_out (with_plan w (tail pl)) fd (wire_out w fd ++ take k s))
  end.

Definition wire_wait (fd : Z) : M Wire bool := λ w,
  match w_plan w with
  | O :: pl => (Ok false, with_clock (with_plan w pl) (w_clock w + 1))
  | _ => (Ok true, w)
  end.

Definition wire_connect (e : SocketEndpoint) : M Wire (io_result Z) := λ w,
  match w_connects w with
  | [] => (Ok (IoErr ECONNREFUSED), w)
  | r :: rs => (Ok r, with_connects w rs)
  end.

Definition wire_accept (fd : Z) : M Wire (io_result Z) := λ w,
  match w_accepts w with
  | [] => (Ok (IoErr EAGAIN), w)
  | r :: rs => (Ok (IoOk r), with_accepts w rs)
  end.

Definition wire_rand : M Wire Z := λ w,
  match w_rands w with
  | [] => (Ok 0, w)
  | r :: rs => (Ok r, with_rands w rs)
  end.

#[export] Instance WireSocket : SocketHandler Wire := {|
  sh_hasData fd := λ w, (Ok (negb (bool_decide (wire_in w fd = []))), w);
  sh_read := wire_read;
  sh_write := wire_write;
  sh_connect := wire_connect;
  sh_listen e := modify (λ w, with_listening w (e :: w_listening w));
  sh_getEndpointFds e := mret [];
  sh_accept := wire_accept;
  sh_stopListening e := mret tt;
  sh_close fd := modify (λ w, with_closed w (fd :: w_closed w));
  sh_wait := wire_wait;
  sh_time := λ w, (Ok (w_clock w), w);
  sh_sleep us := mret tt;
  sh_rand := wire_rand;
|}.

#[export] Instance WireStreams : Streams Wire := {|
  incoming := wire_in;
  outgoing := wire_out;
|}.

Lemma wire_in_with_in w fd s fd' :
  wire_in (with_in w fd s) fd' = if decide (fd' = fd) then s else wire_in w fd'.
Proof.
  unfold wire_in. cbn. case_decide; subst; by simplify_map_eq.
Qed.

Lemma wire_out_with_out w fd s fd' :
  wire_out (with_out w fd s) fd' = if decide (fd' = fd) then s else wire_out w fd'.
Proof.
  unfold wire_out. cbn. case_decide; subst; by simplify_map_eq.
Qed.

Lemma wire_xfer_read w pl fd k :
  xfer fd (take k (wire_in w fd)) [] w (with_in (with_plan w pl) fd (drop k (wire_in w fd))).
Proof.
  unfold xfer. cbn [incoming outgoing WireStreams].
  rewrite wire_in_with_in, decide_True, take_drop, app_nil_r by done.
  split_and!; [done|done|]. intros fd' Hne.
  by rewrite wire_in_with_in, decide_False.
Qed.

Lemma wire_xfer_write w pl fd k s :
  xfer fd [] (take k s) w (with_out (with_plan w pl) fd (wire_out w fd ++ take k s)).
Proof.
  unfold xfer. cbn [incoming outgoing WireStreams].
  rewrite wire_out_with_out, decide_True by done.
  split_and!; [done|done|]. intros fd' Hne.
  by rewrite wire_out_with_out, decide_False.
Qed.

#[export] Instance WireStreamSocket : StreamSocket Wire.
Proof.
  split.
  - intros fd n w o w'. cbn [sh_read WireSocket]. unfold wire_read.
    destruct (is_broken w fd); [by intros [= <- <-]|].
    destruct (w_plan w) as [|[|k] pl]; intros [= <- <-]; [|done|];
      (split; [etrans; [apply firstn_le_length|try case_match; lia]|apply wire_xfer_read]).
  - intros fd s w o w'. cbn [sh_write WireSocket]. unfold wire_write.
    destruct (is_broken w fd);
      [intros [= <- <-]; exists O; by apply quiet_xfer|].
    destruct (w_plan w) as [|[|k] pl]; intros [= <- <-];
      [|exists O; by apply quiet_xfer|];
      (split; [try case_match; lia|rewrite Nat2Z.id; apply wire_xfer_write]).
  - intros fd w o w'. cbn [sh_wait WireSocket]. unfold wire_wait.
    destruct (w_plan w) as [|[|k] pl]; by intros [= <- <-].
  - by intros w o w' [= <- <-].
  - by intros us w o w' [= <- <-].
  - by intros fd w o w' [= <- <-].
  - by intros fd w o w' [= <- <-].
Qed.

#[export] Instance WireStreamHandler : StreamHandler Wire := stream_handler.

#[export] Instance WireCleanRetry : CleanRetry Wire.
Proof.
  split. intros fd s w e w'. cbn [sh_write WireSocket]. unfold wire_write.
  destruct (is_broken w fd); [by intros [= <- <-]|].
  destruct (w_plan w) as [|[|k] pl]; by intros [= <- <-].
Qed.

#[export] Instance WireStalls : Stalls Wire.
Proof.
  refine {| stalls w := length (w_plan w) |}.
  - intros fd w o w'. cbn [sh_wait WireSocket]. unfold wire_wait.
    destruct (w_plan w) as [|[|k] pl] eqn:E; intros [= <- <-]; cbn;
      rewrite ?E; cbn; (split; [done|lia]).
  - intros fd n w o w'. cbn [sh_read WireSocket]. unfold wire_read.
    destruct (is_broken w fd); [by intros [= <- <-]|].
    destruct (w_plan w) as [|[|k] pl] eqn:E; intros [= <- <-]; cbn;
      (split; [done|lia]).
  - intros fd s w o w'. cbn [sh_write WireSocket]. unfold wire_write.
    destruct (is_broken w fd); [intros [= <- <-]; split; [done|by intros [|]]|].
    destruct (w_plan w) as [|[|k] pl] eqn:E; intros [= <- <-]; cbn;
      (split; [done|lia]).
  - intros w o w' [= <- <-]. split; [done|lia].
  - intros us w o w' [= <- <-]. split; [done|lia].
Qed.

(** *** A codec for the messages

    Any countable message type can stand for generated protobuf code: the bits of
    its number as text, and nothing at all for the default message. *)

Fixpoint bits_of_pos (p : positive) : str :=
  match p with
  | xH => ["1"%char]
  | xO p' => "0"%char :: bits_of_pos p'
  | xI p' => "1"%char :: bits_of_pos p'
  end.

Fixpoint pos_of_bits (s : str) : option positive :=
  match s with
  | [] => None
  | ["1"%char] => Some xH
  | "0"%char :: s' => xO <$> pos_of_bits s'
  | "1"%char :: s' => xI <$> pos_of_bits s'
  | _ => None
  end.

Lemma pos_of_bits_of_pos p : pos_of_bits (bits_of_pos p) = Some p.
Proof.
  assert (∀ q, bits_of_pos q ≠ []) as Hne by by intros [].
  induction p as [p IH|p IH|]; cbn [bits_of_pos pos_of_bits]; [| |done];
    specialize (Hne p); destruct (bits_of_pos p); try done; by rewrite IH.
Qed.

Definition countable_proto {T} `{Countable T} (d : T) : Proto T := {|
  serialize t := Some (if decide (t = d) then [] else bits_of_pos (encode t));
  parse s := match s with [] => Some d | _ => pos_of_bits s ≫= decode end;
  proto_default := d;
|}.

Lemma countable_proto_laws {T} `{Countable T} (d : T) : @ProtoLaws T (countable_proto d).
Proof.
  split; cbn; [|done]. intros t s [= <-]. case_decide as Hd; [by rewrite Hd|].
  assert (bits_of_pos (encode t) ≠ []) as Hne by by destruct (encode t).
  destruct (bits_of_pos (encode t)) eqn:E; [done|].
  rewrite <-E, pos_of_bits_of_pos. cbn. apply decode_encode.
Qed.

(** *** Evaluating the loops on the wire *)

(** Bytes that arrive in pieces, between two time-outs of the poll. *)
Example readAll_pieces :
  let w := with_plan (with_in wire0 5 (lit "abcdefgh")) [0; 3; 1; 0; 9]%nat in
  (readAll 20 5 6 true w).1 = Ok (lit "abcdef").
Proof. vm_compute. reflexivity. Qed.

Lemma packet_bytes_on_wire :
  let w := with_plan wire0 [2; 0; 3]%nat in
  wire_out (writeAllOrThrow 20 7 (lit "abcdefgh") false w).2 7 = lit "abcdefgh".
Proof. vm_compute. reflexivity. Qed.

Lemma packet_transfer_witness :
  let p := mkPacket false 7 (lit "data") in
  let w1 := with_plan wire0 [2; 0; 5]%nat in
  let w1' := (@writePacket _ (steady WireSocket) 30 4 p w1).2 in
  let w2 := with_in wire0 9 (wire_out w1' 4 ++ lit "next") in
  @writePacket _ WireSocket 30 4 p w1 = (Ok tt, w1') ∧
  outgoing w1' 4 = outgoing w1 4 ++ proto_frame (Packet_serialize p) ∧
  Some p = Some p ∧ incoming (readPacket 30 9 w2).2 9 = lit "next".
Proof.
  intros p w1 w1' w2.
  apply (packet_transfer WireSocket 30 4 p w1 w1' 30 9 w2
           (readPacket 30 9 w2).2 (Some p) (lit "next")).
  - unfold packet_ok. cbn. lia.
  - vm_compute. reflexivity.
  - vm_compute. reflexivity.
  - vm_compute. reflexivity.
Defined.
