(* ===== verification/Backed.v ===== *)
(** * [BackedWriter] and [BackedReader]: a byte stream that survives reconnects

    [Writer] and [Reader] model [BackedWriter.cpp] and [BackedReader.cpp]: their
    state, and one definition per method.  The abstract view of a writer is its
    history, the list of all serialised packets it ever accepted; of a reader,
    the position it has reached in that history. *)

From S2P Require Import Prelude Sockets Crypto Packets.

Definition MAX_BACKUP_BYTES : Z := 64 * 1024 * 1024.
Definition DISCONNECT_BUFFER_BYTES : Z := 64 * 1024 * 1024.

(** What is sent for a packet: its length (big endian) and its bytes. *)
Definition frame (p : Packet) : str :=
  be32_encode (to_i32 (Packet_length p)) ++ Packet_serialize p.

Inductive BackedWriterWriteState := SKIPPED | SUCCESS | WROTE_WITH_FAILURE | BUFFERED_ONLY.

#[export] Instance BackedWriterWriteState_eq_dec : EqDecision BackedWriterWriteState.
Proof. solve_decision. Defined.

(** ** Writer *)
Module Writer.

(** [backupBuffer] is in deque order: the newest packet first. *)
Record BackedWriter := mkWriter {
  crypto : CryptoHandler;
  socketFd : Z;
  backupBuffer : list Packet;
  backupSize : Z;
  disconnectedBytes : Z;
  sequenceNumber : Z;
}.

Definition init (c : CryptoHandler) (fd : Z) : BackedWriter := mkWriter c fd [] 0 0 0.

Definition set_crypto (c : CryptoHandler) (w : BackedWriter) : BackedWriter :=
  mkWriter c (socketFd w) (backupBuffer w) (backupSize w) (disconnectedBytes w)
    (sequenceNumber w).

(** [backupBuffer.push_front(packet)] and its accounting. *)
Definition push (p : Packet) (w : BackedWriter) : BackedWriter :=
  mkWriter (crypto w) (socketFd w) (p :: backupBuffer w)
    (backupSize w + Packet_length p) (disconnectedBytes w) (sequenceNumber w + 1).

(** The clean-up loop pops from the back, so it walks the deque from its oldest
    element; [back()] of an empty deque is undefined. *)
Fixpoint evict_loop (oldest_first : list Packet) (size : Z) : outcome (list Packet * Z) :=
  if MAX_BACKUP_BYTES <? size then
    match oldest_first with
    | [] => Stop (UB "back() of an empty deque")
    | p :: rest => evict_loop rest (size - Packet_length p)
    end
  else Ok (oldest_first, size).

Definition evict (w : BackedWriter) : outcome BackedWriter :=
  if socketFd w >=? 0 then
    match evict_loop (rev (backupBuffer w)) (backupSize w) with
    | Ok (l, size) =>
      Ok (mkWriter (crypto w) (socketFd w) (rev l) size (disconnectedBytes w)
            (sequenceNumber w))
    | Stop f => Stop f
    end
  else Ok w.

Definition add_disconnected (n : Z) (w : BackedWriter) : BackedWriter :=
  mkWriter (crypto w) (socketFd w) (backupBuffer w) (backupSize w)
    (disconnectedBytes w + n) (sequenceNumber w).

Section Write.
Context {W : Type} `{SocketHandler W} `{SecretBox}.

(** The final loop of [write]; [todo] is the frame from [bytesWritten] on.
    With the state comes the [errno] the caller finds. *)
Fixpoint send_loop (fuel : nat) (fd : Z) (todo : str)
    : M W (BackedWriterWriteState * Z) :=
  match fuel with
  | O => stop OutOfFuel
  | S fuel' =>
    if fd <? 0 then mret (WROTE_WITH_FAILURE, 0)
    else
      result ← sh_write fd todo;
      match result with
      | IoOk n =>
        if n =? len todo then mret (SUCCESS, 0)
        else
          _ ← sh_sleep 1000;
          send_loop fuel' fd (drop (Z.to_nat n) todo)
      | IoErr e => mret (WROTE_WITH_FAILURE, e)
      end
  end.

Definition write (fuel : nat) (packet : Packet)
    : M (BackedWriter * W) (BackedWriterWriteState * Z) :=
  w ← on_fst get;
  if (socketFd w <? 0) &&
     (DISCONNECT_BUFFER_BYTES <? disconnectedBytes w + Packet_length packet)
  then mret (SKIPPED, 0)
  else
    packet ← on_fst (zoom crypto set_crypto (Packet_encrypt packet));
    _ ← on_fst (modify (push packet));
    w ← on_fst get;
    w ← lift (evict w);
    _ ← on_fst (put w);
    if socketFd w <? 0 then
      _ ← on_fst (modify (add_disconnected (Packet_length packet)));
      mret (BUFFERED_ONLY, 0)
    else
      let s := frame packet in
      if Packet_length packet =? len s - 4
      then on_snd (send_loop fuel (socketFd w) s)
      else fatal "Packet header size is invalid".
End Write.

(** The [for] loop of [recover]: [retval] grows from the newest packet until
    [messagesSeen] reaches the target. *)
Fixpoint recover_loop (buf : list Packet) (messagesSeen target : Z) (retval : list str)
    : option (list str) :=
  match buf with
  | [] => None
  | p :: buf' =>
    let retval := retval ++ [Packet_serialize p] in
    let messagesSeen := messagesSeen + 1 in
    if messagesSeen =? target then Some (rev retval)
    else recover_loop buf' messagesSeen target retval
  end.

Definition recover (lastValidSequenceNumber : Z) (w : BackedWriter) : outcome (list str) :=
  if socketFd w >=? 0
  then Stop (Throw (Exn RuntimeError "Cannot recover when the fd is still alive"))
  else
    let messagesToRecover := sequenceNumber w - lastValidSequenceNumber in
    if messagesToRecover <? 0
    then Stop (Fatal "Something went really wrong, client is ahead of server")
    else if messagesToRecover =? 0 then Ok []
    else
      match recover_loop (backupBuffer w) 0 messagesToRecover [] with
      | Some l => Ok l
      | None => Stop (Throw (Exn RuntimeError "Client is too far behind server."))
      end.

Definition revive (newSocketFd : Z) (w : BackedWriter) : BackedWriter :=
  mkWriter (crypto w) newSocketFd (backupBuffer w) (backupSize w) 0 (sequenceNumber w).

Definition hasBufferCapacity (bytes : Z) (w : BackedWriter) : bool :=
  (socketFd w >=? 0) || (disconnectedBytes w + bytes <=? DISCONNECT_BUFFER_BYTES).

Definition invalidateSocket (w : BackedWriter) : BackedWriter :=
  mkWriter (crypto w) (-1) (backupBuffer w) (backupSize w) (disconnectedBytes w)
    (sequenceNumber w).

Definition getSocketFd (w : BackedWriter) : Z := socketFd w.
Definition getSequenceNumber (w : BackedWriter) : Z := sequenceNumber w.

End Writer.

(** ** Reader *)
Module Reader.

Record BackedReader := mkReader {
  crypto : CryptoHandler;
  socketFd : Z;
  sequenceNumber : Z;
  localBuffer : list str;
  partialMessage : str;
}.

Definition init (c : CryptoHandler) (fd : Z) : BackedReader := mkReader c fd 0 [] [].

Definition set_crypto (c : CryptoHandler) (r : BackedReader) : BackedReader :=
  mkReader c (socketFd r) (sequenceNumber r) (localBuffer r) (partialMessage r).

Definition set_localBuffer (l : list str) (r : BackedReader) : BackedReader :=
  mkReader (crypto r) (socketFd r) (sequenceNumber r) l (partialMessage r).

Definition append_partial (s : str) (r : BackedReader) : BackedReader :=
  mkReader (crypto r) (socketFd r) (sequenceNumber r) (localBuffer r)
    (partialMessage r ++ s).

(** [partialMessage.clear(); sequenceNumber++;] *)
Definition finish_partial (r : BackedReader) : BackedReader :=
  mkReader (crypto r) (socketFd r) (sequenceNumber r + 1) (localBuffer r) [].

(** The result of [read]: 1 with a packet, 0, or -1 with [errno]. *)
Inductive read_result := RPacket (p : Packet) | RNone | RError (errno : Z).

Definition getPartialMessageLength (r : BackedReader) : outcome Z :=
  if decide (length (partialMessage r) < 4)%nat
  then Stop (Fatal "Tried to construct a message header that wasn't complete")
  else Ok (be32_decode (take 4 (partialMessage r))).

Section Read.
Context {W : Type} `{SocketHandler W} `{SecretBox}.

(** [*packet = Packet(s); packet->decrypt(cryptoHandler);] *)
Definition open_packet (s : str) : M BackedReader Packet :=
  packet ← lift (Packet_of_string s);
  zoom crypto set_crypto (Packet_decrypt packet).

Definition constructPartialMessage : M BackedReader Packet :=
  r ← get;
  messageSize ← lift (getPartialMessageLength r);
  if to_i32 (len (partialMessage r)) - 4 =? messageSize then
    packet ← open_packet (take (Z.to_nat messageSize) (drop 4 (partialMessage r)));
    _ ← modify finish_partial;
    mret packet
  else fatal "Tried to construct a message that wasn't complete or over-filled".

(** The first part of [read]: [Some] is an early [return -1]. *)
Definition read_header : M (BackedReader * W) (option read_result) :=
  r ← on_fst get;
  if decide (length (partialMessage r) < 4)%nat then
    bytes ← on_snd (sh_read (socketFd r) (4 - length (partialMessage r)));
    match bytes with
    | IoOk [] => mret (Some (RError EPIPE))
    | IoOk tmpBuf => _ ← on_fst (modify (append_partial tmpBuf)); mret None
    | IoErr e => mret (Some (RError e))
    end
  else mret None.

(** The second part: the body. [string s(messageRemainder, 0)] throws
    [length_error] on a negative count. *)
Definition read_body : M (BackedReader * W) read_result :=
  r ← on_fst get;
  messageLength ← lift (getPartialMessageLength r);
  let messageRemainder := to_i32 (messageLength - (len (partialMessage r) - 4)) in
  if messageRemainder <? 0 then throw LogicError "basic_string::_M_create"
  else if messageRemainder =? 0 then
    packet ← on_fst constructPartialMessage;
    mret (RPacket packet)
  else
    bytes ← on_snd (sh_read (socketFd r) (Z.to_nat messageRemainder));
    match bytes with
    | IoOk [] => mret (RError EPIPE)
    | IoErr e => mret (RError e)
    | IoOk s =>
      _ ← on_fst (modify (append_partial s));
      if messageRemainder - len s =? 0 then
        packet ← on_fst constructPartialMessage;
        mret (RPacket packet)
      else mret RNone
    end.

Definition read : M (BackedReader * W) read_result :=
  r ← on_fst get;
  if socketFd r <? 0 then mret RNone
  else
    match localBuffer r with
    | s :: rest =>
      packet ← lift (Packet_of_string s);
      _ ← on_fst (modify (set_localBuffer rest));
      packet ← on_fst (zoom crypto set_crypto (Packet_decrypt packet));
      mret (RPacket packet)
    | [] =>
      early ← read_header;
      match early with
      | Some res => mret res
      | None =>
        r ← on_fst get;
        if decide (length (partialMessage r) < 4)%nat then mret RNone
        else read_body
      end
    end.

Definition hasData : M (BackedReader * W) bool :=
  r ← on_fst get;
  if socketFd r <? 0 then mret false
  else match localBuffer r with
       | _ :: _ => mret true
       | [] => on_snd (sh_hasData (socketFd r))
       end.
End Read.

Definition revive (newSocketFd : Z) (newLocalEntries : list str) (r : BackedReader)
    : BackedReader :=
  mkReader (crypto r) newSocketFd (sequenceNumber r + len newLocalEntries)
    (localBuffer r ++ newLocalEntries) [].

Definition invalidateSocket (r : BackedReader) : BackedReader :=
  mkReader (crypto r) (-1) (sequenceNumber r) (localBuffer r) (partialMessage r).

Definition getSequenceNumber (r : BackedReader) : Z := sequenceNumber r.

End Reader.
