(* ===== verification/WriterSpec.v ===== *)
(** * What [BackedWriter] promises

    The abstract state of a writer is its history [H], the serialised packets it
    has accepted since it was created.  [represents w H] ties the two; the
    theorems show that [write] appends to the history (or refuses, leaving
    everything as it was), that [recover] returns exactly the part of the
    history that the peer has not seen or fails, and the bounds on the buffers. *)

From S2P Require Import Prelude Sockets Crypto Packets Wire Backed.
Import Writer.

(** The handler after one more message, and a packet sealed by it. *)
Definition advance (c : CryptoHandler) : CryptoHandler :=
  mkCrypto (incrementNonce (nonce c)) (key c).

Definition sealed `{SecretBox} (c : CryptoHandler) (p : Packet) : Packet :=
  mkPacket true (header p) (secretbox (key c) (incrementNonce (nonce c)) (payload p)).

(** The backup, oldest packet first, as it was serialised. *)
Definition backup_log (w : BackedWriter) : list str :=
  Packet_serialize <$> rev (backupBuffer w).

Definition bytes_of (l : list Packet) : Z := foldr (λ p n, Packet_length p + n) 0 l.

Record represents (w : BackedWriter) (H : list str) : Prop := {
  rep_seq : sequenceNumber w = len H;
  rep_log : backup_log w `suffix_of` H;
  rep_size : backupSize w = bytes_of (backupBuffer w);
}.

(** The specification of [recover]: what a peer that has seen [last] packets of
    the history [H] is sent, when the last [kept] packets are still backed up. *)
Definition recover_spec (H : list str) (kept : nat) (last : Z) : outcome (list str) :=
  if len H - last <? 0
  then Stop (Fatal "Something went really wrong, client is ahead of server")
  else if len H - last <=? Z.of_nat kept then Ok (drop (Z.to_nat last) H)
  else Stop (Throw (Exn RuntimeError "Client is too far behind server.")).

(** [write] up to the network: encrypt, back up, clean up. *)
Definition accept `{SecretBox} (p : Packet) (w : BackedWriter) : outcome BackedWriter :=
  evict (push (sealed (crypto w) p) (set_crypto (advance (crypto w)) w)).

(** ** Lemmas *)

Lemma Packet_length_pos p : 2 <= Packet_length p.
Proof. unfold Packet_length, HEADER_SIZE. lia. Qed.

Lemma bytes_of_cons p l : bytes_of (p :: l) = Packet_length p + bytes_of l.
Proof. done. Qed.

Lemma bytes_of_app l l' : bytes_of (l ++ l') = bytes_of l + bytes_of l'.
Proof. induction l as [|p l IH]; [done|]. cbn [app]. rewrite !bytes_of_cons. lia. Qed.

Lemma bytes_of_rev l : bytes_of (rev l) = bytes_of l.
Proof.
  induction l as [|p l IH]; [done|]. cbn [rev].
  rewrite bytes_of_app, !bytes_of_cons, IH. change (bytes_of []) with 0. lia.
Qed.

Lemma bytes_of_nonneg l : 0 <= bytes_of l.
Proof.
  induction l as [|p l IH]; [done|]. rewrite bytes_of_cons.
  pose proof (Packet_length_pos p). lia.
Qed.

Lemma frame_length p : len (frame p) = Packet_length p + 4.
Proof.
  unfold frame. rewrite length_app, length_be32, Nat2Z.inj_add, length_serialize. lia.
Qed.

Lemma sealed_length `{SecretBoxLaws} c p :
  Packet_length (sealed c p) = Packet_length p + 16.
Proof.
  unfold Packet_length, sealed. cbn [payload]. rewrite length_secretbox.
  unfold crypto_secretbox_MACBYTES. lia.
Qed.

(** The clean-up drops just enough of the oldest packets. *)
Lemma evict_loop_spec l size :
  size = bytes_of l →
  ∃ n, evict_loop l size = Ok (drop n l, bytes_of (drop n l)) ∧
       bytes_of (drop n l) <= MAX_BACKUP_BYTES ∧
       ∀ m, (m < n)%nat → MAX_BACKUP_BYTES < bytes_of (drop m l).
Proof.
  revert size. induction l as [|p l IH]; intros size ->; cbn [evict_loop];
    case_match eqn:Hbig; b2p.
  - cbn in Hbig. unfold MAX_BACKUP_BYTES in Hbig. lia.
  - exists O. split_and!; [done|done|lia].
  - destruct (IH (bytes_of (p :: l) - Packet_length p)) as (n & He & Hle & Hmin);
      [rewrite bytes_of_cons; lia|]. exists (S n). split_and!; [done|done|].
    intros [|m] Hm; [done|]. apply Hmin. lia.
  - exists O. split_and!; [done|done|lia].
Qed.

Lemma backup_log_drop n l : Packet_serialize <$> drop n l = drop n (Packet_serialize <$> l).
Proof. by rewrite fmap_drop. Qed.

Lemma evict_spec w H :
  represents w H →
  ∃ w', evict w = Ok w' ∧ represents w' H ∧ crypto w' = crypto w ∧
        socketFd w' = socketFd w ∧ disconnectedBytes w' = disconnectedBytes w ∧
        (0 <= socketFd w → backupSize w' <= MAX_BACKUP_BYTES) ∧
        (socketFd w < 0 → w' = w).
Proof.
  intros [Hseq Hlog Hsize]. unfold evict. case_match eqn:Hfd.
  2: { exists w. split_and!; auto; [by split|lia]. }
  destruct (evict_loop_spec (rev (backupBuffer w)) (backupSize w)) as (n & -> & Hle & _);
    [by rewrite bytes_of_rev|].
  eexists. split; [done|]. cbn. split_and!; try done; [|lia].
  split; cbn; [done| |by rewrite bytes_of_rev].
  unfold backup_log. cbn. rewrite rev_involutive, backup_log_drop.
  etrans; [|exact Hlog]. exists (take n (backup_log w)). symmetry. apply take_drop.
Qed.

Section Spec.
Context {W : Type} `{SocketHandler W} `{SecretBox}.

(** A packet accepted by the writer extends the history. *)
Lemma accept_spec p w H' :
  represents w H' →
  ∃ w', accept p w = Ok w' ∧
        represents w' (H' ++ [Packet_serialize (sealed (crypto w) p)]) ∧
        crypto w' = advance (crypto w) ∧ socketFd w' = socketFd w ∧
        disconnectedBytes w' = disconnectedBytes w ∧
        (0 <= socketFd w → backupSize w' <= MAX_BACKUP_BYTES) ∧
        (socketFd w < 0 → backupBuffer w' = sealed (crypto w) p :: backupBuffer w).
Proof.
  intros [Hseq [k Hlog] Hsize]. unfold accept.
  edestruct (evict_spec (push (sealed (crypto w) p) (set_crypto (advance (crypto w)) w))
               (H' ++ [Packet_serialize (sealed (crypto w) p)]))
    as (w' & -> & Hrep & Hc & Hfd & Hd & Hle & Hsame).
  - split; cbn [push set_crypto sequenceNumber backupSize backupBuffer].
    + rewrite Hseq, length_app. cbn. lia.
    + exists k. unfold backup_log in *.
      cbn [push set_crypto backupBuffer rev]. rewrite fmap_app, app_assoc, <-Hlog. done.
    + cbn [bytes_of foldr]. fold (bytes_of (backupBuffer w)). lia.
  - exists w'. split_and!; auto. intros Hneg. by rewrite Hsame.
Qed.

(** The whole of [write], as a function of the state it starts in. *)
Lemma write_run fuel p w k w1 :
  encrypted p = false → accept p w = Ok w1 →
  write fuel p (w, k) =
    if (socketFd w <? 0) && (DISCONNECT_BUFFER_BYTES <? disconnectedBytes w + Packet_length p)
    then (Ok (SKIPPED, 0), (w, k))
    else if socketFd w1 <? 0
    then (Ok (BUFFERED_ONLY, 0),
          (add_disconnected (Packet_length (sealed (crypto w) p)) w1, k))
    else
      let '(o, k') := send_loop fuel (socketFd w1) (frame (sealed (crypto w) p)) k in
      (o, (w1, k')).
Proof.
  intros Henc Hacc. unfold write. run. case_match; [done|].
  rewrite run_fst. unfold zoom, Packet_encrypt. rewrite Henc, M_bind_stop_inv, encrypt_run.
  cbn [mret M_ret]. run. change (mkPacket true (header p) _) with (sealed (crypto w) p).
  change (evict _) with (accept p w). rewrite Hacc. run.
  case_match; [done|]. rewrite frame_length, Z.add_simpl_r, Z.eqb_refl. done.
Qed.

Lemma sequence_after_accept p w w' H' :
  represents w H' → accept p w = Ok w' → sequenceNumber w' = sequenceNumber w + 1.
Proof.
  intros Hrep Hacc. destruct (accept_spec p w H' Hrep) as (? & Hacc' & Hrep' & _).
  rewrite Hacc in Hacc'. simplify_eq.
  rewrite (rep_seq _ _ Hrep), (rep_seq _ _ Hrep'), length_app. cbn. lia.
Qed.
End Spec.

Lemma represents_add_disconnected n w H :
  represents w H → represents (add_disconnected n w) H.
Proof. intros [? ? ?]. by split. Qed.

Lemma represents_revive fd w H : represents w H → represents (revive fd w) H.
Proof. intros [? ? ?]. by split. Qed.

Lemma represents_invalidate w H : represents w H → represents (invalidateSocket w) H.
Proof. intros [? ? ?]. by split. Qed.

Lemma represents_init c fd : represents (init c fd) [].
Proof. split; [done|by exists []|done]. Qed.

#[export] Hint Resolve represents_add_disconnected represents_revive
  represents_invalidate represents_init : et.

(** The search of [recover]. *)
Lemma recover_loop_spec buf seen target retval :
  0 <= seen < target →
  recover_loop buf seen target retval =
    if target - seen <=? len buf
    then Some (rev (retval ++ (Packet_serialize <$> take (Z.to_nat (target - seen)) buf)))
    else None.
Proof.
  revert seen retval. induction buf as [|p buf IH]; intros seen retval Hs;
    cbn [recover_loop length].
  - case_match; b2p; [lia|done].
  - destruct (seen + 1 =? target) eqn:E; b2p.
    + replace (target - seen) with 1 by lia. change (Z.to_nat 1) with 1%nat.
      case_match; b2p; [done|lia].
    + rewrite IH by lia. replace (Z.to_nat (target - seen))
        with (S (Z.to_nat (target - (seen + 1)))) by lia.
      cbn [take fmap list_fmap]. rewrite <-app_assoc. cbn [app].
      destruct (target - (seen + 1) <=? len buf) eqn:?,
        (target - seen <=? Z.of_nat (S (length buf))) eqn:?; b2p; try done; lia.
Qed.

Lemma rev_take_rev {A} (l : list A) n : rev (take n (rev l)) = drop (length l - n) l.
Proof. by rewrite List.firstn_rev, rev_involutive. Qed.

Lemma fmap_rev_list {A B} (f : A → B) (l : list A) : f <$> rev l = rev (f <$> l).
Proof. apply List.map_rev. Qed.

Lemma suffix_drop_eq {A} (s H : list A) n :
  s `suffix_of` H → (n ≤ length s)%nat → drop (length s - n) s = drop (length H - n) H.
Proof.
  intros [k ->] Hn. rewrite length_app.
  replace (length k + length s - n)%nat with (length k + (length s - n))%nat by lia.
  by rewrite drop_app_add.
Qed.

(** [recover] meets its specification. *)
Lemma recover_refines w H last :
  represents w H → socketFd w < 0 →
  recover last w = recover_spec H (length (backupBuffer w)) last.
Proof.
  intros [Hseq Hlog Hsize] Hfd. unfold recover, recover_spec. rewrite Hseq.
  case_match; [lia|]. case_match; [done|]. b2p.
  assert (length (backup_log w) = length (backupBuffer w)) as Hll
    by (unfold backup_log; rewrite length_fmap, length_rev; done).
  pose proof (suffix_length _ _ Hlog) as Hle. rewrite Hll in Hle.
  destruct (len H - last =? 0) eqn:Hz; b2p.
  - case_match; b2p; [|lia]. by rewrite drop_ge by lia.
  - rewrite recover_loop_spec by lia. rewrite Z.sub_0_r. cbn [app].
    destruct (len H - last <=? len (backupBuffer w)) eqn:?; b2p; [|done]. f_equal.
    assert (0 <= last) by lia.
    replace (Packet_serialize <$> take (Z.to_nat (len H - last)) (backupBuffer w))
      with (take (Z.to_nat (len H - last)) (rev (backup_log w))).
    + rewrite rev_take_rev, (suffix_drop_eq _ H) by (auto; lia).
      f_equal. lia.
    + unfold backup_log. by rewrite fmap_rev_list, rev_involutive, fmap_take.
Qed.

(** ** Properties *)

Section WriterProperties.
Context {W : Type} `{StreamSocket W} `{!SecretBox}.

(** The network part of [write] sends a prefix of the frame, all of it on
    [SUCCESS], and never claims to have skipped or only buffered it. *)
Definition sent_post (fd : Z) (todo : str) (k : W)
    (o : outcome (BackedWriterWriteState * Z)) (k' : W) : Prop :=
  ∃ s, xfer fd [] s k k' ∧ s `prefix_of` todo ∧
    match o with
    | Ok (st, _) => (st = SUCCESS → s = todo) ∧ st ≠ SKIPPED ∧ st ≠ BUFFERED_ONLY
    | Stop _ => True
    end.

Lemma sent_post_step fd todo n k k1 o k' :
  xfer fd [] (take n todo) k k1 → sent_post fd (drop n todo) k1 o k' →
  sent_post fd todo k o k'.
Proof.
  intros Hx (s & Hx' & [t Hs] & Ho). exists (take n todo ++ s). split_and!.
  - by apply (xfer_trans fd [] _ [] s k k1 k').
  - exists t. by rewrite <-app_assoc, <-Hs, take_drop.
  - destruct o as [[st e]|]; [|done]. destruct Ho as (Hall & ? & ?).
    split_and!; auto. intros ->%Hall. apply take_drop.
Qed.

Lemma sent_post_none fd todo k st e k' :
  quiet k k' → st = WROTE_WITH_FAILURE → sent_post fd todo k (Ok (st, e)) k'.
Proof. intros Hq ->. exists []. split_and!; [by apply quiet_xfer|apply prefix_nil|done..]. Qed.

Lemma send_loop_spec fuel fd todo k :
  wp (send_loop fuel fd todo) (sent_post fd todo k) k.
Proof.
  revert todo k. induction fuel as [|fuel IH]; intros todo k; cbn [send_loop].
  { exists []. split_and!; [by apply quiet_xfer|apply prefix_nil|done]. }
  case_match; [by apply sent_post_none|].
  wp_step stream_write as [n|e] k1 Hx.
  - destruct Hx as [Hn Hx]. case_match eqn:Hall; b2p.
    + exists (take (Z.to_nat n) todo). split; [done|]. split; [apply prefix_take|].
      cbn. split_and!; [intros _; apply take_ge; lia|done..].
    + eapply wp_mono; [|intros; by eapply sent_post_step].
      wp_step stream_sleep as [] k2 Hq.
      * eapply wp_mono; [apply IH|]. intros o k' (s & Hx' & ?). exists s. eauto with et.
      * exists []. split_and!; [by apply quiet_xfer|apply prefix_nil|done].
  - destruct Hx as [m Hx]. exists (take m todo). split_and!; [done|apply prefix_take|done..].
  - destruct Hx as [m Hx]. exists (take m todo). split_and!; [done|apply prefix_take|done].
Qed.

(** C4. [BackedWriter::write] refines an append to the history.  From a writer
    that represents [H] and a packet that is not yet encrypted, either the
    packet is refused ([SKIPPED]: only when disconnected and over the limit,
    and nothing changes), or the history becomes [H] followed by the sealed
    packet, whatever happens on the network: buffered when there is no socket
    (nothing sent), the exact frame sent on [SUCCESS], a prefix of it otherwise.
    No other outcome than an exception of the socket is possible. *)
Theorem write_refines fuel p w k H' o w' k' :
  represents w H' → encrypted p = false →
  write fuel p (w, k) = (o, (w', k')) →
  let packet := sealed (crypto w) p in
  match o with
  | Ok (SKIPPED, _) =>
    w' = w ∧ k' = k ∧ socketFd w < 0 ∧
    DISCONNECT_BUFFER_BYTES < disconnectedBytes w + Packet_length p
  | Ok (BUFFERED_ONLY, _) =>
    socketFd w < 0 ∧ k' = k ∧ represents w' (H' ++ [Packet_serialize packet]) ∧
    backupBuffer w' = packet :: backupBuffer w
  | Ok (st, _) =>
    0 <= socketFd w ∧ represents w' (H' ++ [Packet_serialize packet]) ∧
    backupSize w' <= MAX_BACKUP_BYTES ∧
    ∃ s, xfer (socketFd w) [] s k k' ∧ s `prefix_of` frame packet ∧
         (st = SUCCESS → s = frame packet)
  | Stop f =>
    represents w' (H' ++ [Packet_serialize packet]) ∧
    ∃ k0 k1 fr, send_loop fr (socketFd w) (frame packet) k0 = (Stop f, k1)
  end.
Proof.
  intros Hrep Henc Hrun packet.
  destruct (accept_spec p w H' Hrep) as (w1 & Hacc & Hrep' & _ & Hfd & _ & Hle & Hbuf).
  rewrite (write_run fuel p w k w1 Henc Hacc) in Hrun.
  case_match eqn:Hskip; b2p; [by simplify_eq|]. rewrite Hfd in Hrun.
  case_match eqn:Hneg; b2p.
  - simplify_eq. split_and!; eauto with et.
  - pose proof (send_loop_spec fuel (socketFd w) (frame packet) k) as Hs.
    unfold wp in Hs. fold packet in Hrun.
    destruct (send_loop fuel (socketFd w) (frame packet) k) as [o1 k1] eqn:E.
    simplify_eq/=. destruct Hs as (s & Hx & Hpre & Ho).
    destruct o as [[st e]|f]; [|by eauto]. destruct Ho as (Hall & ? & ?).
    destruct st; try done; (split_and!; [done..|by apply Hle|by exists s]).
Qed.

Lemma recover_missing w H' last l :
  represents w H' → socketFd w < 0 → recover last w = Ok l →
  0 <= last <= len H' ∧ take (Z.to_nat last) H' ++ l = H'.
Proof.
  intros Hrep Hfd. rewrite (recover_refines w H' last Hrep Hfd).
  unfold recover_spec. repeat case_match; try done. intros [= <-]. b2p.
  destruct Hrep as [_ Hlog _]. apply suffix_length in Hlog.
  unfold backup_log in Hlog. rewrite length_fmap, length_rev in Hlog.
  split; [lia|apply take_drop].
Qed.

(** C7. A reader's position decides what [recover] returns: nothing but the
    exact missing suffix of the history (when it is still backed up), an
    exception when some missing packet is gone, an abort of the process when
    the peer claims to be ahead. *)
Theorem recover_returns_missing w H' last :
  represents w H' → socketFd w < 0 →
  recover last w = recover_spec H' (length (backupBuffer w)) last ∧
  (∀ l, recover last w = Ok l →
     0 <= last ∧ take (Z.to_nat last) H' ++ l = H').
Proof.
  intros Hrep Hfd. split; [by apply recover_refines|].
  intros l Hl. by destruct (recover_missing w H' last l Hrep Hfd Hl) as [[? _] ?].
Qed.

(** *** Bounds on the buffers *)

(** What a call of [write] does to the accounting. *)
Lemma write_sizes fuel p w k H' o w' k' :
  represents w H' → encrypted p = false →
  write fuel p (w, k) = (o, (w', k')) →
  (∃ H'', represents w' H'') ∧ socketFd w' = socketFd w ∧
  if socketFd w <? 0 then
    w' = w ∧ DISCONNECT_BUFFER_BYTES < disconnectedBytes w + Packet_length p ∨
    disconnectedBytes w + Packet_length p <= DISCONNECT_BUFFER_BYTES ∧
    backupSize w' = backupSize w + Packet_length (sealed (crypto w) p) ∧
    disconnectedBytes w' = disconnectedBytes w + Packet_length (sealed (crypto w) p)
  else backupSize w' <= MAX_BACKUP_BYTES ∧ disconnectedBytes w' = disconnectedBytes w.
Proof.
  intros Hrep Henc Hrun.
  destruct (accept_spec p w H' Hrep) as (w1 & Hacc & Hrep' & _ & Hfd & Hd & Hle & Hbuf).
  rewrite (write_run fuel p w k w1 Henc Hacc), Hfd in Hrun.
  destruct (socketFd w <? 0) eqn:Hneg; cbn [andb] in Hrun; b2p.
  - case_match eqn:Hcap; b2p; simplify_eq; [by eauto 6|].
    split; [eauto with et|]. split; [done|]. right. split; [done|].
    rewrite (rep_size _ _ Hrep). cbn [add_disconnected backupSize disconnectedBytes].
    rewrite (rep_size _ _ Hrep'), Hbuf, Hd by done.
    split; [rewrite bytes_of_cons; lia|done].
  - destruct (send_loop _ _ _ _). simplify_eq. split_and!; eauto.
Qed.

(** The states a writer goes through, with the number of reconnects since
    something was last written on a live socket. *)
Inductive flaps : nat → BackedWriter → Prop :=
| flaps_init c fd : flaps 0 (init c fd)
| flaps_write n fuel p w k o w' k' :
    flaps n w → encrypted p = false → write fuel p (w, k) = (o, (w', k')) →
    flaps (if socketFd w <? 0 then n else O) w'
| flaps_invalidate n w : flaps n w → flaps n (invalidateSocket w)
| flaps_revive n fd w : flaps n w → flaps (S n) (revive fd w).

Lemma flaps_write_live n fuel p s :
  flaps n s.1 → encrypted p = false → 0 <= socketFd s.1 → flaps 0 (write fuel p s).2.1.
Proof.
  destruct s as [w k]. cbn [fst]. intros Hw Henc Hfd.
  destruct (write fuel p (w, k)) as [o [w' k']] eqn:E.
  pose proof (flaps_write _ _ _ _ _ _ _ _ Hw Henc E) as Hf.
  by rewrite (proj2 (Z.ltb_ge _ _) Hfd) in Hf.
Qed.

(** The tag that [encrypt] adds after the limit was checked. *)
Definition CYCLE_BYTES : Z := DISCONNECT_BUFFER_BYTES + 16.

Lemma flaps_invariant n w :
  SecretBoxLaws → flaps n w →
  (∃ H', represents w H') ∧ 0 <= disconnectedBytes w <= CYCLE_BYTES ∧
  backupSize w <= MAX_BACKUP_BYTES + Z.of_nat n * CYCLE_BYTES + disconnectedBytes w.
Proof.
  intros laws. unfold CYCLE_BYTES, DISCONNECT_BUFFER_BYTES, MAX_BACKUP_BYTES.
  induction 1 as [c fd|n fuel p w k o w' k' _ [[H' Hrep] IH] Henc Hrun
                 |n w _ [[H' Hrep] IH]|n fd w _ [[H' Hrep] IH]].
  - split; [eexists; apply represents_init|]. cbn. lia.
  - apply (write_sizes _ _ _ _ _ _ _ _ Hrep Henc) in Hrun as (? & _ & Hs). split; [done|].
    rewrite sealed_length in Hs. pose proof (Packet_length_pos p).
    unfold DISCONNECT_BUFFER_BYTES, MAX_BACKUP_BYTES in Hs.
    destruct (socketFd w <? 0); [destruct Hs as [[-> ?]|(? & -> & ->)]|]; lia.
  - split; [eauto with et|]. exact IH.
  - split; [eauto with et|]. cbn [revive backupSize disconnectedBytes]. lia.
Qed.

(** C14. Bounds on the memory of a writer, in every state it can reach.  While it
    is disconnected it buffers at most [DISCONNECT_BUFFER_BYTES] and one tag
    since the disconnect.  The whole backup is bounded by the connected limit
    and one such amount per reconnect since the last write on a live socket:
    nothing is evicted while disconnected, and every reconnect resets the
    count. *)
Theorem writer_memory_bound n w :
  SecretBoxLaws → flaps n w →
  disconnectedBytes w <= CYCLE_BYTES ∧ backupSize w = bytes_of (backupBuffer w) ∧
  backupSize w <= MAX_BACKUP_BYTES + (Z.of_nat n + 1) * CYCLE_BYTES.
Proof.
  intros laws ([H' Hrep] & ? & ?)%flaps_invariant; [|done].
  destruct Hrep. split_and!; [lia|done|lia].
Qed.

(** One reconnect that comes to nothing: a write while disconnected, a new
    socket, and its loss. *)
Definition flap (fuel : nat) (p : Packet) (fd : Z) (k : W) (w : BackedWriter) : BackedWriter :=
  invalidateSocket (revive fd (write fuel p (w, k)).2.1).

(** The per-reconnect term of the memory bound is real: a packet of up to
    64 MB written in each of [n] flaps is kept every time, so the backup grows
    with [n] without limit, although the limit of a disconnect is never
    exceeded. *)
Theorem flapping_grows_backup fuel p fd k w H' n :
  SecretBoxLaws → represents w H' → encrypted p = false → socketFd w < 0 →
  disconnectedBytes w = 0 → Packet_length p <= DISCONNECT_BUFFER_BYTES →
  backupSize (Nat.iter n (flap fuel p fd k) w) =
    backupSize w + Z.of_nat n * (Packet_length p + 16).
Proof.
  intros laws Hrep Henc Hfd Hd Hp.
  cut (let w' := Nat.iter n (flap fuel p fd k) w in
       (∃ H'', represents w' H'') ∧ socketFd w' < 0 ∧ disconnectedBytes w' = 0 ∧
       backupSize w' = backupSize w + Z.of_nat n * (Packet_length p + 16));
    [by intros (_ & _ & _ & ?)|].
  induction n as [|n IH]; cbv zeta; [cbn; split_and!; [eauto|done|done|lia]|].
  rewrite Nat.iter_succ. destruct IH as ([H'' Hrep'] & Hfd' & Hd' & Hs).
  revert Hrep' Hfd' Hd' Hs. generalize (Nat.iter n (flap fuel p fd k) w) as w1.
  intros w1 Hrep' Hfd' Hd' Hs. unfold flap.
  destruct (write fuel p (w1, k)) as [o [w2 k2]] eqn:Hrun.
  apply (write_sizes _ _ _ _ _ _ _ _ Hrep' Henc) in Hrun as ([? ?] & _ & Hw).
  rewrite (proj2 (Z.ltb_lt _ _) Hfd'), sealed_length in Hw.
  cbn [snd fst]. split_and!; [eauto with et|done|done|]. cbn [invalidateSocket revive backupSize].
  destruct Hw as [[-> ?]|(_ & -> & _)]; lia.
Qed.

(** Back-pressure agrees with [write]: when [hasBufferCapacity n] says yes, a
    packet of at most [n] bytes (header included) is accepted; when it says no,
    a packet of at least [n] bytes is refused and nothing changes. *)
Theorem capacity_decides_write fuel p w k H' n o w' k' :
  represents w H' → encrypted p = false →
  write fuel p (w, k) = (o, (w', k')) →
  (hasBufferCapacity n w = true → Packet_length p <= n →
     ∀ e, o ≠ Ok (SKIPPED, e)) ∧
  (hasBufferCapacity n w = false → n <= Packet_length p →
     o = Ok (SKIPPED, 0) ∧ w' = w ∧ k' = k).
Proof.
  intros Hrep Henc Hrun.
  destruct (accept_spec p w H' Hrep) as (w1 & Hacc & _ & _ & Hfd & _).
  pose proof (write_run fuel p w k w1 Henc Hacc) as Hw. rewrite Hrun, Hfd in Hw.
  unfold hasBufferCapacity. split.
  - intros [Hf|Hc]%orb_true_iff Hn e ->.
    + assert ((socketFd w <? 0) = false) as E by (apply Z.ltb_ge; lia). rewrite E in Hw.
      cbn [andb] in Hw. pose proof (send_loop_spec fuel (socketFd w)
        (frame (sealed (crypto w) p)) k) as (s & _ & _ & Ho).
      destruct (send_loop _ _ _ _) as [o' k1]. simplify_eq/=. by destruct Ho as (_ & ? & _).
    + case_match eqn:E; b2p; [lia|]. case_match; [done|].
      pose proof (send_loop_spec fuel (socketFd w)
        (frame (sealed (crypto w) p)) k) as (s & _ & _ & Ho).
      destruct (send_loop _ _ _ _) as [o' k1]. simplify_eq/=. by destruct Ho as (_ & ? & _).
  - intros [Hf Hc]%orb_false_iff Hn. rewrite Z.geb_leb in Hf. b2p.
    rewrite (proj2 (Z.ltb_lt (socketFd w) 0)) in Hw by lia.
    rewrite (proj2 (Z.ltb_lt _ (disconnectedBytes w + _))) in Hw by lia.
    cbn [andb] in Hw. by simplify_eq.
Qed.
End WriterProperties.

(** ** Witnesses *)

Section Witnesses.
#[local] Existing Instance example_secretbox.
#[local] Existing Instance example_secretbox_laws.

Definition w_crypto : CryptoHandler := mkCrypto (initial_nonce 0) (lit "key").
Definition w_packet : Packet := Packet_new 1 (lit "hello").

Lemma write_refines_witness :
  let w := init w_crypto 5 in
  let k := with_plan wire0 [3; 4]%nat in
  let r := write 9 w_packet (w, k) in
  r.1 = Ok (SUCCESS, 0) ∧
  represents r.2.1 ([] ++ [Packet_serialize (sealed (crypto w) w_packet)]).
Proof.
  split; [vm_compute; reflexivity|].
  apply (write_refines 9 w_packet (init w_crypto 5) (with_plan wire0 [3; 4]%nat) []
           (Ok (SUCCESS, 0)) _ (write 9 w_packet (init w_crypto 5, with_plan wire0 [3; 4]%nat)).2.2).
  - apply represents_init.
  - reflexivity.
  - vm_compute. reflexivity.
Defined.

(** A writer that has accepted three packets and lost its socket. *)
Definition w_three : BackedWriter :=
  invalidateSocket (write 9 w_packet (write 9 w_packet (write 9 w_packet
    (init w_crypto 5, wire0)).2).2).2.1.

Lemma represents_three : represents w_three (backup_log w_three).
Proof. split; vm_compute; [reflexivity|exists []; reflexivity|reflexivity]. Qed.

Lemma recover_returns_missing_witness :
  recover 1 w_three = Ok (drop 1 (backup_log w_three)).
Proof.
  destruct (recover_returns_missing w_three (backup_log w_three) 1
              represents_three eq_refl) as [Hr _].
  etransitivity; [exact Hr|]. vm_compute. reflexivity.
Defined.

Lemma writer_memory_bound_witness :
  backupSize w_three <= MAX_BACKUP_BYTES + (Z.of_nat 0 + 1) * CYCLE_BYTES.
Proof.
  apply (writer_memory_bound (W := Wire) 0 w_three example_secretbox_laws).
  apply flaps_invalidate.
  do 3 (apply (flaps_write_live 0); [|reflexivity|vm_compute; congruence]).
  apply flaps_init.
Defined.

Lemma flapping_grows_backup_witness :
  backupSize (Nat.iter 100 (flap 9 w_packet 5 wire0) w_three) =
    backupSize w_three + Z.of_nat 100 * (Packet_length w_packet + 16).
Proof.
  apply (flapping_grows_backup 9 w_packet 5 wire0 w_three (backup_log w_three) 100
           example_secretbox_laws represents_three); vm_compute; congruence.
Defined.

Lemma capacity_decides_write_witness :
  hasBufferCapacity 7 w_three = true ∧
  ∀ e, (write 9 w_packet (w_three, wire0)).1 ≠ Ok (SKIPPED, e).
Proof.
  split; [vm_compute; reflexivity|].
  apply (capacity_decides_write 9 w_packet w_three wire0 (backup_log w_three) 7
           (write 9 w_packet (w_three, wire0)).1 (write 9 w_packet (w_three, wire0)).2.1
           (write 9 w_packet (w_three, wire0)).2.2 represents_three eq_refl);
    vm_compute; [reflexivity|reflexivity|intros [=]].
Defined.
End Witnesses.
