(* ===== verification/ReaderSpec.v ===== *)
(** * What [BackedReader] promises

    The bytes that a reader will see on its socket are a (possibly cut) run of
    frames, as [BackedWriter::write] sends them.  Over such a stream, however the
    socket chops it up, every call of [read] either returns the packet of the
    next frame, opened with the right nonce, or consumes bytes of that frame and
    keeps them; it never gets out of step, never aborts and never throws by
    itself. *)

From S2P Require Import Prelude Sockets Crypto Packets Wire Backed WriterSpec.
Import Reader.

(** The frame of a serialised packet, and a run of frames. *)
Definition frame_of (s : str) : str := be32_encode (to_i32 (len s)) ++ s.
Definition frames (l : list str) : str := concat (frame_of <$> l).

(** A serialised packet whose frame has a length that fits an [int]. *)
Definition framable (s : str) : Prop := 0 < len s < 2 ^ 31 - 4.

(** The bytes of the frames [l] that the reader holds or will still get; the
    stream may stop anywhere. *)
Record tracks `{Streams W} (r : BackedReader) (k : W) (l : list str) : Prop := {
  tracks_framable : Forall framable l;
  tracks_prefix : partialMessage r ++ incoming k (socketFd r) `prefix_of` frames l;
  tracks_partial : ∀ s l', l = s :: l' →
    (length (partialMessage r) < length (frame_of s))%nat;
}.

(** ** Lemmas *)

Lemma frame_frame_of p : frame p = frame_of (Packet_serialize p).
Proof. unfold frame, frame_of. by rewrite length_serialize. Qed.

Lemma frames_cons s l : frames (s :: l) = frame_of s ++ frames l.
Proof. done. Qed.

Lemma frames_app l l' : frames (l ++ l') = frames l ++ frames l'.
Proof. unfold frames. by rewrite fmap_app, concat_app. Qed.

Lemma length_frame_of s : length (frame_of s) = (4 + length s)%nat.
Proof. unfold frame_of. by rewrite length_app, length_be32. Qed.

Lemma take_frame_of s : take 4 (frame_of s) = be32_encode (to_i32 (len s)).
Proof. unfold frame_of. by rewrite take_app_le, take_ge by (rewrite length_be32; lia). Qed.

Lemma drop_frame_of s : drop 4 (frame_of s) = s.
Proof. unfold frame_of. by rewrite drop_app_ge, length_be32 by (rewrite length_be32; lia). Qed.

(** A partial message that has its header knows the length. *)
Lemma partial_length s m rest :
  framable s → m `prefix_of` frame_of s ++ rest → (4 ≤ length m)%nat →
  be32_decode (take 4 m) = len s.
Proof.
  intros Hs [x Hm] Hl.
  assert (take 4 m = take 4 (frame_of s)) as ->.
  { transitivity (take 4 (frame_of s ++ rest));
      [by rewrite Hm, take_app_le|by rewrite take_app_le by (rewrite length_frame_of; lia)]. }
  rewrite take_frame_of, be32_roundtrip. unfold framable in Hs.
  rewrite (to_i32_small (len s)), to_i32_small; lia.
Qed.

Lemma partial_full s m rest :
  m `prefix_of` frame_of s ++ rest → length m = length (frame_of s) → m = frame_of s.
Proof.
  intros [x Hm] Hl. by apply app_inj_1 in Hm as [<- _].
Qed.

Lemma append_partial_nil r : append_partial [] r = r.
Proof. destruct r. unfold append_partial. cbn. by rewrite app_nil_r. Qed.

Lemma append_partial_app s t r : append_partial t (append_partial s r) = append_partial (s ++ t) r.
Proof. unfold append_partial. cbn. by rewrite app_assoc. Qed.

(** Several messages ahead: the handler, and what a writer makes of packets. *)
Fixpoint advance_by (n : nat) (c : CryptoHandler) : CryptoHandler :=
  match n with O => c | S n' => advance_by n' (advance c) end.

Fixpoint seal_all `{SecretBox} (c : CryptoHandler) (ps : list Packet) : list str :=
  match ps with
  | [] => []
  | p :: ps' => Packet_serialize (sealed c p) :: seal_all (advance c) ps'
  end.

(** What a writer can be given: a plain packet with an 8-bit header that fits
    the frame after encryption. *)
Definition writable (p : Packet) : Prop :=
  encrypted p = false ∧ packet_ok p ∧ Packet_length p + 16 < 2 ^ 31 - 4.

Section Opening.
Context `{SecretBoxLaws}.

Lemma open_sealed r p :
  writable p →
  open_packet (Packet_serialize (sealed (crypto r) p)) r =
    (Ok p, set_crypto (advance (crypto r)) r).
Proof.
  intros (Henc & Hok & _). unfold open_packet.
  rewrite of_string_serialize by exact Hok. run.
  unfold zoom, Packet_decrypt, sealed. cbn [encrypted payload header].
  rewrite M_bind_stop_inv, decrypt_run. cbn. by destruct p as [[] h d].
Qed.

Lemma seal_all_app c ps qs :
  seal_all c (ps ++ qs) = seal_all c ps ++ seal_all (advance_by (length ps) c) qs.
Proof. revert c. induction ps as [|p ps IH]; intros c; cbn; [done|]. by rewrite IH. Qed.

Lemma length_seal_all c ps : length (seal_all c ps) = length ps.
Proof. revert c. induction ps as [|p ps IH]; intros c; cbn; [done|]. by rewrite IH. Qed.

Lemma seal_all_framable c ps : Forall writable ps → Forall framable (seal_all c ps).
Proof.
  intros Hps. revert c. induction Hps as [|p ps Hp Hps IH]; intros c; cbn; constructor; [|done].
  destruct Hp as (_ & _ & Hl). unfold framable.
  rewrite length_serialize, sealed_length. pose proof (Packet_length_pos p). lia.
Qed.

Lemma advance_by_add n m c : advance_by (n + m) c = advance_by m (advance_by n c).
Proof. revert c. induction n as [|n IH]; intros c; cbn; [done|]. apply IH. Qed.

Lemma advance_by_S n c : advance_by (S n) c = advance (advance_by n c).
Proof. rewrite <-Nat.add_1_r. apply advance_by_add. Qed.

Lemma seal_all_take c n ps : take n (seal_all c ps) = seal_all c (take n ps).
Proof.
  revert c n. induction ps as [|p ps IH]; intros c [|n]; cbn; [done..|]. by rewrite IH.
Qed.

Lemma seal_all_drop c n ps :
  (n ≤ length ps)%nat → drop n (seal_all c ps) = seal_all (advance_by n c) (drop n ps).
Proof.
  revert c n. induction ps as [|p ps IH]; intros c [|n] Hn; cbn in *; [done|lia|done|].
  apply IH. lia.
Qed.
End Opening.

(** ** One call of [read] *)

(** A stop that comes from the socket. *)
Definition socket_stop `{SocketHandler W} (f : failure) : Prop :=
  ∃ fd n (k0 k1 : W), sh_read fd n k0 = (Stop f, k1).

Section Reading.
Context {W : Type} `{StreamSocket W} `{!SecretBox} `{!SecretBoxLaws}.
(** What the network loses: the end of the stream, which never arrives. *)
Variable lost : str.

(** The stream invariant between the parts of [read]. *)
Definition holds (r : BackedReader) (k : W) (l : list str) : Prop :=
  partialMessage r ++ incoming k (socketFd r) ++ lost = frames l.

Lemma holds_prefix r k l :
  holds r k l → partialMessage r ++ incoming k (socketFd r) `prefix_of` frames l.
Proof. intros Hh. exists lost. by rewrite <-Hh, app_assoc. Qed.

Lemma holds_append r k k1 s l :
  holds r k l → xfer (socketFd r) s [] k k1 → holds (append_partial s r) k1 l.
Proof. intros Hh (Hx & _). unfold holds in *. cbn. by rewrite <-Hh, Hx, <-!app_assoc. Qed.

Lemma holds_quiet r k k1 l : holds r k l → quiet k k1 → holds r k1 l.
Proof. intros Hh Hq. unfold holds. by rewrite (proj1 (Hq _)). Qed.

(** What the two parts of [read] do before a message is complete. *)
Definition waits (r : BackedReader) (l : list str) (limit : nat) (strict : Prop)
    (s : BackedReader * W) : Prop :=
  ∃ t, s.1 = append_partial t r ∧ holds s.1 s.2 l ∧
    (length (partialMessage s.1) ≤ Nat.max limit (length (partialMessage r)))%nat ∧
    (strict → t ≠ []).

Lemma waits_same r k l n (P : Prop) : holds r k l → ¬ P → waits r l n P (r, k).
Proof.
  intros Hh HP. exists []. cbn [fst snd]. rewrite append_partial_nil.
  split_and!; [done|done|lia|done].
Qed.

Lemma read_header_spec r k l :
  holds r k l →
  wp read_header (λ o s, match o with
    | Ok None => waits r l 4 (length (partialMessage r) < 4)%nat s
    | Ok (Some res) => waits r l 4 False s ∧ ∃ e, res = RError e
    | Stop f => waits r l 4 False s ∧ socket_stop (W := W) f
    end) (r, k).
Proof.
  intros Hh. unfold read_header, wp. run. case_decide as Hlen.
  2: { cbn. apply waits_same; [done|lia]. }
  rewrite run_snd. destruct (sh_read _ _ k) as [o k1] eqn:E.
  pose proof (stream_read _ _ _ _ _ E) as Hx.
  destruct o as [[[|b bs]|e]|f]; run; cbn.
  - split; [|eauto]. apply waits_same; [|tauto]. by apply (holds_quiet r k), (quiet_xfer (socketFd r)), Hx.
  - destruct Hx as [Hle Hx]. exists (b :: bs).
    cbn [mret M_ret fst snd]. split_and!; [done| |..|done].
    + by apply (holds_append r k).
    + cbn [append_partial partialMessage]. rewrite length_app. cbn [length] in *. lia.
  - split; [|eauto]. apply waits_same; [by apply (holds_quiet r k)|tauto].
  - split; [|by do 4 eexists]. apply waits_same; [by apply (holds_quiet r k)|tauto].
Qed.

(** The reader after the packet of a completed message. *)
Definition after_packet (r : BackedReader) : BackedReader :=
  mkReader (advance (crypto r)) (socketFd r) (sequenceNumber r + 1) (localBuffer r) [].

Lemma construct_spec r p :
  writable p → partialMessage r = frame_of (Packet_serialize (sealed (crypto r) p)) →
  constructPartialMessage r = (Ok p, after_packet r).
Proof.
  intros Hw Hp. set (s := Packet_serialize (sealed (crypto r) p)) in *.
  assert (framable s) as Hs
    by (apply (Forall_inv (seal_all_framable (crypto r) [p] (Forall_cons_2 _ _ _ Hw (Forall_nil_2 _))))).
  pose proof Hs as [Hs1 Hs2].
  unfold constructPartialMessage, getPartialMessageLength. run. rewrite Hp.
  assert (len (frame_of s) = 4 + len s) as Hlen by (rewrite length_frame_of; lia).
  rewrite decide_False by (rewrite length_frame_of; lia). run.
  rewrite take_frame_of, be32_roundtrip, drop_frame_of, Hlen.
  do 2 rewrite (to_i32_small (len s)) by lia.
  rewrite to_i32_small by lia. replace (4 + len s - 4) with (len s) by lia.
  rewrite Z.eqb_refl, Nat2Z.id, take_ge by done.
  erewrite M_bind_ok by exact (open_sealed r p Hw). done.
Qed.

Lemma holds_length r k s l :
  holds r k (s :: l) → framable s → (4 ≤ length (partialMessage r))%nat →
  be32_decode (take 4 (partialMessage r)) = len s.
Proof.
  intros Hh Hs Hl. eapply partial_length; [done| |done].
  etrans; [|exact (holds_prefix _ _ _ Hh)]. by apply prefix_app_r.
Qed.

(** A reader that holds the whole of the first frame. *)
Lemma construct_complete r k p l :
  writable p → let s := Packet_serialize (sealed (crypto r) p) in
  holds r k (s :: l) → length (partialMessage r) = length (frame_of s) →
  constructPartialMessage r = (Ok p, after_packet r) ∧ holds (after_packet r) k l.
Proof.
  intros Hw s Hh Hlen. pose proof (holds_prefix _ _ _ Hh) as Hpre. unfold holds in *.
  rewrite frames_cons in Hh, Hpre.
  assert (partialMessage r = frame_of s) as Hp.
  { eapply partial_full; [|done]. etrans; [by apply prefix_app_r|exact Hpre]. }
  split; [by apply construct_spec|]. rewrite Hp in Hh. by apply app_inv_head in Hh.
Qed.

(** What a call of [read] has done when it has completed the packet [p]. *)
Definition took (r : BackedReader) (p : Packet) (l : list str) (p' : Packet)
    (s : BackedReader * W) : Prop :=
  p' = p ∧ s.1 = after_packet r ∧ holds s.1 s.2 l.

Lemma read_body_spec r k p l :
  writable p → let s := Packet_serialize (sealed (crypto r) p) in
  holds r k (s :: l) →
  (4 ≤ length (partialMessage r))%nat →
  (length (partialMessage r) < length (frame_of s))%nat →
  wp read_body (λ o st, match o with
    | Ok (RPacket p') => took r p l p' st
    | Ok RNone => waits r (s :: l) (length (frame_of s) - 1) True st
    | Ok (RError e) => waits r (s :: l) 4 False st
    | Stop f => waits r (s :: l) 4 False st ∧ socket_stop (W := W) f
    end) (r, k).
Proof.
  intros Hw s Hh H4 Hlt.
  assert (framable s) as Hs
    by (apply (Forall_inv (seal_all_framable (crypto r) [p] (Forall_cons_2 _ _ _ Hw (Forall_nil_2 _))))).
  pose proof Hs as [Hs1 Hs2]. rewrite length_frame_of in *.
  unfold read_body, getPartialMessageLength, wp. run. rewrite decide_False by lia. run.
  rewrite (holds_length _ _ _ _ Hh Hs H4). rewrite to_i32_small by lia.
  destruct (len s - (len (partialMessage r) - 4) <? 0) eqn:Hneg; b2p; [lia|].
  destruct (len s - (len (partialMessage r) - 4) =? 0) eqn:Hz; b2p; [lia|].
  rewrite run_snd. destruct (sh_read _ _ k) as [o k1] eqn:E.
  pose proof (stream_read _ _ _ _ _ E) as Hx.
  destruct o as [[[|b bs]|e]|f]; run.
  - apply waits_same; [|tauto]. by apply (holds_quiet r k), (quiet_xfer (socketFd r)), Hx.
  - destruct Hx as [Hle Hx].
    apply (holds_append r k k1 _ (s :: l)) in Hx; [|done].
    assert (length (partialMessage (append_partial (b :: bs) r)) =
      (length (partialMessage r) + length (b :: bs))%nat) as Hl' by apply length_app.
    destruct (_ - len (b :: bs) =? 0) eqn:Hall; b2p.
    + destruct (construct_complete (append_partial (b :: bs) r) k1 p l Hw Hx) as [Hc Hh'];
        [rewrite length_frame_of, Hl'; change (crypto (append_partial _ r)) with (crypto r); fold s; lia|].
      rewrite run_fst, Hc. done.
    + exists (b :: bs). cbn [mret M_ret fst snd]. split_and!; [done|done| |done]. lia.
  - apply waits_same; [by apply (holds_quiet r k)|tauto].
  - split; [|by do 4 eexists]. apply waits_same; [by apply (holds_quiet r k)|tauto].
Qed.

(** What a reader is going to deliver: [qs] from its local buffer, then [ps]
    from the socket. *)
Record expects (r : BackedReader) (k : W) (qs ps : list Packet) : Prop := {
  expects_buffer : localBuffer r = seal_all (crypto r) qs;
  expects_stream : holds r k (seal_all (advance_by (length qs) (crypto r)) ps);
  expects_partial : ∀ p l, ps = p :: l → (length (partialMessage r) <
    length (frame_of (Packet_serialize (sealed (advance_by (length qs) (crypto r)) p))))%nat;
  expects_writable : Forall writable (qs ++ ps);
}.

Lemma expects_append r k k1 qs ps t :
  expects r k qs ps → holds (append_partial t r) k1 (seal_all (advance_by (length qs) (crypto r)) ps) →
  (∀ p l, ps = p :: l → (length (partialMessage r ++ t) <
    length (frame_of (Packet_serialize (sealed (advance_by (length qs) (crypto r)) p))))%nat) →
  expects (append_partial t r) k1 qs ps.
Proof. intros [? ? ? ?] ? ?. by split. Qed.

(** The frame of a sealed packet is longer than its header. *)
Lemma sealed_frame_long c p :
  (22 ≤ length (frame_of (Packet_serialize (sealed c p))))%nat.
Proof.
  rewrite length_frame_of. pose proof (length_serialize (sealed c p)) as Hl.
  rewrite sealed_length in Hl. unfold Packet_length, HEADER_SIZE in Hl. lia.
Qed.

Definition read_post (r : BackedReader) (qs ps : list Packet)
    (o : outcome read_result) (st : BackedReader * W) : Prop :=
  let '(r', k') := st in
  socketFd r' = socketFd r ∧
  match o with
  | Ok (RPacket p) => ∃ qs' ps', qs ++ ps = p :: qs' ++ ps' ∧ ps' `suffix_of` ps ∧
      crypto r' = advance (crypto r) ∧ expects r' k' qs' ps' ∧
      sequenceNumber r' - len qs' = sequenceNumber r - len qs + 1
  | Ok RNone => expects r' k' qs ps ∧ qs = [] ∧ crypto r' = crypto r ∧
      sequenceNumber r' = sequenceNumber r ∧
      (length (partialMessage r) < length (partialMessage r'))%nat
  | Ok (RError _) => expects r' k' qs ps ∧ qs = [] ∧ crypto r' = crypto r ∧
      sequenceNumber r' = sequenceNumber r
  | Stop f => expects r' k' qs ps ∧ crypto r' = crypto r ∧
      sequenceNumber r' = sequenceNumber r ∧ socket_stop (W := W) f
  end.

Lemma waits_expects r k ps n (P : Prop) st :
  expects r k [] ps → waits r (seal_all (crypto r) ps) n P st →
  (∀ p l, ps = p :: l →
     (n < length (frame_of (Packet_serialize (sealed (crypto r) p))))%nat) →
  expects st.1 st.2 [] ps ∧ socketFd st.1 = socketFd r ∧ crypto st.1 = crypto r ∧
  sequenceNumber st.1 = sequenceNumber r ∧ localBuffer st.1 = localBuffer r ∧
  (length (partialMessage r) ≤ length (partialMessage st.1))%nat ∧
  (P → (length (partialMessage r) < length (partialMessage st.1))%nat).
Proof.
  intros He (t & Heq & Hh & Hle & Ht) Hn. rewrite Heq in *. split; [|split_and!; try done].
  - apply (expects_append r k); [done|done|]. intros p l Hpl. cbn [append_partial partialMessage] in Hle.
    pose proof (expects_partial _ _ _ _ He p l Hpl). specialize (Hn p l Hpl). cbn in *. lia.
  - cbn [append_partial partialMessage]. rewrite length_app. lia.
  - intros HP%Ht. cbn [append_partial partialMessage]. rewrite length_app.
    destruct t; [done|cbn; lia].
Qed.

Lemma holds_nil r k : holds r k [] → partialMessage r = [].
Proof. intros Hx. by apply app_nil in Hx as [? _]. Qed.

(** When the network loses nothing and has delivered everything, nothing is left to come. *)
Lemma expects_all r k qs ps :
  lost = [] → incoming k (socketFd r) = [] → expects r k qs ps → ps = [].
Proof.
  intros Hl Hin [_ Hh Hp _]. unfold holds in Hh. rewrite Hl, Hin, !app_nil_r in Hh.
  destruct ps as [|p ps]; [done|]. specialize (Hp p ps eq_refl). rewrite Hh in Hp. cbn [seal_all] in Hp.
  rewrite frames_cons, length_app in Hp. lia.
Qed.

(** Reading from the local buffer. *)
Lemma read_local r k q qs ps :
  0 <= socketFd r → expects r k (q :: qs) ps →
  wp read (read_post r (q :: qs) ps) (r, k).
Proof.
  intros Hfd [Hbuf Hstream Hpart Hw]. pose proof (Forall_inv Hw) as Hq.
  unfold read, wp. run. rewrite (proj2 (Z.ltb_ge _ _) Hfd), Hbuf. cbn [seal_all].
  pose proof (open_sealed r q Hq) as Ho. unfold open_packet in Ho.
  rewrite of_string_serialize in Ho |- * by apply Hq. run.
  rewrite run_lift_ok in Ho. rewrite run_fst. unfold zoom in *. cbn [set_localBuffer crypto].
  destruct (Packet_decrypt _ _) as [[p'|] c'] eqn:E; [|by injection Ho].
  injection Ho as -> ->. cbn.
  split; [done|]. exists qs, ps. split; [done|]. split; [done|]. split; [done|]. split; [|lia].
  split; try done. by apply Forall_inv_tail in Hw.
Qed.

Lemma took_expects r k p ps p' st :
  expects r k [] (p :: ps) → took r p (seal_all (advance (crypto r)) ps) p' st →
  read_post r [] (p :: ps) (Ok (RPacket p')) st.
Proof.
  intros [Hbuf _ _ Hw] (-> & Heq & Hh). destruct st as [r' k']. cbn [fst snd] in *. subst r'.
  split; [done|]. exists [], ps. split; [done|]. split; [by apply suffix_cons_r|].
  split; [done|]. split; [|cbn; lia]. split; [exact Hbuf|exact Hh| |by apply Forall_inv_tail in Hw].
  intros p' l _. cbn [after_packet partialMessage crypto].
  pose proof (sealed_frame_long (advance_by (@length Packet []) (advance (crypto r))) p').
  cbn [length] in *. lia.
Qed.

(** The second part of a read, from a reader that has the header. *)
Lemma read_body_post r k p ps :
  expects r k [] (p :: ps) → (4 ≤ length (partialMessage r))%nat →
  wp read_body (read_post r [] (p :: ps)) (r, k).
Proof.
  intros He H4. pose proof (Forall_inv (expects_writable _ _ _ _ He)) as Hp.
  pose proof (read_body_spec r k p (seal_all (advance (crypto r)) ps) Hp (expects_stream _ _ _ _ He) H4
    (expects_partial _ _ _ _ He p ps eq_refl)) as Hb.
  eapply wp_mono; [exact Hb|]. pose proof (sealed_frame_long (crypto r) p).
  change (_ :: seal_all (advance (crypto r)) ps) with (seal_all (crypto r) (p :: ps)).
  intros [[p'| |e]|f] st Hst; [by apply (took_expects r k)|..].
  - apply (waits_expects r k) in Hst as (? & ? & ? & ? & ? & ? & Hg); [|done|].
    2: { intros ? ? [= <- <-]. cbn in *. lia. }
    destruct st. cbn in *. split_and!; auto.
  - apply (waits_expects r k) in Hst as (? & ? & ? & ? & _); [|done|].
    2: { intros ? ? [= <- <-]. lia. }
    destruct st. cbn in *. split_and!; auto.
  - destruct Hst as [Hst Hs]. apply (waits_expects r k) in Hst as (? & ? & ? & ? & _); [|done|].
    2: { intros ? ? [= <- <-]. lia. }
    destruct st. cbn in *. split_and!; auto.
Qed.

Lemma read_post_same r r1 ps o st :
  socketFd r1 = socketFd r → crypto r1 = crypto r → sequenceNumber r1 = sequenceNumber r →
  (length (partialMessage r) ≤ length (partialMessage r1))%nat →
  read_post r1 [] ps o st → read_post r [] ps o st.
Proof.
  intros Hf Hc Hs Hl. destruct st as [r' k']. unfold read_post. rewrite Hf, Hc, Hs.
  intros [? Ho]. split; [done|]. destruct o as [[p| |e]|f]; try done.
  destruct Ho as (? & ? & ? & ? & ?). split_and!; auto. lia.
Qed.

(** Reading from the socket. *)
Lemma read_socket r k ps :
  0 <= socketFd r → expects r k [] ps → wp read (read_post r [] ps) (r, k).
Proof.
  intros Hfd He. pose proof He as [Hbuf Hstream Hpart Hw].
  assert (∀ (p : Packet) (l : list Packet), ps = p :: l →
     (4 < length (frame_of (Packet_serialize (sealed (crypto r) p))))%nat) as H4
    by (intros p l _; pose proof (sealed_frame_long (crypto r) p); lia).
  pose proof (read_header_spec r k _ Hstream) as Hr. unfold wp, read in *. run.
  rewrite (proj2 (Z.ltb_ge _ _) Hfd), Hbuf. cbn [seal_all]. rewrite M_bind_stop_inv.
  destruct (read_header (r, k)) as [[[res|]|f] [r1 k1]]; cbn [fst snd] in Hr.
  - destruct Hr as [Hr [e ->]].
    apply (waits_expects r k) in Hr as (? & ? & ? & ? & ? & _); [|done..]. done.
  - run. apply (waits_expects r k) in Hr as (He1 & Hfd1 & Hc1 & Hs1 & Hb1 & Hle1 & Hg1); [|done..].
    cbn [fst snd] in *. case_decide as Hlen; [cbn; split_and!; [done..|]; apply Hg1; lia|].
    apply Nat.nlt_ge in Hlen. destruct ps as [|p ps].
    { pose proof (holds_nil _ _ (expects_stream _ _ _ _ He1)) as Hp1. rewrite Hp1 in Hlen.
      cbn in Hlen. lia. }
    apply (read_post_same r r1); [done..|]. by apply read_body_post.
  - destruct Hr as [Hr Hs].
    apply (waits_expects r k) in Hr as (? & ? & ? & ? & ? & _); [|done..]. done.
Qed.

(** C5. [BackedReader::read] delivers the framed stream in order, however the
    socket splits it, and wherever it ends.  From a reader that expects the packets [qs] (recovered,
    in its local buffer) and then [ps] (on the socket, possibly cut anywhere),
    a call returns the next packet, decrypted, and expects the rest; or it
    returns 0, having made progress inside the next frame; or -1 with
    everything it has kept for the next call.  It never aborts the process, and
    only passes on what the socket throws. *)
Theorem read_delivers r k qs ps :
  0 <= socketFd r → expects r k qs ps → wp read (read_post r qs ps) (r, k).
Proof.
  intros Hfd He. destruct qs as [|q qs]; [by apply read_socket|by apply read_local].
Qed.

(** The frame header is trusted before anything is authenticated: once the
    four header bytes are there, a negative length makes [read] throw
    [length_error] (which is not a [runtime_error]), and a length of zero makes
    it index the empty string (undefined); the message is never consumed, so the
    same happens on every further call. *)
Theorem read_bad_header r k :
  0 <= socketFd r → localBuffer r = [] → length (partialMessage r) = 4%nat →
  let n := be32_decode (partialMessage r) in
  (n < 0 → read (r, k) = (Stop (Throw (Exn LogicError "basic_string::_M_create")), (r, k))) ∧
  (n = 0 → read (r, k) = (Stop (UB "operator[] past the end of the string"), (r, k))).
Proof.
  intros Hfd Hbuf H4 n.
  assert (take 4 (partialMessage r) = partialMessage r) as Htake by (apply take_ge; lia).
  unfold read, read_header, read_body, getPartialMessageLength.
  split; intros Hn; run; rewrite (proj2 (Z.ltb_ge _ _) Hfd), Hbuf;
    rewrite M_bind_stop_inv; run; rewrite H4, decide_False by lia; cbn [mret M_ret]; run;
    rewrite H4, decide_False by lia; run; rewrite H4, decide_False, Htake by lia; run; fold n.
  - pose proof (to_i32_range (le_decode (rev (partialMessage r)))) as Hr.
    rewrite to_i32_small by (fold (be32_decode (partialMessage r)) in Hr; fold n in Hr; lia).
    rewrite (proj2 (Z.ltb_lt _ 0)) by lia. done.
  - rewrite Hn. change (to_i32 (0 - (Z.of_nat 4 - 4))) with 0. cbn [Z.ltb Z.eqb Z.compare].
    rewrite run_fst. unfold constructPartialMessage, getPartialMessageLength. run.
    rewrite H4, decide_False, Htake by lia. run. fold n. by rewrite Hn.
Qed.
End Reading.

(** ** Witnesses *)

Section Witnesses.
#[local] Existing Instance example_secretbox.
#[local] Existing Instance example_secretbox_laws.

Definition r_packets : list Packet := [Packet_new 1 (lit "hello"); Packet_new 2 (lit "world")].

(** Two packets on the wire, in pieces. *)
Definition r_wire : Wire :=
  with_plan (with_in wire0 3 (frames (seal_all w_crypto r_packets))) [2; 2; 7]%nat.

Lemma read_delivers_witness :
  let st := read (read (read (Reader.init w_crypto 3, r_wire)).2).2 in
  st.1 = Ok (RPacket (Packet_new 1 (lit "hello"))) ∧
  read_post [] (Reader.init w_crypto 3) [] r_packets
    (read (Reader.init w_crypto 3, r_wire)).1 (read (Reader.init w_crypto 3, r_wire)).2.
Proof.
  split; [vm_compute; reflexivity|].
  apply (read_delivers [] (Reader.init w_crypto 3) r_wire [] r_packets); [cbn; lia|].
  split; [reflexivity|vm_compute; reflexivity| |].
  - intros p l _. cbn. pose proof (sealed_frame_long w_crypto p). lia.
  - change (Forall writable r_packets). unfold r_packets, writable, packet_ok.
    repeat constructor; vm_compute; congruence.
Defined.

Lemma read_bad_header_witness :
  let r := mkReader w_crypto 3 0 [] (be32_encode (-5)) in
  read (r, wire0) = (Stop (Throw (Exn LogicError "basic_string::_M_create")), (r, wire0)).
Proof.
  apply (read_bad_header (mkReader w_crypto 3 0 [] (be32_encode (-5))) wire0); vm_compute; congruence.
Defined.
End Witnesses.
