(* ===== verification/Connection.v ===== *)
(** * [Connection]: an encrypted connection that can be recovered

    [Connection.cpp] and [Connection.hpp]: the state of a connection, one
    definition per method, and what each does to the reader, the writer and the
    socket.  The one method that subclasses override,
    [closeSocketAndMaybeReconnect], comes with the class [ConnectionObject]; the
    methods that call it are written against that interface. *)

From S2P Require Import Prelude Sockets Crypto Packets Backed.

(** ** Messages of [proto/ET.proto] *)

Record SequenceHeader := mkSequenceHeader { sh_sequenceNumber : option Z }.
Record CatchupBuffer := mkCatchupBuffer { cb_buffer : list str }.

(** [sequencenumber()]: the default of an absent [int32] is 0. *)
Definition sequencenumber (h : SequenceHeader) : Z := default 0 (sh_sequenceNumber h).

Definition isSkippableError (err_no : Z) : bool :=
  (err_no =? EAGAIN) || (err_no =? ECONNRESET) || (err_no =? ETIMEDOUT) ||
  (err_no =? EWOULDBLOCK) || (err_no =? EHOSTUNREACH) || (err_no =? EPIPE) ||
  (err_no =? ENOTCONN) || (err_no =? ECONNABORTED) || (err_no =? ENETDOWN) ||
  (err_no =? ENETUNREACH) || (err_no =? ENETRESET) || (err_no =? EHOSTDOWN) ||
  (err_no =? EPROTOTYPE) || (err_no =? EBADF).

(** ** The state *)
Module Conn.

Record Connection := mkConnection {
  id : str;
  key : str;
  socketFd : Z;
  shuttingDown : bool;
  reader : option Reader.BackedReader;
  writer : option Writer.BackedWriter;
}.

Definition init (i k : str) : Connection := mkConnection i k (-1) false None None.

Definition set_socketFd (fd : Z) (c : Connection) : Connection :=
  mkConnection (id c) (key c) fd (shuttingDown c) (reader c) (writer c).
Definition set_shuttingDown (b : bool) (c : Connection) : Connection :=
  mkConnection (id c) (key c) (socketFd c) b (reader c) (writer c).
Definition set_reader (r : option Reader.BackedReader) (c : Connection) : Connection :=
  mkConnection (id c) (key c) (socketFd c) (shuttingDown c) r (writer c).
Definition set_writer (w : option Writer.BackedWriter) (c : Connection) : Connection :=
  mkConnection (id c) (key c) (socketFd c) (shuttingDown c) (reader c) w.

(** The part of [closeSocket] before the socket itself is closed. *)
Definition invalidate (c : Connection) : Connection :=
  mkConnection (id c) (key c) (-1) (shuttingDown c)
    (Reader.invalidateSocket <$> reader c) (Writer.invalidateSocket <$> writer c).

Definition isDisconnected (c : Connection) : bool := socketFd c =? -1.

Definition canBufferWrite (bytes : Z) (c : Connection) : bool :=
  if shuttingDown c then true
  else match writer c with
       | Some w => Writer.hasBufferCapacity bytes w
       | None => false
       end.

(** ** The methods of the base class *)
Section Base.
Context {W : Type} `{SocketHandler W} `{SecretBox}.
Context `{Proto SequenceHeader} `{Proto CatchupBuffer}.

Definition closeSocket : M (Connection * W) unit :=
  c ← on_fst get;
  if socketFd c =? -1 then mret tt
  else
    _ ← on_fst (modify invalidate);
    on_snd (sh_close (socketFd c)).

Definition shutdown : M (Connection * W) unit :=
  _ ← on_fst (modify (set_shuttingDown true));
  closeSocket.

Definition Connection_destroy : M (Connection * W) unit :=
  c ← on_fst get;
  if negb (socketFd c =? -1) then closeSocket else mret tt.

Definition hasData : M (Connection * W) bool := λ '(c, k),
  match reader c with
  | None => (Ok false, (c, k))
  | Some r =>
    let '(o, (r', k')) := Reader.hasData (r, k) in
    (o, (set_reader (Some r') c, k'))
  end.

(** Dereferencing the null [reader] or [writer] is undefined. *)
Definition the_reader : M (Connection * W) Reader.BackedReader :=
  c ← on_fst get;
  match reader c with
  | Some r => mret r
  | None => undefined "null reader"
  end.

Definition the_writer : M (Connection * W) Writer.BackedWriter :=
  c ← on_fst get;
  match writer c with
  | Some w => mret w
  | None => undefined "null writer"
  end.

(** The body of the [try] of [recover]. *)
Definition recover_exchange (fuel : nat) (newSocketFd : Z) : M (Connection * W) bool :=
  r ← the_reader;
  w ← the_writer;
  let sh := mkSequenceHeader (Some (to_i32 (Reader.getSequenceNumber r))) in
  _ ← on_snd (writeProto fuel newSocketFd sh true);
  remoteHeader ← on_snd (readProto SequenceHeader fuel newSocketFd true);
  recoveredMessages ← lift (Writer.recover (sequencenumber remoteHeader) w);
  _ ← on_snd (writeProto fuel newSocketFd (mkCatchupBuffer recoveredMessages) true);
  catchupBuffer ← on_snd (readProto CatchupBuffer fuel newSocketFd true);
  _ ← on_fst (modify (set_socketFd newSocketFd));
  _ ← on_fst (modify (set_reader
        (Some (Reader.revive newSocketFd (cb_buffer catchupBuffer) r))));
  _ ← on_fst (modify (set_writer (Some (Writer.revive newSocketFd w))));
  mret true.

Definition recover (fuel : nat) (newSocketFd : Z) : M (Connection * W) bool :=
  catch_runtime (recover_exchange fuel newSocketFd) (λ _,
    _ ← on_snd (sh_close newSocketFd);
    mret false).
End Base.

End Conn.

(** ** The interface to the subclasses *)

Class ConnectionObject (W O : Type) := {
  as_conn : O → Conn.Connection;
  with_conn : Conn.Connection → O → O;
  closeSocketAndMaybeReconnect : M (O * W) unit;
}.

(** What a subclass promises: the base part is a field, and
    [closeSocketAndMaybeReconnect] does to it (and to the sockets) what
    [closeSocket] does. *)
Class ConnectionObjectLaws (W O : Type) `{SocketHandler W} `{ConnectionObject W O} := {
  as_with c (o : O) : as_conn (with_conn c o) = c;
  closes_like_base o (k : W) o' k' :
    closeSocketAndMaybeReconnect (o, k) = (Ok tt, (o', k')) →
    Conn.closeSocket (as_conn o, k) = (Ok tt, (as_conn o', k'));
}.

(** ** The methods that may reconnect *)
Module ConnOps.
Import Conn.

Section Ops.
Context {W O : Type} `{SocketHandler W} `{ConnectionObject W O} `{SecretBox}.

Definition on_conn {A} (m : M (Connection * W) A) : M (O * W) A := λ '(o, k),
  let '(r, (c, k')) := m (as_conn o, k) in (r, (with_conn c o, k')).

Definition on_reader {A} (r : Reader.BackedReader) (m : M (Reader.BackedReader * W) A)
    : M (O * W) A := λ '(o, k),
  let '(res, (r', k')) := m (r, k) in
  (res, (with_conn (set_reader (Some r') (as_conn o)) o, k')).

Definition on_writer {A} (w : Writer.BackedWriter) (m : M (Writer.BackedWriter * W) A)
    : M (O * W) A := λ '(o, k),
  let '(res, (w', k')) := m (w, k) in
  (res, (with_conn (set_writer (Some w') (as_conn o)) o, k')).

(** [None] is the return value [false]. *)
Definition read : M (O * W) (option Packet) :=
  o ← on_fst get;
  match reader (as_conn o) with
  | None => mret None
  | Some r =>
    messagesRead ← on_reader r Reader.read;
    match messagesRead with
    | Reader.RError localErrno =>
      if isSkippableError localErrno
      then _ ← closeSocketAndMaybeReconnect; mret None
      else _ ← closeSocketAndMaybeReconnect; mret None
    | Reader.RNone => mret None
    | Reader.RPacket packet => mret (Some packet)
    end
  end.

Definition write (fuel : nat) (packet : Packet) : M (O * W) bool :=
  o ← on_fst get;
  match writer (as_conn o) with
  | None => mret false
  | Some w =>
    res ← on_writer w (Writer.write fuel packet);
    let '(bwws, writeErrno) := res in
    match bwws with
    | SKIPPED => mret false
    | BUFFERED_ONLY => mret true
    | WROTE_WITH_FAILURE =>
      o ← on_fst get;
      if socketFd (as_conn o) =? -1 then mret true
      else if isSkippableError writeErrno
      then _ ← closeSocketAndMaybeReconnect; mret true
      else _ ← closeSocketAndMaybeReconnect; mret true
    | SUCCESS => mret true
    end
  end.

Definition readPacket : M (O * W) (option Packet) :=
  o ← on_fst get;
  if shuttingDown (as_conn o) then mret None
  else
    result ← read;
    match result with
    | Some p => mret (Some p)
    | None => mret None
    end.

(** The loop of [writePacket]; it ends with [true] when the packet was written
    and [false] on shutdown.  Each pair of [env] is what the other threads do to
    the object while the mutex is free: before the write and during the sleep
    of one more attempt. *)
Fixpoint writePacket (fuel : nat) (env : list ((O → O) * (O → O))) (packet : Packet)
    : M (O * W) bool :=
  o ← on_fst get;
  if shuttingDown (as_conn o) then mret false
  else
    match env with
    | [] => stop OutOfFuel
    | (before, during) :: env' =>
      _ ← on_fst (modify before);
      success ← write fuel packet;
      if success : bool then mret true
      else
        o ← on_fst get;
        let hasConnection := negb (socketFd (as_conn o) =? -1) in
        _ ← on_snd (sh_sleep (if hasConnection then 1000 else 100 * 1000));
        _ ← on_fst (modify during);
        writePacket fuel env' packet
    end.
End Ops.
End ConnOps.

(** ** The default of the base class: [closeSocket], no reconnect *)

Definition base_object {W} `{SocketHandler W} : ConnectionObject W Conn.Connection := {|
  as_conn c := c;
  with_conn c _ := c;
  closeSocketAndMaybeReconnect := Conn.closeSocket;
|}.

Lemma base_object_laws {W} `{SocketHandler W} : @ConnectionObjectLaws W Conn.Connection _ base_object.
Proof. by split. Qed.

(** ** Example messages *)

#[export] Instance SequenceHeader_eq_dec : EqDecision SequenceHeader.
Proof. solve_decision. Defined.
#[export] Instance SequenceHeader_countable : Countable SequenceHeader.
Proof. by apply (inj_countable' sh_sequenceNumber mkSequenceHeader); intros []. Defined.
#[export] Instance CatchupBuffer_eq_dec : EqDecision CatchupBuffer.
Proof. solve_decision. Defined.
#[export] Instance CatchupBuffer_countable : Countable CatchupBuffer.
Proof. by apply (inj_countable' cb_buffer mkCatchupBuffer); intros []. Defined.
