(* ===== verification/Endpoint.v ===== *)
(** * An endpoint on one network connection

    Between two recoveries an endpoint reads, writes and closes.  Its sending
    half ([send_half]) has accepted a list of packets and puts exactly their
    frames on the wire, a prefix of them when the connection ends early; its
    receiving half ([receive_half]) delivers what the other side framed, in order.
    [live_run] is any sequence of calls that return; the two lemmas at the end say
    what such a run does to each half. *)

From S2P Require Import Prelude Sockets Crypto Packets Wire Backed WriterSpec ReaderSpec Connection.
Import Conn ConnOps.

(** ** The two sides of a direction *)

(** A writer that has accepted the packets [P], starting from the handler [c0]. *)
Definition sender `{SecretBox} (w : Writer.BackedWriter) (c0 : CryptoHandler)
    (P : list Packet) : Prop :=
  represents w (seal_all c0 P) ∧ Writer.crypto w = advance_by (length P) c0 ∧
  Forall writable P.

(** A reader that has delivered [D], and holds [Q] in its local buffer. *)
Definition receiver `{SecretBox} (r : Reader.BackedReader) (d0 : CryptoHandler)
    (D Q : list Packet) : Prop :=
  Reader.crypto r = advance_by (length D) d0 ∧
  Reader.localBuffer r = seal_all (Reader.crypto r) Q ∧
  Reader.sequenceNumber r = len D + len Q ∧ Forall writable Q.

(** The two halves of an endpoint: its connection is either live on the descriptor
    [fd] or closed; while it is live the packets [S] are still to come from the
    socket, but for the bytes [lost] at their end. *)
Definition send_half {W O} `{ConnectionObject W O} `{SecretBox}
    (fd : Z) (c0 : CryptoHandler) (P : list Packet) (o : O) : Prop :=
  ∃ w, writer (as_conn o) = Some w ∧ sender w c0 P ∧
    (socketFd (as_conn o) = fd ∧ Writer.socketFd w = fd ∧ 0 <= fd ∨
     socketFd (as_conn o) = -1 ∧ Writer.socketFd w = -1).

Definition receive_half {W O} `{Streams W} `{ConnectionObject W O} `{SecretBox}
    (lost : str) (fd : Z) (d0 : CryptoHandler) (D Q S : list Packet) (st : O * W) : Prop :=
  ∃ r, reader (as_conn st.1) = Some r ∧ receiver r d0 D Q ∧
    (socketFd (as_conn st.1) = fd ∧ Reader.socketFd r = fd ∧ 0 <= fd ∧ expects lost r st.2 Q S ∨
     socketFd (as_conn st.1) = -1 ∧ Reader.socketFd r = -1).

(** ** What the operations do to the two sides *)

Section Sides.
Context {W : Type} `{StreamSocket W} `{!SecretBox} `{!SecretBoxLaws}.

Lemma sender_snoc w c0 P p w' :
  sender w c0 P → writable p → accept p w = Ok w' → sender w' c0 (P ++ [p]).
Proof.
  intros (Hrep & Hc & HP) Hp Hacc.
  destruct (accept_spec p w _ Hrep) as (w1 & Hacc' & Hrep' & Hc' & _).
  rewrite Hacc in Hacc'. simplify_eq. split_and!.
  - rewrite seal_all_app, <-Hc. exact Hrep'.
  - rewrite Hc', Hc, length_app, Nat.add_comm. by rewrite <-advance_by_S.
  - apply Forall_app. by auto.
Qed.

Lemma sender_invalidate w c0 P : sender w c0 P → sender (Writer.invalidateSocket w) c0 P.
Proof. intros (? & ? & ?). split_and!; [by apply represents_invalidate|done..]. Qed.

Lemma receiver_invalidate r d0 D Q :
  receiver r d0 D Q → receiver (Reader.invalidateSocket r) d0 D Q.
Proof. done. Qed.

(** One [write]. *)
Lemma write_sender fuel w c0 P p k o w' k' :
  sender w c0 P → writable p → Writer.write fuel p (w, k) = (o, (w', k')) →
  match o with
  | Ok (SKIPPED, _) => w' = w ∧ k' = k
  | Ok (st, _) =>
    sender w' c0 (P ++ [p]) ∧ Writer.socketFd w' = Writer.socketFd w ∧
    if Writer.socketFd w <? 0 then k' = k ∧ st = BUFFERED_ONLY
    else st ≠ BUFFERED_ONLY ∧ ∃ s, xfer (Writer.socketFd w) [] s k k' ∧
      s `prefix_of` frames (seal_all (advance_by (length P) c0) [p]) ∧
      (st = SUCCESS → s = frames (seal_all (advance_by (length P) c0) [p]))
  | Stop _ => True
  end.
Proof.
  intros Hs Hp Hrun. pose proof Hs as (Hrep & Hc & _). pose proof Hp as (Henc & _).
  destruct (accept_spec p w _ Hrep) as (w1 & Hacc & _ & _ & Hfd & _).
  pose proof (sender_snoc _ _ _ _ _ Hs Hp Hacc) as Hs1.
  rewrite (write_run fuel p w k w1 Henc Hacc), Hfd in Hrun.
  destruct (Writer.socketFd w <? 0) eqn:Hneg; cbn [andb] in Hrun.
  - case_match; [by simplify_eq|]. simplify_eq. split_and!; try done.
    destruct Hs1 as (? & ? & ?). split_and!; [by apply represents_add_disconnected|done..].
  - pose proof (send_loop_spec fuel (Writer.socketFd w) (frame (sealed (Writer.crypto w) p)) k) as Hl.
    unfold wp in Hl. destruct (Writer.send_loop _ _ _ k) as [o1 k1]. injection Hrun as <- <- <-.
    cbn [fst snd] in Hl. destruct Hl as (s & Hx & Hpre & Ho). rewrite frame_frame_of, Hc in Hpre, Ho.
    assert (frames (seal_all (advance_by (length P) c0) [p]) =
      frame_of (Packet_serialize (sealed (advance_by (length P) c0) p))) as Hf
      by (unfold frames; cbn; by rewrite app_nil_r).
    destruct o1 as [[st e]|]; [|done]. destruct Ho as (Hall & ? & ?).
    rewrite Hf. destruct st; try done; (split; [done|]; split; [done|]; split; [done|]; by exists s).
Qed.
End Sides.

(** ** Reading sends nothing *)

Definition silent `{Streams W} {R A} (m : M (R * W) A) : Prop :=
  ∀ s fd, outgoing (m s).2.2 fd = outgoing s.2 fd.

Section Silent.
Context {W : Type} `{StreamSocket W} {R : Type}.

Lemma silent_bind {A B} (m : M (R * W) A) (f : A → M (R * W) B) :
  silent m → (∀ a, silent (f a)) → silent (m ≫= f).
Proof.
  intros Hm Hf s fd. specialize (Hm s fd). rewrite M_bind_stop_inv.
  destruct (m s) as [[a|e] s1]; cbn in *; [|done]. by rewrite Hf.
Qed.

Lemma silent_fst {A} (m : M R A) : silent (on_fst m).
Proof. intros [r k] fd. unfold on_fst, zoom. cbn. by destruct (m r). Qed.

Lemma silent_ret {A} (a : A) : silent (mret a : M (R * W) A).
Proof. done. Qed.

Lemma silent_lift {A} (o : outcome A) : silent (lift o : M (R * W) A).
Proof. done. Qed.

Lemma silent_read fd n : silent (on_snd (sh_read fd n) : M (R * W) _).
Proof.
  intros [r k] fd'. unfold on_snd, zoom. cbn.
  destruct (sh_read fd n k) as [o k1] eqn:E. cbn.
  apply stream_read in E.
  destruct o as [[x|e]|f]; cbn; [|by destruct (E fd')..].
  destruct E as (_ & _ & Hout & Hoth).
  destruct (decide (fd' = fd)) as [->|Hne]; [by rewrite Hout, app_nil_r|].
  by destruct (Hoth fd' Hne).
Qed.
End Silent.

Create HintDb silent.
#[export] Hint Resolve silent_fst silent_ret silent_lift silent_read : silent.
#[export] Hint Extern 1 (silent (_ ≫= _)) => apply silent_bind; [|intros] : silent.

Lemma reader_read_silent {W} `{StreamSocket W} `{!SecretBox} :
  silent (W := W) Reader.read.
Proof.
  unfold Reader.read, Reader.read_header, Reader.read_body.
  repeat first
    [ apply silent_bind; [|intros]
    | apply silent_fst | apply silent_ret | apply silent_lift | apply silent_read
    | done
    | case_match | case_decide ].
Qed.

(** ** The life of an endpoint on one connection *)

Section Live.
Context {W O : Type} `{StreamSocket W} `{!SecretBox} `{!SecretBoxLaws}.
Context `{!ConnectionObject W O} `{!ConnectionObjectLaws W O}.
(** What the network loses at the end of the stream. *)
Variable lost : str.

(** The bytes that were sent on [fd] between two states. *)
Definition sent (fd : Z) (k k' : W) (s : str) : Prop := outgoing k' fd = outgoing k fd ++ s.

(** What a close does to the connection. *)
Definition closed (st st' : O * W) : Prop :=
  quiet st.2 st'.2 ∧
  if socketFd (as_conn st.1) =? -1 then as_conn st'.1 = as_conn st.1
  else as_conn st'.1 = invalidate (as_conn st.1).

(** The streams of one descriptor are as they were. *)
Definition untouched (fd : Z) (k k' : W) : Prop :=
  incoming k' fd = incoming k fd ∧ outgoing k' fd = outgoing k fd.

(** Any sequence of calls that return, and of other work of the program that leaves the
    connection and, while it is live, its descriptor [fd] alone (a descriptor that was
    closed may be given to somebody else); the packets that were accepted and delivered,
    and the bytes that the connection has sent. *)
Inductive live_run (fd : Z) : O * W → list Packet → list Packet → str → O * W → Prop :=
| live_nil st : live_run fd st [] [] [] st
| live_write fuel p st b st1 s acc del bytes st2 :
    writable p → ConnOps.write fuel p st = (Ok b, st1) → sent fd st.2 st1.2 s →
    live_run fd st1 acc del bytes st2 →
    live_run fd st (if b : bool then p :: acc else acc) del (s ++ bytes) st2
| live_read st r st1 acc del bytes st2 :
    ConnOps.read st = (Ok r, st1) → live_run fd st1 acc del bytes st2 →
    live_run fd st acc (option_list r ++ del) bytes st2
| live_close st st1 acc del bytes st2 :
    closed st st1 → live_run fd st1 acc del bytes st2 → live_run fd st acc del bytes st2
| live_other st st1 acc del bytes st2 :
    as_conn st1.1 = as_conn st.1 →
    (socketFd (as_conn st.1) ≠ -1 → untouched fd st.2 st1.2) →
    live_run fd st1 acc del bytes st2 → live_run fd st acc del bytes st2.

Lemma live_run_app fd st acc del bytes st1 acc' del' bytes' st2 :
  live_run fd st acc del bytes st1 → live_run fd st1 acc' del' bytes' st2 →
  live_run fd st (acc ++ acc') (del ++ del') (bytes ++ bytes') st2.
Proof.
  intros R1 R2. induction R1 as [st|fuel p st b st1 s acc del bytes st3 Hp Hw Hs _ IH
    |st r st1 acc del bytes st3 Hr _ IH|st st1 acc del bytes st3 Hc _ IH|st st1 acc del bytes st3 Hc Hu _ IH];
    cbn [app]; try specialize (IH R2); [done|..].
  - replace ((if b then p :: acc else acc) ++ acc') with (if b then p :: (acc ++ acc') else acc ++ acc')
      by by destruct b.
    rewrite <-app_assoc. by eapply live_write.
  - rewrite <-app_assoc. by eapply live_read.
  - by eapply live_close.
  - by eapply live_other.
Qed.

(** Closing the socket. *)
Lemma closeSocket_effect (c : Connection) (k : W) c' k' :
  closeSocket (c, k) = (Ok tt, (c', k')) →
  quiet k k' ∧ if socketFd c =? -1 then c' = c else c' = invalidate c.
Proof.
  unfold closeSocket. rewrite run_fst_get.
  destruct (socketFd c =? -1); [by intros [= <- <-]|].
  rewrite run_fst_modify. unfold on_snd, zoom. cbn [fst snd].
  destruct (sh_close _ k) as [oc k1] eqn:E. intros [= -> <- <-].
  split; [by eapply stream_close|done].
Qed.

Lemma close_effect (o : O) (k : W) o' k' :
  closeSocketAndMaybeReconnect (o, k) = (Ok tt, (o', k')) → closed (o, k) (o', k').
Proof. intros Hc%closes_like_base%closeSocket_effect. exact Hc. Qed.

Lemma closed_dead (o : O) (k : W) o' k' :
  closed (o, k) (o', k') → socketFd (as_conn o') = -1.
Proof.
  intros [_ Hc]. cbn [fst snd] in *. destruct (socketFd (as_conn o) =? -1) eqn:E; b2p; by rewrite Hc.
Qed.

Lemma send_half_close fd c0 P (o : O) (k : W) o' k' :
  send_half fd c0 P o → closed (o, k) (o', k') → send_half fd c0 P o'.
Proof.
  intros (w & Hw & Hs & Hl) [_ Hc]. cbn [fst snd] in *. destruct (socketFd (as_conn o) =? -1).
  - exists w. by rewrite Hc.
  - exists (Writer.invalidateSocket w). rewrite Hc. cbn. rewrite Hw.
    split_and!; [done|by apply sender_invalidate|by right].
Qed.

Lemma receive_half_close fd d0 D Q S (o : O) (k : W) o' k' :
  receive_half lost fd d0 D Q S (o, k) → closed (o, k) (o', k') →
  receive_half lost fd d0 D Q S (o', k').
Proof.
  intros (r & Hr & Hs & Hl) [Hq Hc]. cbn [fst snd] in *.
  destruct (socketFd (as_conn o) =? -1) eqn:E; b2p; cbn [fst snd] in *.
  - exists r. cbn [fst snd]. rewrite Hc. split_and!; [done|done|]. right.
    by destruct Hl as [(Hfd & _ & ? & _)|[? ?]]; [lia|].
  - exists (Reader.invalidateSocket r). cbn [fst snd]. rewrite Hc. cbn. rewrite Hr.
    split_and!; [done|by apply receiver_invalidate|by right].
Qed.

Lemma expects_same r k k' Q S :
  expects lost r k Q S → incoming k' (Reader.socketFd r) = incoming k (Reader.socketFd r) →
  expects lost r k' Q S.
Proof. intros [? Hh ? ?] Hx. split; try done. unfold holds in *. by rewrite Hx. Qed.

(** Running a writer or a reader inside its connection. *)
Lemma on_writer_run {A} (w : Writer.BackedWriter) (m : M (Writer.BackedWriter * W) A) (o : O) k :
  on_writer w m (o, k) =
    ((m (w, k)).1, (with_conn (set_writer (Some (m (w, k)).2.1) (as_conn o)) o, (m (w, k)).2.2)).
Proof. unfold on_writer. by destruct (m (w, k)) as [? []]. Qed.

Lemma on_reader_run {A} (r : Reader.BackedReader) (m : M (Reader.BackedReader * W) A) (o : O) k :
  on_reader r m (o, k) =
    ((m (r, k)).1, (with_conn (set_reader (Some (m (r, k)).2.1) (as_conn o)) o, (m (r, k)).2.2)).
Proof. unfold on_reader. by destruct (m (r, k)) as [? []]. Qed.

(** [closeSocketAndMaybeReconnect; return x]. *)
Lemma close_then_ret {A} (x y : A) (st st' : O * W) :
  (_ ← closeSocketAndMaybeReconnect; mret x) st = (Ok y, st') →
  closeSocketAndMaybeReconnect st = (Ok tt, st') ∧ y = x.
Proof.
  rewrite M_bind_stop_inv. destruct (closeSocketAndMaybeReconnect st) as [[[]|e] st1];
    [|done]. by intros [= <- <-].
Qed.

(** The end of [write], once the writer has done its work. *)
Lemma write_run_ok fuel p (o : O) k w b st' :
  writer (as_conn o) = Some w → ConnOps.write fuel p (o, k) = (Ok b, st') →
  ∃ st e w' k1, Writer.write fuel p (w, k) = (Ok (st, e), (w', k1)) ∧
    let o1 := with_conn (set_writer (Some w') (as_conn o)) o in
    b = negb (bool_decide (st = SKIPPED)) ∧
    (st' = (o1, k1) ∧ (st = WROTE_WITH_FAILURE → socketFd (as_conn o) = -1) ∨
     st = WROTE_WITH_FAILURE ∧ closed (o1, k1) st').
Proof.
  intros Hw Hrun. unfold ConnOps.write in Hrun. rewrite run_fst_get, Hw in Hrun.
  rewrite M_bind_stop_inv, on_writer_run in Hrun.
  destruct (Writer.write fuel p (w, k)) as [[[st e]|f] [w' k1]]; [|done].
  cbn [fst snd] in Hrun. exists st, e, w', k1. split; [done|].
  destruct st; try (by injection Hrun as <- <-; split; [done|]; left).
  rewrite run_fst_get, as_with in Hrun. cbn [set_writer socketFd] in Hrun.
  destruct (socketFd (as_conn o) =? -1) eqn:Hfd; b2p; [by injection Hrun as <- <-; split; [done|]; left|].
  destruct st' as [o' k'].
  destruct (isSkippableError e); apply close_then_ret in Hrun as [?%close_effect ->]; auto.
Qed.

(** What an endpoint has sent on its live connection: [s], of the frames of
    [new]; everything when it is still live, nothing when it was closed. *)
Definition sent_frames (c : CryptoHandler) (new : list Packet) (st st' : O * W) (s : str) : Prop :=
  s `prefix_of` frames (seal_all c new) ∧
  (socketFd (as_conn st.1) = -1 → s = [] ∧ socketFd (as_conn st'.1) = -1) ∧
  (socketFd (as_conn st'.1) ≠ -1 → s = frames (seal_all c new)).

Lemma sent_frames_closed c new st st' :
  socketFd (as_conn st'.1) = -1 → sent_frames c new st st' [].
Proof. intros Hfd. split_and!; [apply prefix_nil|done|done]. Qed.

Lemma sent_frames_same c (st st' : O * W) :
  socketFd (as_conn st'.1) = socketFd (as_conn st.1) → sent_frames c [] st st' [].
Proof. intros Hfd. split_and!; [apply prefix_nil|by rewrite Hfd|done]. Qed.

Lemma sent_frames_trans c new1 new2 st st1 st' s1 s2 :
  sent_frames c new1 st st1 s1 → sent_frames (advance_by (length new1) c) new2 st1 st' s2 →
  sent_frames c (new1 ++ new2) st st' (s1 ++ s2).
Proof.
  intros (Hp1 & Hc1 & Hl1) (Hp2 & Hc2 & Hl2). unfold sent_frames. rewrite seal_all_app, frames_app.
  split_and!.
  - destruct (decide (socketFd (as_conn st1.1) = -1)) as [Hd|Hd].
    + destruct (Hc2 Hd) as [-> _]. rewrite app_nil_r. by apply prefix_app_r.
    + rewrite (Hl1 Hd). by apply prefix_app.
  - intros Hd. destruct (Hc1 Hd) as [-> Hd1]. by destruct (Hc2 Hd1) as [-> ?].
  - intros Hd. rewrite Hl2 by done. f_equal. apply Hl1. intros Hd1. by apply Hc2 in Hd1 as [_ ?].
Qed.

Lemma send_half_wrote fd c0 P fuel p (o : O) k w st e w' k1 :
  writer (as_conn o) = Some w → sender w c0 P → writable p →
  Writer.write fuel p (w, k) = (Ok (st, e), (w', k1)) →
  (socketFd (as_conn o) = fd ∧ Writer.socketFd w = fd ∧ 0 <= fd ∨
   socketFd (as_conn o) = -1 ∧ Writer.socketFd w = -1) →
  let new := if negb (bool_decide (st = SKIPPED)) then [p] else [] in
  ∃ s, send_half fd c0 (P ++ new) (with_conn (set_writer (Some w') (as_conn o)) o) ∧
    xfer fd [] s k k1 ∧ s `prefix_of` frames (seal_all (advance_by (length P) c0) new) ∧
    (socketFd (as_conn o) = -1 → s = []) ∧
    (socketFd (as_conn o) ≠ -1 → st ≠ WROTE_WITH_FAILURE →
       s = frames (seal_all (advance_by (length P) c0) new)).
Proof.
  intros Hw Hsend Hp Hwr Hlive new.
  assert (∀ P', sender w' c0 P' → Writer.socketFd w' = Writer.socketFd w →
    send_half fd c0 P' (with_conn (set_writer (Some w') (as_conn o)) o)) as Hhalf.
  { intros P' Hs' Hf. exists w'. rewrite as_with, Hf. by cbn [set_writer writer socketFd]. }
  pose proof (write_sender _ _ _ _ _ _ _ _ _ Hsend Hp Hwr) as Hpost.
  destruct (decide (st = SKIPPED)) as [->|Hst].
  { destruct Hpost as [-> ->]. exists []. subst new. cbn [bool_decide negb]. rewrite app_nil_r.
    split_and!; [by apply Hhalf|by apply (quiet_xfer fd)|apply prefix_nil|done|done]. }
  subst new. rewrite bool_decide_eq_false_2 by done. cbn [negb].
  assert (sender w' c0 (P ++ [p]) ∧ Writer.socketFd w' = Writer.socketFd w ∧
    if Writer.socketFd w <? 0 then k1 = k ∧ st = BUFFERED_ONLY
    else st ≠ BUFFERED_ONLY ∧ ∃ s, xfer (Writer.socketFd w) [] s k k1 ∧
      s `prefix_of` frames (seal_all (advance_by (length P) c0) [p]) ∧
      (st = SUCCESS → s = frames (seal_all (advance_by (length P) c0) [p])))
    as (Hsend' & Hfd & Hnet) by (destruct st; done).
  destruct Hlive as [(Hof & Hwf & Hpos)|(Hof & Hwf)]; rewrite Hwf in Hnet.
  - rewrite (proj2 (Z.ltb_ge _ _)) in Hnet by done.
    destruct Hnet as (Hb & s & Hx & Hpre & Hall). exists s.
    split_and!; [by apply Hhalf|done|done|lia|]. intros _ ?. apply Hall. by destruct st.
  - destruct Hnet as [-> ->]. exists [].
    split_and!; [by apply Hhalf|by apply (quiet_xfer fd)|apply prefix_nil|done|done].
Qed.

Lemma send_half_write fd c0 P fuel p (o : O) k b o' k' s :
  send_half fd c0 P o → writable p → ConnOps.write fuel p (o, k) = (Ok b, (o', k')) →
  sent fd k k' s →
  let new := if b : bool then [p] else [] in
  send_half fd c0 (P ++ new) o' ∧
  sent_frames (advance_by (length P) c0) new (o, k) (o', k') s.
Proof.
  intros (w & Hw & Hsend & Hlive) Hp Hrun Hsent.
  destruct (write_run_ok _ _ _ _ _ _ _ Hw Hrun) as (st & e & w' & k1 & Hwr & -> & Hend).
  destruct (send_half_wrote _ _ _ _ _ _ _ _ _ _ _ _ Hw Hsend Hp Hwr Hlive)
    as (s' & Hend1 & Hx & Hpre & Hdead & Hall). cbv zeta in *.
  set (o1 := with_conn (set_writer (Some w') (as_conn o)) o) in *.
  assert (socketFd (as_conn o1) = socketFd (as_conn o)) as Ho1 by (unfold o1; by rewrite as_with).
  assert (outgoing k' fd = outgoing k1 fd) as Hk.
  { destruct Hend as [[[= -> ->] _]|[_ [Hq _]]]; [done|apply Hq]. }
  destruct Hx as (_ & Hx & _). unfold sent in Hsent. rewrite Hk, Hx in Hsent.
  apply app_inv_head in Hsent as <-.
  destruct Hend as [[[= -> ->] Hfail]|[Hst Hclose]].
  - split; [done|]. unfold sent_frames. cbn [fst snd]. rewrite Ho1. split_and!; auto.
  - split; [by eapply send_half_close|]. pose proof (closed_dead _ _ _ _ Hclose) as Hd.
    unfold sent_frames. cbn [fst snd]. split_and!; [done|by auto|done].
Qed.

(** Writing does not disturb the receiving half. *)
Lemma receive_half_write fd c0 d0 P D Q S fuel p (o : O) k b o' k' :
  send_half fd c0 P o → receive_half lost fd d0 D Q S (o, k) → writable p →
  ConnOps.write fuel p (o, k) = (Ok b, (o', k')) → receive_half lost fd d0 D Q S (o', k').
Proof.
  intros (w & Hw & Hsend & Hlw) (r & Hr & Hrecv & Hlr) Hp Hrun. cbn [fst snd] in *.
  destruct (write_run_ok _ _ _ _ _ _ _ Hw Hrun) as (st & e & w' & k1 & Hwr & -> & Hend).
  destruct (send_half_wrote _ _ _ _ _ _ _ _ _ _ _ _ Hw Hsend Hp Hwr Hlw)
    as (s & _ & Hx & _). cbv zeta in *.
  set (o1 := with_conn (set_writer (Some w') (as_conn o)) o) in *.
  assert (receive_half lost fd d0 D Q S (o1, k1)) as H1'.
  { exists r. unfold o1. cbn [fst snd]. rewrite as_with. cbn [set_writer reader socketFd].
    split_and!; [done|done|]. destruct Hlr as [(? & Hf & ? & ?)|?]; [left|by right].
    split_and!; try done. eapply expects_same; [done|]. by rewrite Hf, (proj1 Hx). }
  destruct Hend as [[[= -> ->] _]|[_ Hclose]]; [done|]. by eapply receive_half_close.
Qed.

(** The end of [read], once the reader has done its work. *)
Lemma read_run_ok (o : O) k r ro st' :
  reader (as_conn o) = Some r → ConnOps.read (o, k) = (Ok ro, st') →
  ∃ res r' k1, Reader.read (r, k) = (Ok res, (r', k1)) ∧
    let o1 := with_conn (set_reader (Some r') (as_conn o)) o in
    match res with
    | Reader.RPacket p => ro = Some p ∧ st' = (o1, k1)
    | Reader.RNone => ro = None ∧ st' = (o1, k1)
    | Reader.RError _ => ro = None ∧ closed (o1, k1) st'
    end.
Proof.
  intros Hr Hrun. unfold ConnOps.read in Hrun. rewrite run_fst_get, Hr in Hrun.
  rewrite M_bind_stop_inv, on_reader_run in Hrun.
  destruct (Reader.read (r, k)) as [[res|f] [r' k1]]; [|done].
  cbn [fst snd] in Hrun. exists res, r', k1. split; [done|].
  destruct res; [by injection Hrun as <- <-..|].
  destruct st' as [o' k'].
  destruct (isSkippableError _); apply close_then_ret in Hrun as [?%close_effect ->]; auto.
Qed.

(** Delivering [del] out of what was pending. *)
Definition delivers (Q S del Q' S' : list Packet) : Prop :=
  Q ++ S = del ++ Q' ++ S' ∧ S' `suffix_of` S.

Lemma delivers_nil Q S : delivers Q S [] Q S.
Proof. done. Qed.

Lemma delivers_app Q S del Q1 S1 del' Q' S' :
  delivers Q S del Q1 S1 → delivers Q1 S1 del' Q' S' → delivers Q S (del ++ del') Q' S'.
Proof. intros [H1' ?] [H2' ?]. split; [by rewrite H1', H2', app_assoc|by etrans]. Qed.

Lemma received_read d0 D Q S r k o r' k' :
  receiver r d0 D Q → 0 <= Reader.socketFd r → expects lost r k Q S →
  Reader.read (r, k) = (Ok o, (r', k')) →
  Reader.socketFd r' = Reader.socketFd r ∧
  ∃ Q' S', let del := match o with Reader.RPacket p => [p] | _ => [] end in
    receiver r' d0 (D ++ del) Q' ∧ expects lost r' k' Q' S' ∧ delivers Q S del Q' S'.
Proof.
  intros (Hc & Hb & Hs & HQ) Hfd He Hrun.
  pose proof (wp_run _ _ _ _ _ (read_delivers lost r k Q S Hfd He) Hrun) as [Hfd' Ho].
  split; [done|]. destruct o as [p| |e].
  - destruct Ho as (Q' & S' & Heq & Hsuf & Hc' & He' & Hseq). exists Q', S'.
    pose proof (expects_writable _ _ _ _ _ He') as Hw. apply Forall_app in Hw as [? _].
    split; [|done]. split_and!; [|by apply (expects_buffer _ _ _ _ _ He')| |done].
    + rewrite Hc', Hc, length_app, Nat.add_comm. by rewrite <-advance_by_S.
    + rewrite length_app. cbn [length]. lia.
  - destruct Ho as (He' & -> & Hc' & Hs' & _). exists [], S. cbv zeta. rewrite app_nil_r.
    split; [|done]. split_and!; [congruence|by apply (expects_buffer _ _ _ _ _ He')|congruence|done].
  - destruct Ho as (He' & -> & Hc' & Hs'). exists [], S. cbv zeta. rewrite app_nil_r.
    split; [|done]. split_and!; [congruence|by apply (expects_buffer _ _ _ _ _ He')|congruence|done].
Qed.

Lemma read_dead r (k : W) :
  Reader.socketFd r = -1 → Reader.read (r, k) = (Ok Reader.RNone, (r, k)).
Proof. intros Hfd. unfold Reader.read. run. by rewrite Hfd. Qed.

Lemma receive_half_read fd d0 D Q S (o : O) k ro o' k' :
  receive_half lost fd d0 D Q S (o, k) → ConnOps.read (o, k) = (Ok ro, (o', k')) →
  ∃ Q' S', receive_half lost fd d0 (D ++ option_list ro) Q' S' (o', k') ∧
    delivers Q S (option_list ro) Q' S'.
Proof.
  intros (r & Hr & Hrecv & Hlive) Hrun. cbn [fst snd] in *.
  destruct (read_run_ok _ _ _ _ _ Hr Hrun) as (res & r' & k1 & Hrd & Hend). cbv zeta in Hend.
  set (o1 := with_conn (set_reader (Some r') (as_conn o)) o) in *.
  assert (∃ Q' S', let del := match res with Reader.RPacket p => [p] | _ => [] end in
    receive_half lost fd d0 (D ++ del) Q' S' (o1, k1) ∧ delivers Q S del Q' S')
    as (Q' & S' & Hend1 & Hdel).
  { unfold receive_half. cbn [fst snd]. unfold o1. rewrite as_with. cbn [set_reader reader socketFd].
    destruct Hlive as [(? & Hrf & ? & He)|(Hof & Hrf)].
    - destruct (received_read _ _ _ _ _ _ _ _ _ Hrecv ltac:(lia) He Hrd) as (Hfd' & Q' & S' & ? & ? & ?).
      exists Q', S'. split; [|done]. exists r'. split_and!; [done|done|]. left. split_and!; congruence.
    - rewrite (read_dead r k Hrf) in Hrd. injection Hrd as <- <- <-. exists Q, S. cbv zeta.
      rewrite app_nil_r. split; [|done]. exists r. split_and!; [done|done|]. by right. }
  exists Q', S'. destruct res as [p| |e]; destruct Hend as [-> Hend].
  1,2: by injection Hend as -> ->.
  split; [by eapply receive_half_close|done].
Qed.

(** Reading does not disturb the sending half. *)
Lemma send_half_read fd c0 P (o : O) k ro o' k' :
  send_half fd c0 P o → ConnOps.read (o, k) = (Ok ro, (o', k')) →
  send_half fd c0 P o' ∧ ∀ c, sent_frames c [] (o, k) (o', k') [].
Proof.
  intros Hsend Hrun. destruct (reader (as_conn o)) as [r|] eqn:Hr.
  2: { unfold ConnOps.read in Hrun. rewrite run_fst_get, Hr in Hrun. injection Hrun as <- <- <-.
       split; [done|]. intros c. by apply sent_frames_same. }
  destruct (read_run_ok _ _ _ _ _ Hr Hrun) as (res & r' & k1 & Hrd & Hend). cbv zeta in Hend.
  set (o1 := with_conn (set_reader (Some r') (as_conn o)) o) in *.
  assert (send_half fd c0 P o1) as Hs1.
  { destruct Hsend as (w & Hw & ? & ?). exists w. unfold o1. rewrite as_with.
    by cbn [set_reader writer socketFd]. }
  assert (socketFd (as_conn o1) = socketFd (as_conn o)) as Ho1 by (unfold o1; by rewrite as_with).
  assert ((o', k') = (o1, k1) ∨ closed (o1, k1) (o', k'))
    as [[= -> ->]|Hclose] by (destruct res; destruct Hend as [_ Hend]; auto).
  - split; [done|]. intros c. by apply sent_frames_same.
  - split; [by eapply send_half_close|]. intros c. by apply sent_frames_closed, (closed_dead _ _ _ _ Hclose).
Qed.

(** Everything that happens to the sending half on one connection. *)
Lemma live_run_sends fd c0 P st acc del bytes st' :
  live_run fd st acc del bytes st' → send_half fd c0 P st.1 →
  send_half fd c0 (P ++ acc) st'.1 ∧ sent_frames (advance_by (length P) c0) acc st st' bytes.
Proof.
  intros Hrun. revert P.
  induction Hrun as [st|fuel p [o k] b [o1 k1] s acc del bytes st2 Hp Hw Hsent Hrun IH
    |[o k] ro [o1 k1] acc del bytes st2 Hr Hrun IH|[o k] [o1 k1] acc del bytes st2 Hc Hrun IH
    |[o k] [o1 k1] acc del bytes st2 Hc Hq Hrun IH];
    intros P He; cbn [fst snd] in *.
  - rewrite app_nil_r. split; [done|by apply sent_frames_same].
  - destruct (send_half_write _ _ _ _ _ _ _ _ _ _ _ He Hp Hw Hsent) as [He1 Hs1].
    destruct (IH _ He1) as [He' Hs].
    replace (if b then p :: acc else acc) with ((if b then [p] else []) ++ acc) by by destruct b.
    rewrite app_assoc. split; [done|]. eapply sent_frames_trans; [exact Hs1|].
    by rewrite <-advance_by_add, <-length_app.
  - destruct (send_half_read _ _ _ _ _ _ _ _ He Hr) as [He1 Hs1]. destruct (IH _ He1) as [He' Hs].
    split; [done|]. exact (sent_frames_trans _ [] _ _ _ _ [] _ (Hs1 _) Hs).
  - destruct (IH _ (send_half_close _ _ _ _ _ _ _ He Hc)) as [He' Hs]. split; [done|].
    exact (sent_frames_trans _ [] _ _ _ _ [] _
      (sent_frames_closed _ [] (o, k) (o1, k1) (closed_dead _ _ _ _ Hc)) Hs).
  - assert (send_half fd c0 P o1) as He1 by (unfold send_half; by rewrite Hc).
    destruct (IH _ He1) as [He' Hs]. split; [done|].
    refine (sent_frames_trans _ [] _ _ _ _ [] _ (sent_frames_same _ (o, k) (o1, k1) _) Hs).
    cbn [fst snd]. by rewrite Hc.
Qed.

Lemma receive_half_other fd d0 D Q S (o : O) (k : W) o' k' :
  receive_half lost fd d0 D Q S (o, k) → as_conn o' = as_conn o →
  (socketFd (as_conn o) ≠ -1 → untouched fd k k') → receive_half lost fd d0 D Q S (o', k').
Proof.
  intros (r & Hr & Hs & Hl) Hc Hu. exists r. cbn [fst snd] in *. rewrite Hc. split_and!; [done..|].
  destruct Hl as [(Hfd & Hrf & ? & He)|?]; [left|by right]. split_and!; try done.
  eapply expects_same; [done|]. rewrite Hrf. apply Hu. lia.
Qed.

(** Everything that happens to the receiving half on one connection. *)
Lemma live_run_receives fd c0 d0 P D Q S st acc del bytes st' :
  live_run fd st acc del bytes st' → send_half fd c0 P st.1 → receive_half lost fd d0 D Q S st →
  ∃ Q' S', receive_half lost fd d0 (D ++ del) Q' S' st' ∧ delivers Q S del Q' S'.
Proof.
  intros Hrun. revert P D Q S.
  induction Hrun as [st|fuel p [o k] b [o1 k1] s acc del bytes st2 Hp Hw Hsent Hrun IH
    |[o k] ro [o1 k1] acc del bytes st2 Hr Hrun IH|[o k] [o1 k1] acc del bytes st2 Hc Hrun IH
    |[o k] [o1 k1] acc del bytes st2 Hc Hu Hrun IH];
    intros P D Q S He Hq; cbn [fst snd] in *.
  - exists Q, S. by rewrite app_nil_r.
  - destruct (send_half_write _ _ _ _ _ _ _ _ _ _ _ He Hp Hw Hsent) as [He1 _].
    apply (IH _ _ _ _ He1). exact (receive_half_write _ _ _ _ _ _ _ _ _ _ _ _ _ _ He Hq Hp Hw).
  - destruct (send_half_read _ _ _ _ _ _ _ _ He Hr) as [He1 _].
    destruct (receive_half_read _ _ _ _ _ _ _ _ _ _ Hq Hr) as (Q1 & S1 & Hq1 & Hd1).
    destruct (IH _ _ _ _ He1 Hq1) as (Q' & S' & Hq' & Hd). exists Q', S'.
    rewrite app_assoc. split; [done|]. by eapply delivers_app.
  - apply (IH _ _ _ _ (send_half_close _ _ _ _ _ _ _ He Hc)).
    exact (receive_half_close _ _ _ _ _ _ _ _ _ Hq Hc).
  - assert (send_half fd c0 P o1) as He1 by (unfold send_half; by rewrite Hc).
    apply (IH _ _ _ _ He1). by eapply receive_half_other.
Qed.
End Live.
