(* ===== verification/Apart.v ===== *)
(** * A connection leaves other descriptors alone

    What a connection does (read, write, close, reconnect) takes no byte from a descriptor
    that it does not have and puts none there, for the connection of the server and of the
    client alike. *)

From S2P Require Import Prelude Sockets Crypto Packets Wire Backed WriterSpec Connection Endpoint.
Import Conn.

Section Apart.
Context {W : Type} `{StreamSocket W} `{!SecretBox}.
Variable tfd : Z.
Hypothesis Htfd : 0 < tfd.

#[export] Instance untouched_preorder : PreOrder (untouched (W := W) tfd).
Proof.
  split; [done|]. intros k1 k2 k3 [E1 E2] [E3 E4]. split; congruence.
Qed.

Lemma quiet_untouched (k k' : W) : quiet k k' → untouched tfd k k'.
Proof. intros Hq. apply Hq. Qed.

Lemma xfer_untouched fd r s (k k' : W) : fd ≠ tfd → xfer fd r s k k' → untouched tfd k k'.
Proof. intros Hfd (_ & _ & Hx). by apply Hx. Qed.

(** Neither the writer nor the reader of a connection has the descriptor [tfd]. *)
Definition apart (c : Connection) : Prop :=
  (∀ w, writer c = Some w → Writer.socketFd w ≠ tfd) ∧
  (∀ r, reader c = Some r → Reader.socketFd r ≠ tfd).

Lemma apart_invalidate c : apart (invalidate c).
Proof.
  split; [intros w|intros r]; cbn; [destruct (writer c)|destruct (reader c)]; try done;
    intros [= <-]; cbn; lia.
Qed.

Lemma closeSocket_apart c k c' k' :
  closeSocket (c, k) = (Ok tt, (c', k')) → apart c → apart c' ∧ untouched tfd k k'.
Proof.
  unfold closeSocket. rewrite run_fst_get. case_match; [by intros [= <- <-]|].
  rewrite run_fst_modify. unfold on_snd, zoom. cbn [fst snd].
  destruct (sh_close (socketFd c) k) as [o k1] eqn:E. intros [= -> <- <-] _.
  apply stream_close in E. split; [apply apart_invalidate|by apply quiet_untouched].
Qed.

(** The writer sends on its own descriptor. *)
Lemma evict_same_fd w w' : Writer.evict w = Ok w' → Writer.socketFd w' = Writer.socketFd w.
Proof.
  unfold Writer.evict. case_match; [|by intros [= <-]].
  destruct (Writer.evict_loop _ _) as [[l n]|]; by intros [= <-].
Qed.

Lemma writer_xfer fuel p w k :
  finishes (Writer.write fuel p)
    (λ _ q, Writer.socketFd q.1 = Writer.socketFd w ∧ ∃ s, xfer (Writer.socketFd w) [] s k q.2) (w, k).
Proof.
  assert (∃ s, xfer (Writer.socketFd w) [] s k k) as Hnone by (exists []; by apply quiet_xfer).
  unfold Writer.write. intros a q. rewrite run_fst_get. case_match; [by intros [= <- <-]|].
  rewrite run_fst. destruct (zoom _ _ _ w) as [[p1|e] w1] eqn:Henc; [|done].
  assert (Writer.socketFd w1 = Writer.socketFd w) as Hw1.
  { revert Henc. unfold zoom. destruct (Packet_encrypt p (Writer.crypto w)). by intros [= _ <-]. }
  run. destruct (Writer.evict _) as [w2|e] eqn:Hev; run; [|done].
  apply evict_same_fd in Hev. cbn in Hev. rewrite Hw1 in Hev.
  case_match; [run; intros [= <- <-]; cbn; by rewrite Hev|].
  case_match; [|done]. unfold on_snd, zoom. cbn [fst snd].
  destruct (Writer.send_loop fuel (Writer.socketFd w2) (frame p1) k) as [o k1] eqn:E.
  apply (wp_run _ _ _ _ _ (send_loop_spec _ _ _ _)) in E. intros [= -> <-]. cbn. rewrite Hev in *.
  split; [done|]. destruct E as (s & Hx & _). by exists s.
Qed.

Lemma writer_sends_own fuel p w k :
  Writer.socketFd w ≠ tfd →
  finishes (Writer.write fuel p)
    (λ _ q, Writer.socketFd q.1 ≠ tfd ∧ untouched tfd k q.2) (w, k).
Proof.
  intros Hw. eapply finishes_mono; [apply writer_xfer|]. intros a q [-> [s Hx]].
  split; [done|by apply (xfer_untouched _ _ _ _ _ Hw Hx)].
Qed.

(** The reader receives on its own descriptor. *)
Definition reads_own (k : W) (p : Reader.BackedReader * W) : Prop :=
  Reader.socketFd p.1 ≠ tfd ∧ untouched tfd k p.2.

Lemma own_modify k g :
  (∀ r, Reader.socketFd (g r) = Reader.socketFd r) → keeps (reads_own k) (on_fst (modify g)).
Proof. intros Hg. apply keeps_modify. intros r k1 [Hr Hk]. split; [|done]. cbn in *. by rewrite Hg. Qed.

Lemma own_read k r n :
  Reader.socketFd r ≠ tfd → keeps (reads_own k) (on_snd (sh_read (Reader.socketFd r) n)).
Proof.
  intros Hr. apply keeps_snd. intros r1 k1 o k2 E [Hr1 Hk]. split; [done|]. cbn in *.
  etrans; [exact Hk|]. apply stream_read in E. destruct o as [[s|e]|e];
    [by apply (xfer_untouched _ s [] _ _ Hr), E|by apply quiet_untouched..].
Qed.

Lemma own_get {B} k (f : Reader.BackedReader → M (Reader.BackedReader * W) B) :
  (∀ r, Reader.socketFd r ≠ tfd → keeps (reads_own k) (f r)) → keeps (reads_own k) (on_fst get ≫= f).
Proof. intros Hf. apply keeps_get. intros r k1 Hr. by apply Hf; [apply Hr|]. Qed.

Lemma own_crypto {A} k (m : M CryptoHandler A) :
  keeps (reads_own k) (on_fst (zoom Reader.crypto Reader.set_crypto m)).
Proof.
  intros [r k1] Hr a p. unfold on_fst, zoom. cbn [fst snd].
  destruct (m (Reader.crypto r)) as [o c]. by intros [= _ <-].
Qed.

Lemma own_construct k : keeps (reads_own k) (on_fst Reader.constructPartialMessage).
Proof.
  intros [r k1] Hr a p. unfold on_fst, zoom. cbn [fst snd].
  unfold Reader.constructPartialMessage, Reader.open_packet, zoom. run.
  destruct (Reader.getPartialMessageLength r) as [n|e]; run; [|done].
  destruct (_ =? _); [|done]. rewrite !M_bind_stop_inv. unfold lift.
  destruct (Packet_of_string _) as [p1|e]; [|done].
  destruct (Packet_decrypt p1 (Reader.crypto r)) as [[p2|e] c]; [|done]. by intros [= _ <-].
Qed.

Lemma reader_reads_own k : keeps (reads_own k) Reader.read.
Proof.
  unfold Reader.read, Reader.read_header, Reader.read_body.
  repeat first
    [ apply own_get; intros | apply own_modify; done | apply own_read; done | apply own_construct
    | apply own_crypto | apply keeps_ret | apply keeps_lift | apply keeps_stop
    | apply keeps_bind; [|intros] | case_match | case_decide ].
Qed.

(** ** Any object with a connection *)

Section Object.
Context {O : Type} `{!ConnectionObject W O} `{!ConnectionObjectLaws W O}.

(** Operations that keep the connection apart, and leave [tfd] alone. *)
Definition mutes {A} (m : M (O * W) A) : Prop :=
  ∀ k, keeps (λ p, apart (as_conn p.1) ∧ untouched tfd k p.2) m.

Lemma mutes_run {A} (m : M (O * W) A) p a p' :
  mutes m → m p = (Ok a, p') → apart (as_conn p.1) → apart (as_conn p'.1) ∧ untouched tfd p.2 p'.2.
Proof. intros Hm E Hp. by apply (Hm p.2 p (conj Hp (reflexivity _)) a p' E). Qed.

Lemma mutes_bind {A B} (m : M (O * W) A) (f : A → M (O * W) B) :
  mutes m → (∀ a, mutes (f a)) → mutes (m ≫= f).
Proof. intros Hm Hf k. by apply keeps_bind; [|intros a; apply Hf]. Qed.

Lemma mutes_ret {A} (a : A) : mutes (mret a).
Proof. intros k. apply keeps_ret. Qed.

Lemma mutes_stop {A} e : mutes (stop (A := A) e).
Proof. intros k. apply keeps_stop. Qed.

Lemma mutes_get : mutes (on_fst get).
Proof. by intros k [o k1] Hp a p' [= <- <-]. Qed.

Lemma mutes_modify f : (∀ o, apart (as_conn o) → apart (as_conn (f o))) → mutes (on_fst (modify f)).
Proof. intros Hf k. apply keeps_modify. intros o k1 [Ho Hk]. by split; [apply Hf|]. Qed.

(** System calls that leave the streams alone. *)
Lemma mutes_quiet {A} (m : M W A) :
  (∀ k o k', m k = (o, k') → quiet k k') → mutes (on_snd m).
Proof.
  intros Hm k. apply keeps_snd. intros o k1 r k2 E%Hm [Ho Hk]. split; [done|].
  etrans; [exact Hk|by apply quiet_untouched].
Qed.

Lemma mutes_close : mutes closeSocketAndMaybeReconnect.
Proof.
  intros k [o k1] [Hp Hk] [] [o' k'] E. apply closes_like_base in E.
  destruct (closeSocket_apart _ _ _ _ E Hp) as [? ?]. split; [done|]. by etrans.
Qed.

(** The reader's part of a connection. *)
Lemma mutes_on_reader o r k k1 :
  untouched tfd k k1 → apart (as_conn o) → reader (as_conn o) = Some r →
  finishes (ConnOps.on_reader r Reader.read)
    (λ _ p', apart (as_conn p'.1) ∧ untouched tfd k p'.2) (o, k1).
Proof.
  intros Hk Ho Hr a p'. unfold ConnOps.on_reader.
  destruct (Reader.read (r, k1)) as [res [r' k']] eqn:E. intros [= -> <-].
  apply (reader_reads_own k (r, k1) (conj (proj2 Ho r Hr) Hk)) in E as [Hr' Hk']. cbn. rewrite as_with.
  split; [|done]. split; [apply Ho|]. cbn. by intros r1 [= <-].
Qed.

Lemma mutes_hasData : mutes (ConnOps.on_conn hasData).
Proof.
  intros k [o k1] [Hp Hk] a p'. unfold ConnOps.on_conn, hasData. cbn in Hp, Hk.
  destruct (reader (as_conn o)) as [r|] eqn:Hr; [|intros [= <- <-]; cbn; by rewrite as_with].
  assert (apart (set_reader (Some r) (as_conn o))) as Hp'.
  { split; [apply Hp|]. cbn. intros r1 [= <-]. by apply Hp. }
  unfold Reader.hasData. rewrite run_fst_get.
  destruct (Reader.socketFd r <? 0); [intros [= <- <-]; cbn; by rewrite as_with|].
  destruct (Reader.localBuffer r); [|intros [= <- <-]; cbn; by rewrite as_with].
  unfold on_snd, zoom. cbn [fst snd].
  destruct (sh_hasData (Reader.socketFd r) k1) as [res k2] eqn:E. apply stream_hasData in E.
  intros [= -> <-]. cbn. rewrite as_with. split; [done|]. etrans; [exact Hk|by apply quiet_untouched].
Qed.

Lemma mutes_read : mutes ConnOps.read.
Proof.
  intros k. unfold ConnOps.read. apply keeps_get. intros o k1 [Ho Hk]. cbn in Ho, Hk.
  destruct (reader (as_conn o)) as [r|] eqn:Hr; [|by apply finishes_ret].
  apply finishes_bind. eapply finishes_mono; [by apply (mutes_on_reader _ _ k)|].
  intros res p Hp. cbv beta in Hp.
  assert (∀ m : M (O * W) (option Packet), mutes m →
    finishes m (λ _ p', apart (as_conn p'.1) ∧ untouched tfd k p'.2) p)
    as Hgo by (intros m Hm; exact (Hm k p Hp)).
  apply Hgo. repeat case_match; try apply mutes_ret;
    (apply mutes_bind; [apply mutes_close|intros; apply mutes_ret]).
Qed.

Lemma mutes_readPacket : mutes ConnOps.readPacket.
Proof.
  unfold ConnOps.readPacket. apply mutes_bind; [apply mutes_get|]. intros o.
  case_match; [apply mutes_ret|]. apply mutes_bind; [apply mutes_read|].
  intros res. case_match; apply mutes_ret.
Qed.

Lemma mutes_on_writer {A} o w (m : M (Writer.BackedWriter * W) A) k k1 :
  apart (as_conn o) →
  finishes m (λ _ q, Writer.socketFd q.1 ≠ tfd ∧ untouched tfd k q.2) (w, k1) →
  finishes (ConnOps.on_writer w m)
    (λ _ p', apart (as_conn p'.1) ∧ untouched tfd k p'.2) (o, k1).
Proof.
  intros Ho Hm a p'. unfold ConnOps.on_writer. destruct (m (w, k1)) as [res [w' k']] eqn:E.
  intros [= -> <-]. apply Hm in E as [Hw Hu]. cbn. rewrite as_with. split; [|done].
  split; [|apply Ho]. by intros w1 [= <-].
Qed.

Lemma mutes_write fuel p : mutes (ConnOps.write fuel p).
Proof.
  intros k. unfold ConnOps.write. apply keeps_get. intros o k1 [Ho Hk]. cbn in Ho, Hk.
  destruct (writer (as_conn o)) as [w|] eqn:Hw; [|by apply finishes_ret].
  apply finishes_bind. eapply finishes_mono.
  { apply (mutes_on_writer _ _ _ k); [done|]. eapply finishes_mono; [apply writer_sends_own, (proj1 Ho w Hw)|].
    intros a q [Hq Hu]. split; [done|by etrans]. }
  intros [st e] p1 Hp1. cbv beta in Hp1.
  assert (∀ m : M (O * W) bool, mutes m →
    finishes m (λ _ p', apart (as_conn p'.1) ∧ untouched tfd k p'.2) p1)
    as Hgo by (intros m Hm; exact (Hm k p1 Hp1)).
  apply Hgo. destruct st; try apply mutes_ret.
  apply mutes_bind; [apply mutes_get|]. intros o1. case_match; [apply mutes_ret|].
  case_match; (apply mutes_bind; [apply mutes_close|intros; apply mutes_ret]).
Qed.

(** Other threads do not give [tfd] to the connection. *)
Definition keep_apart (others : list ((O → O) * (O → O))) : Prop :=
  Forall (λ e, (∀ o, apart (as_conn o) → apart (as_conn (e.1 o))) ∧
               (∀ o, apart (as_conn o) → apart (as_conn (e.2 o)))) others.

Lemma mutes_writePacket fuel others p : keep_apart others → mutes (ConnOps.writePacket fuel others p).
Proof.
  intros Ho. induction Ho as [|[f g] l [Hf Hg] _ IH]; cbn [ConnOps.writePacket];
    (apply mutes_bind; [apply mutes_get|]); intros o; case_match; try apply mutes_ret; [apply mutes_stop|].
  apply mutes_bind; [by apply mutes_modify|]. intros _.
  apply mutes_bind; [apply mutes_write|]. intros []; [apply mutes_ret|].
  apply mutes_bind; [apply mutes_get|]. intros o1. cbv zeta.
  apply mutes_bind; [apply mutes_quiet; intros *; apply stream_sleep|]. intros _.
  apply mutes_bind; [by apply mutes_modify|]. intros _. exact IH.
Qed.
End Object.
End Apart.
