(* ===== verification/Activity.v ===== *)
(** * What a program does with its connection and its terminal

    The client's loop and the thread of a session on the server both work with a connection
    (on the descriptor [fd]) and with a terminal (on [tfd]).  A [trace] is what a part of
    such a run did: the packets it gave to the connection and took from it, the bytes that
    the connection sent, the bytes it read from the terminal and wrote to it.  [performs] is
    a Hoare logic whose postconditions speak of the trace; the operations of a connection
    have their specifications here, for the client's and the server's alike. *)

From S2P Require Import Prelude Sockets Crypto Packets Wire Backed WriterSpec ReaderSpec Connection.
From S2P Require Import Endpoint Apart.
Import Conn.

Record trace := mkTrace {
  accepted : list Packet;
  delivered : list Packet;
  on_wire : str;
  from_tty : str;
  to_tty : str;
}.

Definition nothing : trace := mkTrace [] [] [] [] [].
Definition joined (t t' : trace) : trace :=
  mkTrace (accepted t ++ accepted t') (delivered t ++ delivered t') (on_wire t ++ on_wire t')
    (from_tty t ++ from_tty t') (to_tty t ++ to_tty t').
Infix "⊕" := joined (at level 50, left associativity) : et_scope.

Lemma joined_nothing t : nothing ⊕ t = t.
Proof. by destruct t. Qed.

Lemma nothing_joined t : t ⊕ nothing = t.
Proof. destruct t. unfold joined. cbn. by rewrite !app_nil_r. Qed.

(** Packets, and text of the terminal. *)
Definition sends (ps : list Packet) (t : trace) : Prop :=
  accepted t = ps ∧ delivered t = [] ∧ from_tty t = [] ∧ to_tty t = [].
Definition takes (ps : list Packet) (t : trace) : Prop :=
  accepted t = [] ∧ delivered t = ps ∧ from_tty t = [] ∧ to_tty t = [].
Definition types (s : str) (t : trace) : Prop :=
  accepted t = [] ∧ delivered t = [] ∧ from_tty t = s ∧ to_tty t = [].
Definition shows (s : str) (t : trace) : Prop :=
  accepted t = [] ∧ delivered t = [] ∧ from_tty t = [] ∧ to_tty t = s.

Section Activity.
Context {W O : Type} `{StreamSocket W} `{!SecretBox}.
Context `{!ConnectionObject W O} `{!ConnectionObjectLaws W O}.
Variables (fd tfd : Z).
Hypothesis Htfd : 0 < tfd.

(** [t] leads from [st] to [st']. *)
Definition acts (st : O * W) (t : trace) (st' : O * W) : Prop :=
  live_run fd st (accepted t) (delivered t) (on_wire t) st' ∧ sent fd st.2 st'.2 (on_wire t) ∧
  incoming st.2 tfd = from_tty t ++ incoming st'.2 tfd ∧
  outgoing st'.2 tfd = outgoing st.2 tfd ++ to_tty t.

Lemma acts_trans st t st1 t' st2 : acts st t st1 → acts st1 t' st2 → acts st (t ⊕ t') st2.
Proof.
  intros (L1 & S1 & I1 & O1) (L2 & S2 & I2 & O2). split_and!; cbn.
  - by eapply live_run_app.
  - unfold sent in *. by rewrite S2, S1, app_assoc.
  - by rewrite I1, I2, app_assoc.
  - by rewrite O2, O1, app_assoc.
Qed.

(** Work that concerns neither. *)
Definition still (st st' : O * W) : Prop :=
  as_conn st'.1 = as_conn st.1 ∧ untouched tfd st.2 st'.2 ∧ untouched fd st.2 st'.2.

#[export] Instance still_preorder : PreOrder still.
Proof.
  split; [done|]. intros st1 st2 st3 (E1 & U1 & L1) (E2 & U2 & L2). split_and!.
  - congruence.
  - by etrans.
  - by etrans.
Qed.

Lemma still_acts st st' : still st st' → acts st nothing st'.
Proof.
  intros (E & [Ei Eo] & L). split_and!; cbn; [| |done|by rewrite Eo, app_nil_r].
  - by apply (live_other fd st st' [] [] [] st' E (λ _, L)), live_nil.
  - unfold sent. by rewrite (proj2 L), app_nil_r.
Qed.

Lemma quiet_still (o o' : O) (k k' : W) : as_conn o' = as_conn o → quiet k k' → still (o, k) (o', k').
Proof. intros Ho Hq. split_and!; [done|apply Hq|apply Hq]. Qed.

(** Bytes read from the terminal, and written to it. *)
Lemma typing_acts (o o' : O) (k k' : W) s :
  fd ≠ tfd → as_conn o' = as_conn o → xfer tfd s [] k k' →
  ∃ t, acts (o, k) t (o', k') ∧ types s t.
Proof.
  intros Hne E (Hi & Ho & Hx). exists (mkTrace [] [] [] s []). split; [|done].
  split_and!; cbn; [| |done..].
  - apply (live_other fd (o, k) (o', k') [] [] [] _ E); [|apply live_nil]. intros _. by apply Hx.
  - unfold sent. rewrite app_nil_r. by apply Hx.
Qed.

Lemma showing_acts (o o' : O) (k k' : W) s :
  fd ≠ tfd → as_conn o' = as_conn o → xfer tfd [] s k k' →
  ∃ t, acts (o, k) t (o', k') ∧ shows s t.
Proof.
  intros Hne E (Hi & Ho & Hx). exists (mkTrace [] [] [] [] s). split; [|done].
  split_and!; cbn; [| |done..].
  - apply (live_other fd (o, k) (o', k') [] [] [] _ E); [|apply live_nil]. intros _. by apply Hx.
  - unfold sent. rewrite app_nil_r. by apply Hx.
Qed.

(** ** The logic *)

(** The connection is in order: it does not have the terminal's descriptor, and nobody has
    shut it down. *)
Definition in_order (st : O * W) : Prop :=
  apart tfd (as_conn st.1) ∧ shuttingDown (as_conn st.1) = false.

Section Logic.
Context {S : Type} (view : S → O * W) (ok : S → Prop).

(** When [m] returns, [ok] holds again and the result and the trace satisfy [Q]. *)
Definition performs {A} (m : M S A) (Q : A → trace → Prop) : Prop :=
  ∀ q, ok q → finishes m (λ a q', ∃ t, acts (view q) t (view q') ∧ ok q' ∧ Q a t) q.

Lemma performs_bind {A B} (m : M S A) (f : A → M S B) Q1 Q :
  performs m Q1 → (∀ a t, Q1 a t → performs (f a) (λ b t', Q b (t ⊕ t'))) → performs (m ≫= f) Q.
Proof.
  intros Hm Hf q Hq. apply finishes_bind. eapply finishes_mono; [by apply Hm|].
  intros a q1 (t1 & A1 & Hq1 & HQ1). eapply finishes_mono; [by eapply Hf|].
  intros b q2 (t2 & A2 & Hq2 & HQ). exists (t1 ⊕ t2). split_and!; [|done..]. by eapply acts_trans.
Qed.

Lemma performs_mono {A} (m : M S A) (Q Q' : A → trace → Prop) :
  performs m Q → (∀ a t, Q a t → Q' a t) → performs m Q'.
Proof.
  intros Hm HQ q Hq. eapply finishes_mono; [by apply Hm|].
  intros a q' (t & ? & ? & ?). exists t. auto.
Qed.

Lemma performs_still {A} (m : M S A) (Q : A → trace → Prop) :
  (∀ q a q', ok q → m q = (Ok a, q') → still (view q) (view q') ∧ ok q' ∧ Q a nothing) → performs m Q.
Proof.
  intros Hm q Hq a q' E. destruct (Hm _ _ _ Hq E) as (Hs & Hq' & HQ).
  exists nothing. split_and!; [by apply still_acts|done..].
Qed.

Lemma performs_ret {A} (a : A) (Q : A → trace → Prop) : Q a nothing → performs (mret a) Q.
Proof. intros HQ. apply performs_still. by intros q b q' Hq [= <- <-]. Qed.

Lemma performs_stop {A} e (Q : A → trace → Prop) : performs (stop e) Q.
Proof. by intros q Hq a q'. Qed.

Lemma performs_pure {A B} (a : A) (f : A → M S B) Q : performs (f a) Q → performs (mret a ≫= f) Q.
Proof. done. Qed.

(** First something that leaves no trace. *)
Lemma performs_then {A B} (m : M S A) (f : A → M S B) P Q :
  performs m (λ a t, t = nothing ∧ P a) → (∀ a, P a → performs (f a) Q) → performs (m ≫= f) Q.
Proof.
  intros Hm Hf. eapply performs_bind; [exact Hm|]. intros a t [-> Ha].
  eapply performs_mono; [by apply Hf|]. intros b t'. by rewrite joined_nothing.
Qed.

Lemma performs_skip {A B} (m : M S A) (f : A → M S B) Q :
  performs m (λ _ t, t = nothing) → (∀ a, performs (f a) Q) → performs (m ≫= f) Q.
Proof.
  intros Hm Hf. apply (performs_then _ _ (λ _, True)); [|intros; apply Hf].
  eapply performs_mono; [exact Hm|]. by intros a t ->.
Qed.
End Logic.

(** Reading one of two components of the state. *)
Lemma performs_get {X Y B} (view : X * Y → O * W) ok (f : X → M (X * Y) B) Q :
  (∀ x y, ok (x, y) → performs view ok (f x) Q) → performs view ok (on_fst get ≫= f) Q.
Proof. intros Hf [x y] Hq b q'. rewrite run_fst_get. by apply (Hf x y Hq). Qed.

(** An operation of the connection inside a program. *)
Lemma performs_lift {S A} (view : S → O * W) ok (m0 : M (O * W) A) (m : M S A) Q :
  performs (λ st, st) in_order m0 Q → (∀ q, ok q → in_order (view q)) →
  (∀ q a q', ok q → m q = (Ok a, q') →
     m0 (view q) = (Ok a, view q') ∧ (in_order (view q') → ok q')) →
  performs view ok m Q.
Proof.
  intros Hbase Hok Hm q Hq a q' E. destruct (Hm _ _ _ Hq E) as [E0 Hback].
  destruct (Hbase (view q) (Hok q Hq) a (view q') E0) as (t & ? & ? & ?).
  exists t. auto.
Qed.

(** ** The operations of a connection *)

Section Operations.
Hypothesis Hfds : fd ≠ tfd.

Lemma closed_shutting (st st' : O * W) :
  closed st st' → shuttingDown (as_conn st'.1) = shuttingDown (as_conn st.1).
Proof. intros [_ E]. by destruct (_ =? _); rewrite E. Qed.

Lemma write_shutting fuel p (o : O) k b st' :
  ConnOps.write fuel p (o, k) = (Ok b, st') → shuttingDown (as_conn st'.1) = shuttingDown (as_conn o).
Proof.
  intros E. destruct (writer (as_conn o)) as [w|] eqn:Hw.
  - destruct (write_run_ok _ _ _ _ _ _ _ Hw E) as (st & e & w' & k1 & _ & _ & [[-> _]|[_ Hc]]);
      [|apply closed_shutting in Hc; rewrite Hc]; cbn; by rewrite as_with.
  - unfold ConnOps.write in E. rewrite run_fst_get, Hw in E. by injection E as <- <-.
Qed.

Lemma read_shutting (o : O) (k : W) r st' :
  ConnOps.read (o, k) = (Ok r, st') → shuttingDown (as_conn st'.1) = shuttingDown (as_conn o).
Proof.
  intros E. destruct (reader (as_conn o)) as [r0|] eqn:Hr.
  - destruct (read_run_ok _ _ _ _ _ Hr E) as (res & r' & k1 & _ & Hend). cbv zeta in Hend.
    destruct res; destruct Hend as [_ Hend]; [subst st'..|apply closed_shutting in Hend; rewrite Hend];
      cbn; by rewrite as_with.
  - unfold ConnOps.read in E. rewrite run_fst_get, Hr in E. by injection E as <- <-.
Qed.

Lemma read_sends_nothing (o : O) (k : W) r st' :
  ConnOps.read (o, k) = (Ok r, st') → sent fd k st'.2 [].
Proof.
  unfold sent. rewrite app_nil_r. intros E. destruct (reader (as_conn o)) as [r0|] eqn:Hr.
  - destruct (read_run_ok _ _ _ _ _ Hr E) as (res & r' & k1 & Hrd & Hend). cbv zeta in Hend.
    pose proof (reader_read_silent (r0, k) fd) as Hout. rewrite Hrd in Hout. cbn [fst snd] in Hout.
    destruct res; destruct Hend as [_ Hend]; [by subst st'..|].
    destruct Hend as [Hq _]. cbn [snd] in Hq. by rewrite (proj2 (Hq fd)).
  - unfold ConnOps.read in E. rewrite run_fst_get, Hr in E. by injection E as <- <-.
Qed.

(** From what an operation does to the connection and from its leaving [tfd] alone. *)
Lemma operation_acts {A} (m : M (O * W) A) st a st' acc del bytes :
  mutes tfd m → m st = (Ok a, st') → live_run fd st acc del bytes st' → sent fd st.2 st'.2 bytes →
  shuttingDown (as_conn st'.1) = shuttingDown (as_conn st.1) → in_order st →
  acts st (mkTrace acc del bytes [] []) st' ∧ in_order st'.
Proof.
  intros Hm E Hl Hb Hs [Ha Hd]. destruct (mutes_run _ _ _ _ _ Hm E Ha) as [Ha' [Hi Ho]].
  split; [|split; [done|congruence]]. split_and!; cbn; [done|done|done|by rewrite Ho, app_nil_r].
Qed.

Abbreviation does := (performs (λ st, st) in_order).

Lemma does_write fuel p :
  writable p → does (ConnOps.write fuel p) (λ b, sends (if b then [p] else [])).
Proof.
  intros Hp [o k] Hst b [o' k'] E.
  assert (∃ s, sent fd k k' s) as [s Hs].
  { destruct (writer (as_conn o)) as [w|] eqn:Hw.
    - destruct (write_run_ok _ _ _ _ _ _ _ Hw E) as (st & e & w' & k1 & Hwr & _ & Hend).
      assert (outgoing k' fd = outgoing k1 fd) as Hk.
      { destruct Hend as [[[= -> ->] _]|[_ [Hq _]]]; [done|apply Hq]. }
      apply (writer_xfer fuel p w k) in Hwr as [_ [s Hx]]. cbn [snd] in Hx.
      destruct (decide (fd = Writer.socketFd w)) as [->|Hne].
      + exists s. unfold sent. rewrite Hk. apply Hx.
      + exists []. unfold sent. rewrite Hk, app_nil_r. by apply Hx.
    - unfold ConnOps.write in E. rewrite run_fst_get, Hw in E. injection E as <- <- <-.
      exists []. unfold sent. by rewrite app_nil_r. }
  eexists. refine (_ : acts _ _ _ ∧ _ ∧ _).
  pose proof (live_write fd fuel p (o, k) b (o', k') s [] [] [] _ Hp E Hs (live_nil _ _)) as Hl.
  rewrite app_nil_r in Hl.
  destruct (operation_acts _ _ _ _ _ _ _ (mutes_write _ Htfd fuel p) E Hl Hs (write_shutting _ _ _ _ _ _ E) Hst)
    as [Ha Ho].
  split_and!; [exact Ha|done|]. by destruct b.
Qed.

Lemma does_read : does ConnOps.read (λ r, takes (option_list r)).
Proof.
  intros [o k] Hst r st' E.
  pose proof (live_read fd (o, k) r st' [] [] [] _ E (live_nil _ _)) as Hl.
  destruct (operation_acts _ _ _ _ _ _ _ (mutes_read _ Htfd) E Hl (read_sends_nothing _ _ _ _ E) (read_shutting _ _ _ _ E) Hst)
    as [Ha Ho].
  eexists. split_and!; [exact Ha|done|]. unfold takes. cbn. by rewrite app_nil_r.
Qed.

Lemma does_readPacket : does ConnOps.readPacket (λ r, takes (option_list r)).
Proof.
  unfold ConnOps.readPacket. apply performs_get. intros o k [_ Hd]. cbn [fst] in Hd. rewrite Hd.
  eapply performs_bind; [apply does_read|]. intros r t Ht.
  assert (takes (option_list r) (t ⊕ nothing)) as Ht' by by rewrite nothing_joined.
  by destruct r; apply performs_ret.
Qed.

(** Calls that leave the streams alone. *)
Lemma does_quiet {A} (m : M W A) :
  (∀ k o k', m k = (o, k') → quiet k k') → does (on_snd m) (λ _ t, t = nothing).
Proof.
  intros Hm. apply performs_still. intros [o k] a [o' k'] Hst [E Ho]%on_snd_inv. cbn in Ho, E. subst o'.
  apply Hm in E. split_and!; [by apply quiet_still|exact Hst|done].
Qed.

Lemma does_modify f :
  (∀ o, as_conn (f o) = as_conn o) → does (on_fst (modify f)) (λ _ t, t = nothing).
Proof.
  intros Hf. apply performs_still. intros [o k] a q' Hst [= <- <-].
  split_and!; [apply quiet_still; [apply Hf|done]| |done]. unfold in_order in *. cbn in *.
  by rewrite Hf.
Qed.

Lemma does_hasData : does (ConnOps.on_conn hasData) (λ _ t, t = nothing).
Proof.
  apply performs_still. intros [o k] a [o' k'] Hst E.
  destruct (mutes_run _ _ _ _ _ (mutes_hasData _) E (proj1 Hst)) as [Ha Hu].
  assert (as_conn o' = as_conn o ∧ quiet k k') as [Ho Hq].
  { clear Hst Ha Hu. revert E. unfold ConnOps.on_conn, hasData.
    destruct (as_conn o) as [i key sfd sd rd wr]. cbn.
    destruct rd as [r|]; [|intros [= <- <- <-]; by rewrite as_with].
    unfold Reader.hasData. rewrite run_fst_get.
    destruct (Reader.socketFd r <? 0); [intros [= <- <- <-]; by rewrite as_with|].
    destruct (Reader.localBuffer r); [|intros [= <- <- <-]; by rewrite as_with].
    unfold on_snd, zoom. cbn [fst snd].
    destruct (sh_hasData (Reader.socketFd r) k) as [res k1] eqn:E. apply stream_hasData in E.
    intros [= -> <- <-]. by rewrite as_with. }
  split_and!; [by apply quiet_still| |done]. split; [done|]. cbn [fst]. rewrite Ho. apply Hst.
Qed.

(** Anything that closes the connection. *)
Lemma does_close {A} (m : M (O * W) A) :
  (∀ st a st', m st = (Ok a, st') → closed st st') → does m (λ _, sends []).
Proof.
  intros Hm [o k] [Ha Hd] a [o' k'] E%Hm.
  pose proof (live_close fd _ _ [] [] [] _ E (live_nil _ _)) as Hl.
  pose proof (closed_shutting _ _ E) as Hs. destruct E as [Hq Hc]. cbn [fst snd] in *.
  exists nothing. split; [|split; [|done]].
  - unfold acts, sent. cbn. rewrite (proj1 (Hq tfd)), (proj2 (Hq tfd)), (proj2 (Hq fd)), !app_nil_r.
    by split_and!.
  - split; cbn; [|congruence]. destruct (_ =? _); rewrite Hc; [done|by apply apart_invalidate].
Qed.

(** What other threads do to the connection while a packet waits to be written. *)
Definition keep_conn (others : list ((O → O) * (O → O))) : Prop :=
  Forall (λ e, (∀ o, as_conn (e.1 o) = as_conn o) ∧ (∀ o, as_conn (e.2 o) = as_conn o)) others.

Lemma does_writePacket fuel others p :
  keep_conn others → writable p → does (ConnOps.writePacket fuel others p) (λ _, sends [p]).
Proof.
  intros Ho Hp. induction Ho as [|[f g] l [Hf Hg] _ IH]; cbn [ConnOps.writePacket];
    apply performs_get; intros o k [_ Hd]; cbn [fst] in Hd; rewrite Hd; [apply performs_stop|].
  apply performs_skip; [by apply does_modify|]. intros _.
  eapply performs_bind; [by apply does_write|]. intros [] t Ht.
  { apply performs_ret. by rewrite nothing_joined. }
  apply performs_get. intros o1 k1 _. cbv zeta.
  apply performs_skip; [apply does_quiet; intros ???; apply stream_sleep|]. intros _.
  apply performs_skip; [by apply does_modify|]. intros _.
  eapply performs_mono; [exact IH|]. intros _ t' (A1 & A2 & A3 & A4). destruct Ht as (B1 & B2 & B3 & B4).
  unfold sends. cbn. by rewrite A1, A2, A3, A4, B1, B2, B3, B4.
Qed.
End Operations.
End Activity.
