(* ===== verification/Session.v ===== *)
(** * A session: two endpoints that recover from each other

    The end-to-end promise of the program.  Two endpoints write and read packets,
    lose their network connection and recover on a new one, any number of times.
    An epoch is the life of one network connection: each end runs
    [Connection::recover] on it and then any sequence of calls, until it is
    closed and the next epoch begins.  The network may cut the connection anywhere, so
    each end receives a prefix of what the other one sends, in any pieces.  The theorems: packets are
    delivered exactly once and in order, across all reconnects; a recovery that
    both ends complete catches up with everything written before; the sequence
    numbers that honest ends exchange never abort the process. *)

From S2P Require Import Prelude Sockets Crypto Packets Wire Backed WriterSpec ReaderSpec.
From S2P Require Import Connection Endpoint.
Import Conn ConnOps.

Definition header_of (n : Z) : SequenceHeader := mkSequenceHeader (Some (to_i32 n)).

(** [x] are the bytes of a length-prefixed message that parses to [t]. *)
Definition is_msg {T} `{Proto T} (x : str) (t : T) : Prop :=
  ∃ raw body, x = raw ++ body ∧ length raw = 8%nat ∧ le64_decode raw = len body ∧
    parse body = Some t.

(** A message read from a stream that starts with a framed message is that one. *)
Lemma is_msg_frame {T} `{Proto T} x (t : T) y s rest :
  is_msg x t → len s <= MAX_PROTO_LENGTH → x ++ y `prefix_of` proto_frame s ++ rest →
  x = proto_frame s ∧ parse s = Some t ∧ y `prefix_of` rest.
Proof.
  intros (raw & body & -> & Hraw & Hlen & Hp) Hmax [z Hz]. unfold proto_frame in Hz.
  rewrite <-!app_assoc in Hz.
  apply app_inj_1 in Hz as [<- Hz]; [|by rewrite length_le64, Hraw].
  rewrite le64_roundtrip, to_i64_small in Hlen by (unfold MAX_PROTO_LENGTH in Hmax; lia).
  apply app_inj_1 in Hz as [<- Hz]; [|lia]. rewrite Hz. split_and!; [done|done|by eexists].
Qed.

(** A message cannot come out of fewer bytes. *)
Lemma is_msg_short {T} `{Proto T} x (t : T) y s :
  is_msg x t → len s <= MAX_PROTO_LENGTH → x ++ y `prefix_of` proto_frame s →
  x = proto_frame s ∧ y = [].
Proof.
  intros Hm Hmax Hpre. rewrite <-(app_nil_r (proto_frame s)) in Hpre.
  destruct (is_msg_frame _ _ _ _ _ Hm Hmax Hpre) as (-> & _ & Hy). split; [done|].
  by apply prefix_nil_inv.
Qed.

Lemma is_msg_nonempty {T} `{Proto T} (t : T) : ¬ is_msg [] t.
Proof. intros (raw & body & Hx & Hraw & _). by destruct raw. Qed.

(** ** What [recover] does on the wire *)

Section Recover.
Context {W : Type} `{StreamSocket W} `{!CleanRetry W} `{!SecretBox}.
Context `{!Proto SequenceHeader} `{!ProtoLaws SequenceHeader}.
Context `{!Proto CatchupBuffer} `{!ProtoLaws CatchupBuffer}.

(** The connection after a successful recovery with the catch-up [cb]. *)
Definition revived (fd : Z) (cb : CatchupBuffer) (r : Reader.BackedReader)
    (w : Writer.BackedWriter) (c : Connection) : Connection :=
  set_writer (Some (Writer.revive fd w))
    (set_reader (Some (Reader.revive fd (cb_buffer cb) r)) (set_socketFd fd c)).

(** The first half of the exchange got as far as the peer's header. *)
Definition heard (fd : Z) (w : Writer.BackedWriter) (k : W) (rest cs : str) : Prop :=
  ∃ rh x l, incoming k fd = x ++ rest ∧ is_msg x rh ∧
    Writer.recover (sequencenumber rh) w = Ok l ∧
    serialize (mkCatchupBuffer l) = Some cs ∧ len cs <= MAX_PROTO_LENGTH.

(** How a recovery that returns [b] went. *)
Definition recovery (fd : Z) (r : Reader.BackedReader) (w : Writer.BackedWriter)
    (c c' : Connection) (k k' : W) (b : bool) : Prop :=
  ∃ hs s, serialize (header_of (Reader.sequenceNumber r)) = Some hs ∧
    len hs <= MAX_PROTO_LENGTH ∧ outgoing k' fd = outgoing k fd ++ s ∧
    (b = false ∧ c' = c ∧ s `prefix_of` proto_frame hs ∨
     ∃ rest cs, heard fd w k rest cs ∧
       (b = false ∧ c' = c ∧ s `prefix_of` proto_frame hs ++ proto_frame cs ∨
        b = true ∧ s = proto_frame hs ++ proto_frame cs ∧
        ∃ cb x, rest = x ++ incoming k' fd ∧ is_msg x cb ∧ c' = revived fd cb r w c)).

(** A result that [recover] returns: normal, or caught. *)
Definition recoverable {A} (o : outcome A) : Prop :=
  match o with Ok _ => True | Stop (Throw (Exn RuntimeError _)) => True | _ => False end.

Lemma recoverable_no_fatal {A} (o : outcome A) : recoverable o → ∀ why, o ≠ Stop (Fatal why).
Proof. by intros Ho why ->. Qed.

(** The second half of the exchange. *)
Lemma recover_second_half fuel fd r w c k k' o c' :
  (catchupBuffer ← on_snd (readProto CatchupBuffer fuel fd true);
   _ ← on_fst (modify (set_socketFd fd));
   _ ← on_fst (modify (set_reader (Some (Reader.revive fd (cb_buffer catchupBuffer) r))));
   _ ← on_fst (modify (set_writer (Some (Writer.revive fd w))));
   mret true) (c, k) = (o, (c', k')) → recoverable o →
  outgoing k' fd = outgoing k fd ∧
  match o with
  | Ok b => b = true ∧ ∃ cb x, incoming k fd = x ++ incoming k' fd ∧ is_msg x cb ∧
              c' = revived fd cb r w c
  | Stop _ => c' = c
  end.
Proof.
  intros Hrun Ho. rewrite run_snd in Hrun.
  destruct (readProto CatchupBuffer fuel fd true k) as [[cb|f] k1] eqn:E.
  - autorewrite with run in Hrun. injection Hrun as <- <- <-.
    apply readProto_ok in E as (raw & body & Hl & Hd & Hx & Hp).
    destruct Hx as (Hin & Hout & _). rewrite app_nil_r in Hout.
    split; [done|]. split; [done|]. exists cb, (raw ++ body).
    split_and!; [done|by exists raw, body|done].
  - injection Hrun as <- <- <-. apply readProto_run in E as (x & _ & Hout & _).
    by rewrite app_nil_r in Hout.
Qed.

(** The whole exchange, for the results that [recover] returns. *)
Lemma recover_exchange_run fuel fd r w c k o c' k' :
  reader c = Some r → writer c = Some w →
  recover_exchange fuel fd (c, k) = (o, (c', k')) → recoverable o →
  match o with
  | Ok b => b = true ∧ recovery fd r w c c' k k' true
  | Stop _ => recovery fd r w c c' k k' false
  end.
Proof.
  intros Hr Hw Hrun Ho. unfold recover_exchange, the_reader, the_writer in Hrun.
  rewrite M_bind_stop_inv, run_fst_get, Hr in Hrun. cbn [mret M_ret] in Hrun.
  rewrite M_bind_stop_inv, run_fst_get, Hw in Hrun. cbn [mret M_ret] in Hrun.
  rewrite run_snd in Hrun. unfold Reader.getSequenceNumber in Hrun.
  change (mkSequenceHeader (Some (to_i32 (Reader.sequenceNumber r))))
    with (header_of (Reader.sequenceNumber r)) in Hrun.
  destruct (writeProto fuel fd (header_of (Reader.sequenceNumber r)) true k) as [o1 k1] eqn:E1.
  apply writeProto_outcome in E1 as (hs & Hhs & Hmax & s1 & (Hin1 & Hout1 & _) & Hpre1 & Hall1);
    [|intros why ->; by injection Hrun as <- <- <-].
  destruct o1 as [[]|f].
  2: { injection Hrun as <- <- <-. exists hs, s1. split_and!; auto. }
  rewrite Hall1 in Hout1 by done. clear s1 Hpre1 Hall1.
  rewrite run_snd in Hrun.
  destruct (readProto SequenceHeader fuel fd true k1) as [[rh|f] k2] eqn:E2.
  2: { injection Hrun as <- <- <-. apply readProto_run in E2 as (x & _ & Hout2 & _).
       exists hs, (proto_frame hs). rewrite Hout2, app_nil_r, Hout1. split_and!; auto. }
  apply readProto_ok in E2 as (raw & body & Hl & Hd & (Hin2 & Hout2 & _) & Hp).
  rewrite app_nil_r in Hout2. cbn [app] in Hin1.
  destruct (Writer.recover (sequencenumber rh) w) as [l|f] eqn:E3.
  2: { rewrite run_lift_stop in Hrun. injection Hrun as <- <- <-.
       exists hs, (proto_frame hs). rewrite Hout2, Hout1. split_and!; auto. }
  rewrite run_lift_ok, run_snd in Hrun.
  destruct (writeProto fuel fd (mkCatchupBuffer l) true k2) as [o4 k3] eqn:E4.
  apply writeProto_outcome in E4 as (cs & Hcs & Hmax' & s2 & (Hin3 & Hout3 & _) & Hpre2 & Hall2);
    [|intros why ->; by injection Hrun as <- <- <-].
  cbn [app] in Hin3.
  assert (heard fd w k (incoming k3 fd) cs) as Hheard.
  { exists rh, (raw ++ body), l. rewrite Hin1, Hin2, Hin3. split_and!; try done. by exists raw, body. }
  destruct o4 as [[]|f].
  - rewrite Hall2 in Hout3 by done.
    destruct (recover_second_half _ _ _ _ _ _ _ _ _ Hrun Ho) as [Hout4 Hend].
    destruct o as [b|f].
    + destruct Hend as (-> & cb & x & Hin4 & Hm & ->). split; [done|].
      exists hs, (proto_frame hs ++ proto_frame cs).
      rewrite Hout4, Hout3, Hout2, Hout1, app_assoc. split_and!; [done..|].
      right. exists (incoming k3 fd), cs. split; [done|]. right. split_and!; eauto.
    + subst c'. exists hs, (proto_frame hs ++ proto_frame cs).
      rewrite Hout4, Hout3, Hout2, Hout1, app_assoc. split_and!; [done..|].
      right. exists (incoming k3 fd), cs. split; [done|]. by left.
  - injection Hrun as <- <- <-. exists hs, (proto_frame hs ++ s2).
    rewrite Hout3, Hout2, Hout1, app_assoc. split_and!; [done..|].
    right. exists (incoming k3 fd), cs. split; [done|]. left. split_and!; [done..|].
    by apply prefix_app.
Qed.

Lemma recover_run fuel fd r w c k b c' k' :
  reader c = Some r → writer c = Some w →
  recover fuel fd (c, k) = (Ok b, (c', k')) → recovery fd r w c c' k k' b.
Proof.
  intros Hr Hw Hrun. unfold recover, catch_runtime in Hrun.
  destruct (recover_exchange fuel fd (c, k)) as [o [c1 k1]] eqn:E.
  pose proof (recover_exchange_run _ _ _ _ _ _ _ _ _ Hr Hw E) as Hx.
  destruct o as [b'|[[[] why]| | |]]; try done.
  - injection Hrun as <- <- <-. destruct (Hx I) as [-> ?]. done.
  - specialize (Hx I). rewrite run_snd in Hrun. destruct (sh_close fd k1) as [[[]|f] k2] eqn:Ec;
      [|done]. injection Hrun as <- <- <-. apply stream_close in Ec.
    destruct Hx as (hs & s & Hhs & Hm & Hs & Hx). exists hs, s.
    rewrite (proj2 (Ec fd)). split_and!; try done.
    destruct Hx as [?|(rest & cs & ? & [?|(? & _)])]; [by left| |done].
    right. exists rest, cs. auto.
Qed.
End Recover.

(** ** Epochs *)

(** An endpoint between two connections. *)
Definition idle {O} `{ConnectionObject W O} `{SecretBox} (c0 d0 : CryptoHandler)
    (P D Q : list Packet) (o : O) : Prop :=
  socketFd (as_conn o) = -1 ∧ ∃ r w, reader (as_conn o) = Some r ∧ writer (as_conn o) = Some w ∧
    Reader.socketFd r = -1 ∧ Writer.socketFd w = -1 ∧ sender w c0 P ∧ receiver r d0 D Q.

Section Epochs.
Context {W O : Type} `{StreamSocket W} `{!CleanRetry W} `{!SecretBox} `{!SecretBoxLaws}.
Context `{!ConnectionObject W O} `{!ConnectionObjectLaws W O}.
Context `{!Proto SequenceHeader} `{!ProtoLaws SequenceHeader}.
Context `{!Proto CatchupBuffer} `{!ProtoLaws CatchupBuffer}.

(** What an endpoint, which is disconnected, does on a new network connection [fd]: it
    runs [recover] (with result [b]), then any calls; [bytes] is what it has sent there. *)
Definition epoch_run (fd : Z) (st : O * W) (b : bool) (acc del : list Packet) (bytes : str)
    (st' : O * W) : Prop :=
  0 <= fd ∧ socketFd (as_conn st.1) = -1 ∧ ∃ fuel st1 s1 s2,
    on_conn (recover fuel fd) st = (Ok b, st1) ∧ sent fd st.2 st1.2 s1 ∧
    live_run fd st1 acc del s2 st' ∧ bytes = s1 ++ s2.

Lemma epoch_recovery fd (o : O) (k : W) b st1 fuel r w :
  reader (as_conn o) = Some r → writer (as_conn o) = Some w →
  on_conn (recover fuel fd) (o, k) = (Ok b, st1) →
  recovery fd r w (as_conn o) (as_conn st1.1) k st1.2 b.
Proof.
  intros Hr Hw Hrun. unfold on_conn in Hrun.
  destruct (recover fuel fd (as_conn o, k)) as [res [c1 k1]] eqn:E.
  injection Hrun as -> <-. cbn [fst snd]. rewrite as_with. by eapply recover_run.
Qed.

Lemma idle_of_halves lost fd c0 d0 P D Q S (o : O) (k : W) :
  socketFd (as_conn o) = -1 → 0 <= fd → send_half fd c0 P o → receive_half lost fd d0 D Q S (o, k) →
  idle c0 d0 P D Q o.
Proof.
  intros Hd Hfd (w & Hw & Hs & Hlw) (r & Hr & Hq & Hlr). cbn [fst snd] in *.
  split; [done|]. exists r, w.
  destruct Hlw as [(? & _)|[_ ?]]; [lia|]. destruct Hlr as [(? & _)|[_ ?]]; [lia|]. done.
Qed.

(** The connection after [recover]: its sending half. *)
Lemma recovered_sender fd c0 P (o o1 : O) (k k1 : W) b r w :
  0 <= fd → socketFd (as_conn o) = -1 → writer (as_conn o) = Some w → Writer.socketFd w = -1 →
  sender w c0 P → recovery fd r w (as_conn o) (as_conn o1) k k1 b → send_half fd c0 P o1.
Proof.
  intros Hfd Hd Hw Hwf Hs Hrec.
  assert (as_conn o1 = as_conn o ∨ ∃ cb, as_conn o1 = revived fd cb r w (as_conn o)) as [Heq|[cb Heq]].
  { destruct Hrec as (hs & s & _ & _ & _ & [(_ & ? & _)|(rest & cs & _ & Hx)]); [by left|].
    destruct Hx as [(_ & ? & _)|(_ & _ & cb & x & _ & _ & ?)]; eauto. }
  - exists w. rewrite Heq. auto.
  - exists (Writer.revive fd w). rewrite Heq. cbn. split_and!; [done| |by left].
    destruct Hs as (? & ? & ?). split_and!; [by apply represents_revive|done..].
Qed.

Lemma recovered_sends fd c0 d0 P D Q (o o1 : O) (k k1 : W) b r w :
  0 <= fd → idle c0 d0 P D Q o → reader (as_conn o) = Some r → writer (as_conn o) = Some w →
  recovery fd r w (as_conn o) (as_conn o1) k k1 b → send_half fd c0 P o1.
Proof.
  intros Hfd (Hd & r' & w' & Hr' & Hw' & _ & Hwf & Hs & _) Hr Hw.
  rewrite Hw in Hw'. injection Hw' as <-. by apply recovered_sender.
Qed.

(** [recover] returns only to a connection that has a reader and a writer. *)
Lemma recover_has fuel fd (c : Connection) (k : W) b st' :
  recover fuel fd (c, k) = (Ok b, st') → ∃ r w, reader c = Some r ∧ writer c = Some w.
Proof.
  unfold recover, catch_runtime, recover_exchange, the_reader, the_writer.
  rewrite M_bind_stop_inv, run_fst_get. destruct (reader c) as [r|]; [|done]. cbn [mret M_ret].
  rewrite M_bind_stop_inv, run_fst_get. destruct (writer c) as [w|]; [|done]. eauto.
Qed.

(** An epoch of an end that has accepted [P], whatever it receives. *)
Lemma epoch_accepts fd fd' c0 P (o o' : O) (k k' : W) b acc del bytes :
  0 <= fd' → send_half fd' c0 P o → epoch_run fd (o, k) b acc del bytes (o', k') →
  send_half fd c0 (P ++ acc) o'.
Proof.
  intros Hfd' (w & Hw & Hs & Hl) (Hfd & Hd & fuel & [o1 k1] & s1 & s2 & Hrec & _ & Hlive & _).
  cbn [fst snd] in *. assert (Writer.socketFd w = -1) as Hwf by (destruct Hl as [(? & _)|[_ ?]]; [lia|done]).
  assert (∃ r w', reader (as_conn o) = Some r ∧ writer (as_conn o) = Some w') as (r & w' & Hr & _).
  { unfold on_conn in Hrec. destruct (recover fuel fd (as_conn o, k)) as [res [c1 k2]] eqn:E.
    injection Hrec as -> _ _. by eapply recover_has. }
  apply (epoch_recovery _ _ _ _ _ _ _ _ Hr Hw) in Hrec. cbn [fst snd] in Hrec.
  pose proof (recovered_sender _ _ _ _ _ _ _ _ _ _ Hfd Hd Hw Hwf Hs Hrec) as Hhalf.
  by apply (live_run_sends _ _ _ _ _ _ _ _ Hlive).
Qed.

(** What an endpoint puts on the wire in an epoch: its header and, once it has
    heard the peer's, the catch-up and the frames of what it writes; all of these when it is
    [live] at the end. *)
Definition epoch_sent (fd : Z) (r : Reader.BackedReader) (w : Writer.BackedWriter)
    (c : CryptoHandler) (acc : list Packet) (k : W) (live : Prop) (bytes : str) : Prop :=
  ∃ hs, serialize (header_of (Reader.sequenceNumber r)) = Some hs ∧ len hs <= MAX_PROTO_LENGTH ∧
    (bytes `prefix_of` proto_frame hs ∧ ¬ live ∨ ∃ rest cs, heard fd w k rest cs ∧
       let all := proto_frame hs ++ proto_frame cs ++ frames (seal_all c acc) in
       bytes `prefix_of` all ∧ (live → bytes = all)).

Lemma epoch_sends fd c0 d0 P D Q (o o' : O) (k k' : W) b acc del bytes r w :
  idle c0 d0 P D Q o → reader (as_conn o) = Some r → writer (as_conn o) = Some w →
  epoch_run fd (o, k) b acc del bytes (o', k') →
  send_half fd c0 (P ++ acc) o' ∧
  epoch_sent fd r w (advance_by (length P) c0) acc k (socketFd (as_conn o') ≠ -1) bytes.
Proof.
  intros Hidle Hr Hw (Hfd & _ & fuel & [o1 k1] & s1 & s2 & Hrec & Hs1 & Hlive & ->).
  apply (epoch_recovery _ _ _ _ _ _ _ _ Hr Hw) in Hrec. unfold sent in Hs1. cbn [fst snd] in *.
  pose proof (recovered_sends _ _ _ _ _ _ _ _ _ _ _ _ _ Hfd Hidle Hr Hw Hrec) as Hhalf.
  destruct (live_run_sends _ _ _ _ _ _ _ _ Hlive Hhalf) as [Hs' (Hpre & Hdead & Hall)].
  split; [done|]. cbn [fst snd] in *.
  destruct Hrec as (hs & s & Hhs & Hmax & Hout & Hcase). exists hs.
  rewrite Hout in Hs1. apply app_inv_head in Hs1 as <-. split_and!; [done..|].
  assert (b = false → s2 = [] ∧ socketFd (as_conn o') = -1) as Hb.
  { intros ->. apply Hdead. destruct Hidle as [Hd _].
    destruct Hcase as [(_ & -> & _)|(? & ? & _ & [(_ & -> & _)|(? & _)])]; done. }
  destruct Hcase as [(Hbf & _ & Hp)|(rest & cs & Hh & [(Hbf & _ & Hp)|(_ & -> & _)])].
  - destruct (Hb Hbf) as [-> Hd]. rewrite app_nil_r. left. split; [done|by intros []].
  - destruct (Hb Hbf) as [-> Hd]. rewrite app_nil_r. right. exists rest, cs. cbv zeta.
    rewrite app_assoc. split_and!; [done|by apply prefix_app_r|by intros []].
  - right. exists rest, cs. cbv zeta. rewrite app_assoc.
    split_and!; [done|by apply prefix_app|]. intros Hl. by rewrite (Hall Hl).
Qed.
End Epochs.

(** ** One direction of an epoch *)

Section Direction.
Context {W OA OB : Type} `{StreamSocket W} `{!CleanRetry W} `{!SecretBox} `{!SecretBoxLaws}.
Context `{!ConnectionObject W OA} `{!ConnectionObjectLaws W OA}.
Context `{!ConnectionObject W OB} `{!ConnectionObjectLaws W OB}.
Context `{!Proto SequenceHeader} `{!ProtoLaws SequenceHeader}.
Context `{!Proto CatchupBuffer} `{!ProtoLaws CatchupBuffer}.

(** What the network promises: each end receives a prefix of the bytes that the other
    end sends on the connection. *)
Definition honest (fdA fdB : Z) (ka : W) (sA : str) (kb : W) (sB : str) : Prop :=
  incoming ka fdA `prefix_of` sB ∧ incoming kb fdB `prefix_of` sA.

Lemma honest_sym fdA fdB ka sA kb sB : honest fdA fdB ka sA kb sB → honest fdB fdA kb sB ka sA.
Proof. by intros [? ?]. Qed.

(** An end that hears an honest peer hears the peer's position. *)
Lemma heard_position fd w (k : W) rest cs n hs tail :
  heard fd w k rest cs → 0 <= n < 2 ^ 31 → serialize (header_of n) = Some hs →
  len hs <= MAX_PROTO_LENGTH → incoming k fd `prefix_of` proto_frame hs ++ tail →
  ∃ l, Writer.recover n w = Ok l ∧ serialize (mkCatchupBuffer l) = Some cs ∧
    len cs <= MAX_PROTO_LENGTH.
Proof.
  intros (rh & x & l & Hin & Hm & Hrec & Hcs & Hmax) Hn Hhs Hhmax Hpre. exists l.
  rewrite Hin in Hpre. destruct (is_msg_frame _ _ _ _ _ Hm Hhmax Hpre) as (_ & Hp & _).
  apply parse_serialize in Hhs. rewrite Hhs in Hp. injection Hp as <-.
  unfold sequencenumber in Hrec. cbn in Hrec. by rewrite to_i32_small in Hrec by lia.
Qed.

(** What [recover] returns to a reader that holds the first [n] packets. *)
Lemma recover_sender w c0 P n l :
  sender w c0 P → Writer.socketFd w = -1 → 0 <= n → Writer.recover n w = Ok l →
  (Z.to_nat n ≤ length P)%nat ∧
  l = seal_all (advance_by (Z.to_nat n) c0) (drop (Z.to_nat n) P).
Proof.
  intros (Hrep & _ & _) Hfd Hn Hrun.
  destruct (recover_missing w _ n l Hrep ltac:(lia) Hrun) as [Hle Htake].
  rewrite length_seal_all in Hle. assert (Z.to_nat n ≤ length P)%nat by lia.
  split; [done|]. rewrite <-(take_drop (Z.to_nat n) (seal_all c0 P)) in Htake at 2.
  apply app_inv_head in Htake. by rewrite Htake, seal_all_drop.
Qed.

(** The reader after [revive] with the part of [P] it had not seen. *)
Lemma revived_receiver lost fd r (k : W) c0 P D Q acc :
  receiver r c0 D Q → D ++ Q `prefix_of` P → Forall writable P → Forall writable acc →
  incoming k fd ++ lost = frames (seal_all (advance_by (length P) c0) acc) →
  let n := (length D + length Q)%nat in
  let r' := Reader.revive fd (seal_all (advance_by n c0) (drop n P)) r in
  receiver r' c0 D (Q ++ drop n P) ∧ expects lost r' k (Q ++ drop n P) acc ∧
  D ++ Q ++ drop n P = P.
Proof.
  intros (Hc & Hb & Hs & HQ) Hpre HP Hacc Hin n r'.
  assert (D ++ Q ++ drop n P = P) as HDQ.
  { rewrite app_assoc. apply prefix_take_eq in Hpre. rewrite length_app in Hpre. fold n in Hpre.
    rewrite Hpre. apply take_drop. }
  assert (Forall writable (Q ++ drop n P)) as HQ'
    by (rewrite <-HDQ in HP; by apply Forall_app in HP as [_ ?]).
  assert (Reader.localBuffer r' = seal_all (Reader.crypto r') (Q ++ drop n P)) as Hbuf.
  { cbn. rewrite Hb, seal_all_app, Hc. f_equal. by rewrite <-advance_by_add. }
  split; [split_and!; [done|done| |done]|split; [|done]].
  - cbn. rewrite length_seal_all, length_app. lia.
  - split; [done| |intros p l _; apply Nat.lt_le_trans with 22%nat; [cbn; lia|apply sealed_frame_long]|].
    + unfold holds. change (Reader.partialMessage r') with (@nil ascii).
      change (Reader.socketFd r') with fd. change (Reader.crypto r') with (Reader.crypto r).
      rewrite Hc, <-advance_by_add, <-length_app, HDQ. exact Hin.
    + by apply Forall_app.
Qed.

(** The receiving half after [recover]: nothing new on failure; on success the
    local buffer holds everything the peer had written. *)
Lemma recovered_receives fdA fdB cA PA ra wa (ka : W) accA
    DB QB (b b1 : OB) rb wb (kb kb1 : W) bb live sA tail :
  sender wa cA PA → Writer.socketFd wa = -1 →
  socketFd (as_conn b) = -1 → reader (as_conn b) = Some rb → Reader.socketFd rb = -1 →
  receiver rb cA DB QB → DB ++ QB `prefix_of` PA → len PA < 2 ^ 31 → 0 <= fdB →
  Forall writable accA →
  epoch_sent fdA ra wa (advance_by (length PA) cA) accA ka live sA →
  recovery fdB rb wb (as_conn b) (as_conn b1) kb kb1 bb →
  (∀ hs, serialize (header_of (Reader.sequenceNumber rb)) = Some hs →
     incoming ka fdA `prefix_of` proto_frame hs ++ tail) →
  incoming kb fdB `prefix_of` sA →
  ∃ lost Q1, receive_half lost fdB cA DB Q1 (if bb then accA else []) (b1, kb1) ∧
    if bb then DB ++ Q1 = PA ∧ (live → incoming kb fdB = sA → lost = []) else Q1 = QB.
Proof.
  intros Hsend Hwf Hbf Hrb Hrbf Hrecv Hpre Hlen Hfd Hacc (hsA & HhsA & HmA & Hcase)
    (hsB & sB & HhsB & HmB & _ & Hrec) Hhear Hin.
  assert (as_conn b1 = as_conn b → ∃ lost Q1, receive_half lost fdB cA DB Q1 [] (b1, kb1) ∧ Q1 = QB) as Hfail.
  { intros Heq. exists [], QB. split; [|done]. exists rb. cbn [fst snd]. rewrite Heq.
    split_and!; [done|done|by right]. }
  destruct Hrec as [(-> & Heq & _)|(rest & cs & Hheard & [(-> & Heq & _)|(-> & _ & Hrec)])];
    [by apply Hfail|by apply Hfail|]. clear Hfail.
  destruct Hrec as (cb & x & Hrest & Hmx & Hb1).
  destruct Hheard as (rh & xh & _ & Hinb & Hmh & _). rewrite Hinb in Hin.
  destruct Hcase as [[Hshort _]|(restA & csA & HheardA & Hs & Hwhole)].
  { exfalso. destruct (is_msg_short _ _ _ _ Hmh HmA ltac:(by etrans)) as [_ Hnil].
    rewrite Hrest in Hnil. apply app_nil in Hnil as [-> _]. by eapply is_msg_nonempty. }
  pose proof Hrecv as (_ & _ & Hseq & _).
  pose proof (prefix_length _ _ Hpre) as Hlp. rewrite length_app in Hlp.
  destruct (heard_position _ _ _ _ _ (Reader.sequenceNumber rb) hsB tail HheardA ltac:(lia) HhsB HmB
              (Hhear _ HhsB)) as (l & Hrecover & HcsA & HmcA).
  destruct (recover_sender _ _ _ (Reader.sequenceNumber rb) _ Hsend Hwf ltac:(lia) Hrecover) as [_ Hl].
  replace (Z.to_nat (Reader.sequenceNumber rb)) with (length DB + length QB)%nat in Hl by lia.
  destruct (is_msg_frame _ _ _ _ _ Hmh HmA ltac:(by etrans)) as (Hx1 & _ & Hin1).
  rewrite Hrest in Hin1. destruct (is_msg_frame _ _ _ _ _ Hmx HmcA Hin1) as (Hx2 & Hpcb & [lost Hin2]).
  apply parse_serialize in HcsA. rewrite HcsA in Hpcb. injection Hpcb as <-.
  destruct (revived_receiver lost fdB rb kb1 cA PA DB QB accA Hrecv Hpre) as (Hr1 & He1 & HQ1);
    [apply Hsend|done|done|].
  rewrite <-Hl in Hr1, He1. exists lost. eexists. split; [|split; [exact HQ1|]].
  2: { intros Hlive Hall. rewrite Hall, (Hwhole Hlive), Hx1, Hrest, Hx2 in Hinb.
       apply app_inv_head, app_inv_head in Hinb. rewrite Hin2 in Hinb.
       rewrite <-(app_nil_r (incoming kb1 fdB)) in Hinb at 2. by apply app_inv_head in Hinb. }
  exists (Reader.revive fdB l rb). cbn [fst snd]. rewrite Hb1.
  split_and!; [done|done|]. left. by split_and!.
Qed.

Lemma live_run_writable {O} `{!ConnectionObject W O} fd (st st' : O * W) acc del bytes :
  live_run fd st acc del bytes st' → Forall writable acc.
Proof. induction 1 as [|? ? ? [] ? ? ? ? ? ? ? ? ? ? IH| | |]; auto. Qed.

(** In an epoch, what B has and holds stays a prefix of what A has written;
    when B's [recover] succeeds it has or holds everything from before. *)
Lemma direction fdA fdB cA cB PA DA QA (a a' : OA) (ka ka' : W) ba accA delA sA
    PB DB QB (b b' : OB) (kb kb' : W) bb accB delB sB :
  idle cA cB PA DA QA a → idle cB cA PB DB QB b →
  DB ++ QB `prefix_of` PA → len PA < 2 ^ 31 →
  epoch_run fdA (a, ka) ba accA delA sA (a', ka') →
  epoch_run fdB (b, kb) bb accB delB sB (b', kb') →
  honest fdA fdB ka sA kb sB →
  ∃ lost QB' S', receive_half lost fdB cA (DB ++ delB) QB' S' (b', kb') ∧
    (DB ++ delB) ++ QB' `prefix_of` PA ++ accA ∧
    (bb = true → PA `prefix_of` (DB ++ delB) ++ QB' ∧
       ((DB ++ delB) ++ QB') ++ S' = PA ++ accA ∧
       (socketFd (as_conn a') ≠ -1 → incoming kb fdB = sA → lost = [])).
Proof.
  intros Ha Hb Hpre Hlen Hea Heb (Hina & Hinb).
  pose proof Ha as (_ & ra & wa & Hra & Hwa & _ & Hwaf & Hsa & _).
  pose proof Hb as (Hbf & rb & wb & Hrb & Hwb & Hrbf & _ & _ & Hqb).
  destruct (epoch_sends _ _ _ _ _ _ _ _ _ _ _ _ _ _ _ _ Ha Hra Hwa Hea) as [_ Hsent].
  destruct (epoch_sends _ _ _ _ _ _ _ _ _ _ _ _ _ _ _ _ Hb Hrb Hwb Heb) as [_ HsentB].
  assert (∃ tail, ∀ hs, serialize (header_of (Reader.sequenceNumber rb)) = Some hs →
    incoming ka fdA `prefix_of` proto_frame hs ++ tail) as [tail Hhear].
  { destruct HsentB as (hsB & HhsB & _ & Hcase). destruct Hcase as [[Hs _]|(? & cs & _ & Hs & _)].
    - exists []. intros hs Hhs. rewrite Hhs in HhsB. injection HhsB as <-.
      rewrite app_nil_r. by etrans.
    - eexists. intros hs Hhs. rewrite Hhs in HhsB. injection HhsB as <-. etrans; [exact Hina|exact Hs]. }
  destruct Hea as (_ & _ & fa & sta & t1 & t2 & _ & _ & Hla & _).
  destruct Heb as (Hfd & _ & fb & [b1 kb1] & s1 & s2 & Hrec & _ & Hlb & _).
  apply (epoch_recovery _ _ _ _ _ _ _ _ Hrb Hwb) in Hrec. cbn [fst snd] in *.
  pose proof (recovered_sends _ _ _ _ _ _ _ _ _ _ _ _ _ Hfd Hb Hrb Hwb Hrec) as Hs1.
  destruct (recovered_receives _ _ _ _ _ _ _ _ _ _ _ _ _ _ _ _ _ _ _ _ Hsa Hwaf Hbf Hrb Hrbf
    Hqb Hpre Hlen Hfd (live_run_writable _ _ _ _ _ _ Hla) Hsent Hrec Hhear Hinb) as (lost & Q1 & Hr1 & HQ1).
  destruct (live_run_receives _ _ _ _ _ _ _ _ _ _ _ _ _ Hlb Hs1 Hr1) as (Q' & S' & Hr' & Hd & Hsuf).
  exists lost, Q', S'. split; [done|]. destruct bb.
  - destruct HQ1 as [HQ1 Hlost]. assert (((DB ++ delB) ++ Q') ++ S' = PA ++ accA) as Heq
      by (by rewrite <-HQ1, <-!app_assoc, Hd).
    split; [rewrite <-Heq; by apply prefix_app_r|]. intros _. split; [|by split].
    destruct Hsuf as [t Ht]. rewrite Ht, app_assoc in Heq. apply app_inv_tail in Heq.
    exists t. done.
  - rewrite HQ1 in Hd. destruct S' as [|x S']; [|by apply suffix_nil_inv in Hsuf].
    rewrite !app_nil_r in Hd. split; [|done].
    rewrite <-app_assoc, <-Hd. by apply prefix_app_r.
Qed.
End Direction.

(** ** Sessions *)

Section Sessions.
Context {W OA OB : Type} `{StreamSocket W} `{!CleanRetry W} `{!SecretBox} `{!SecretBoxLaws}.
Context `{!ConnectionObject W OA} `{!ConnectionObjectLaws W OA}.
Context `{!ConnectionObject W OB} `{!ConnectionObjectLaws W OB}.
Context `{!Proto SequenceHeader} `{!ProtoLaws SequenceHeader}.
Context `{!Proto CatchupBuffer} `{!ProtoLaws CatchupBuffer}.

(** A connection as [ClientConnection::connect] and the constructor of
    [ServerClientConnection] set it up. *)
Definition opened {O} `{!ConnectionObject W O} (fd : Z) (c0 d0 : CryptoHandler) (o : O) : Prop :=
  0 <= fd ∧ socketFd (as_conn o) = fd ∧
  reader (as_conn o) = Some (Reader.init d0 fd) ∧ writer (as_conn o) = Some (Writer.init c0 fd).

(** The executions of two endpoints, up to any moment: the state of each end with all
    packets that it has accepted and delivered. *)
Inductive session (cA cB : CryptoHandler) :
    OA → list Packet → list Packet → OB → list Packet → list Packet → Prop :=
| session_open fdA fdB a ka a' ka' accA delA sA b kb b' kb' accB delB sB :
    opened fdA cA cB a → opened fdB cB cA b →
    live_run fdA (a, ka) accA delA sA (a', ka') → live_run fdB (b, kb) accB delB sB (b', kb') →
    honest fdA fdB ka sA kb sB →
    session cA cB a' accA delA b' accB delB
| session_epoch a PA DA b PB DB fdA fdB ka a' ka' ba accA delA sA kb b' kb' bb accB delB sB :
    session cA cB a PA DA b PB DB →
    epoch_run fdA (a, ka) ba accA delA sA (a', ka') →
    epoch_run fdB (b, kb) bb accB delB sB (b', kb') →
    honest fdA fdB ka sA kb sB →
    session cA cB a' (PA ++ accA) (DA ++ delA) b' (PB ++ accB) (DB ++ delB).

Lemma opened_sends {O} `{!ConnectionObject W O} fd c0 d0 (o : O) :
  opened fd c0 d0 o → send_half fd c0 [] o.
Proof.
  intros (Hfd & Ho & _ & Hw). exists (Writer.init c0 fd). split_and!; [done| |by left].
  split_and!; [apply represents_init|done|constructor].
Qed.

Lemma opened_receives {O} `{!ConnectionObject W O} lost fd c0 d0 (o : O) (k : W) S :
  opened fd c0 d0 o → Forall writable S → incoming k fd ++ lost = frames (seal_all d0 S) →
  receive_half lost fd d0 [] [] S (o, k).
Proof.
  intros (Hfd & Ho & Hr & _) HS Hin. exists (Reader.init d0 fd). cbn [fst snd].
  split_and!; [done|by split_and!|]. left. split_and!; try done. split; try done.
  intros p l _. apply Nat.lt_le_trans with 22%nat; [cbn; lia|apply sealed_frame_long].
Qed.

(** One direction of the first connection. *)
Lemma open_direction {O1 O2} `{!ConnectionObject W O1} `{!ConnectionObjectLaws W O1}
    `{!ConnectionObject W O2} `{!ConnectionObjectLaws W O2}
    fdA fdB cA cB (a a' : O1) (ka ka' : W) accA delA sA (b b' : O2) (kb kb' : W) accB delB sB :
  opened fdA cA cB a → opened fdB cB cA b →
  live_run fdA (a, ka) accA delA sA (a', ka') → live_run fdB (b, kb) accB delB sB (b', kb') →
  honest fdA fdB ka sA kb sB →
  send_half fdA cA accA a' ∧ ∃ lost Q S, receive_half lost fdB cA delB Q S (b', kb') ∧
    delB ++ Q `prefix_of` accA.
Proof.
  intros Ha Hb Hla Hlb (_ & Hin).
  destruct (live_run_sends _ _ _ _ _ _ _ _ Hla (opened_sends _ _ _ _ Ha)) as [Hs (Hp & _)].
  split; [done|]. cbn [fst snd] in *.
  assert (incoming kb fdB `prefix_of` frames (seal_all cA accA)) as [lost Hl] by by etrans.
  pose proof (opened_receives lost _ _ _ _ kb accA Hb (live_run_writable _ _ _ _ _ _ Hla) (eq_sym Hl)) as Hr.
  destruct (live_run_receives _ _ _ _ _ _ _ _ _ _ _ _ _ Hlb (opened_sends _ _ _ _ Hb) Hr)
    as (Q & S & Hr' & Hd & _).
  exists lost, Q, S. split; [done|]. cbn [app] in Hd. rewrite Hd, app_assoc. by apply prefix_app_r.
Qed.

(** An end of a session, on its connection or between two of them: it has accepted [P] and
    delivered [D], and what it has delivered and holds is a prefix of [P'], which the other
    end has written. *)
Definition end_of {O} `{!ConnectionObject W O} (c0 d0 : CryptoHandler) (P D P' : list Packet)
    (o : O) : Prop :=
  ∃ lost fd (k : W) Q S, 0 <= fd ∧ send_half fd c0 P o ∧ receive_half lost fd d0 D Q S (o, k) ∧
    D ++ Q `prefix_of` P'.

Lemma end_idle {O} `{!ConnectionObject W O} c0 d0 P D P' (o : O) :
  end_of c0 d0 P D P' o → socketFd (as_conn o) = -1 →
  ∃ Q, idle c0 d0 P D Q o ∧ D ++ Q `prefix_of` P'.
Proof.
  intros (lost & fd & k & Q & S & Hfd & Hs & Hr & Hp) Hd. exists Q.
  split; [exact (idle_of_halves _ _ _ _ _ _ _ _ _ _ Hd Hfd Hs Hr)|done].
Qed.

Lemma session_invariant cA cB a PA DA b PB DB :
  session cA cB a PA DA b PB DB → len PA < 2 ^ 31 → len PB < 2 ^ 31 →
  end_of cA cB PA DA PB a ∧ end_of cB cA PB DB PA b.
Proof.
  induction 1 as [fdA fdB a ka a' ka' accA delA sA b kb b' kb' accB delB sB Ha Hb Hla Hlb Hh
    |a PA DA b PB DB fdA fdB ka a' ka' ba accA delA sA kb b' kb' bb accB delB sB Hs IH Hea Heb Hh];
    intros HlA HlB.
  - destruct (open_direction _ _ _ _ _ _ _ _ _ _ _ _ _ _ _ _ _ _ Ha Hb Hla Hlb Hh)
      as (HsA & lB & QB & SB & HrB & HpB).
    destruct (open_direction _ _ _ _ _ _ _ _ _ _ _ _ _ _ _ _ _ _ Hb Ha Hlb Hla (honest_sym _ _ _ _ _ _ Hh))
      as (HsB & lA & QA & SA & HrA & HpA).
    destruct Ha as [Hfa _], Hb as [Hfb _].
    split; [by exists lA, fdA, ka', QA, SA|by exists lB, fdB, kb', QB, SB].
  - rewrite length_app in HlA, HlB.
    destruct IH as [Ha Hb]; [lia|lia|].
    destruct (end_idle _ _ _ _ _ _ Ha) as (QA & Hia & HpA); [apply Hea|].
    destruct (end_idle _ _ _ _ _ _ Hb) as (QB & Hib & HpB); [apply Heb|].
    destruct (direction _ _ _ _ _ _ _ _ _ _ _ _ _ _ _ _ _ _ _ _ _ _ _ _ _ _ Hia Hib HpB ltac:(lia) Hea Heb Hh)
      as (lB & QB' & SB & HrB & HpB' & _).
    destruct (direction _ _ _ _ _ _ _ _ _ _ _ _ _ _ _ _ _ _ _ _ _ _ _ _ _ _ Hib Hia HpA ltac:(lia) Heb Hea
      (honest_sym _ _ _ _ _ _ Hh)) as (lA & QA' & SA & HrA & HpA' & _).
    pose proof Hia as (_ & ra & wa & Hra & Hwa & _). pose proof Hib as (_ & rb & wb & Hrb & Hwb & _).
    destruct (epoch_sends _ _ _ _ _ _ _ _ _ _ _ _ _ _ _ _ Hia Hra Hwa Hea) as [HsA _].
    destruct (epoch_sends _ _ _ _ _ _ _ _ _ _ _ _ _ _ _ _ Hib Hrb Hwb Heb) as [HsB _].
    destruct Hea as (Hfa & _), Heb as (Hfb & _).
    split; [by exists lA, fdA, ka', QA', SA|by exists lB, fdB, kb', QB', SB].
Qed.

(** What each end has accepted is counted by its writer. *)
Lemma session_senders cA cB a PA DA b PB DB :
  session cA cB a PA DA b PB DB →
  (∃ fd, 0 <= fd ∧ send_half fd cA PA a) ∧ (∃ fd, 0 <= fd ∧ send_half fd cB PB b).
Proof.
  induction 1 as [fdA fdB a ka a' ka' accA delA sA b kb b' kb' accB delB sB Ha Hb Hla Hlb Hh
    |a PA DA b PB DB fdA fdB ka a' ka' ba accA delA sA kb b' kb' bb accB delB sB Hs IH Hea Heb Hh].
  - destruct (live_run_sends _ _ _ _ _ _ _ _ Hla (opened_sends _ _ _ _ Ha)) as [HsA _].
    destruct (live_run_sends _ _ _ _ _ _ _ _ Hlb (opened_sends _ _ _ _ Hb)) as [HsB _].
    destruct Ha as [Hfa _], Hb as [Hfb _]. split; [by exists fdA|by exists fdB].
  - destruct IH as [(fd1 & H1' & S1) (fd2 & H2' & S2)].
    split; [exists fdA|exists fdB]; (split; [by apply Hea || apply Heb|]).
    + by eapply (epoch_accepts fdA fd1).
    + by eapply (epoch_accepts fdB fd2).
Qed.

Lemma session_written cA cB a PA DA b PB DB :
  session cA cB a PA DA b PB DB →
  (∃ w, writer (as_conn a) = Some w ∧ Writer.sequenceNumber w = len PA) ∧
  (∃ w, writer (as_conn b) = Some w ∧ Writer.sequenceNumber w = len PB).
Proof.
  intros [(fd1 & _ & w1 & Hw1 & ([Hq1 _ _] & _) & _) (fd2 & _ & w2 & Hw2 & ([Hq2 _ _] & _) & _)]%session_senders.
  rewrite length_seal_all in Hq1, Hq2. split; [by exists w1|by exists w2].
Qed.

(** An end that is live at the end of an epoch has recovered. *)
Lemma epoch_live {O} `{!ConnectionObject W O} `{!ConnectionObjectLaws W O}
    fd c0 d0 P D Q (o o' : O) (k k' : W) b acc del bytes :
  idle c0 d0 P D Q o → epoch_run fd (o, k) b acc del bytes (o', k') →
  socketFd (as_conn o') ≠ -1 → b = true.
Proof.
  intros Hidle (Hfd & _ & fuel & [o1 k1] & s1 & s2 & Hrec & _ & Hlive & _) Hl.
  pose proof Hidle as (Hd & r & w & Hr & Hw & _). cbn [fst snd] in *.
  apply (epoch_recovery _ _ _ _ _ _ _ _ Hr Hw) in Hrec.
  pose proof (recovered_sends _ _ _ _ _ _ _ _ _ _ _ _ _ Hfd Hidle Hr Hw Hrec) as Hhalf.
  destruct (live_run_sends _ _ _ _ _ _ _ _ Hlive Hhalf) as [_ (_ & Hdead & _)]. cbn [fst snd] in *.
  destruct b; [done|]. destruct Hl. apply Hdead.
  destruct Hrec as (_ & _ & _ & _ & _ & [(_ & -> & _)|(? & ? & _ & [(_ & -> & _)|(? & _)])]); done.
Qed.

(** The end has read everything that has arrived on its connection. *)
Definition drained (fd : Z) (c : Connection) (k : W) : Prop :=
  socketFd c ≠ -1 ∧ incoming k fd = [] ∧
  ∀ r, reader c = Some r → Reader.localBuffer r = [].

(** When the network has delivered all that A has sent on the present connection, and B has
    read it, B has delivered everything that A has ever written. *)
Lemma epoch_complete {O1 O2} `{!ConnectionObject W O1} `{!ConnectionObjectLaws W O1}
    `{!ConnectionObject W O2} `{!ConnectionObjectLaws W O2}
    fdA fdB cA cB PA DA QA (a a' : O1) (ka ka' : W) ba accA delA sA
    PB DB QB (b b' : O2) (kb kb' : W) bb accB delB sB :
  idle cA cB PA DA QA a → idle cB cA PB DB QB b → DB ++ QB `prefix_of` PA → len PA < 2 ^ 31 →
  epoch_run fdA (a, ka) ba accA delA sA (a', ka') →
  epoch_run fdB (b, kb) bb accB delB sB (b', kb') →
  honest fdA fdB ka sA kb sB → incoming kb fdB = sA →
  socketFd (as_conn a') ≠ -1 → drained fdB (as_conn b') kb' → DB ++ delB = PA ++ accA.
Proof.
  intros Ha Hb Hpre Hlen Hea Heb Hh Hall Hla (Hlb & Hin & Hbuf).
  pose proof (epoch_live _ _ _ _ _ _ _ _ _ _ _ _ _ _ Hb Heb Hlb) as ->.
  destruct (direction _ _ _ _ _ _ _ _ _ _ _ _ _ _ _ _ _ _ _ _ _ _ _ _ _ _ Ha Hb Hpre Hlen Hea Heb Hh)
    as (lost & Q & S & (r & Hr & (_ & Hq & _) & Hlive) & _ & Hcatch). cbn [fst snd] in *.
  destruct (Hcatch eq_refl) as (_ & <- & Hlost).
  rewrite (Hbuf r Hr) in Hq. destruct Q; [|done].
  destruct Hlive as [(_ & Hrf & _ & He)|[? _]]; [|done].
  rewrite (expects_all lost r kb' [] S); [by rewrite !app_nil_r|by apply Hlost|by rewrite Hrf|done].
Qed.

(** What B holds of A's stream after its [recover] has returned true. *)
Lemma recovery_holds cA cB a PA DA b PB DB
    fdA fdB ka a' ka' ba accA delA sA kb b' kb' accB delB sB :
  session cA cB a PA DA b PB DB →
  epoch_run fdA (a, ka) ba accA delA sA (a', ka') →
  epoch_run fdB (b, kb) true accB delB sB (b', kb') →
  honest fdA fdB ka sA kb sB →
  len PA < 2 ^ 31 → len PB < 2 ^ 31 →
  ∃ r Q, reader (as_conn b') = Some r ∧ PA `prefix_of` (DB ++ delB) ++ Q ∧
    Reader.localBuffer r = seal_all (Reader.crypto r) Q ∧
    Reader.crypto r = advance_by (length (DB ++ delB)) cA.
Proof.
  intros Hs Hea Heb Hh HA HB.
  destruct (session_invariant _ _ _ _ _ _ _ _ Hs HA HB) as [Ha Hb].
  destruct (end_idle _ _ _ _ _ _ Ha) as (QA & Hia & _); [apply Hea|].
  destruct (end_idle _ _ _ _ _ _ Hb) as (QB & Hib & Hp); [apply Heb|].
  destruct (direction _ _ _ _ _ _ _ _ _ _ _ _ _ _ _ _ _ _ _ _ _ _ _ _ _ _ Hia Hib Hp HA Hea Heb Hh)
    as (lost & Q & S & (r & Hr & (Hc & Hbuf & _) & _) & _ & Hcatch).
  destruct (Hcatch eq_refl) as [Hpre _]. exists r, Q. by split_and!.
Qed.

(** What [BackedWriter::recover] does at the position that an idle peer is at. *)
Lemma honest_position cA cB a PA DA b PB DB rb wa :
  session cA cB a PA DA b PB DB → socketFd (as_conn a) = -1 → socketFd (as_conn b) = -1 →
  len PA < 2 ^ 31 → len PB < 2 ^ 31 →
  reader (as_conn b) = Some rb → writer (as_conn a) = Some wa →
  0 <= Reader.sequenceNumber rb <= len PA ∧
  Writer.recover (Reader.sequenceNumber rb) wa =
    recover_spec (seal_all cA PA) (length (Writer.backupBuffer wa)) (Reader.sequenceNumber rb).
Proof.
  intros Hs Hda Hdb HA HB Hrb Hwa.
  destruct (session_invariant _ _ _ _ _ _ _ _ Hs HA HB) as [Ha Hb].
  destruct (end_idle _ _ _ _ _ _ Ha Hda) as (QA & Hia & _). clear Ha. rename Hia into Ha.
  destruct (end_idle _ _ _ _ _ _ Hb Hdb) as (QB & Hib & Hpre). clear Hb. rename Hib into Hb.
  destruct Ha as (_ & ra' & wa' & _ & Hwa' & _ & Hwf & (Hrep & _) & _).
  destruct Hb as (_ & rb' & wb' & Hrb' & _ & _ & _ & _ & (_ & _ & Hseq & _)).
  rewrite Hwa in Hwa'. injection Hwa' as <-. rewrite Hrb in Hrb'. injection Hrb' as <-.
  apply prefix_length in Hpre. rewrite length_app in Hpre. split; [lia|].
  apply (recover_refines _ _ _ Hrep). lia.
Qed.
End Sessions.

(** ** Properties

    The handler of the two ends is any one that keeps the promises of
    [UnixSocketHandler] ([StreamHandler]), in the runs in which none of its writes gives up
    in the middle of a buffer ([steady]): what the callers do after such a write is the
    subject of [SocketPromises.writeAllOrThrow_sends_twice]. *)

Section Delivery.
Context {W OA OB : Type} `{!Streams W} (net : SocketHandler W) `{!@StreamHandler W net _}.
#[local] Instance net_steady : SocketHandler W := steady net.
Context `{!SecretBox} `{!SecretBoxLaws}.
Context `{!ConnectionObject W OA} `{!ConnectionObjectLaws W OA}.
Context `{!ConnectionObject W OB} `{!ConnectionObjectLaws W OB}.
Context `{!Proto SequenceHeader} `{!ProtoLaws SequenceHeader}.
Context `{!Proto CatchupBuffer} `{!ProtoLaws CatchupBuffer}.

(** C3. Exactly-once, in-order delivery.  At every moment of every execution of two
    endpoints over an honest network, with any number of cuts, failed and successful
    recoveries, partial sends and reads, what each end has delivered to its application is a
    prefix of what the other end's application wrote: nothing is lost in the middle,
    duplicated, reordered or corrupted.  Two restrictions: fewer than 2^31 packets have been
    written in each direction; and no call of [write] has asked to be retried after it had
    sent a part of its buffer ([steady]; a [UnixSocketHandler::write] that stalls for five
    seconds does so, C38, and its caller then sends the part twice). *)
Theorem session_delivery cA cB a PA DA b PB DB :
  session cA cB a PA DA b PB DB → len PA < 2 ^ 31 → len PB < 2 ^ 31 →
  DA `prefix_of` PB ∧ DB `prefix_of` PA.
Proof.
  intros Hs HA HB.
  destruct (session_invariant _ _ _ _ _ _ _ _ Hs HA HB)
    as [(? & ? & ? & QA & ? & _ & _ & _ & HpA) (? & ? & ? & QB & ? & _ & _ & _ & HpB)].
  split; (etrans; [by apply prefix_app_r|eassumption]).
Qed.

(** C6. A recovery catches up.  When B's [recover] returns true in an epoch, then
    at the end of that epoch B has delivered or holds in its local buffer (sealed,
    in order, right after what it has delivered) everything that A had written
    before the epoch, also what was written while there was no connection.  As in C3,
    fewer than 2^31 packets have been written in each direction before the epoch, and no
    write has asked to be retried after sending a part of its buffer ([steady]): a header or
    a catch-up of which a part is sent twice (C38) would not be understood. *)
Theorem recovery_catches_up cA cB a PA DA b PB DB
    fdA fdB ka a' ka' ba accA delA sA kb b' kb' accB delB sB :
  session cA cB a PA DA b PB DB →
  epoch_run fdA (a, ka) ba accA delA sA (a', ka') →
  epoch_run fdB (b, kb) true accB delB sB (b', kb') →
  honest fdA fdB ka sA kb sB →
  len PA < 2 ^ 31 → len PB < 2 ^ 31 →
  ∃ r Q, reader (as_conn b') = Some r ∧ PA `prefix_of` (DB ++ delB) ++ Q ∧
    Reader.localBuffer r = seal_all (Reader.crypto r) Q ∧
    Reader.crypto r = advance_by (length (DB ++ delB)) cA.
Proof. apply recovery_holds. Qed.

(** C26. Honest ends do not abort each other.  At any disconnected point of a session in
    which fewer than 2^31 packets have been written in each direction (beyond that the
    announced position wraps, see [position_overflow]) and no write has asked to be retried
    after sending a part of its buffer ([steady]; C38): if A reads a sequence header from a
    stream that starts with the header B sends, then [BackedWriter::recover] does not abort
    the process on it: it returns the missing packets, or (when they are no longer backed up)
    throws. *)
Theorem honest_header_no_abort cA cB a PA DA b PB DB ra rb wa fd fuel (k k' : W) rh hs tail :
  session cA cB a PA DA b PB DB → socketFd (as_conn a) = -1 → socketFd (as_conn b) = -1 →
  len PA < 2 ^ 31 → len PB < 2 ^ 31 →
  reader (as_conn a) = Some ra → reader (as_conn b) = Some rb → writer (as_conn a) = Some wa →
  serialize (header_of (Reader.sequenceNumber rb)) = Some hs → len hs <= MAX_PROTO_LENGTH →
  incoming k fd `prefix_of` proto_frame hs ++ tail →
  readProto SequenceHeader fuel fd true k = (Ok rh, k') →
  Writer.recover (sequencenumber rh) wa =
    recover_spec (seal_all cA PA) (length (Writer.backupBuffer wa)) (Reader.sequenceNumber rb) ∧
  ∀ why, Writer.recover (sequencenumber rh) wa ≠ Stop (Fatal why).
Proof.
  intros Hs Hda Hdb HA HB Hra Hrb Hwa Hhs Hmax Hin Hread.
  destruct (honest_position _ _ _ _ _ _ _ _ _ _ Hs Hda Hdb HA HB Hrb Hwa) as [Hseq Hrec].
  apply readProto_ok in Hread as (raw & body & Hl & Hd & (Hx & _) & Hp).
  rewrite Hx in Hin.
  destruct (is_msg_frame (raw ++ body) rh _ hs tail ltac:(by exists raw, body) Hmax Hin) as (_ & Hp' & _).
  rewrite (parse_serialize _ _ Hhs) in Hp'. injection Hp' as <-.
  change (sequencenumber (header_of (Reader.sequenceNumber rb)))
    with (to_i32 (Reader.sequenceNumber rb)).
  rewrite to_i32_small by lia. rewrite Hrec.
  split; [done|]. intros why. unfold recover_spec. rewrite length_seal_all.
  repeat case_match; b2p; try done. lia.
Qed.
End Delivery.

Section Aborts.
Context {W : Type} `{SocketHandler W} `{SecretBox}.
Context `{!Proto SequenceHeader} `{!Proto CatchupBuffer}.

(** The sequence header of a peer is trusted: it is read in the clear, and one
    that names a position beyond what this end has written aborts the whole
    process ([STFATAL], not an exception), before anything has been decrypted. *)
Theorem header_ahead_aborts fuel fd c k k1 k2 r w H' rh :
  reader c = Some r → writer c = Some w → Writer.socketFd w < 0 → represents w H' →
  writeProto fuel fd (header_of (Reader.sequenceNumber r)) true k = (Ok tt, k1) →
  readProto SequenceHeader fuel fd true k1 = (Ok rh, k2) →
  len H' < sequencenumber rh →
  recover fuel fd (c, k) =
    (Stop (Fatal "Something went really wrong, client is ahead of server"), (c, k2)).
Proof.
  intros Hr Hw Hfd Hrep Hwr Hrd Hahead.
  unfold recover, catch_runtime, recover_exchange, the_reader, the_writer.
  rewrite M_bind_stop_inv, run_fst_get, Hr. cbn [mret M_ret].
  rewrite M_bind_stop_inv, run_fst_get, Hw. cbn [mret M_ret].
  unfold Reader.getSequenceNumber.
  change (mkSequenceHeader (Some (to_i32 (Reader.sequenceNumber r))))
    with (header_of (Reader.sequenceNumber r)).
  rewrite run_snd, Hwr, run_snd, Hrd, (recover_refines _ _ _ Hrep) by done.
  unfold recover_spec. rewrite (proj2 (Z.ltb_lt (len H' - sequencenumber rh) 0)) by lia.
  done.
Qed.

(** Positions are sent as [int32] but counted as [int64].  A reader that is at
    a position of 2^31 or more (below 2^32) announces a negative one, and the
    writer then always fails to recover, even when nothing is missing. *)
Theorem position_overflow w H' n :
  represents w H' → Writer.socketFd w < 0 → 2 ^ 31 <= n < 2 ^ 32 → n <= len H' →
  Writer.recover (sequencenumber (header_of n)) w =
    Stop (Throw (Exn RuntimeError "Client is too far behind server.")).
Proof.
  intros Hrep Hfd Hn Hle. rewrite (recover_refines _ _ _ Hrep) by done.
  change (sequencenumber (header_of n)) with (to_i32 n).
  assert (to_i32 n = n - 2 ^ 32) as ->.
  { unfold to_i32. replace (n + 2 ^ 31) with (n - 2 ^ 31 + 1 * 2 ^ 32) by lia.
    rewrite Z.mod_add, Z.mod_small by lia. lia. }
  destruct Hrep as [_ Hlog _]. apply suffix_length in Hlog.
  unfold backup_log in Hlog. rewrite length_fmap, length_rev in Hlog.
  unfold recover_spec. rewrite (proj2 (Z.ltb_ge _ _)), (proj2 (Z.leb_gt _ _)) by lia. done.
Qed.
End Aborts.

(** ** Witnesses: a session on the wire *)

Section Witnesses.
#[local] Instance x_steady : SocketHandler Wire := steady WireSocket.
#[local] Existing Instance example_secretbox.
#[local] Existing Instance example_secretbox_laws.
#[local] Instance header_proto : Proto SequenceHeader := countable_proto (mkSequenceHeader None).
#[local] Instance header_laws : ProtoLaws SequenceHeader := countable_proto_laws _.
#[local] Instance catchup_proto : Proto CatchupBuffer := countable_proto (mkCatchupBuffer []).
#[local] Instance catchup_laws : ProtoLaws CatchupBuffer := countable_proto_laws _.
#[local] Instance x_object : ConnectionObject Wire Connection := base_object.
#[local] Instance x_laws : ConnectionObjectLaws Wire Connection := base_object_laws.

Definition x_cA : CryptoHandler := mkCrypto (initial_nonce 0) (lit "key").
Definition x_cB : CryptoHandler := mkCrypto (initial_nonce 1) (lit "key").

Definition x_open (fd : Z) (c0 d0 : CryptoHandler) : Connection :=
  mkConnection (lit "id") (lit "key") fd false (Some (Reader.init d0 fd)) (Some (Writer.init c0 fd)).

(** A writes one packet, which the network loses; both ends close. *)
Definition x_a0 : Connection * Wire := (x_open 4 x_cA x_cB, wire0).
Definition x_b0 : Connection * Wire := (x_open 5 x_cB x_cA, wire0).
Definition x_a1 : Connection * Wire := (closeSocketAndMaybeReconnect (ConnOps.write 9 w_packet x_a0).2).2.
Definition x_b1 : Connection * Wire := (closeSocketAndMaybeReconnect x_b0).2.

(** Both recover, and B reads. *)
Definition x_hello : str := proto_frame (default [] (serialize (header_of 0))).
Definition x_bytesA : str := x_hello ++ proto_frame (default [] (serialize (mkCatchupBuffer
  (seal_all x_cA [w_packet])))).
Definition x_bytesB : str := x_hello ++ proto_frame (default [] (serialize (mkCatchupBuffer []))).
Definition x_a2 : Connection * Wire := (x_a1.1, with_in wire0 6 x_bytesB).
Definition x_b2 : Connection * Wire := (x_b1.1, with_plan (with_in wire0 7 x_bytesA) [3; 0; 4]%nat).
Definition x_a3 : Connection * Wire := (on_conn (recover 2000 6) x_a2).2.
Definition x_b3 : Connection * Wire := (on_conn (recover 2000 7) x_b2).2.
Definition x_a4 : Connection * Wire := (closeSocketAndMaybeReconnect x_a3).2.
Definition x_b4 : Connection * Wire := (closeSocketAndMaybeReconnect (ConnOps.read x_b3).2).2.

Lemma run_state {S A} (m : M S A) s o : (m s).1 = o → m s = (o, (m s).2).
Proof. intros <-. apply surjective_pairing. Qed.

Lemma close_run fd (st : Connection * Wire) :
  (closeSocketAndMaybeReconnect st).1 = Ok tt →
  live_run fd st [] [] [] (closeSocketAndMaybeReconnect st).2.
Proof.
  intros E. refine (live_close fd st _ [] [] [] _ _ (live_nil _ _)). destruct st as [o k].
  pose proof (run_state _ _ _ E) as Hrun. by destruct (closeSocketAndMaybeReconnect (o, k)).2; apply close_effect.
Qed.

Lemma w_packet_writable : writable w_packet.
Proof. unfold writable, packet_ok. repeat constructor; vm_compute; congruence. Qed.

(** What A has sent on its first connection. *)
Definition x_sent : str := frames (seal_all x_cA [w_packet]).

Lemma x_open_session :
  session x_cA x_cB x_a1.1 [w_packet] [] x_b1.1 [] [].
Proof.
  refine (session_open x_cA x_cB 4 5 x_a0.1 x_a0.2 x_a1.1 x_a1.2 [w_packet] [] x_sent
    x_b0.1 x_b0.2 x_b1.1 x_b1.2 [] [] [] _ _ _ _ _);
    [vm_compute; split_and!; congruence|vm_compute; split_and!; congruence| | |].
  - rewrite <-!surjective_pairing, <-(app_nil_r x_sent).
    refine (live_write 4 9 w_packet x_a0 true _ x_sent [] [] [] _ w_packet_writable (run_state _ _ _ _) _ _);
      [vm_compute; reflexivity..|].
    apply close_run. vm_compute. reflexivity.
  - rewrite <-!surjective_pairing. apply close_run. vm_compute. reflexivity.
  - split; apply prefix_nil.
Qed.

Lemma epoch_intro fd st b acc del bytes st' :
  0 <= fd → socketFd (as_conn st.1) = -1 → (on_conn (recover 2000 fd) st).1 = Ok b →
  sent fd st.2 (on_conn (recover 2000 fd) st).2.2 bytes →
  live_run fd (on_conn (recover 2000 fd) st).2 acc del [] st' →
  epoch_run fd st b acc del bytes st'.
Proof.
  intros ? ? ? ? ?. split_and!; [done..|]. exists 2000%nat, (on_conn (recover 2000 fd) st).2, bytes, [].
  rewrite app_nil_r. auto using run_state.
Qed.

Lemma read_then_close fd (st : Connection * Wire) p :
  (ConnOps.read st).1 = Ok (Some p) →
  (closeSocketAndMaybeReconnect (ConnOps.read st).2).1 = Ok tt →
  live_run fd st [] [p] [] (closeSocketAndMaybeReconnect (ConnOps.read st).2).2.
Proof.
  intros Hr Hc. exact (live_read fd st (Some p) _ [] [] [] _ (run_state _ _ _ Hr) (close_run _ _ Hc)).
Qed.

Lemma x_epoch_a : epoch_run 6 (x_a1.1, x_a2.2) true [] [] x_bytesA (x_a4.1, x_a4.2).
Proof.
  rewrite <-(surjective_pairing x_a4). change (x_a1.1, x_a2.2) with x_a2.
  apply (epoch_intro 6 x_a2 true [] [] x_bytesA x_a4); [lia|vm_compute; reflexivity..|].
  unfold x_a4, x_a3. apply close_run. vm_compute. reflexivity.
Qed.

Lemma x_epoch_b : epoch_run 7 (x_b1.1, x_b2.2) true [] [w_packet] x_bytesB (x_b4.1, x_b4.2).
Proof.
  rewrite <-(surjective_pairing x_b4). change (x_b1.1, x_b2.2) with x_b2.
  apply (epoch_intro 7 x_b2 true [] [w_packet] x_bytesB x_b4); [lia|vm_compute; reflexivity..|].
  unfold x_b4, x_b3. apply read_then_close; vm_compute; reflexivity.
Qed.

Lemma x_honest : honest 6 7 x_a2.2 x_bytesA x_b2.2 x_bytesB.
Proof. split; exists []; vm_compute; reflexivity. Qed.

Lemma session_delivery_witness :
  ([] : list Packet) `prefix_of` [] ∧ [w_packet] `prefix_of` [w_packet].
Proof.
  apply (session_delivery WireSocket x_cA x_cB x_a4.1 [w_packet] [] x_b4.1 [] [w_packet]);
    [|vm_compute; reflexivity..].
  exact (session_epoch x_cA x_cB _ _ _ _ _ _ 6 7 x_a2.2 x_a4.1 x_a4.2 true [] [] x_bytesA
    x_b2.2 x_b4.1 x_b4.2 true [] [w_packet] x_bytesB x_open_session x_epoch_a x_epoch_b x_honest).
Defined.

Lemma recovery_catches_up_witness :
  ∃ r Q, reader (as_conn x_b4.1) = Some r ∧ [w_packet] `prefix_of` ([] ++ [w_packet]) ++ Q ∧
    Reader.localBuffer r = seal_all (Reader.crypto r) Q ∧
    Reader.crypto r = advance_by (length ([] ++ [w_packet])) x_cA.
Proof.
  exact (recovery_catches_up WireSocket x_cA x_cB _ _ _ _ _ _ 6 7 x_a2.2 x_a4.1 x_a4.2 true [] [] x_bytesA
    x_b2.2 x_b4.1 x_b4.2 [] [w_packet] x_bytesB x_open_session x_epoch_a x_epoch_b x_honest eq_refl eq_refl).
Defined.

Lemma honest_header_no_abort_witness :
  let k := with_in wire0 6 x_bytesB in
  ∃ wa, writer (as_conn x_a1.1) = Some wa ∧
    ∀ why, Writer.recover (sequencenumber (header_of 0)) wa ≠ Stop (Fatal why).
Proof.
  intros k. exists (default (Writer.init x_cA 0) (writer (as_conn x_a1.1))).
  split; [vm_compute; reflexivity|].
  refine (proj2 (honest_header_no_abort WireSocket x_cA x_cB x_a1.1 [w_packet] [] x_b1.1 [] []
    (default (Reader.init x_cA 0) (reader (as_conn x_a1.1)))
    (default (Reader.init x_cA 0) (reader (as_conn x_b1.1))) _ 6 200 k
    (readProto SequenceHeader 200 6 true k).2 (header_of 0)
    (default [] (serialize (header_of 0)))
    (proto_frame (default [] (serialize (mkCatchupBuffer [])))) x_open_session _ _ eq_refl eq_refl _ _ _ _ _ _ _)).
  7: { vm_compute. congruence. }
  7: { exists []. vm_compute. reflexivity. }
  all: vm_compute; reflexivity.
Defined.

(** The writer of A, which has written one packet, meets a header of 7. *)
Lemma header_ahead_aborts_witness :
  let k := with_in wire0 6 (proto_frame (default [] (serialize (header_of 7)))) in
  (recover 200 6 (x_a1.1, k)).1 =
    Stop (Fatal "Something went really wrong, client is ahead of server").
Proof.
  intros k.
  set (r := default (Reader.init x_cA 0) (reader x_a1.1)).
  set (w := default (Writer.init x_cA 0) (writer x_a1.1)).
  rewrite (header_ahead_aborts 200 6 x_a1.1 k
    (writeProto 200 6 (header_of (Reader.sequenceNumber r)) true k).2
    (readProto SequenceHeader 200 6 true
       (writeProto 200 6 (header_of (Reader.sequenceNumber r)) true k).2).2
    r w (backup_log w) (header_of 7)); [reflexivity|vm_compute; try reflexivity..].
  split; vm_compute; [reflexivity|exists []; reflexivity|reflexivity].
Defined.

(** A writer that has sent 2^31 packets and kept none: the reader has them all. *)
Lemma position_overflow_witness :
  let w := Writer.mkWriter x_cA (-1) [] 0 0 (2 ^ 31) in
  Writer.recover (sequencenumber (header_of (2 ^ 31))) w =
    Stop (Throw (Exn RuntimeError "Client is too far behind server.")).
Proof.
  intros w. apply (position_overflow w (replicate (Z.to_nat (2 ^ 31)) []) (2 ^ 31)).
  - split; [|by apply suffix_nil|done]. rewrite length_replicate, Z2Nat.id by lia. done.
  - done.
  - lia.
  - rewrite length_replicate, Z2Nat.id; lia.
Defined.
End Witnesses.
