(* ===== verification/ClientConnection.v ===== *)
(** * [ClientConnection]: connecting and reconnecting

    [ClientConnection.cpp]: the first handshake ([connect]), the loop of the
    reconnect thread ([pollReconnect]) and the override of
    [closeSocketAndMaybeReconnect], which makes a client a [ConnectionObject].
    The last part is a small concurrent model of the reconnect thread and a
    thread that reads, for the lock they share. *)

From S2P Require Import Prelude Sockets Crypto Packets Wire Backed Connection.
Import Conn ConnOps.

Definition PROTOCOL_VERSION : Z := 6.

Inductive ConnectStatus := NEW_CLIENT | RETURNING_CLIENT | INVALID_KEY | MISMATCHED_PROTOCOL.

#[export] Instance ConnectStatus_eq_dec : EqDecision ConnectStatus.
Proof. solve_decision. Defined.

Record ConnectRequest := mkConnectRequest { req_clientId : option str; req_version : option Z }.
Record ConnectResponse := mkConnectResponse {
  resp_status : option ConnectStatus; resp_error : option str }.

(** The accessors; the default of an absent enum is its first value. *)
Definition req_clientid (r : ConnectRequest) : str := default [] (req_clientId r).
Definition version (r : ConnectRequest) : Z := default 0 (req_version r).
Definition status (r : ConnectResponse) : ConnectStatus := default NEW_CLIENT (resp_status r).

(** The reconnect thread as its owner sees it. *)
Inductive thread_state := Running | Finished.

Module Client.

Record ClientConnection := mkClient {
  conn : Connection;
  remoteEndpoint : SocketEndpoint;
  reconnectThread : option thread_state;
}.

Definition ClientConnection_new (e : SocketEndpoint) (i k : str) : ClientConnection :=
  mkClient (Conn.init i k) e None.

Definition set_conn (c : Connection) (o : ClientConnection) : ClientConnection :=
  mkClient c (remoteEndpoint o) (reconnectThread o).
Definition set_thread (t : option thread_state) (o : ClientConnection) : ClientConnection :=
  mkClient (conn o) (remoteEndpoint o) t.

(** The request of both handshakes. *)
Definition connect_request (i : str) : ConnectRequest :=
  mkConnectRequest (Some i) (Some PROTOCOL_VERSION).

(** How one iteration of the reconnect loop ends. *)
Inductive poll_result := PBreak | PReturn | PContinue.

Section Client.
Context {W : Type} `{SocketHandler W} `{SecretBox}.
Context `{!Proto SequenceHeader} `{!Proto CatchupBuffer}.
Context `{!Proto ConnectRequest} `{!Proto ConnectResponse}.

Definition on_base {A} (m : M (Connection * W) A) : M (ClientConnection * W) A := λ '(o, k),
  let '(r, (c, k')) := m (conn o, k) in (r, (set_conn c o, k')).

(** [join] on a thread that is still running does not return while the caller
    holds [connectionMutex]: the thread takes it in every iteration. *)
Definition waitReconnect : M (ClientConnection * W) unit :=
  o ← on_fst get;
  match reconnectThread o with
  | None => mret tt
  | Some Running => stop OutOfFuel
  | Some Finished => on_fst (modify (set_thread None))
  end.

Definition client_closeSocketAndMaybeReconnect : M (ClientConnection * W) unit :=
  _ ← waitReconnect;
  _ ← on_base closeSocket;
  o ← on_fst get;
  if negb (shuttingDown (conn o))
  then on_fst (modify (set_thread (Some Running)))
  else mret tt.

Definition ClientConnection_destroy : M (ClientConnection * W) unit :=
  _ ← waitReconnect;
  on_base closeSocket.

(** The body of the [try] of [connect]. *)
Definition connect_exchange (fuel : nat) : M (ClientConnection * W) bool :=
  o ← on_fst get;
  r ← on_snd (sh_connect (remoteEndpoint o));
  let fd := match r with IoOk fd => fd | IoErr _ => -1 end in
  _ ← on_fst (modify (λ o, set_conn (set_socketFd fd (conn o)) o));
  if fd =? -1 then mret false
  else
    _ ← on_snd (writeProto fuel fd (connect_request (id (conn o))) true);
    response ← on_snd (readProto ConnectResponse fuel fd true);
    if bool_decide (status response ≠ NEW_CLIENT) &&
       bool_decide (status response ≠ RETURNING_CLIENT)
    then throw RuntimeError "Error connecting to server"
    else
      rc ← lift (CryptoHandler_new (key (conn o)) SERVER_CLIENT_NONCE_MSB);
      _ ← on_fst (modify (λ o, set_conn (set_reader (Some (Reader.init rc fd)) (conn o)) o));
      wc ← lift (CryptoHandler_new (key (conn o)) CLIENT_SERVER_NONCE_MSB);
      _ ← on_fst (modify (λ o, set_conn (set_writer (Some (Writer.init wc fd)) (conn o)) o));
      mret true.

Definition connect (fuel : nat) : M (ClientConnection * W) bool :=
  catch_runtime (connect_exchange fuel) (λ _,
    o ← on_fst get;
    _ ← (if negb (socketFd (conn o) =? -1) then on_snd (sh_close (socketFd (conn o))) else mret tt);
    mret false).

(** The handshake on a new socket; [true] is the early [return]. *)
Definition reconnect_exchange (fuel : nat) (newSocketFd : Z) : M (ClientConnection * W) bool :=
  o ← on_fst get;
  _ ← on_snd (writeProto fuel newSocketFd (connect_request (id (conn o))) true);
  response ← on_snd (readProto ConnectResponse fuel newSocketFd true);
  if decide (status response = INVALID_KEY) then
    _ ← on_fst (modify (λ o, set_conn (set_shuttingDown true (conn o)) o));
    _ ← on_snd (sh_close newSocketFd);
    mret true
  else if decide (status response ≠ RETURNING_CLIENT) then
    _ ← on_snd (sh_close newSocketFd);
    mret false
  else
    _ ← on_base (recover fuel newSocketFd);
    mret false.

(** One iteration of [pollReconnect], under [connectionMutex]. *)
Definition reconnect_iteration (fuel : nat) : M (ClientConnection * W) poll_result :=
  o ← on_fst get;
  if negb (socketFd (conn o) =? -1) then mret PBreak
  else if shuttingDown (conn o) then mret PReturn
  else
    r ← on_snd (sh_connect (remoteEndpoint o));
    match r with
    | IoErr _ => mret PContinue
    | IoOk newSocketFd =>
      if newSocketFd =? -1 then mret PContinue
      else
        stop_loop ← catch_all
          (catch_runtime (reconnect_exchange fuel newSocketFd)
             (λ _, _ ← on_snd (sh_close newSocketFd); mret false))
          (λ _, mret false);
        mret (if stop_loop : bool then PReturn else PContinue)
    end.

(** The loop of the reconnect thread: [env] is what other threads do to the
    connection while the mutex is free after each iteration. *)
Fixpoint pollReconnect (fuel : nat) (env : list (ClientConnection → ClientConnection))
    : M (ClientConnection * W) unit :=
  res ← reconnect_iteration fuel;
  match res with
  | PBreak => mret tt
  | PReturn => mret tt
  | PContinue =>
    match env with
    | [] => stop OutOfFuel
    | e :: env' =>
      o ← on_fst get;
      _ ← (if isDisconnected (conn o) then on_snd (sh_sleep 1000000) else mret tt);
      _ ← on_fst (modify e);
      pollReconnect fuel env'
    end
  end.

#[export] Instance client_object : ConnectionObject W ClientConnection := {|
  as_conn := conn;
  with_conn := set_conn;
  closeSocketAndMaybeReconnect := client_closeSocketAndMaybeReconnect;
|}.
End Client.

End Client.
Import Client.

(** ** Lemmas *)

Section Laws.
Context {W : Type} `{SocketHandler W} `{SecretBox}.

Lemma on_base_run {A} (m : M (Connection * W) A) o k :
  on_base m (o, k) = ((m (conn o, k)).1, (set_conn (m (conn o, k)).2.1 o, (m (conn o, k)).2.2)).
Proof. unfold on_base. by destruct (m (conn o, k)) as [? []]. Qed.

#[export] Instance client_laws : ConnectionObjectLaws W ClientConnection.
Proof.
  split; [done|]. intros o k o' k'. cbn [as_conn closeSocketAndMaybeReconnect client_object].
  unfold client_closeSocketAndMaybeReconnect, waitReconnect.
  rewrite M_bind_stop_inv, run_fst_get.
  assert (∀ o1, conn o1 = conn o →
    (on_base closeSocket ≫= λ _, on_fst get ≫= λ o,
       if negb (shuttingDown (conn o)) then on_fst (modify (set_thread (Some Running)))
       else mret tt) (o1, k) = (Ok tt, (o', k')) →
    closeSocket (conn o, k) = (Ok tt, (conn o', k'))) as Hrest.
  { intros o1 Ho1 Hrun. rewrite M_bind_stop_inv, on_base_run, Ho1 in Hrun.
    destruct (closeSocket (conn o, k)) as [[[]|e] [c1 k1]]; [|done]. cbn [fst snd] in Hrun.
    rewrite run_fst_get in Hrun. by destruct (negb _); injection Hrun as <- <-. }
  destruct (reconnectThread o) as [[]|]; [done| |]; intros Hrun.
  - by apply (Hrest (set_thread None o)).
  - by apply (Hrest o).
Qed.
End Laws.

(** ** Properties of the handshakes *)

Section Handshake.
Context {W : Type} `{StreamSocket W} `{!CleanRetry W} `{SecretBox}.
Context `{!Proto SequenceHeader} `{!Proto CatchupBuffer}.
Context `{!Proto ConnectRequest} `{!ProtoLaws ConnectRequest}.
Context `{!Proto ConnectResponse} `{!ProtoLaws ConnectResponse}.

(** A successful [connect] leaves a fresh reader and writer, with the key of the
    connection and the two directions' nonces. *)
Definition connected (i k : str) (fd : Z) (down : bool) : Connection :=
  mkConnection i k fd down
    (Some (Reader.init (mkCrypto (initial_nonce SERVER_CLIENT_NONCE_MSB) k) fd))
    (Some (Writer.init (mkCrypto (initial_nonce CLIENT_SERVER_NONCE_MSB) k) fd)).

Lemma new_crypto_ok k msb c :
  CryptoHandler_new k msb = Ok c →
  c = mkCrypto (initial_nonce msb) k ∧ len k = crypto_secretbox_KEYBYTES.
Proof. unfold CryptoHandler_new. case_match; b2p; [|done]. by intros [= <-]. Qed.

(** When [connect] returns true, the client has sent exactly its id and the
    protocol version on the new socket, the server has answered [NEW_CLIENT] or
    [RETURNING_CLIENT], and the connection is live with a fresh reader and
    writer: the state in which a session starts.  (No write of it asks to be retried after
    it has sent a part of its buffer.) *)
Theorem connect_establishes fuel o k o' k' :
  connect fuel (o, k) = (Ok true, (o', k')) →
  ∃ fd k1 s x resp, sh_connect (remoteEndpoint o) k = (Ok (IoOk fd), k1) ∧ fd ≠ -1 ∧
    o' = set_conn (connected (id (conn o)) (key (conn o)) fd (shuttingDown (conn o))) o ∧
    serialize (connect_request (id (conn o))) = Some s ∧ len s <= MAX_PROTO_LENGTH ∧
    len (key (conn o)) = crypto_secretbox_KEYBYTES ∧ xfer fd x (proto_frame s) k1 k' ∧
    (∃ raw body, x = raw ++ body ∧ le64_decode raw = len body ∧ parse body = Some resp) ∧
    (status resp = NEW_CLIENT ∨ status resp = RETURNING_CLIENT).
Proof.
  unfold connect, catch_runtime. destruct (connect_exchange fuel (o, k)) as [res [o1 k1]] eqn:E.
  intros Hrun. assert (res = Ok true ∧ o1 = o' ∧ k1 = k') as (-> & -> & ->).
  { destruct res as [b|[[[] why]| | |]]; try by simplify_eq.
    exfalso. rewrite run_fst_get in Hrun.
    destruct (negb (socketFd (conn o1) =? -1)); [|done].
    rewrite run_snd in Hrun. by destruct (sh_close _ k1) as [[]]. }
  clear Hrun. unfold connect_exchange in E. rewrite run_fst_get, run_snd in E.
  destruct (sh_connect (remoteEndpoint o) k) as [[r|f] k0] eqn:Ec; [|done].
  rewrite run_fst_modify in E. destruct r as [fd|e]; [|done].
  destruct (fd =? -1) eqn:Hfd; [done|]. b2p. rewrite run_snd in E.
  destruct (writeProto fuel fd (connect_request (id (conn o))) true k0) as [[[]|f] k2] eqn:Ew; [|done].
  apply writeProto_ok in Ew as (s & Hs & Hmax & Hx1). rewrite run_snd in E.
  destruct (readProto ConnectResponse fuel fd true k2) as [[resp|f] k3] eqn:Er; [|done].
  apply readProto_ok in Er as (raw & body & _ & Hd & Hx2 & Hp).
  destruct (bool_decide _ && bool_decide _) eqn:Hst; [done|].
  destruct (CryptoHandler_new (key (conn o)) SERVER_CLIENT_NONCE_MSB) as [rc|f] eqn:Erc; [|done].
  rewrite run_lift_ok, run_fst_modify in E.
  destruct (CryptoHandler_new (key (conn o)) CLIENT_SERVER_NONCE_MSB) as [wc|f] eqn:Ewc; [|done].
  rewrite run_lift_ok, run_fst_modify in E. injection E as <- <-.
  apply new_crypto_ok in Erc as [-> Hkey], Ewc as [-> _].
  exists fd, k0, s, (raw ++ body), resp. split_and!; try done.
  - pose proof (xfer_trans _ _ _ _ _ _ _ _ Hx1 Hx2) as Hx. by rewrite app_nil_r in Hx.
  - by exists raw, body.
  - destruct (status resp); cbn in Hst; auto; try done.
Qed.

(** When [connect] fails after the TCP connection was made, it closes the
    socket but keeps its number: the connection then claims not to be
    disconnected, and [closeSocket] (for example in the destructor) closes the
    same number a second time. *)
Theorem connect_failure_keeps_fd fuel o k fd k1 o' k' :
  sh_connect (remoteEndpoint o) k = (Ok (IoOk fd), k1) → fd ≠ -1 →
  connect fuel (o, k) = (Ok false, (o', k')) →
  socketFd (conn o') = fd ∧ isDisconnected (conn o') = false ∧
  (∃ k0, sh_close fd k0 = (Ok tt, k')) ∧
  closeSocket (conn o', k') =
    ((sh_close fd k').1, (invalidate (conn o'), (sh_close fd k').2)).
Proof.
  intros Hc Hfd Hrun.
  cut (socketFd (conn o') = fd ∧ ∃ k0, sh_close fd k0 = (Ok tt, k')).
  { intros [Hs Hk]. unfold isDisconnected, closeSocket. rewrite run_fst_get, Hs.
    rewrite (proj2 (Z.eqb_neq _ _) Hfd). split_and!; try done.
    rewrite run_fst_modify. unfold on_snd, zoom. cbn [fst snd]. by destruct (sh_close fd k'). }
  unfold connect, catch_runtime in Hrun.
  destruct (connect_exchange fuel (o, k)) as [res [o1 k2]] eqn:E.
  assert (socketFd (conn o1) = fd ∧ res ≠ Ok false) as [Ho1 Hres].
  { unfold connect_exchange in E. rewrite run_fst_get, run_snd, Hc, run_fst_modify in E.
    rewrite (proj2 (Z.eqb_neq _ _) Hfd), run_snd in E.
    destruct (writeProto _ _ _ _ k1) as [[[]|f] k3]; [|by injection E as <- <- <-].
    rewrite run_snd in E.
    destruct (readProto _ _ _ _ k3) as [[resp|f] k4]; [|by injection E as <- <- <-].
    destruct (bool_decide _ && bool_decide _); [by injection E as <- <- <-|].
    destruct (CryptoHandler_new _ SERVER_CLIENT_NONCE_MSB) as [rc|f];
      [|by injection E as <- <- <-].
    rewrite run_lift_ok, run_fst_modify in E.
    destruct (CryptoHandler_new _ CLIENT_SERVER_NONCE_MSB) as [wc|f];
      [|by injection E as <- <- <-].
    rewrite run_lift_ok, run_fst_modify in E. by injection E as <- <- <-. }
  destruct res as [b|[[[] why]| | |]]; try by simplify_eq.
  rewrite run_fst_get, Ho1, (proj2 (Z.eqb_neq _ _) Hfd) in Hrun. cbn [negb] in Hrun.
  rewrite run_snd in Hrun.
  destruct (sh_close fd k2) as [[[]|f] k3] eqn:Ek; [|done].
  injection Hrun as <- <-. eauto.
Qed.

(** The handshake of a reconnect, when closing a socket just returns. *)
Lemma reconnect_exchange_result fuel fd o k r o' k' :
  (∀ fd k, (sh_close (W := W) fd k).1 = Ok tt) →
  reconnect_exchange fuel fd (o, k) = (r, (o', k')) →
  match r with
  | Ok true => conn o' = set_shuttingDown true (conn o)
  | _ => o' = o ∨ ∃ k1, conn o' = (recover fuel fd (conn o, k1)).2.1
  end.
Proof.
  intros Hclose Hrun. unfold reconnect_exchange in Hrun. rewrite run_fst_get, run_snd in Hrun.
  destruct (writeProto _ _ _ _ k) as [[[]|f] k1]; [|injection Hrun as <- <- <-; by left].
  rewrite run_snd in Hrun.
  destruct (readProto _ _ _ _ k1) as [[resp|f] k2]; [|injection Hrun as <- <- <-; by left].
  case_decide.
  { rewrite run_fst_modify, run_snd in Hrun. specialize (Hclose fd k2).
    destruct (sh_close fd k2) as [[[]|f] k3]; [|done]. by injection Hrun as <- <- <-. }
  case_decide.
  { rewrite run_snd in Hrun. specialize (Hclose fd k2).
    destruct (sh_close fd k2) as [[[]|f] k3]; [|done]. injection Hrun as <- <- <-. by left. }
  rewrite M_bind_stop_inv, on_base_run in Hrun.
  destruct (recover fuel fd (conn o, k2)) as [[b|f] [c1 k3]] eqn:E; cbn [fst snd] in Hrun;
    injection Hrun as <- <- <-; right; exists k2; by rewrite E.
Qed.

(** One iteration of the reconnect loop, by its result.  [break] only when the
    connection is live; [return] only on shutdown, which the answer
    [INVALID_KEY] (the server has ended the session) brings about; otherwise the
    connection is as before, or [recover] has run on it. *)
Theorem reconnect_iteration_result fuel o k res o' k' :
  (∀ fd k, (sh_close (W := W) fd k).1 = Ok tt) →
  reconnect_iteration fuel (o, k) = (Ok res, (o', k')) →
  match res with
  | PBreak => o' = o ∧ k' = k ∧ socketFd (conn o) ≠ -1
  | PReturn => conn o' = set_shuttingDown true (conn o)
  | PContinue => socketFd (conn o) = -1 ∧ shuttingDown (conn o) = false ∧
      (o' = o ∨ ∃ fd k1, conn o' = (recover fuel fd (conn o, k1)).2.1)
  end.
Proof.
  intros Hclose. unfold reconnect_iteration. rewrite run_fst_get.
  destruct (socketFd (conn o) =? -1) eqn:Hfd; b2p; [|by intros [= <- <- <-]].
  cbn [negb]. destruct (shuttingDown (conn o)) eqn:Hdown.
  { intros [= <- <- <-]. destruct (conn o); cbn in *. by subst. }
  rewrite run_snd. destruct (sh_connect (remoteEndpoint o) k) as [[[fd|e]|f] k1];
    [|by intros [= <- <- <-]; auto|done].
  destruct (fd =? -1) eqn:Hnew; [by intros [= <- <- <-]; auto|]. b2p.
  rewrite M_bind_stop_inv. unfold catch_all, catch_runtime.
  destruct (reconnect_exchange fuel fd (o, k1)) as [r [o1 k2]] eqn:E.
  apply reconnect_exchange_result in E; [|done]. pose proof (Hclose fd k2) as Hc.
  assert (r ≠ Ok true → o1 = o ∨ ∃ fd k1, conn o1 = (recover fuel fd (conn o, k1)).2.1) as Hr.
  { destruct r as [[]|]; [done|..]; destruct E as [->|[k3 E]]; eauto. }
  destruct r as [[]|[[[] why]| | |]]; cbn [mret M_ret]; try done;
    try (intros [= <- <- <-]; split_and!; [done..|]; by apply Hr).
  - by intros [= <- <- <-].
  - rewrite run_snd. destruct (sh_close fd k2) as [[[]|f] k3]; [|done]. cbn [mret M_ret].
    intros [= <- <- <-]. split_and!; [done..|]. by apply Hr.
Qed.

(** C12. The reconnect thread ends only when there is nothing left to do: when
    [pollReconnect] returns, the connection is live or shutting down, whatever the
    other threads did in between. *)
Theorem pollReconnect_ends fuel env o k o' k' :
  (∀ fd k, (sh_close (W := W) fd k).1 = Ok tt) →
  pollReconnect fuel env (o, k) = (Ok tt, (o', k')) →
  socketFd (conn o') ≠ -1 ∨ shuttingDown (conn o') = true.
Proof.
  intros Hclose. revert o k. induction env as [|e env IH]; intros o k; cbn [pollReconnect];
    rewrite M_bind_stop_inv;
    destruct (reconnect_iteration fuel (o, k)) as [[res|f] [o1 k1]] eqn:E; try done;
    pose proof (reconnect_iteration_result _ _ _ _ _ _ Hclose E) as Hr; destruct res.
  1,4: by intros [= <- <-]; destruct Hr as (-> & _ & ?); left.
  1,3: by intros [= <- <-]; right; rewrite Hr.
  - done.
  - rewrite run_fst_get, M_bind_stop_inv.
    destruct ((if isDisconnected (conn o1) then on_snd (sh_sleep 1000000) else mret tt) (o1, k1))
      as [[[]|f] [o2 k2]]; [|done].
    rewrite run_fst_modify. apply IH.
Qed.
End Handshake.

(** ** The lock between a reading thread and the reconnect thread

    [ClientConnection::pollReconnect] takes [connectionMutex] for each iteration
    and again in [isDisconnected]; [Connection::read] and [write] hold it while
    they call [closeSocketAndMaybeReconnect], which joins the reconnect thread. *)
Module Lock.

Inductive owner := Nobody | User | Reconnector.

(** Where the reconnect thread is: before an iteration, in it, before
    [isDisconnected] and in it, or finished. *)
Inductive rpc := RTop | RIteration | RCheck | RChecking | RDone.

(** Where the user's thread is: outside the connection, inside [read] or [write]
    (holding the mutex), or waiting in [join] (still holding it). *)
Inductive upc := UIdle | UInside | UJoin.

Record sys := mkSys { lock : owner; up : bool; reconnector : rpc; user : upc }.

#[export] Instance owner_eq_dec : EqDecision owner.
Proof. solve_decision. Defined.
#[export] Instance rpc_eq_dec : EqDecision rpc.
Proof. solve_decision. Defined.
#[export] Instance upc_eq_dec : EqDecision upc.
Proof. solve_decision. Defined.
#[export] Instance sys_eq_dec : EqDecision sys.
Proof. solve_decision. Defined.

(** The steps of the reconnect thread. *)
Definition reconnector_steps (s : sys) : list sys :=
  match reconnector s, lock s with
  | RTop, Nobody => [mkSys Reconnector (up s) RIteration (user s)]
  | RIteration, Reconnector =>
    if up s then [mkSys Nobody true RDone (user s)]
    else [mkSys Nobody false RCheck (user s); mkSys Nobody true RCheck (user s)]
  | RCheck, Nobody => [mkSys Reconnector (up s) RChecking (user s)]
  | RChecking, Reconnector => [mkSys Nobody (up s) RTop (user s)]
  | _, _ => []
  end.

(** The steps of the user's thread; the socket can fail at any time it is used. *)
Definition user_steps (s : sys) : list sys :=
  match user s, lock s with
  | UIdle, Nobody => [mkSys User (up s) (reconnector s) UInside]
  | UInside, User =>
    mkSys Nobody (up s) (reconnector s) UIdle ::
    (if up s then [mkSys User true (reconnector s) UJoin] else [])
  | UJoin, User =>
    match reconnector s with
    | RDone => [mkSys Nobody false RTop UIdle]
    | _ => []
    end
  | _, _ => []
  end.

Definition steps (s : sys) : list sys := reconnector_steps s ++ user_steps s.

Definition step (s s' : sys) : Prop := s' ∈ steps s.

(** Disconnected, with the reconnect thread just started. *)
Definition start : sys := mkSys Nobody false RTop UIdle.

Definition stuck (s : sys) : Prop := steps s = [].

(** Who holds the mutex. *)
Definition lock_ok (s : sys) : Prop :=
  (lock s = Reconnector ↔ reconnector s = RIteration ∨ reconnector s = RChecking) ∧
  (lock s = User ↔ user s ≠ UIdle) ∧
  (user s = UJoin → up s = true) ∧ (reconnector s = RDone → up s = true).

Lemma lock_ok_step s s' : lock_ok s → step s s' → lock_ok s'.
Proof.
  destruct s as [[] [] [] []]; unfold lock_ok, step, steps, reconnector_steps, user_steps;
    cbn; rewrite ?elem_of_cons, ?elem_of_nil; intros (H1 & H2 & H3 & H4) Hs;
    destruct_or?; subst; cbn; naive_solver.
Qed.

Lemma lock_ok_reachable s : rtc step start s → lock_ok s.
Proof.
  cut (∀ a b, rtc step a b → lock_ok a → lock_ok b).
  { intros Hr H. apply (Hr _ _ H). unfold lock_ok. cbn. naive_solver. }
  induction 1; eauto using lock_ok_step.
Qed.

(** C13. A reachable deadlock.  The reconnect thread recovers the connection and
    releases the mutex, but before its next look at the connection a read fails and
    closes the socket: it joins the reconnect thread while holding the mutex that
    thread needs.  No thread can move from there, and such states (the user's thread
    in [join], the reconnect thread waiting for the mutex) are the only ones in which
    the two get stuck. *)
Theorem reconnect_deadlock :
  (∃ s, rtc step start s ∧ stuck s ∧ user s = UJoin ∧ reconnector s = RCheck) ∧
  ∀ s, rtc step start s → stuck s →
    user s = UJoin ∧ lock s = User ∧ (reconnector s = RCheck ∨ reconnector s = RTop).
Proof.
  split.
  - exists (mkSys User true RCheck UJoin). split; [|done].
    apply (rtc_l _ _ (mkSys Reconnector false RIteration UIdle)); [by left|].
    apply (rtc_l _ _ (mkSys Nobody true RCheck UIdle)); [by right; left|].
    apply (rtc_l _ _ (mkSys User true RCheck UInside)); [by right; left|].
    apply (rtc_l _ _ (mkSys User true RCheck UJoin)); [by right; left|]. done.
  - intros s Hr Hs. pose proof (lock_ok_reachable s Hr) as Hok. revert Hok Hs.
    destruct s as [[] [] [] []]; unfold lock_ok, stuck, steps, reconnector_steps, user_steps;
      cbn; naive_solver.
Qed.

End Lock.

(** ** Example messages and witnesses *)

#[export] Instance ConnectRequest_eq_dec : EqDecision ConnectRequest.
Proof. solve_decision. Defined.
#[export] Instance ConnectResponse_eq_dec : EqDecision ConnectResponse.
Proof. solve_decision. Defined.
#[export] Instance ConnectStatus_countable : Countable ConnectStatus.
Proof.
  apply (inj_countable' (λ s, match s with NEW_CLIENT => 0%nat | RETURNING_CLIENT => 1%nat
    | INVALID_KEY => 2%nat | MISMATCHED_PROTOCOL => 3%nat end)
    (λ n, match n with 0%nat => NEW_CLIENT | 1%nat => RETURNING_CLIENT | 2%nat => INVALID_KEY
    | _ => MISMATCHED_PROTOCOL end)). by intros [].
Defined.
#[export] Instance ConnectRequest_countable : Countable ConnectRequest.
Proof.
  by apply (inj_countable' (λ r, (req_clientId r, req_version r))
    (λ p, mkConnectRequest p.1 p.2)); intros [].
Defined.
#[export] Instance ConnectResponse_countable : Countable ConnectResponse.
Proof.
  by apply (inj_countable' (λ r, (resp_status r, resp_error r))
    (λ p, mkConnectResponse p.1 p.2)); intros [].
Defined.

Section Witnesses.
#[local] Existing Instance example_secretbox.
#[local] Instance request_proto : Proto ConnectRequest :=
  countable_proto (mkConnectRequest None None).
#[local] Instance request_laws : ProtoLaws ConnectRequest := countable_proto_laws _.
#[local] Instance response_proto : Proto ConnectResponse :=
  countable_proto (mkConnectResponse None None).
#[local] Instance response_laws : ProtoLaws ConnectResponse := countable_proto_laws _.
#[local] Instance c_header_proto : Proto SequenceHeader := countable_proto (mkSequenceHeader None).
#[local] Instance c_catchup_proto : Proto CatchupBuffer := countable_proto (mkCatchupBuffer []).

Definition c_client : ClientConnection :=
  ClientConnection_new (mkEndpoint (Some (lit "host")) (Some 2022)) (lit "id")
    (lit "0123456789abcdef0123456789abcdef").

(** A server that accepts the connection as number 5 and answers [st]. *)
Definition c_server (st : ConnectStatus) : Wire :=
  with_connects (with_in wire0 5 (proto_frame
    (default [] (serialize (mkConnectResponse (Some st) None))))) [IoOk 5].

Definition c_connected : ClientConnection := (connect 900 (c_client, c_server NEW_CLIENT)).2.1.

Lemma connect_establishes_witness :
  ∃ fd, fd ≠ -1 ∧
    c_connected = set_conn (connected (lit "id") (key (conn c_client)) fd false) c_client.
Proof.
  destruct (connect_establishes 900 c_client (c_server NEW_CLIENT)
    (connect 900 (c_client, c_server NEW_CLIENT)).2.1
    (connect 900 (c_client, c_server NEW_CLIENT)).2.2) as (fd & k1 & _ & _ & _ & _ & Hfd & Ho & _);
    [vm_compute; reflexivity|].
  exists fd. split; [exact Hfd|exact Ho].
Defined.

Definition c_refused : ClientConnection * Wire := (connect 900 (c_client, c_server INVALID_KEY)).2.

Lemma connect_failure_keeps_fd_witness :
  socketFd (conn c_refused.1) = 5 ∧ isDisconnected (conn c_refused.1) = false.
Proof.
  refine (let P := connect_failure_keeps_fd 900 c_client (c_server INVALID_KEY) 5
    (with_connects (c_server INVALID_KEY) []) c_refused.1 c_refused.2 _ _ _ in
    conj (proj1 P) (proj1 (proj2 P))).
  - vm_compute. reflexivity.
  - lia.
  - vm_compute. reflexivity.
Defined.

Lemma wire_close_returns : ∀ fd k, (sh_close (W := Wire) fd k).1 = Ok tt.
Proof. reflexivity. Qed.

Definition c_ended : ClientConnection * Wire :=
  (reconnect_iteration 900 (c_client, c_server INVALID_KEY)).2.

Lemma reconnect_iteration_result_witness :
  conn c_ended.1 = set_shuttingDown true (conn c_client).
Proof.
  refine (reconnect_iteration_result 900 c_client (c_server INVALID_KEY) PReturn c_ended.1 c_ended.2
    wire_close_returns _). vm_compute. reflexivity.
Defined.

Definition c_polled : ClientConnection * Wire :=
  (pollReconnect 900 [] (c_client, c_server INVALID_KEY)).2.

Lemma pollReconnect_ends_witness :
  socketFd (conn c_polled.1) ≠ -1 ∨ shuttingDown (conn c_polled.1) = true.
Proof.
  refine (pollReconnect_ends 900 [] c_client (c_server INVALID_KEY) c_polled.1 c_polled.2
    wire_close_returns _). vm_compute. reflexivity.
Defined.
End Witnesses.
