(* ===== verification/ServerConnection.v ===== *)
(** * [ServerConnection]: the clients of a server

    [ServerClientConnection.cpp] and [ServerConnection.cpp]: registered keys, the
    connection of each client, and the handler that runs for every socket that is
    accepted.  Connections are shared objects ([shared_ptr]), so the state keeps
    them in a heap and the maps hold locations.  The handler is divided where it
    releases [classMutex]; what other threads do to the server there is a
    parameter. *)

From S2P Require Import Prelude Sockets Crypto Packets Wire Backed WriterSpec ReaderSpec.
From S2P Require Import Connection Endpoint Session ClientConnection.
Import Conn.

(** ** [ServerClientConnection] *)
Module ServerClient.

Definition ServerClientConnection_new (clientId : str) (fd : Z) (k : str) : outcome Connection :=
  match CryptoHandler_new k CLIENT_SERVER_NONCE_MSB with
  | Stop f => Stop f
  | Ok rc =>
    match CryptoHandler_new k SERVER_CLIENT_NONCE_MSB with
    | Stop f => Stop f
    | Ok wc => Ok (mkConnection clientId k fd false (Some (Reader.init rc fd)) (Some (Writer.init wc fd)))
    end
  end.

(** The loop of [verifyPasskey]: [matchFailed] after the common characters. *)
Fixpoint compare_loop (a b : str) (matchFailed : bool) : bool :=
  match a, b with
  | x :: a', y :: b' => compare_loop a' b' (matchFailed || negb (bool_decide (x = y)))
  | _, _ => matchFailed
  end.

Definition verifyPasskey (targetKey : str) (c : Connection) : bool :=
  negb (compare_loop (key c) targetKey (negb (len (key c) =? len targetKey))).

Section ServerClient.
Context {W : Type} `{SocketHandler W} `{SecretBox}.
Context `{!Proto SequenceHeader} `{!Proto CatchupBuffer}.

Definition recoverClient (fuel : nat) (newSocketFd : Z) : M (Connection * W) bool :=
  c ← on_fst get;
  _ ← (if negb (socketFd c =? -1) then closeSocket else mret tt);
  recover fuel newSocketFd.
End ServerClient.

End ServerClient.
Import ServerClient.

(** ** [ServerConnection] *)
Module Server.

Record ServerConnection := mkServer {
  clientKeys : gmap str str;
  clientConnections : gmap str positive;
  objects : gmap positive Connection;
  serverEndpoint : SocketEndpoint;
  pool : option (list Z);
}.

Definition init (e : SocketEndpoint) : ServerConnection := mkServer ∅ ∅ ∅ e (Some []).

Definition set_clientKeys (m : gmap str str) (s : ServerConnection) : ServerConnection :=
  mkServer m (clientConnections s) (objects s) (serverEndpoint s) (pool s).
Definition set_clientConnections (m : gmap str positive) (s : ServerConnection) : ServerConnection :=
  mkServer (clientKeys s) m (objects s) (serverEndpoint s) (pool s).
Definition set_objects (m : gmap positive Connection) (s : ServerConnection) : ServerConnection :=
  mkServer (clientKeys s) (clientConnections s) m (serverEndpoint s) (pool s).
Definition set_pool (p : option (list Z)) (s : ServerConnection) : ServerConnection :=
  mkServer (clientKeys s) (clientConnections s) (objects s) (serverEndpoint s) p.

Definition clientKeyExists (i : str) (s : ServerConnection) : bool :=
  bool_decide (is_Some (clientKeys s !! i)).
Definition clientConnectionExists (i : str) (s : ServerConnection) : bool :=
  bool_decide (is_Some (clientConnections s !! i)).

(** [clientKeys[id] = passkey] *)
Definition addClientKey (i passkey : str) (s : ServerConnection) : ServerConnection :=
  set_clientKeys (<[i := passkey]> (clientKeys s)) s.

Definition getClientConnection (i : str) (s : ServerConnection) : outcome positive :=
  match clientConnections s !! i with
  | Some l => Ok l
  | None => Stop (Fatal "Error: Tried to get a client connection that doesn't exist")
  end.

(** What the locked part of the handler finds for a client id. *)
Inductive lookup_result :=
| Unregistered
| Created (l : positive)
| Returning (l : positive).

(** [new ServerClientConnection], and its entry in [clientConnections]. *)
Definition create_client (clientId : str) (fd : Z) (s : ServerConnection)
    : outcome (positive * ServerConnection) :=
  match clientKeys s !! clientId with
  | None => Stop (Throw (Exn LogicError "unordered_map::at"))
  | Some k =>
    match ServerClientConnection_new clientId fd k with
    | Stop f => Stop f
    | Ok c =>
      let l := fresh (dom (objects s)) in
      Ok (l, set_clientConnections (<[clientId := l]> (clientConnections s))
               (set_objects (<[l := c]> (objects s)) s))
    end
  end.

Definition lookup_client (clientId : str) (fd : Z) (s : ServerConnection)
    : outcome (lookup_result * ServerConnection) :=
  let clientKeyExistsNow := clientKeyExists clientId s in
  match clientConnections s !! clientId with
  | Some l => Ok (if clientKeyExistsNow then Returning l else Unregistered, s)
  | None =>
    if clientKeyExistsNow then
      match create_client clientId fd s with
      | Ok (l, s') => Ok (Created l, s')
      | Stop f => Stop f
      end
    else Ok (Unregistered, s)
  end.

Section Server.
Context {W : Type} `{SocketHandler W} `{SecretBox}.
Context `{!Proto SequenceHeader} `{!Proto CatchupBuffer}.
Context `{!Proto ConnectRequest} `{!Proto ConnectResponse}.

(** A method of the connection object at a location. *)
Definition on_object {A} (l : positive) (m : M (Connection * W) A) : M (ServerConnection * W) A :=
  λ '(s, k),
    match objects s !! l with
    | None => (Stop (UB "dangling connection"), (s, k))
    | Some c =>
      let '(r, (c', k')) := m (c, k) in (r, (set_objects (<[l := c']> (objects s)) s, k'))
    end.

Definition ServerConnection_new (e : SocketEndpoint) : M W ServerConnection :=
  _ ← sh_listen e;
  mret (init e).

(** The accepted descriptor goes to the thread pool. *)
Definition acceptNewConnection (fd : Z) : M (ServerConnection * W) bool :=
  r ← on_snd (sh_accept fd);
  match r with
  | IoErr _ => mret false
  | IoOk clientSocketFd =>
    if clientSocketFd <? 0 then mret false
    else
      s ← on_fst get;
      match pool s with
      | None => undefined "null thread pool"
      | Some q => _ ← on_fst (put (set_pool (Some (q ++ [clientSocketFd])) s)); mret true
      end
  end.

Definition removeClient (i : str) : M (ServerConnection * W) bool :=
  s ← on_fst get;
  if negb (clientKeyExists i s) then mret false
  else
    _ ← on_fst (put (set_clientKeys (delete i (clientKeys s)) s));
    match clientConnections s !! i with
    | None => mret true
    | Some l =>
      _ ← on_object l Conn.shutdown;
      _ ← on_fst (modify (λ s, set_clientConnections (delete i (clientConnections s)) s));
      mret true
    end.

Definition destroyPartialConnection (clientId : str) : M (ServerConnection * W) unit :=
  s ← on_fst get;
  match clientConnections s !! clientId with
  | None => mret tt
  | Some l =>
    _ ← on_object l Conn.shutdown;
    on_fst (modify (λ s, set_clientConnections (delete clientId (clientConnections s)) s))
  end.

(** Shutting down the connections, in the iteration order of the map. *)
Fixpoint shutdown_all (ls : list positive) : M (ServerConnection * W) unit :=
  match ls with
  | [] => mret tt
  | l :: ls' => _ ← on_object l Conn.shutdown; shutdown_all ls'
  end.

Definition shutdown (order : gmap str positive → list positive) : M (ServerConnection * W) unit :=
  s ← on_fst get;
  _ ← on_snd (sh_stopListening (serverEndpoint s));
  _ ← on_fst (modify (set_pool None));
  s ← on_fst get;
  _ ← shutdown_all (order (clientConnections s));
  on_fst (modify (set_clientConnections ∅)).

Definition response (st : ConnectStatus) (err : option str) : ConnectResponse :=
  mkConnectResponse (Some st) err.

(** The first part of the handler: [None] when the version does not match and
    the client has been turned away. *)
Definition read_request (fuel : nat) (fd : Z) (mismatch : str) : M (ServerConnection * W) (option str) :=
  request ← on_snd (readProto ConnectRequest fuel fd true);
  if negb (version request =? PROTOCOL_VERSION) then
    _ ← on_snd (writeProto fuel fd (response MISMATCHED_PROTOCOL (Some mismatch)) true);
    _ ← on_snd (sh_close fd);
    mret None
  else mret (Some (req_clientid request)).

(** The [else] of the version check, from the answer on. *)
Definition serve_client (fuel : nat) (fd : Z) (clientId : str)
    (newClient : positive → M (ServerConnection * W) bool)
    (between : ServerConnection → ServerConnection) (res : lookup_result)
    : M (ServerConnection * W) unit :=
  match res with
  | Unregistered =>
    _ ← on_snd (writeProto fuel fd (response INVALID_KEY (Some (lit "Client is not registered"))) true);
    on_snd (sh_close fd)
  | Created l =>
    _ ← on_snd (writeProto fuel fd (response NEW_CLIENT None) true);
    _ ← on_fst (modify between);
    ok ← newClient l;
    if negb ok then
      _ ← removeClient clientId;
      on_snd (sh_close fd)
    else mret tt
  | Returning l =>
    _ ← on_snd (writeProto fuel fd (response RETURNING_CLIENT None) true);
    _ ← on_fst (modify between);
    _ ← on_object l (recoverClient fuel fd);
    mret tt
  end.

(** Both [catch] clauses. *)
Definition handler_failed (created : bool) (clientId : str) (fd : Z) : M (ServerConnection * W) unit :=
  if created then destroyPartialConnection clientId
  else on_snd (sh_close fd).

Definition is_created (res : lookup_result) : bool :=
  match res with Created _ => true | _ => false end.

(** [clientHandler]: [before] and [between] are the other threads, before the
    lookup and after the answer. *)
Definition clientHandler (fuel : nat) (mismatch : str)
    (newClient : positive → M (ServerConnection * W) bool)
    (before between : ServerConnection → ServerConnection) (clientSocketFd : Z)
    : M (ServerConnection * W) unit :=
  request ← catch_all (read_request fuel clientSocketFd mismatch)
    (λ _, _ ← handler_failed false [] clientSocketFd; mret None);
  match request with
  | None => mret tt
  | Some clientId =>
    _ ← on_fst (modify before);
    s ← on_fst get;
    match lookup_client clientId clientSocketFd s with
    | Stop f => stop f
    | Ok (res, s') =>
      _ ← on_fst (put s');
      catch_all (serve_client fuel clientSocketFd clientId newClient between res)
        (λ _, handler_failed (is_created res) clientId clientSocketFd)
    end
  end.
End Server.

End Server.
Import Server.

(** ** The passkey *)

Lemma compare_loop_spec a b m :
  length a = length b → compare_loop a b m = m || negb (bool_decide (a = b)).
Proof.
  revert b m. induction a as [|x a IH]; intros [|y b] m Hl; try done; cbn [compare_loop].
  - by rewrite orb_false_r.
  - injection Hl as Hl. rewrite IH by done. destruct (decide (x = y)) as [->|Hne].
    + rewrite (bool_decide_eq_true_2 (y = y)) by done. cbn [negb]. rewrite orb_false_r.
      f_equal. f_equal. by apply bool_decide_ext; naive_solver.
    + rewrite (bool_decide_eq_false_2 (x = y)), (bool_decide_eq_false_2 (x :: a = y :: b)) by congruence.
      by destruct m, (bool_decide (a = b)).
Qed.

Lemma compare_loop_true a b : compare_loop a b true = true.
Proof. revert b. induction a as [|x a IH]; intros [|y b]; cbn; auto. Qed.

Lemma verifyPasskey_spec targetKey c :
  verifyPasskey targetKey c = bool_decide (key c = targetKey).
Proof.
  unfold verifyPasskey. destruct (len (key c) =? len targetKey) eqn:E; b2p; cbn [negb].
  - rewrite compare_loop_spec by lia. cbn [orb]. by rewrite negb_involutive.
  - rewrite compare_loop_true. rewrite bool_decide_eq_false_2; [done|]. intros Hk. by rewrite Hk in E.
Qed.

(** [verifyPasskey] accepts exactly the key of the connection, although it
    never leaves the comparison early. *)
Theorem verifyPasskey_exact targetKey c :
  verifyPasskey targetKey c = bool_decide (key c = targetKey).
Proof. apply verifyPasskey_spec. Qed.

(** ** The two ends of a new connection match *)

Lemma ServerClientConnection_new_spec i fd k c :
  ServerClientConnection_new i fd k = Ok c →
  len k = crypto_secretbox_KEYBYTES ∧
  c = mkConnection i k fd false
    (Some (Reader.init (mkCrypto (initial_nonce CLIENT_SERVER_NONCE_MSB) k) fd))
    (Some (Writer.init (mkCrypto (initial_nonce SERVER_CLIENT_NONCE_MSB) k) fd)).
Proof.
  unfold ServerClientConnection_new, CryptoHandler_new.
  destruct (len k =? crypto_secretbox_KEYBYTES) eqn:E; b2p; [|done]. by intros [= <-].
Qed.

(** The handler, from a connection that is to be created on. *)
Lemma clientHandler_creates {W} `{SocketHandler W} `{!SecretBox}
    `{!Proto SequenceHeader} `{!Proto CatchupBuffer} `{!Proto ConnectRequest} `{!Proto ConnectResponse}
    fuel mismatch newClient before between fd (s : ServerConnection) (w : W) i s1 w1 k :
  read_request fuel fd mismatch (s, w) = (Ok (Some i), (s1, w1)) →
  clientKeys (before s1) !! i = Some k → clientConnections (before s1) !! i = None →
  len k = crypto_secretbox_KEYBYTES →
  ∃ l c s2,
    ServerClientConnection_new i fd k = Ok c ∧
    objects s2 !! l = Some c ∧ clientConnections s2 !! i = Some l ∧
    clientHandler fuel mismatch newClient before between fd (s, w) =
      catch_all (serve_client fuel fd i newClient between (Created l)) (λ _, handler_failed true i fd) (s2, w1).
Proof.
  intros Hreq Hkey Hnone Hlen.
  destruct (ServerClientConnection_new i fd k) as [c|f] eqn:Hc;
    [|unfold ServerClientConnection_new, CryptoHandler_new in Hc;
      by rewrite (proj2 (Z.eqb_eq _ _) Hlen) in Hc].
  set (l := fresh (dom (objects (before s1)))).
  exists l, c, (set_clientConnections (<[i := l]> (clientConnections (before s1)))
    (set_objects (<[l := c]> (objects (before s1))) (before s1))).
  split; [done|]. split; [apply lookup_insert_eq|]. split; [apply lookup_insert_eq|].
  unfold clientHandler. rewrite M_bind_stop_inv. unfold catch_all at 1. rewrite Hreq.
  rewrite run_fst_modify, run_fst_get. unfold lookup_client, create_client, clientKeyExists.
  rewrite Hnone, Hkey, bool_decide_eq_true_2, Hc by done.
  by rewrite run_fst_put.
Qed.

Section Opening.
Context {W : Type} `{!Streams W} (net : SocketHandler W) `{!@StreamHandler W net _} `{!SecretBox}.
#[local] Instance opening_net : SocketHandler W := steady net.
Context `{!Proto SequenceHeader} `{!Proto CatchupBuffer}.
Context `{!Proto ConnectRequest} `{!ProtoLaws ConnectRequest}.
Context `{!Proto ConnectResponse} `{!ProtoLaws ConnectResponse}.

(** C10. The handshake opens a session.  The client's [connect] returns true on the socket
    [fdC]; the server's handler reads its request from a stream that starts with what the
    client has sent there, and finds the client's id registered with the client's key, and no
    connection of it.  Then the handler has taken exactly the request from the stream, it goes
    on with the answer [NEW_CLIENT] and the callback from a state in which the id has a
    connection [c], and the two connections are open with crossed nonces: what session
    delivery starts from.  (As in C3, no write asks to be retried after sending a part of its
    buffer.) *)
Theorem handshake_opens_session fuelC o (k : W) fdC k1 o' k'
    fuelS mismatch newClient before between fdS (s : ServerConnection) (w : W) later request s1 w1 :
  sh_connect (Client.remoteEndpoint o) k = (Ok (IoOk fdC), k1) → 0 <= fdC → 0 <= fdS →
  Client.connect fuelC (o, k) = (Ok true, (o', k')) →
  incoming w fdS = drop (length (outgoing k1 fdC)) (outgoing k' fdC) ++ later →
  read_request fuelS fdS mismatch (s, w) = (Ok request, (s1, w1)) →
  clientKeys (before s1) !! id (Client.conn o) = Some (key (Client.conn o)) →
  clientConnections (before s1) !! id (Client.conn o) = None →
  let cC := mkCrypto (initial_nonce CLIENT_SERVER_NONCE_MSB) (key (Client.conn o)) in
  let cS := mkCrypto (initial_nonce SERVER_CLIENT_NONCE_MSB) (key (Client.conn o)) in
  request = Some (id (Client.conn o)) ∧ incoming w1 fdS = later ∧
  ∃ l c s2,
    objects s2 !! l = Some c ∧ clientConnections s2 !! id (Client.conn o) = Some l ∧
    clientHandler fuelS mismatch newClient before between fdS (s, w) =
      catch_all (serve_client fuelS fdS (id (Client.conn o)) newClient between (Created l))
        (λ _, handler_failed true (id (Client.conn o)) fdS) (s2, w1) ∧
    @opened W _ Client.client_object fdC cC cS o' ∧ @opened W _ base_object fdS cS cC c.
Proof.
  intros Hconn HfC HfS Hcl Hin Hreq Hkey Hnone cC cS.
  apply connect_establishes in Hcl as (fd & k2 & q & x & resp & Hc & _ & -> & Hq & Hmax & Hlen & Hx & _).
  change (@sh_connect W net (Client.remoteEndpoint o) k = (Ok (IoOk fd), k2)) in Hc.
  change (@sh_connect W net (Client.remoteEndpoint o) k = (Ok (IoOk fdC), k1)) in Hconn.
  rewrite Hconn in Hc. injection Hc as <- <-.
  destruct Hx as (_ & Hout & _). rewrite Hout, drop_app_length in Hin.
  assert (request = Some (id (Client.conn o)) ∧ incoming w1 fdS = later) as [-> Hlater].
  { clear Hkey Hnone. unfold read_request in Hreq. rewrite run_snd in Hreq.
    destruct (readProto ConnectRequest fuelS fdS true w) as [[r|f] w2] eqn:Er; [|done].
    apply readProto_ok in Er as (raw & body & Hl & Hd & (Hi & _) & Hp). rewrite Hi in Hin.
    destruct (is_msg_frame (raw ++ body) r (incoming w2 fdS) q later) as (Hf & Hp' & _);
      [by exists raw, body|done|by rewrite Hin|].
    rewrite (parse_serialize _ _ Hq) in Hp'. injection Hp' as <-.
    injection Hreq as <- <- <-. split; [done|].
    rewrite Hf in Hin. by apply app_inv_head in Hin. }
  destruct (clientHandler_creates fuelS mismatch newClient before between fdS s w _ s1 w1 _ Hreq Hkey Hnone Hlen)
    as (l & c & s2 & Hc & Ho & Hl & Hrun).
  split; [done|]. split; [done|]. exists l, c, s2. split; [exact Ho|]. split; [done|]. split; [exact Hrun|].
  apply ServerClientConnection_new_spec in Hc as [_ ->]. split; by split_and!.
Qed.
End Opening.

(** ** The maps and the heap *)

Record server_ok (s : ServerConnection) : Prop := {
  connections_registered i l :
    clientConnections s !! i = Some l → is_Some (clientKeys s !! i);
  connections_alive i l :
    clientConnections s !! i = Some l → ∃ c, objects s !! l = Some c ∧ id c = i;
}.

Lemma closeSocket_same_id {W} `{SocketHandler W} c (k : W) :
  id (closeSocket (c, k)).2.1 = id c ∧ key (closeSocket (c, k)).2.1 = key c.
Proof.
  unfold closeSocket. rewrite run_fst_get. case_match; [done|].
  rewrite run_fst_modify. unfold on_snd, zoom. cbn [fst snd]. by destruct (sh_close _ k).
Qed.

Lemma shutdown_same_id {W} `{SocketHandler W} c (k : W) :
  id (Conn.shutdown (c, k)).2.1 = id c ∧ key (Conn.shutdown (c, k)).2.1 = key c.
Proof. apply (closeSocket_same_id (set_shuttingDown true c)). Qed.

Section ServerLaws.
Context {W : Type} `{SocketHandler W} `{!SecretBox}.
Context `{!Proto SequenceHeader} `{!Proto CatchupBuffer}.
Context `{!Proto ConnectRequest} `{!Proto ConnectResponse}.

Definition keeps_id {A} (m : M (Connection * W) A) : Prop :=
  ∀ c k, id (m (c, k)).2.1 = id c.

Lemma keeps_id_bind {A B} (m : M (Connection * W) A) (f : A → M (Connection * W) B) :
  keeps_id m → (∀ a, keeps_id (f a)) → keeps_id (m ≫= f).
Proof.
  intros Hm Hf c k. specialize (Hm c k). rewrite M_bind_stop_inv.
  destruct (m (c, k)) as [[a|e] [c1 k1]]; cbn [fst snd] in *; [|done]. by rewrite Hf.
Qed.

Lemma keeps_id_snd {A} (m : M W A) : keeps_id (on_snd m).
Proof. intros c k. unfold on_snd, zoom. cbn. by destruct (m k). Qed.

Lemma keeps_id_modify f : (∀ c, id (f c) = id c) → keeps_id (on_fst (modify f)).
Proof. intros Hf c k. apply Hf. Qed.

Lemma keeps_id_get {B} (f : Connection → M (Connection * W) B) :
  (∀ c, keeps_id (f c)) → keeps_id (on_fst get ≫= f).
Proof. intros Hf c k. rewrite run_fst_get. apply Hf. Qed.

Lemma keeps_id_close : keeps_id closeSocket.
Proof. intros c k. apply closeSocket_same_id. Qed.

Lemma keeps_id_recover fuel fd : keeps_id (recover fuel fd).
Proof.
  assert (keeps_id (recover_exchange fuel fd)) as Hx.
  { unfold recover_exchange, the_reader, the_writer.
    repeat first [apply keeps_id_bind; [|intros] | apply keeps_id_get; intros
      | apply keeps_id_snd | apply keeps_id_modify; done | done | case_match]. }
  intros c k. specialize (Hx c k). unfold recover, catch_runtime.
  destruct (recover_exchange fuel fd (c, k)) as [[b|[[[] why]| | |]] [c1 k1]]; try done.
  cbn [fst snd] in Hx. rewrite <-Hx.
  refine (keeps_id_bind (on_snd (sh_close fd)) (λ _, mret false) _ _ c1 k1);
    [apply keeps_id_snd|done].
Qed.

Lemma keeps_id_recoverClient fuel fd : keeps_id (recoverClient fuel fd).
Proof.
  unfold recoverClient. apply keeps_id_get. intros c. apply keeps_id_bind;
    [case_match; [apply keeps_id_close|done]|intros; apply keeps_id_recover].
Qed.

(** Operations of the server that keep [server_ok]. *)
Definition keeps_ok {A} (m : M (ServerConnection * W) A) : Prop :=
  ∀ s k, server_ok s → server_ok (m (s, k)).2.1.

Lemma keeps_ok_bind {A B} (m : M (ServerConnection * W) A) (f : A → M (ServerConnection * W) B) :
  keeps_ok m → (∀ a, keeps_ok (f a)) → keeps_ok (m ≫= f).
Proof.
  intros Hm Hf s k Hs. specialize (Hm s k Hs). rewrite M_bind_stop_inv.
  destruct (m (s, k)) as [[a|e] [s1 k1]]; cbn [fst snd] in *; [|done]. by apply Hf.
Qed.

Lemma keeps_ok_ret {A} (a : A) : keeps_ok (mret a).
Proof. by intros s k Hs. Qed.

Lemma keeps_ok_snd {A} (m : M W A) : keeps_ok (on_snd m).
Proof. intros s k Hs. unfold on_snd, zoom. cbn. by destruct (m k). Qed.

Lemma keeps_ok_modify f : (∀ s, server_ok s → server_ok (f s)) → keeps_ok (on_fst (modify f)).
Proof. intros Hf s k. apply Hf. Qed.

Lemma keeps_ok_get {B} (f : ServerConnection → M (ServerConnection * W) B) :
  (∀ s k, server_ok s → server_ok (f s (s, k)).2.1) → keeps_ok (on_fst get ≫= f).
Proof. intros Hf s k Hs. rewrite run_fst_get. by apply Hf. Qed.

Lemma keeps_ok_catch {A} (m : M (ServerConnection * W) A) h :
  keeps_ok m → (∀ e, keeps_ok (h e)) → keeps_ok (catch_all m h).
Proof.
  intros Hm Hh s k Hs. specialize (Hm s k Hs). unfold catch_all.
  destruct (m (s, k)) as [[a|[e| | |]] [s1 k1]]; cbn [fst snd] in *; try done. by apply Hh.
Qed.

Lemma keeps_ok_object {A} l (m : M (Connection * W) A) : keeps_id m → keeps_ok (on_object l m).
Proof.
  intros Hm s k Hs. unfold on_object. destruct (objects s !! l) as [c|] eqn:Hl; [|done].
  pose proof (Hm c k) as Hid. destruct (m (c, k)) as [r [c1 k1]]. cbn [fst snd] in *.
  destruct Hs as [Hreg Halive]. split; cbn; [done|]. intros i l' Hi.
  destruct (Halive i l' Hi) as (c' & Hc' & Hid').
  destruct (decide (l' = l)) as [->|Hne]; [|exists c'; by rewrite lookup_insert_ne].
  exists c1. rewrite lookup_insert_eq. split; [done|]. congruence.
Qed.

Lemma server_ok_delete i s :
  server_ok s → server_ok (set_clientConnections (delete i (clientConnections s)) s).
Proof. intros [? ?]. split; cbn; intros j l [? ?]%lookup_delete_Some; eauto. Qed.

Lemma lookup_client_ok clientId fd s res s' :
  server_ok s → lookup_client clientId fd s = Ok (res, s') → server_ok s'.
Proof.
  intros Hs. unfold lookup_client, create_client, clientKeyExists.
  destruct (clientConnections s !! clientId) eqn:Hconn; [by intros [= _ <-]|].
  case_bool_decide as Hkey; [|by intros [= _ <-]].
  destruct (clientKeys s !! clientId) as [key|] eqn:Hk; [|done].
  destruct (ServerClientConnection_new clientId fd key) as [c|] eqn:Hc; [|done].
  intros [= _ <-]. apply ServerClientConnection_new_spec in Hc as [_ ->].
  set (l := fresh (dom (objects s))).
  assert (objects s !! l = None) as Hfresh by (apply not_elem_of_dom, is_fresh).
  destruct Hs as [Hreg Halive]. split; cbn; intros i l' Hi.
  - destruct (decide (i = clientId)) as [->|Hne]; [by rewrite Hk|].
    rewrite lookup_insert_ne in Hi by done. eauto.
  - destruct (decide (i = clientId)) as [->|Hne].
    + rewrite lookup_insert_eq in Hi. injection Hi as <-.
      eexists. by rewrite lookup_insert_eq.
    + rewrite lookup_insert_ne in Hi by done. destruct (Halive i l' Hi) as (c' & Hc' & ?).
      exists c'. rewrite lookup_insert_ne; [done|]. congruence.
Qed.

(** From here on, closing a socket just returns. *)
Hypothesis close_returns : ∀ fd k, (sh_close (W := W) fd k).1 = Ok tt.

(** A connection that was shut down. *)
Definition shut (c : Connection) : Connection :=
  if socketFd c =? -1 then set_shuttingDown true c else invalidate (set_shuttingDown true c).

Lemma shutdown_run c k :
  Conn.shutdown (c, k) =
    (Ok tt, (shut c, if socketFd c =? -1 then k else (sh_close (socketFd c) k).2)).
Proof.
  unfold Conn.shutdown, closeSocket, shut. rewrite run_fst_modify, run_fst_get.
  cbn [set_shuttingDown socketFd]. destruct (socketFd c =? -1); [done|].
  rewrite run_fst_modify. unfold on_snd, zoom. cbn [fst snd].
  specialize (close_returns (socketFd c) k). destruct (sh_close (socketFd c) k). cbn in *. by subst.
Qed.

(** The server without the connection of [i], whose object was shut down. *)
Definition drop_client (i : str) (s : ServerConnection) : ServerConnection :=
  match clientConnections s !! i with
  | None => s
  | Some l => set_clientConnections (delete i (clientConnections s))
                (set_objects (alter shut l (objects s)) s)
  end.

Lemma shutdown_object_run l c s k :
  objects s !! l = Some c →
  ∃ k', on_object l Conn.shutdown (s, k) = (Ok tt, (set_objects (alter shut l (objects s)) s, k')).
Proof.
  intros Hl. unfold on_object. rewrite Hl, shutdown_run. eexists. f_equal. f_equal. f_equal.
  apply map_eq. intros j. destruct (decide (j = l)) as [->|Hne].
  - by rewrite lookup_insert_eq, lookup_alter_eq, Hl.
  - by rewrite lookup_insert_ne, lookup_alter_ne.
Qed.

(** [removeClient]: an unknown id changes nothing and returns false; a known
    one loses its key and its connection, whose object (which others may still
    hold) is shut down and disconnected.  No other client is affected. *)
Theorem removeClient_spec i s k :
  server_ok s →
  ∃ k', removeClient i (s, k) =
    if clientKeyExists i s
    then (Ok true, (set_clientKeys (delete i (clientKeys s)) (drop_client i s), k'))
    else (Ok false, (s, k)).
Proof.
  intros [Hreg Halive]. unfold removeClient. rewrite run_fst_get.
  destruct (clientKeyExists i s); cbn [negb]; [|by eexists].
  rewrite run_fst_put. unfold drop_client.
  destruct (clientConnections s !! i) as [l|] eqn:Hl; [|by eexists].
  destruct (Halive i l Hl) as (c & Hc & _).
  destruct (shutdown_object_run l c (set_clientKeys (delete i (clientKeys s)) s) k Hc) as [k' Hrun].
  exists k'. rewrite M_bind_stop_inv, Hrun. done.
Qed.

Lemma destroyPartialConnection_run i s k :
  server_ok s →
  ∃ k', destroyPartialConnection i (s, k) = (Ok tt, (drop_client i s, k')).
Proof.
  intros [Hreg Halive]. unfold destroyPartialConnection, drop_client. rewrite run_fst_get.
  destruct (clientConnections s !! i) as [l|] eqn:Hl; [|by eexists].
  destruct (Halive i l Hl) as (c & Hc & _).
  destruct (shutdown_object_run l c s k Hc) as [k' Hrun].
  exists k'. by rewrite M_bind_stop_inv, Hrun.
Qed.

Lemma id_shut c : id (shut c) = id c.
Proof. unfold shut. by case_match. Qed.

Lemma drop_client_ok i s : server_ok s → server_ok (drop_client i s).
Proof.
  intros [Hreg Halive]. unfold drop_client.
  destruct (clientConnections s !! i) as [l|] eqn:Hl; [|done].
  split; cbn; intros j l' [? Hj]%lookup_delete_Some; [eauto|].
  destruct (Halive j l' Hj) as (c & Hc & Hid).
  destruct (decide (l' = l)) as [->|Hne].
  - exists (shut c). by rewrite lookup_alter_eq, Hc, id_shut.
  - exists c. by rewrite lookup_alter_ne.
Qed.

Lemma remove_key_ok i s :
  server_ok s → server_ok (set_clientKeys (delete i (clientKeys s)) (drop_client i s)).
Proof.
  intros Hs. pose proof (drop_client_ok i s Hs) as [Hreg Halive]. split; cbn; [|done].
  intros j l Hj. destruct (decide (j = i)) as [->|Hne].
  - exfalso. unfold drop_client in Hj. destruct (clientConnections s !! i) eqn:E; cbn in Hj;
      [by rewrite lookup_delete_eq in Hj|by rewrite E in Hj].
  - rewrite lookup_delete_ne by done. revert Hj. unfold drop_client.
    destruct (clientConnections s !! i); cbn; [intros [_ Hj]%lookup_delete_Some|intros Hj];
      by eapply connections_registered.
Qed.

Lemma keeps_ok_removeClient i : keeps_ok (removeClient i).
Proof.
  intros s k Hs. destruct (removeClient_spec i s k Hs) as [k' ->].
  destruct (clientKeyExists i s); [by apply remove_key_ok|done].
Qed.

Lemma keeps_ok_failed b i fd : keeps_ok (handler_failed b i fd).
Proof.
  unfold handler_failed. destruct b; [|apply keeps_ok_snd]. intros s k Hs.
  destruct (destroyPartialConnection_run i s k Hs) as [k' ->]. by apply drop_client_ok.
Qed.

Ltac keeps :=
  repeat first
    [ apply keeps_ok_ret | apply keeps_ok_snd | apply keeps_ok_failed
    | apply keeps_ok_removeClient | apply keeps_ok_object, keeps_id_recoverClient
    | apply keeps_ok_catch; [|intros] | apply keeps_ok_bind; [|intros]
    | apply keeps_ok_modify; by auto | by auto | case_match ].

(** C11. The handler keeps the server consistent, for every client that connects
    and on every path (wrong version, unknown id, new or returning client, refused
    by [newClient], any exception), provided the callback and the other threads do:
    every connection in the map belongs to a registered id, exists, and carries
    that id. *)
Theorem clientHandler_keeps_ok fuel mismatch newClient before between fd s k :
  (∀ l, keeps_ok (newClient l)) →
  (∀ s, server_ok s → server_ok (before s)) → (∀ s, server_ok s → server_ok (between s)) →
  server_ok s →
  server_ok (clientHandler fuel mismatch newClient before between fd (s, k)).2.1.
Proof.
  intros Hnew Hbefore Hbetween. revert s k.
  change (keeps_ok (clientHandler fuel mismatch newClient before between fd)).
  unfold clientHandler. apply keeps_ok_bind.
  { unfold read_request. keeps. }
  intros [clientId|]; [|apply keeps_ok_ret].
  apply keeps_ok_bind; [by apply keeps_ok_modify|intros _].
  apply keeps_ok_get. intros s k Hs.
  destruct (lookup_client clientId fd s) as [[res s']|f] eqn:Hl; [|done].
  rewrite run_fst_put. apply lookup_client_ok in Hl; [|done]. revert Hl. revert s' k.
  change (keeps_ok (catch_all (serve_client fuel fd clientId newClient between res)
    (λ _, handler_failed (is_created res) clientId fd))).
  destruct res as [|l|l]; cbn [serve_client is_created]; keeps.
Qed.

Lemma shut_idemp c : shut (shut c) = shut c.
Proof. unfold shut. destruct c as [? ? fd ? ? ?]. cbn. by destruct (fd =? -1) eqn:E; cbn; rewrite ?E. Qed.

Lemma shutdown_all_run ls s k :
  (∀ l, l ∈ ls → is_Some (objects s !! l)) →
  ∃ m k', shutdown_all ls (s, k) = (Ok tt, (set_objects m s, k')) ∧
    ∀ l, m !! l = if decide (l ∈ ls) then shut <$> objects s !! l else objects s !! l.
Proof.
  revert s k. induction ls as [|l ls IH]; intros s k Hls.
  - exists (objects s), k. split; [by destruct s|]. intros l. by rewrite decide_False by apply not_elem_of_nil.
  - cbn [shutdown_all]. destruct (Hls l ltac:(by left)) as [c Hc].
    destruct (shutdown_object_run l c s k Hc) as [k1 Hrun]. rewrite M_bind_stop_inv, Hrun.
    destruct (IH (set_objects (alter shut l (objects s)) s) k1) as (m & k' & -> & Hm).
    { intros l' Hl'. cbn. destruct (decide (l' = l)) as [->|Hne];
        [by rewrite lookup_alter_eq, Hc|rewrite lookup_alter_ne by done; apply Hls; by right]. }
    exists m, k'. split; [done|]. intros l'. rewrite Hm. cbn.
    destruct (decide (l' = l)) as [->|Hne].
    + rewrite lookup_alter_eq, (decide_True (P := l ∈ l :: ls)) by (by left).
      case_decide; [|done]. rewrite <-option_fmap_compose. destruct (objects s !! l); [|done].
      cbn. by rewrite shut_idemp.
    + rewrite lookup_alter_ne by done.
      destruct (decide (l' ∈ ls)) as [Hin|Hnin];
        [by rewrite decide_True by (by right)|rewrite decide_False; [done|]].
      by intros [?|?]%elem_of_cons.
Qed.

(** Shutting the server down leaves no connection in the map and shuts down
    every connection that was in it, whatever the iteration order of the map. *)
Theorem shutdown_closes_all order s k k1 :
  (∀ m, order m ≡ₚ (map_to_list m).*2) → server_ok s →
  sh_stopListening (serverEndpoint s) k = (Ok tt, k1) →
  ∃ s' k', shutdown order (s, k) = (Ok tt, (s', k')) ∧ clientConnections s' = ∅ ∧
    clientKeys s' = clientKeys s ∧ pool s' = None ∧
    ∀ i l, clientConnections s !! i = Some l →
      ∃ c, objects s' !! l = Some c ∧ id c = i ∧ shuttingDown c = true ∧ socketFd c = -1.
Proof.
  intros Horder [Hreg Halive] Hstop. unfold shutdown.
  rewrite run_fst_get, run_snd, Hstop, run_fst_modify, run_fst_get. cbn [set_pool clientConnections].
  assert (∀ l, l ∈ order (clientConnections s) ↔ ∃ i, clientConnections s !! i = Some l) as Hin.
  { intros l. rewrite Horder, list_elem_of_fmap. split.
    - intros ([i l'] & -> & Hl%elem_of_map_to_list). by exists i.
    - intros [i Hi]. exists (i, l). by rewrite elem_of_map_to_list. }
  destruct (shutdown_all_run (order (clientConnections s)) (set_pool None s) k1) as (m & k' & Hrun & Hm).
  { intros l [i Hi]%Hin. destruct (Halive i l Hi) as (c & Hc & _). by exists c. }
  rewrite M_bind_stop_inv, Hrun. eexists _, k'. split; [done|]. cbn. split_and!; [done..|].
  intros i l Hi. destruct (Halive i l Hi) as (c & Hc & Hid).
  exists (shut c). rewrite Hm, decide_True by (apply Hin; eauto). cbn. rewrite Hc.
  split_and!; [done|by rewrite id_shut| |]; unfold shut; case_match eqn:E; b2p; done.
Qed.

(** The locked lookup of the handler, completely.  A client without a key is
    unregistered (even when a connection is left over); a registered client gets
    the connection it already has, or a new one at a fresh location, and nothing
    else changes; a registered key of the wrong length aborts the server when its
    client first connects. *)
Theorem lookup_client_decides i fd s :
  match lookup_client i fd s with
  | Ok (Unregistered, s') => clientKeys s !! i = None ∧ s' = s
  | Ok (Returning l, s') =>
    is_Some (clientKeys s !! i) ∧ clientConnections s !! i = Some l ∧ s' = s
  | Ok (Created l, s') => ∃ k c, clientKeys s !! i = Some k ∧
      clientConnections s !! i = None ∧ objects s !! l = None ∧
      ServerClientConnection_new i fd k = Ok c ∧
      s' = set_clientConnections (<[i := l]> (clientConnections s))
             (set_objects (<[l := c]> (objects s)) s)
  | Stop f => ∃ k, clientKeys s !! i = Some k ∧ clientConnections s !! i = None ∧
      len k ≠ crypto_secretbox_KEYBYTES ∧ f = Fatal "Invalid key length"
  end.
Proof.
  unfold lookup_client, create_client, clientKeyExists.
  destruct (clientConnections s !! i) as [l|] eqn:Hl; case_bool_decide as Hk.
  - done.
  - split; [by apply eq_None_not_Some|done].
  - destruct Hk as [k Hk]. rewrite Hk.
    unfold ServerClientConnection_new, CryptoHandler_new.
    destruct (len k =? crypto_secretbox_KEYBYTES) eqn:Hlen; b2p; [|by exists k].
    exists k. eexists. split_and!; [done|done|apply not_elem_of_dom, is_fresh| |done].
    by rewrite (proj2 (Z.eqb_eq _ _) Hlen).
  - split; [by apply eq_None_not_Some|done].
Qed.
End ServerLaws.

(** ** Witnesses *)

Section Witnesses.
#[local] Existing Instance example_secretbox.
#[local] Instance s_request_proto : Proto ConnectRequest :=
  countable_proto (mkConnectRequest None None).
#[local] Instance s_response_proto : Proto ConnectResponse :=
  countable_proto (mkConnectResponse None None).
#[local] Instance s_request_laws : ProtoLaws ConnectRequest := countable_proto_laws _.
#[local] Instance s_response_laws : ProtoLaws ConnectResponse := countable_proto_laws _.
#[local] Instance s_header_proto : Proto SequenceHeader := countable_proto (mkSequenceHeader None).
#[local] Instance s_catchup_proto : Proto CatchupBuffer := countable_proto (mkCatchupBuffer []).

Definition s_key : str := lit "0123456789abcdef0123456789abcdef".
Definition s_server0 : ServerConnection :=
  addClientKey (lit "id") s_key (init (mkEndpoint None (Some 2022))).

(** The request of a client with id "id" on descriptor 5. *)
Definition s_wire : Wire :=
  with_in wire0 5 (proto_frame (default [] (serialize (Client.connect_request (lit "id"))))).

Definition s_handler : M (ServerConnection * Wire) unit :=
  clientHandler 900 [] (λ _, mret true) (λ s, s) (λ s, s) 5.

(** The server after the client has connected. *)
Definition s_server1 : ServerConnection := (s_handler (s_server0, s_wire)).2.1.

Lemma s_server0_ok : server_ok s_server0.
Proof. by split; intros i l Hl. Qed.

Lemma s_newClient_ok : ∀ l : positive, keeps_ok (mret true : M (ServerConnection * Wire) bool).
Proof. intros l s k Hs. exact Hs. Qed.

Lemma clientHandler_keeps_ok_witness :
  server_ok s_server1 ∧ clientConnectionExists (lit "id") s_server1 = true.
Proof.
  split; [|vm_compute; reflexivity].
  apply (clientHandler_keeps_ok wire_close_returns 900 [] (λ _, mret true) (λ s, s) (λ s, s) 5
    s_server0 s_wire s_newClient_ok); [done|done|apply s_server0_ok].
Defined.

Lemma s_connection i l :
  clientConnections s_server1 !! i = Some l → i = lit "id" ∧ l = 1%positive.
Proof.
  intros Hl. assert (clientConnections s_server1 = {[ lit "id" := 1%positive ]}) as Hm
    by (vm_compute; reflexivity).
  rewrite Hm in Hl. by apply lookup_singleton_Some in Hl as [<- <-].
Qed.

Lemma s_server1_ok : server_ok s_server1.
Proof.
  split; intros i l [-> ->]%s_connection; vm_compute; [by eexists|].
  eexists. split; reflexivity.
Qed.

Lemma removeClient_spec_witness :
  ∃ k', removeClient (lit "id") (s_server1, wire0) =
    (Ok true, (set_clientKeys (delete (lit "id") (clientKeys s_server1))
                 (drop_client (lit "id") s_server1), k')).
Proof.
  destruct (removeClient_spec wire_close_returns (lit "id") s_server1 wire0 s_server1_ok) as [k' Hr].
  exists k'. rewrite Hr. vm_compute. reflexivity.
Defined.

Lemma shutdown_closes_all_witness :
  ∃ s' k', Server.shutdown (λ m, (map_to_list m).*2) (s_server1, wire0) = (Ok tt, (s', k')) ∧
    clientConnections s' = ∅.
Proof.
  destruct (shutdown_closes_all wire_close_returns (λ m, (map_to_list m).*2) s_server1 wire0 wire0)
    as (s' & k' & Hr & He & _); [intros m; reflexivity|apply s_server1_ok|vm_compute; reflexivity|].
  exists s', k'. split; [exact Hr|exact He].
Defined.

(** The client, with its connection accepted as 5 and answered [NEW_CLIENT]; the server's
    handler on 6, on what the client has sent. *)
Definition s_client : Client.ClientConnection :=
  Client.ClientConnection_new (mkEndpoint (Some (lit "host")) (Some 2022)) (lit "id") s_key.
Definition s_answer : Wire :=
  with_connects (with_in wire0 5 (proto_frame
    (default [] (serialize (response NEW_CLIENT None))))) [IoOk 5].

Lemma handshake_opens_session_witness :
  let _ := steady WireSocket in
  let joined := (Client.connect 900 (s_client, s_answer)).2 in
  let arrived := with_in wire0 6 (wire_out joined.2 5) in
  let read := read_request 900 6 [] (s_server0, arrived) in
  ∃ l c s2, objects s2 !! l = Some c ∧
    clientHandler 900 [] (λ _, mret true) (λ s, s) (λ s, s) 6 (s_server0, arrived) =
      catch_all (serve_client 900 6 (lit "id") (λ _, mret true) (λ s, s) (Created l))
        (λ _, handler_failed true (lit "id") 6) (s2, read.2.2) ∧
    @opened Wire _ base_object 6 (mkCrypto (initial_nonce SERVER_CLIENT_NONCE_MSB) s_key)
      (mkCrypto (initial_nonce CLIENT_SERVER_NONCE_MSB) s_key) c.
Proof.
  intros net joined arrived read.
  destruct (handshake_opens_session WireSocket 900 s_client s_answer 5 (with_connects s_answer []) joined.1 joined.2
    900 [] (λ _, mret true) (λ s, s) (λ s, s) 6 s_server0 arrived [] (Some (lit "id")) read.2.1 read.2.2)
    as (_ & _ & l & c & s2 & Ho & _ & Hrun & _ & Hc).
  - reflexivity.
  - lia.
  - lia.
  - vm_compute. reflexivity.
  - vm_compute. reflexivity.
  - vm_compute. reflexivity.
  - vm_compute. reflexivity.
  - vm_compute. reflexivity.
  - exists l, c, s2. split; [exact Ho|]. split; [exact Hrun|exact Hc].
Defined.
End Witnesses.
