(* ===== verification/Forwarding.v ===== *)
(** * Port forwarding

    [ForwardSourceHandler.cpp] ([Source]), [ForwardDestinationHandler.cpp]
    ([Destination]) and [PortForwardHandler.cpp] ([Forward]).  A handler talks to
    one of two socket handlers (network or pipe); the iteration order of the
    unordered maps is a parameter of the operations that depend on it. *)

From S2P Require Import Prelude Sockets Crypto Packets Wire.

(** ** Messages of [proto/ETerminal.proto] *)

Record PortForwardSourceRequest := mkPfsr {
  pfsr_source : option SocketEndpoint;
  pfsr_destination : option SocketEndpoint;
  pfsr_environmentvariable : option str;
}.
Record PortForwardSourceResponse := mkPfsResponse { pfs_error : option str }.
Record PortForwardDestinationRequest := mkPfdr {
  pfdr_destination : option SocketEndpoint;
  pfdr_fd : option Z;
}.
Record PortForwardDestinationResponse := mkPfdResponse {
  pfd_clientfd : option Z;
  pfd_socketid : option Z;
  pfd_error : option str;
}.
Record PortForwardData := mkPwd {
  pwd_sourcetodestination : option bool;
  pwd_socketid : option Z;
  pwd_buffer : option str;
  pwd_error : option str;
  pwd_closed : option bool;
}.

Definition no_endpoint : SocketEndpoint := mkEndpoint None None.
Definition destination_of (o : option SocketEndpoint) : SocketEndpoint := default no_endpoint o.

(** Packet types of [TerminalPacketType]. *)
Definition KEEP_ALIVE : Z := 0.
Definition TERMINAL_BUFFER : Z := 1.
Definition TERMINAL_INFO : Z := 2.
Definition PORT_FORWARD_DESTINATION_REQUEST : Z := 5.
Definition PORT_FORWARD_DESTINATION_RESPONSE : Z := 6.
Definition PORT_FORWARD_DATA : Z := 7.
Definition TERMINAL_USER_INFO : Z := 8.
Definition TERMINAL_INIT : Z := 9.
Definition JUMPHOST_INIT : Z := 10.

(** The two socket handlers of a process. *)
Inductive handler_kind := Network | Pipe.

#[export] Instance handler_kind_eq_dec : EqDecision handler_kind.
Proof. solve_decision. Defined.

Definition FORWARD_BUFFER : nat := 1024.

Section ReadSocket.
Context {W : Type} `{SocketHandler W}.
Variable strerror : Z → str.

(** The message for one result of [read]. *)
Definition data_message (s2d : bool) (socketId : Z) (r : io_result str) : PortForwardData :=
  match r with
  | IoErr e => mkPwd (Some s2d) (Some socketId) None (Some (strerror e)) None
  | IoOk [] => mkPwd (Some s2d) (Some socketId) None None (Some true)
  | IoOk buf => mkPwd (Some s2d) (Some socketId) (Some buf) None None
  end.

(** The [while] loop of both [update]s for one socket: the messages, and whether
    the socket is gone (it has then been closed). *)
Fixpoint read_socket (fuel : nat) (s2d : bool) (socketId fd : Z)
    : M W (list PortForwardData * bool) :=
  match fuel with
  | O => stop OutOfFuel
  | S fuel' =>
    more ← sh_hasData fd;
    if more : bool then
      r ← sh_read fd FORWARD_BUFFER;
      match r with
      | IoOk (b :: bs) =>
        rest ← read_socket fuel' s2d socketId fd;
        mret (data_message s2d socketId (IoOk (b :: bs)) :: rest.1, rest.2)
      | IoOk [] =>
        _ ← sh_close fd;
        mret ([data_message s2d socketId (IoOk [])], true)
      | IoErr e =>
        if would_block e then mret ([], false)
        else
          _ ← sh_close fd;
          mret ([data_message s2d socketId (IoErr e)], true)
      end
    else mret ([], false)
  end.
End ReadSocket.

(** ** [ForwardSourceHandler] *)
Module Source.

Record ForwardSourceHandler := mkSource {
  kind : handler_kind;
  source : SocketEndpoint;
  destination : SocketEndpoint;
  unassignedFds : gset Z;
  socketFdMap : gmap Z Z;
}.

Definition set_unassigned (u : gset Z) (h : ForwardSourceHandler) : ForwardSourceHandler :=
  mkSource (kind h) (source h) (destination h) u (socketFdMap h).
Definition set_map (m : gmap Z Z) (h : ForwardSourceHandler) : ForwardSourceHandler :=
  mkSource (kind h) (source h) (destination h) (unassignedFds h) m.

Definition hasUnassignedFd (fd : Z) (h : ForwardSourceHandler) : bool :=
  bool_decide (fd ∈ unassignedFds h).

Definition addSocket (socketId sourceFd : Z) (h : ForwardSourceHandler) : ForwardSourceHandler :=
  if decide (sourceFd ∈ unassignedFds h) then
    set_map (<[socketId := sourceFd]> (socketFdMap h))
      (set_unassigned (unassignedFds h ∖ {[sourceFd]}) h)
  else h.

Section Ops.
Context {W : Type} (sock : handler_kind → SocketHandler W).
Variable strerror : Z → str.

Definition ForwardSourceHandler_new (k : handler_kind) (src dst : SocketEndpoint)
    : M W ForwardSourceHandler :=
  _ ← @sh_listen W (sock k) src;
  mret (mkSource k src dst ∅ ∅).

Definition ForwardSourceHandler_destroy (h : ForwardSourceHandler) : M W unit :=
  @sh_stopListening W (sock (kind h)) (source h).

Fixpoint listen_loop (fds : list Z) : M (ForwardSourceHandler * W) Z :=
  match fds with
  | [] => mret (-1)
  | i :: fds' =>
    h ← on_fst get;
    r ← on_snd (@sh_accept W (sock (kind h)) i);
    let fd := match r with IoOk fd => fd | IoErr _ => -1 end in
    if -1 <? fd then
      _ ← on_fst (modify (λ h, set_unassigned ({[fd]} ∪ unassignedFds h) h));
      mret fd
    else listen_loop fds'
  end.

Definition listen : M (ForwardSourceHandler * W) Z :=
  h ← on_fst get;
  fds ← on_snd (@sh_getEndpointFds W (sock (kind h)) (source h));
  listen_loop fds.

(** The loop of [update] over [socketFdMap]: messages and sockets to remove. *)
Fixpoint update_loop (fuel : nat) (k : handler_kind) (sockets : list (Z * Z))
    : M W (list PortForwardData * list Z) :=
  match sockets with
  | [] => mret ([], [])
  | (socketId, fd) :: sockets' =>
    r ← @read_socket W (sock k) strerror fuel true socketId fd;
    rest ← update_loop fuel k sockets';
    mret (r.1 ++ rest.1, if r.2 : bool then socketId :: rest.2 else rest.2)
  end.

Definition erase_all (ids : list Z) (m : gmap Z Z) : gmap Z Z := foldr delete m ids.

Definition update (fuel : nat) (order : gmap Z Z → list (Z * Z))
    : M (ForwardSourceHandler * W) (list PortForwardData) :=
  h ← on_fst get;
  r ← on_snd (update_loop fuel (kind h) (order (socketFdMap h)));
  _ ← on_fst (put (set_map (erase_all r.2 (socketFdMap h)) h));
  mret r.1.

Definition closeUnassignedFd (fd : Z) : M (ForwardSourceHandler * W) unit :=
  h ← on_fst get;
  if decide (fd ∈ unassignedFds h) then
    _ ← on_snd (@sh_close W (sock (kind h)) fd);
    on_fst (put (set_unassigned (unassignedFds h ∖ {[fd]}) h))
  else mret tt.

Definition getActiveFds (fds : gset Z) : M (ForwardSourceHandler * W) (gset Z) :=
  h ← on_fst get;
  l ← on_snd (@sh_getEndpointFds W (sock (kind h)) (source h));
  mret (fds ∪ list_to_set l ∪ list_to_set (map_to_list (socketFdMap h)).*2 ∪ unassignedFds h).

Definition sendDataOnSocket (fuel : nat) (socketId : Z) (data : str)
    : M (ForwardSourceHandler * W) unit :=
  h ← on_fst get;
  match socketFdMap h !! socketId with
  | None => mret tt
  | Some fd => _ ← on_snd (@writeAllOrReturn W (sock (kind h)) fuel fd data); mret tt
  end.

Definition closeSocket (socketId : Z) : M (ForwardSourceHandler * W) unit :=
  h ← on_fst get;
  match socketFdMap h !! socketId with
  | None => mret tt
  | Some fd =>
    _ ← on_snd (@sh_close W (sock (kind h)) fd);
    on_fst (put (set_map (delete socketId (socketFdMap h)) h))
  end.
End Ops.

End Source.

(** ** [ForwardDestinationHandler] *)
Module Destination.

Record ForwardDestinationHandler := mkDestination {
  kind : handler_kind;
  fd : Z;
  socketId : Z;
}.

Definition set_fd (f : Z) (h : ForwardDestinationHandler) : ForwardDestinationHandler :=
  mkDestination (kind h) f (socketId h).

Section Ops.
Context {W : Type} (sock : handler_kind → SocketHandler W).
Variable strerror : Z → str.

Definition close : M (ForwardDestinationHandler * W) unit :=
  h ← on_fst get;
  on_snd (@sh_close W (sock (kind h)) (fd h)).

Definition write (fuel : nat) (s : str) : M (ForwardDestinationHandler * W) unit :=
  h ← on_fst get;
  _ ← on_snd (@writeAllOrReturn W (sock (kind h)) fuel (fd h) s);
  mret tt.

Definition update (fuel : nat) : M (ForwardDestinationHandler * W) (list PortForwardData) :=
  h ← on_fst get;
  if fd h =? -1 then mret []
  else
    r ← on_snd (@read_socket W (sock (kind h)) strerror fuel false (socketId h) (fd h));
    _ ← on_fst (put (if r.2 : bool then set_fd (-1) h else h));
    mret r.1.
End Ops.

End Destination.

(** What the operating system does for named pipes: a fresh private directory,
    and a change of mode and owner. *)
Class TempFiles (W : Type) := {
  tf_GetTempDirectory : str;
  tf_mkdtemp : str → M W str;
  tf_chmod : str → M W (io_result unit);
  tf_chown : str → Z → Z → M W (io_result unit);
}.

(** ** [PortForwardHandler] *)
Module Forward.
Import Source Destination.

(** [socketIdSourceHandlerMap] shares the handlers of [sourceHandlers], which
    only grows: it holds their positions. *)
Record PortForwardHandler := mkForward {
  destinationHandlers : gmap Z ForwardDestinationHandler;
  sourceHandlers : list ForwardSourceHandler;
  socketIdSourceHandlerMap : gmap Z nat;
}.

Definition init : PortForwardHandler := mkForward ∅ [] ∅.

Definition set_destinations (m : gmap Z ForwardDestinationHandler) (p : PortForwardHandler)
    : PortForwardHandler := mkForward m (sourceHandlers p) (socketIdSourceHandlerMap p).
Definition set_sources (l : list ForwardSourceHandler) (p : PortForwardHandler)
    : PortForwardHandler := mkForward (destinationHandlers p) l (socketIdSourceHandlerMap p).
Definition set_routes (m : gmap Z nat) (p : PortForwardHandler) : PortForwardHandler :=
  mkForward (destinationHandlers p) (sourceHandlers p) m.

(** The first source handler that holds [fd] unassigned, from position [i] on. *)
Fixpoint find_unassigned (fd : Z) (l : list ForwardSourceHandler) (i : nat) : option nat :=
  match l with
  | [] => None
  | h :: l' => if hasUnassignedFd fd h then Some i else find_unassigned fd l' (S i)
  end.

Definition addSourceSocketId (socketId sourceFd : Z) (p : PortForwardHandler) : PortForwardHandler :=
  match find_unassigned sourceFd (sourceHandlers p) 0 with
  | None => p
  | Some i =>
    set_routes (<[socketId := i]> (socketIdSourceHandlerMap p))
      (set_sources (alter (addSocket socketId sourceFd) i (sourceHandlers p)) p)
  end.

Section Ops.
Context {W : Type} (sock : handler_kind → SocketHandler W) `{TempFiles W}.
Context `{Proto PortForwardData} `{Proto PortForwardDestinationRequest}.
Context `{Proto PortForwardDestinationResponse}.
Variable strerror : Z → str.

Definition on_source {A} (i : nat) (m : M (ForwardSourceHandler * W) A)
    : M (PortForwardHandler * W) A := λ '(p, k),
  match sourceHandlers p !! i with
  | None => (Stop (UB "source handler"), (p, k))
  | Some h =>
    let '(r, (h', k')) := m (h, k) in
    (r, (set_sources (<[i := h']> (sourceHandlers p)) p, k'))
  end.

Definition on_destination {A} (socketId : Z) (m : M (ForwardDestinationHandler * W) A)
    : M (PortForwardHandler * W) A := λ '(p, k),
  match destinationHandlers p !! socketId with
  | None => (Stop (UB "destination handler"), (p, k))
  | Some h =>
    let '(r, (h', k')) := m (h, k) in
    (r, (set_destinations (<[socketId := h']> (destinationHandlers p)) p, k'))
  end.

(** The first loop of [update]. *)
Fixpoint update_sources (fuel : nat) (order : gmap Z Z → list (Z * Z)) (idx : list nat)
    : M (PortForwardHandler * W) (list PortForwardDestinationRequest * list PortForwardData) :=
  match idx with
  | [] => mret ([], [])
  | i :: idx' =>
    data ← on_source i (Source.update sock strerror fuel order);
    fd ← on_source i (listen sock);
    p ← on_fst get;
    let dst := match sourceHandlers p !! i with Some h => destination h | None => no_endpoint end in
    rest ← update_sources fuel order idx';
    mret ((if 0 <=? fd then [mkPfdr (Some dst) (Some fd)] else []) ++ rest.1, data ++ rest.2)
  end.

(** The second loop: it stops after the first handler that has ended. *)
Fixpoint update_destinations (fuel : nat) (ids : list Z)
    : M (PortForwardHandler * W) (list PortForwardData) :=
  match ids with
  | [] => mret []
  | i :: ids' =>
    data ← on_destination i (Destination.update sock strerror fuel);
    p ← on_fst get;
    if decide (fd <$> (destinationHandlers p !! i) = Some (-1)) then
      _ ← on_fst (put (set_destinations (delete i (destinationHandlers p)) p));
      mret data
    else
      rest ← update_destinations fuel ids';
      mret (data ++ rest)
  end.

Definition update (fuel : nat) (order : gmap Z Z → list (Z * Z))
    (order' : gmap Z ForwardDestinationHandler → list Z)
    : M (PortForwardHandler * W) (list PortForwardDestinationRequest * list PortForwardData) :=
  p ← on_fst get;
  r ← update_sources fuel order (seq 0 (length (sourceHandlers p)));
  p ← on_fst get;
  data ← update_destinations fuel (order' (destinationHandlers p));
  mret (r.1, r.2 ++ data).

Definition FATAL_FAIL (m : M W (io_result unit)) : M (PortForwardHandler * W) unit :=
  r ← on_snd m;
  match r with
  | IoOk _ => mret tt
  | IoErr _ => fatal "Error"
  end.

(** [createSource]; [want_name] is a [sourceName] that is not null, and the
    result holds what is stored there. *)
Definition createSource_body (pfsr : PortForwardSourceRequest) (want_name : bool)
    (userid groupid : Z) : M (PortForwardHandler * W) (option str) :=
  match pfsr_source pfsr with
  | Some _ =>
    if want_name
    then throw RuntimeError "Do not set a source when forwarding named pipes with environment variables"
    else mret None
  | None =>
    sourceDirectory ← on_snd (tf_mkdtemp (tf_GetTempDirectory (W := W) ++ lit "et_forward_sock_XXXXXX"));
    _ ← FATAL_FAIL (tf_chmod sourceDirectory);
    _ ← FATAL_FAIL (tf_chown sourceDirectory userid groupid);
    if want_name then mret (Some (sourceDirectory ++ lit "/sock"))
    else fatal "Tried to create a pipe but without a place to put the name!"
  end.

Definition createSource (pfsr : PortForwardSourceRequest) (want_name : bool)
    (userid groupid : Z)
    : M (PortForwardHandler * W) (PortForwardSourceResponse * option str) :=
  catch_runtime (
    name ← createSource_body pfsr want_name userid groupid;
    let source := match pfsr_source pfsr with Some s => s | None => mkEndpoint name None end in
    let dst := destination_of (pfsr_destination pfsr) in
    match ep_port source with
    | Some _ =>
      if want_name
      then fatal "Tried to create a port forward but with a place to put the name!"
      else
        handler ← on_snd (ForwardSourceHandler_new sock Network source dst);
        _ ← on_fst (modify (λ p, set_sources (sourceHandlers p ++ [handler]) p));
        mret (mkPfsResponse None, name)
    | None =>
      handler ← on_snd (ForwardSourceHandler_new sock Pipe source dst);
      _ ← (if (0 <=? userid) && (0 <=? groupid) then
             _ ← FATAL_FAIL (tf_chmod (default [] (ep_name source)));
             FATAL_FAIL (tf_chown (default [] (ep_name source)) userid groupid)
           else mret tt);
      _ ← on_fst (modify (λ p, set_sources (sourceHandlers p ++ [handler]) p));
      mret (mkPfsResponse None, name)
    end)
  (λ what, mret (mkPfsResponse (Some (lit what)), None)).

Definition SOCKET_ID_ATTEMPTS : nat := Z.to_nat 100000.

(** The search of [createDestination] for a free id; [None] after the last
    attempt. *)
Fixpoint find_socket_id (remaining : nat) (socketId : Z)
    (taken : gmap Z ForwardDestinationHandler) : M W (option Z) :=
  match taken !! socketId with
  | None => mret (Some socketId)
  | Some _ =>
    socketId ← sh_rand (SocketHandler := sock Network);
    match remaining with
    | S (S n as remaining') => find_socket_id remaining' socketId taken
    | _ => mret None
    end
  end.

(** The connection to the destination: -1 and an [errno] on failure. *)
Definition connect_destination (dst : SocketEndpoint) : M W (io_result Z) :=
  match ep_port dst with
  | Some port =>
    r ← @sh_connect W (sock Network) (mkEndpoint (Some (lit "::1")) (Some port));
    match r with
    | IoOk fd => mret (IoOk fd)
    | IoErr _ => @sh_connect W (sock Network) (mkEndpoint (Some (lit "127.0.0.1")) (Some port))
    end
  | None => @sh_connect W (sock Pipe) dst
  end.

Definition createDestination (attempts : nat) (pfdr : PortForwardDestinationRequest)
    : M (PortForwardHandler * W) PortForwardDestinationResponse :=
  let dst := destination_of (pfdr_destination pfdr) in
  let isTcp := bool_decide (is_Some (ep_port dst)) in
  let clientfd := Some (default 0 (pfdr_fd pfdr)) in
  r ← on_snd (connect_destination dst);
  match r with
  | IoErr e => mret (mkPfdResponse clientfd None (Some (strerror e)))
  | IoOk fd =>
    p ← on_fst get;
    first ← on_snd (sh_rand (SocketHandler := sock Network));
    socketId ← on_snd (find_socket_id attempts first (destinationHandlers p));
    match socketId with
    | None => mret (mkPfdResponse clientfd None (Some (lit "Could not find empty socket id")))
    | Some socketId =>
      let h := mkDestination (if isTcp then Network else Pipe) fd socketId in
      _ ← on_fst (put (set_destinations (<[socketId := h]> (destinationHandlers p)) p));
      mret (mkPfdResponse clientfd (Some socketId) None)
    end
  end.

Definition closeSourceFd (fd : Z) : M (PortForwardHandler * W) unit :=
  p ← on_fst get;
  match find_unassigned fd (sourceHandlers p) 0 with
  | Some i => on_source i (closeUnassignedFd sock fd)
  | None => mret tt
  end.

Definition closeSourceSocketId (socketId : Z) : M (PortForwardHandler * W) unit :=
  p ← on_fst get;
  match socketIdSourceHandlerMap p !! socketId with
  | None => mret tt
  | Some i =>
    _ ← on_source i (Source.closeSocket sock socketId);
    on_fst (modify (λ p, set_routes (delete socketId (socketIdSourceHandlerMap p)) p))
  end.

Definition sendDataToSourceOnSocket (fuel : nat) (socketId : Z) (data : str)
    : M (PortForwardHandler * W) unit :=
  p ← on_fst get;
  match socketIdSourceHandlerMap p !! socketId with
  | None => mret tt
  | Some i => on_source i (sendDataOnSocket sock fuel socketId data)
  end.

Fixpoint getForwardFds_loop (idx : list nat) (fds : gset Z) : M (PortForwardHandler * W) (gset Z) :=
  match idx with
  | [] => mret fds
  | i :: idx' => fds ← on_source i (getActiveFds sock fds); getForwardFds_loop idx' fds
  end.

Definition getForwardFds (fds : gset Z) : M (PortForwardHandler * W) (gset Z) :=
  p ← on_fst get;
  fds ← getForwardFds_loop (seq 0 (length (sourceHandlers p))) fds;
  p ← on_fst get;
  mret (fds ∪ list_to_set (filter (λ f, 0 <= f) (fd <$> (map_to_list (destinationHandlers p)).*2))).

(** The [PORT_FORWARD_DATA] case of [handlePacket]. *)
Definition handle_data (fuel : nat) (pwd : PortForwardData) : M (PortForwardHandler * W) unit :=
  let socketId := default 0 (pwd_socketid pwd) in
  let has_closed := bool_decide (is_Some (pwd_closed pwd)) in
  let has_error := bool_decide (is_Some (pwd_error pwd)) in
  if default false (pwd_sourcetodestination pwd) then
    p ← on_fst get;
    match destinationHandlers p !! socketId with
    | None => mret tt
    | Some _ =>
      if has_closed || has_error then
        _ ← on_destination socketId (Destination.close sock);
        on_fst (modify (λ p, set_destinations (delete socketId (destinationHandlers p)) p))
      else on_destination socketId (Destination.write sock fuel (default [] (pwd_buffer pwd)))
    end
  else if has_closed || has_error then closeSourceSocketId socketId
  else sendDataToSourceOnSocket fuel socketId (default [] (pwd_buffer pwd)).

(** [handlePacket]; [writePacket] is that of the connection. *)
Definition handlePacket (fuel : nat) (writePacket : Packet → M (PortForwardHandler * W) unit)
    (packet : Packet) : M (PortForwardHandler * W) unit :=
  if header packet =? PORT_FORWARD_DATA then
    pwd ← stringToProto PortForwardData (payload packet);
    handle_data fuel pwd
  else if header packet =? PORT_FORWARD_DESTINATION_REQUEST then
    pfdr ← stringToProto PortForwardDestinationRequest (payload packet);
    pfdresponse ← createDestination SOCKET_ID_ATTEMPTS pfdr;
    s ← protoToString pfdresponse;
    writePacket (Packet_new PORT_FORWARD_DESTINATION_RESPONSE s)
  else if header packet =? PORT_FORWARD_DESTINATION_RESPONSE then
    pfdr ← stringToProto PortForwardDestinationResponse (payload packet);
    match pfd_error pfdr with
    | Some _ => closeSourceFd (default 0 (pfd_clientfd pfdr))
    | None => on_fst (modify (addSourceSocketId (default 0 (pfd_socketid pfdr))
                (default 0 (pfd_clientfd pfdr))))
    end
  else fatal "Unknown packet type".
End Ops.

End Forward.

(** ** What is read is what is forwarded *)

(** The bytes that the messages of [msgs] carry for a socket id. *)
Definition carried (socketId : Z) (msgs : list PortForwardData) : str :=
  concat ((λ m, if decide (pwd_socketid m = Some socketId) then default [] (pwd_buffer m) else []) <$> msgs).

(** A message that ends a socket. *)
Definition ends (socketId : Z) (m : PortForwardData) : Prop :=
  pwd_socketid m = Some socketId ∧ (is_Some (pwd_closed m) ∨ is_Some (pwd_error m)).

Lemma carried_app i l l' : carried i (l ++ l') = carried i l ++ carried i l'.
Proof. unfold carried. by rewrite fmap_app, concat_app. Qed.

Lemma carried_other i l :
  Forall (λ m, pwd_socketid m ≠ Some i) l → carried i l = [].
Proof.
  unfold carried. induction 1 as [|m l Hm Hl IH]; [done|]. cbn [fmap list_fmap concat].
  by rewrite decide_False.
Qed.

Section ReadSocketSpec.
Context {W : Type} `{StreamSocket W}.
Variable strerror : Z → str.

(** One call of the loop: the messages are all of this socket and direction and
    carry exactly the bytes that were read; the last one, and only the last one,
    ends the socket, when it is gone. *)
Definition relayed (s2d : bool) (socketId fd : Z) (k : W)
    (o : outcome (list PortForwardData * bool)) (k' : W) : Prop :=
  ∃ r, xfer fd r [] k k' ∧
    match o with
    | Ok (msgs, gone) =>
      carried socketId msgs = r ∧
      Forall (λ m, pwd_socketid m = Some socketId ∧ pwd_sourcetodestination m = Some s2d) msgs ∧
      (gone = true ↔ Exists (ends socketId) msgs) ∧
      (gone = true → ∃ init m, msgs = init ++ [m] ∧ ends socketId m ∧ ¬ Exists (ends socketId) init)
    | Stop _ => True
    end.

Lemma relayed_quiet s2d i fd k k1 k' o :
  quiet k k1 → relayed s2d i fd k1 o k' → relayed s2d i fd k o k'.
Proof. intros Hq (r & Hx & ?). exists r. split; [by eapply xfer_quiet_l|done]. Qed.

Lemma relayed_nil s2d i fd k : relayed s2d i fd k (Ok ([], false)) k.
Proof.
  exists []. split; [by apply quiet_xfer|]. split_and!; [done|done| |done].
  split; [done|by intros ?%Exists_nil].
Qed.

Lemma relayed_end s2d i fd k k' r :
  quiet k k' → (∀ b bs, r ≠ IoOk (b :: bs)) →
  relayed s2d i fd k (Ok ([data_message strerror s2d i r], true)) k'.
Proof.
  intros Hq Hr. exists []. split; [by apply quiet_xfer|].
  assert (ends i (data_message strerror s2d i r)) as He.
  { destruct r as [[|b bs]|e]; [|by edestruct Hr|]; (split; [done|]); cbn; eauto. }
  assert (pwd_buffer (data_message strerror s2d i r) = None) as Hb
    by (destruct r as [[|b bs]|e]; [done|by edestruct Hr|done]).
  split_and!.
  - unfold carried. cbn. rewrite Hb. by case_decide.
  - constructor; [|done]. by destruct r as [[|]|].
  - split; [by left|done].
  - intros _. exists [], (data_message strerror s2d i r). split_and!; [done|done|by intros ?%Exists_nil].
Qed.

Lemma relayed_chunk s2d i fd k k1 k' b bs o :
  xfer fd (b :: bs) [] k k1 → relayed s2d i fd k1 o k' →
  relayed s2d i fd k (match o with
    | Ok rest => Ok (data_message strerror s2d i (IoOk (b :: bs)) :: rest.1, rest.2)
    | Stop f => Stop f end) k'.
Proof.
  intros Hx (r & Hx' & Ho). exists ((b :: bs) ++ r).
  split; [exact (xfer_trans _ _ [] _ [] _ _ _ Hx Hx')|].
  destruct o as [[msgs gone]|f]; [|done]. destruct Ho as (Hc & Hall & Hgone & Hlast).
  cbn [fst snd].
  set (m0 := data_message strerror s2d i (IoOk (b :: bs))).
  assert (¬ ends i m0) as Hne by (intros (_ & [[? ?]|[? ?]]); done).
  split_and!.
  - unfold carried. cbn [fmap list_fmap concat]. rewrite decide_True by done. by rewrite <-Hc.
  - by constructor.
  - rewrite Exists_cons. naive_solver.
  - intros Hg. destruct (Hlast Hg) as (init & m & -> & Hm & Hi).
    exists (m0 :: init), m. split_and!; [done|done|]. rewrite Exists_cons. naive_solver.
Qed.

Lemma read_socket_relays fuel s2d i fd k :
  wp (read_socket strerror fuel s2d i fd) (relayed s2d i fd k) k.
Proof.
  assert (∀ f k k', quiet k k' → relayed s2d i fd k (Stop f) k') as Hstop.
  { intros f ka kb Hq. exists []. split; [by apply quiet_xfer|done]. }
  revert k. induction fuel as [|fuel IH]; intros k; cbn [read_socket]; [by apply Hstop|].
  wp_step stream_hasData as more k1 Hq; [|by apply Hstop].
  eapply wp_mono; [|intros o k'; by apply relayed_quiet].
  destruct more; [|apply relayed_nil].
  wp_step stream_read as [[|b bs]|e] k2 Hx; [| | |by apply Hstop].
  - eapply wp_bind; [intros o k3 E; exact (stream_close _ _ _ _ E)| |].
    + intros [] k3 Hq3. apply relayed_end; [|done]. etrans; [|exact Hq3].
      by apply (quiet_xfer fd), Hx.
    + intros f k3 Hq3. apply Hstop. etrans; [|exact Hq3]. by apply (quiet_xfer fd), Hx.
  - destruct Hx as [_ Hx]. specialize (IH k2). unfold wp in *.
    pose proof (relayed_chunk _ _ _ _ _ _ _ _ _ Hx IH) as Hr.
    rewrite M_bind_stop_inv. by destruct (read_socket _ _ _ _ _ k2) as [[rest|f] k3].
  - case_match.
    + eapply relayed_quiet; [exact Hx|apply relayed_nil].
    + eapply wp_bind; [intros o k3 E; exact (stream_close _ _ _ _ E)| |].
      * intros [] k3 Hq3. apply relayed_end; [|done]. by etrans.
      * intros f k3 Hq3. apply Hstop. by etrans.
Qed.
End ReadSocketSpec.

(** ** The two ends of a tunnel *)

Section Relay.
Context {W : Type} (sock : handler_kind → SocketHandler W) `{!Streams W}.
Context (streams : ∀ kd, @StreamSocket W (sock kd) _).
Variable strerror : Z → str.

(** [ForwardDestinationHandler::update] relays the destination's bytes
    faithfully: the messages it produces are all for its socket id and towards the
    source, they carry exactly the bytes taken from the socket, in order, and the
    handler is dead ([fd] is -1) afterwards exactly when the last message reports
    the end. *)
Theorem destination_update_relays fuel h k msgs h' k' :
  Destination.fd h ≠ -1 →
  Destination.update sock strerror fuel (h, k) = (Ok msgs, (h', k')) →
  let i := Destination.socketId h in
  ∃ gone, relayed false i (Destination.fd h) k (Ok (msgs, gone)) k' ∧
    h' = (if gone : bool then Destination.set_fd (-1) h else h) ∧
    (Destination.fd h' = -1 ↔ Exists (ends i) msgs).
Proof.
  intros Hfd Hrun i. unfold Destination.update in Hrun. rewrite run_fst_get in Hrun.
  rewrite (proj2 (Z.eqb_neq _ _) Hfd), run_snd in Hrun.
  pose proof (@read_socket_relays W (sock (Destination.kind h)) _ (streams _) strerror fuel false
    i (Destination.fd h) k) as Hr. unfold wp in Hr. fold i in Hrun.
  destruct (read_socket _ _ _ _ _ k) as [[[ms gone]|f] k1]; [|done].
  rewrite M_bind_stop_inv in Hrun. cbn in Hrun. injection Hrun as <- <- <-. cbn [fst snd] in *.
  exists gone. split_and!; [done|done|]. destruct Hr as (r & _ & _ & _ & Hg & _).
  rewrite <-Hg. by destruct gone.
Qed.

(** The descriptors of a source handler: each is unassigned, or belongs to one
    socket id. *)
Definition source_ok (h : Source.ForwardSourceHandler) : Prop :=
  (∀ i fd, Source.socketFdMap h !! i = Some fd → fd ∉ Source.unassignedFds h) ∧
  (∀ i j fd, Source.socketFdMap h !! i = Some fd → Source.socketFdMap h !! j = Some fd → i = j).

(** What happened to one socket in an [update]. *)
Definition socket_relayed (msgs : list PortForwardData) (removed : list Z) (k k' : W)
    (p : Z * Z) : Prop :=
  incoming k p.2 = carried p.1 msgs ++ incoming k' p.2 ∧
  (p.1 ∈ removed ↔ Exists (ends p.1) msgs).

Definition ids_of (msgs : list PortForwardData) (sockets : list (Z * Z)) : Prop :=
  Forall (λ m, ∃ p, p ∈ sockets ∧ pwd_socketid m = Some p.1 ∧
    pwd_sourcetodestination m = Some true) msgs.

Lemma ids_of_not_in msgs sockets i :
  ids_of msgs sockets → i ∉ sockets.*1 →
  Forall (λ m, pwd_socketid m ≠ Some i) msgs ∧ ¬ Exists (ends i) msgs.
Proof.
  intros Hids Hi.
  assert (Forall (λ m, pwd_socketid m ≠ Some i) msgs) as Hall.
  { eapply Forall_impl; [|exact Hids]. intros m (p & Hp & Hm & _) Heq. rewrite Hm in Heq.
    injection Heq as <-. apply Hi, list_elem_of_fmap. by exists p. }
  split; [done|]. intros (m & Hm & He & _)%list.Exists_exists.
  rewrite list.Forall_forall in Hall. by apply (Hall m Hm).
Qed.

Lemma update_loop_relays fuel kd sockets k msgs removed k' :
  NoDup sockets.*1 → NoDup sockets.*2 →
  Source.update_loop sock strerror fuel kd sockets k = (Ok (msgs, removed), k') →
  ids_of msgs sockets ∧ removed ⊆ sockets.*1 ∧
  (∀ fd, fd ∉ sockets.*2 → incoming k' fd = incoming k fd) ∧
  Forall (socket_relayed msgs removed k k') sockets.
Proof.
  revert k msgs removed k'. induction sockets as [|[i fd] sockets IH];
    intros k msgs removed k' Hids Hfds Hrun; cbn [Source.update_loop] in Hrun.
  { injection Hrun as <- <- <-. split_and!; [by constructor|set_solver|done|by constructor]. }
  cbn [fmap list_fmap fst snd] in *.
  apply list.NoDup_cons in Hids as [Hi Hids]. apply list.NoDup_cons in Hfds as [Hf Hfds].
  pose proof (@read_socket_relays W (sock kd) _ (streams _) strerror fuel true i fd k) as Hr.
  unfold wp in Hr. rewrite M_bind_stop_inv in Hrun.
  destruct (read_socket _ _ _ _ _ k) as [[[ms gone]|f] k1]; [|done]. cbn [fst snd] in *.
  rewrite M_bind_stop_inv in Hrun.
  destruct (Source.update_loop _ _ _ _ _ k1) as [[[rest ids]|f] k2] eqn:E; [|done].
  cbn [fst snd mret M_ret] in Hrun. injection Hrun as <- <- <-.
  destruct (IH _ _ _ _ Hids Hfds E) as (Hrest & Hsub & Hkeep & Hall).
  destruct Hr as (r & (Hin & _ & Hoth) & Hc & Hms & Hgone & _).
  destruct (ids_of_not_in _ _ _ Hrest Hi) as [Hno Hnoend].
  assert (∀ j, j ≠ i → carried j ms = []) as Hcj.
  { intros j Hj. apply carried_other. eapply Forall_impl; [|exact Hms]. intros m [-> _]. congruence. }
  assert (∀ j, j ≠ i → ¬ Exists (ends j) ms) as Hej.
  { intros j Hj (m & Hm & He & _)%list.Exists_exists. rewrite list.Forall_forall in Hms.
    destruct (Hms m Hm) as [Hm' _]. congruence. }
  split_and!.
  - apply Forall_app. split.
    + eapply Forall_impl; [|exact Hms]. intros m [Hm Hd]. exists (i, fd). split; [by left|done].
    + eapply Forall_impl; [|exact Hrest]. intros m (p & Hp & ?). exists p. split; [by right|done].
  - destruct gone; set_solver.
  - intros fd' Hfd'. apply not_elem_of_cons in Hfd' as [Hne Hnin]. rewrite Hkeep by done.
    by apply Hoth.
  - constructor.
    + split; cbn [fst snd].
      * rewrite carried_app, (carried_other _ _ Hno), app_nil_r, Hc, Hin. by rewrite (Hkeep fd Hf).
      * rewrite Exists_app. destruct gone; [|rewrite <-Hgone; set_solver].
        split; [intros _; left; by apply Hgone|set_solver].
    + rewrite list.Forall_forall in Hall |- *. intros [j fd'] Hj. destruct (Hall _ Hj) as [Hin' Hrem].
      assert (j ≠ i ∧ fd' ≠ fd) as [Hji Hff].
      { split; intros ->; [apply Hi|apply Hf]; apply list_elem_of_fmap;
          [exists (i, fd')|exists (j, fd)]. all: by split. }
      split; cbn [fst snd] in *.
      * rewrite carried_app, (Hcj j Hji). cbn [app]. rewrite <-Hin'. symmetry. by apply (Hoth _ Hff).
      * rewrite Exists_app. specialize (Hej j Hji). destruct gone; set_solver.
Qed.

(** C35. [ForwardSourceHandler::update] relays every socket of the tunnel at once
    without mixing them up: for every socket id, the messages with that id carry
    exactly the bytes taken from its descriptor, in order; all messages belong to a
    socket of the handler; and the id is dropped from the table exactly when its
    end is reported.  The order in which the table is walked does not matter. *)
Theorem source_update_relays fuel order h k msgs h' k' :
  source_ok h → (∀ m, order m ≡ₚ map_to_list m) →
  Source.update sock strerror fuel order (h, k) = (Ok msgs, (h', k')) →
  ids_of msgs (map_to_list (Source.socketFdMap h)) ∧
  ∀ i fd, Source.socketFdMap h !! i = Some fd →
    incoming k fd = carried i msgs ++ incoming k' fd ∧
    (Source.socketFdMap h' !! i = None ↔ Exists (ends i) msgs) ∧
    (Source.socketFdMap h' !! i = None ∨ Source.socketFdMap h' !! i = Some fd).
Proof.
  intros [_ Hinj] Horder Hrun. unfold Source.update in Hrun. rewrite run_fst_get, run_snd in Hrun.
  destruct (Source.update_loop _ _ _ _ _ k) as [[[ms removed]|f] k1] eqn:E; [|done].
  rewrite run_fst_put in Hrun. injection Hrun as <- <- <-. cbn [fst snd].
  set (m0 := Source.socketFdMap h) in *.
  assert (NoDup (order m0).*1) as Hn1 by (rewrite Horder; apply NoDup_fst_map_to_list).
  assert (NoDup (order m0).*2) as Hn2.
  { rewrite Horder. apply NoDup_fmap_2_strong; [|apply NoDup_map_to_list].
    intros [a b] [a' b'] Ha%elem_of_map_to_list Hb%elem_of_map_to_list. cbn. intros <-.
    f_equal. by eapply Hinj. }
  destruct (update_loop_relays _ _ _ _ _ _ _ Hn1 Hn2 E) as (Hids & _ & _ & Hall).
  assert (∀ ids j (m : gmap Z Z), Source.erase_all ids m !! j =
    if decide (j ∈ ids) then None else m !! j) as Herase.
  { induction ids as [|x ids IH]; intros j m; cbn; [by rewrite decide_False by apply not_elem_of_nil|].
    destruct (decide (j = x)) as [->|Hne].
    - by rewrite lookup_delete_eq, decide_True by (by left).
    - rewrite lookup_delete_ne by done. fold (Source.erase_all ids m). rewrite IH.
      apply decide_ext. set_solver. }
  split.
  - eapply Forall_impl; [|exact Hids]. intros m (p & Hp & ?). exists p. split; [|done].
    by rewrite <-Horder.
  - intros i fd Hi. rewrite list.Forall_forall in Hall.
    destruct (Hall (i, fd)) as [Hin Hrem];
      [rewrite Horder; by apply elem_of_map_to_list|].
    cbn [fst snd Source.set_map Source.socketFdMap] in *. rewrite Herase, <-Hrem.
    split; [done|]. fold m0. rewrite Hi. case_decide; naive_solver.
Qed.
End Relay.

(** ** Where the data of a socket id goes *)

(** The descriptor of a source-side socket id. *)
Definition wired (p : Forward.PortForwardHandler) (id : Z) : option Z :=
  i ← Forward.socketIdSourceHandlerMap p !! id;
  h ← Forward.sourceHandlers p !! i;
  Source.socketFdMap h !! id.

(** The descriptor on which data of a direction and socket id is written. *)
Definition target (p : Forward.PortForwardHandler) (s2d : bool) (id : Z) : option Z :=
  if s2d then Destination.fd <$> (Forward.destinationHandlers p !! id) else wired p id.

(** Every route names a source handler. *)
Definition routes_ok (p : Forward.PortForwardHandler) : Prop :=
  ∀ id i, Forward.socketIdSourceHandlerMap p !! id = Some i → is_Some (Forward.sourceHandlers p !! i).

Lemma find_unassigned_Some fd l n i :
  Forward.find_unassigned fd l n = Some i →
  ∃ h, (n ≤ i)%nat ∧ l !! (i - n)%nat = Some h ∧ fd ∈ Source.unassignedFds h.
Proof.
  revert n. induction l as [|h l IH]; intros n; cbn [Forward.find_unassigned]; [done|].
  unfold Source.hasUnassignedFd. case_bool_decide as Hin.
  - intros [= <-]. exists h. by rewrite Nat.sub_diag.
  - intros (h' & Hle & Hl & Hh)%IH. exists h'. split_and!; [lia| |done].
    by replace (i - n)%nat with (S (i - S n))%nat by lia.
Qed.

(** When the server has answered with a socket id, that id is wired to the
    descriptor that was waiting for it, which waits no longer; every other socket id
    keeps its descriptor; and the tables stay well formed. *)
Theorem addSourceSocketId_wires id fd p i :
  Forward.find_unassigned fd (Forward.sourceHandlers p) 0 = Some i →
  let p' := Forward.addSourceSocketId id fd p in
  wired p' id = Some fd ∧
  (∀ h, Forward.sourceHandlers p' !! i = Some h → fd ∉ Source.unassignedFds h) ∧
  (∀ j, j ≠ id → wired p' j = wired p j) ∧
  (routes_ok p → routes_ok p').
Proof.
  intros Hf p'. pose proof (find_unassigned_Some _ _ _ _ Hf) as (h & _ & Hl & Hin).
  rewrite Nat.sub_0_r in Hl. subst p'. unfold Forward.addSourceSocketId. rewrite Hf.
  assert (Source.addSocket id fd h =
    Source.set_map (<[id := fd]> (Source.socketFdMap h))
      (Source.set_unassigned (Source.unassignedFds h ∖ {[fd]}) h)) as Ha
    by (unfold Source.addSocket; by rewrite decide_True).
  unfold wired. cbn. split_and!.
  - rewrite lookup_insert_eq. cbn. rewrite list_lookup_alter_eq, Hl. cbn. rewrite Ha. cbn.
    apply lookup_insert_eq.
  - intros h'. rewrite list_lookup_alter_eq, Hl. cbn. rewrite Ha. intros [= <-]. cbn. set_solver.
  - intros j Hj. rewrite lookup_insert_ne by done.
    destruct (Forward.socketIdSourceHandlerMap p !! j) as [i'|]; [|done]. cbn.
    destruct (decide (i' = i)) as [->|Hne].
    + rewrite list_lookup_alter_eq, Hl. cbn. rewrite Ha. cbn. by apply lookup_insert_ne.
    + by rewrite list_lookup_alter_ne.
  - intros Hok j i' Hj. cbn in *. destruct (decide (i' = i)) as [->|Hne].
    + rewrite list_lookup_alter_eq, Hl. by eexists.
    + rewrite list_lookup_alter_ne by done. apply (Hok j).
      destruct (decide (j = id)) as [->|]; [|by rewrite lookup_insert_ne in Hj].
      rewrite lookup_insert_eq in Hj. congruence.
Qed.

Section Routing.
Context {W : Type} (sock : handler_kind → SocketHandler W) `{!Streams W}.
Context (streams : ∀ kd, @StreamSocket W (sock kd) _) (clean : ∀ kd, @CleanRetry W (sock kd) _).

Lemma set_sources_same p i h :
  Forward.sourceHandlers p !! i = Some h →
  Forward.set_sources (<[i := h]> (Forward.sourceHandlers p)) p = p.
Proof. intros Hl. destruct p. unfold Forward.set_sources. cbn in *. by rewrite list_insert_id. Qed.

Lemma set_destinations_same p i h :
  Forward.destinationHandlers p !! i = Some h →
  Forward.set_destinations (<[i := h]> (Forward.destinationHandlers p)) p = p.
Proof. intros Hl. destruct p. unfold Forward.set_destinations. cbn in *. by rewrite insert_id. Qed.

(** Data of a tunnel goes to the one descriptor its direction and socket id
    stand for, and nowhere else: a [PORT_FORWARD_DATA] message writes its buffer (a
    prefix of it, when the socket fails) to that descriptor; when the id has no
    descriptor, or a stale one, nothing is written at all.  The tables do not
    change.  (For a handler whose writes ask to be retried only when they have sent
    nothing.) *)
Theorem handle_data_routes fuel pwd p k o p' k' :
  routes_ok p → pwd_closed pwd = None → pwd_error pwd = None →
  Forward.handle_data sock fuel pwd (p, k) = (o, (p', k')) →
  p' = p ∧
  match target p (default false (pwd_sourcetodestination pwd)) (default 0 (pwd_socketid pwd)) with
  | None => k' = k ∧ o = Ok tt
  | Some fd => write_post fd (default [] (pwd_buffer pwd)) False k k'
  end.
Proof.
  intros Hok Hc He. unfold Forward.handle_data. rewrite Hc, He.
  rewrite !bool_decide_eq_false_2 by (by intros [? ?]). cbn [orb].
  set (id := default 0 (pwd_socketid pwd)). set (buf := default [] (pwd_buffer pwd)).
  assert (∀ kd fd o1 k1, @writeAllOrReturn W (sock kd) fuel fd buf k = (o1, k1) →
    write_post fd buf False k k1) as Hwrite.
  { intros kd fd o1 k1 Hw.
    pose proof (@writeAllOrReturn_run W (sock kd) _ (streams kd) (clean kd) _ _ _ _ _ _ Hw)
      as (s & ? & ? & _). by exists s. }
  destruct (default false _); cbn [target].
  - rewrite run_fst_get. destruct (Forward.destinationHandlers p !! id) as [h|] eqn:Hl; cbn [fmap option_fmap option_map];
      [|by intros [= <- <- <-]].
    unfold Forward.on_destination. rewrite Hl. unfold Destination.write. rewrite run_fst_get, run_snd.
    destruct (writeAllOrReturn _ _ _ _) as [[n|f] k1] eqn:Ew; cbn; intros [= <- <- <-];
      (split; [by apply set_destinations_same|by eapply Hwrite]).
  - unfold Forward.sendDataToSourceOnSocket, wired. rewrite run_fst_get.
    destruct (Forward.socketIdSourceHandlerMap p !! id) as [i|] eqn:Hi; cbn; [|by intros [= <- <- <-]].
    destruct (Hok id i Hi) as [h Hh]. unfold Forward.on_source. rewrite Hh. cbn.
    unfold Source.sendDataOnSocket. rewrite run_fst_get.
    destruct (Source.socketFdMap h !! id) as [fd|]; cbn.
    + rewrite run_snd. destruct (writeAllOrReturn _ _ _ _) as [[n|f] k1] eqn:Ew; cbn; intros [= <- <- <-];
        (split; [by apply set_sources_same|by eapply Hwrite]).
    + intros [= <- <- <-]. split; [by apply set_sources_same|done].
Qed.

(** A message that reports the end of a socket id (closed, or an error)
    closes its descriptor and removes the id from the table of its direction; all
    other ids, and the other direction, keep their descriptors, and no byte moves. *)
Theorem handle_data_closes fuel pwd p k p' k' :
  routes_ok p → is_Some (pwd_closed pwd) ∨ is_Some (pwd_error pwd) →
  Forward.handle_data sock fuel pwd (p, k) = (Ok tt, (p', k')) →
  let d := default false (pwd_sourcetodestination pwd) in
  let id := default 0 (pwd_socketid pwd) in
  target p' d id = None ∧ quiet k k' ∧
  ∀ d' id', (d', id') ≠ (d, id) → target p' d' id' = target p d' id'.
Proof.
  intros Hok Hend Hrun d id. unfold Forward.handle_data in Hrun.
  assert (bool_decide (is_Some (pwd_closed pwd)) || bool_decide (is_Some (pwd_error pwd)) = true) as Hb
    by (apply orb_true_iff; rewrite !bool_decide_eq_true; done).
  rewrite Hb in Hrun. fold d id in Hrun. destruct d; cbn [target].
  - rewrite run_fst_get in Hrun. destruct (Forward.destinationHandlers p !! id) as [h|] eqn:Hl.
    + unfold Forward.on_destination, Destination.close in Hrun. rewrite M_bind_stop_inv, Hl in Hrun.
      rewrite run_fst_get in Hrun.
      cbv [on_snd zoom fst snd] in Hrun. destruct (sh_close _ k) as [[[]|f] k1] eqn:Ec; [|done].
      rewrite (set_destinations_same _ _ _ Hl) in Hrun. injection Hrun as <- <-. cbn.
      rewrite lookup_delete_eq. split_and!; [done|by eapply (@stream_close W (sock _) _ (streams _))|].
      intros [] id' Hne; cbn; [|done]. rewrite lookup_delete_ne by congruence. done.
    + injection Hrun as <- <-. by rewrite Hl.
  - unfold Forward.closeSourceSocketId in Hrun. rewrite run_fst_get in Hrun. unfold wired.
    destruct (Forward.socketIdSourceHandlerMap p !! id) as [i|] eqn:Hi;
      [|injection Hrun as <- <-; by rewrite Hi].
    destruct (Hok id i Hi) as [h Hh]. unfold Forward.on_source in Hrun.
    rewrite M_bind_stop_inv, Hh in Hrun. unfold Source.closeSocket in Hrun. rewrite run_fst_get in Hrun.
    assert (∀ h1, Source.socketFdMap h1 = delete id (Source.socketFdMap h) → ∀ d' id',
      (d', id') ≠ (false, id) →
      target (Forward.set_routes (delete id (Forward.socketIdSourceHandlerMap p))
        (Forward.set_sources (<[i := h1]> (Forward.sourceHandlers p)) p)) d' id' = target p d' id') as Hother.
    { intros h1 Hh1 [] id' Hne; [done|]. cbn. unfold wired. cbn.
      rewrite lookup_delete_ne by congruence.
      destruct (Forward.socketIdSourceHandlerMap p !! id') as [j|]; [|done]. cbn.
      destruct (decide (j = i)) as [->|Hj]; [|by rewrite list_lookup_insert_ne].
      rewrite list_lookup_insert_eq by (by eapply lookup_lt_Some). rewrite Hh. cbn. rewrite Hh1.
      apply lookup_delete_ne. congruence. }
    destruct (Source.socketFdMap h !! id) as [fd|] eqn:Hf.
    + rewrite run_snd in Hrun. destruct (sh_close fd k) as [[[]|f] k1] eqn:Ec; [|done].
      cbn in Hrun. injection Hrun as <- <-. split_and!.
      * cbn. by rewrite lookup_delete_eq.
      * by eapply (@stream_close W (sock _) _ (streams _)).
      * by apply (Hother (Source.set_map (delete id (Source.socketFdMap h)) h)).
    + cbn in Hrun. injection Hrun as <- <-. split_and!; [cbn; by rewrite lookup_delete_eq|done|].
      apply Hother. by rewrite delete_id.
Qed.

Variable strerror : Z → str.

Lemma find_socket_id_fresh n id (taken : gmap Z Destination.ForwardDestinationHandler) (k : W) id' k' :
  Forward.find_socket_id sock n id taken k = (Ok (Some id'), k') → taken !! id' = None.
Proof.
  revert id k. induction n as [|n IH]; intros id k; cbn [Forward.find_socket_id];
    (destruct (taken !! id) eqn:Ht; [|by intros [= <- <-]]); rewrite M_bind_stop_inv;
    destruct (sh_rand k) as [[r|?] k1]; try done.
  destruct n as [|n]; [done|]. apply IH.
Qed.

(** A destination is opened under a socket id that no open destination has,
    on the descriptor that was connected, and the answer names that id and repeats
    the client's descriptor; when the connection fails, or no id is found, the answer
    is an error (with the client's descriptor) and the table is as it was. *)
Theorem createDestination_result attempts pfdr p k resp p' k' :
  Forward.createDestination sock strerror attempts pfdr (p, k) = (Ok resp, (p', k')) →
  let dst := destination_of (pfdr_destination pfdr) in
  pfd_clientfd resp = Some (default 0 (pfdr_fd pfdr)) ∧
  match pfd_socketid resp with
  | Some id =>
    pfd_error resp = None ∧ Forward.destinationHandlers p !! id = None ∧
    ∃ fd k1, Forward.connect_destination sock dst k = (Ok (IoOk fd), k1) ∧
      p' = Forward.set_destinations (<[id := Destination.mkDestination
             (if bool_decide (is_Some (ep_port dst)) then Network else Pipe) fd id]>
             (Forward.destinationHandlers p)) p
  | None => is_Some (pfd_error resp) ∧ p' = p
  end.
Proof.
  intros Hrun dst. unfold Forward.createDestination in Hrun. fold dst in Hrun. rewrite run_snd in Hrun.
  destruct (Forward.connect_destination sock dst k) as [[[fd|e]|f] k1]; [| |done].
  2: { by injection Hrun as <- <- <-. }
  rewrite run_fst_get, run_snd in Hrun. destruct (sh_rand k1) as [[r|f] k2]; [|done].
  rewrite run_snd in Hrun.
  destruct (Forward.find_socket_id sock attempts r _ k2) as [[[id|]|f] k3] eqn:Ef; [| |done].
  - rewrite run_fst_put in Hrun. injection Hrun as <- <- <-. cbn [pfd_clientfd pfd_socketid pfd_error].
    split_and!; [done|done|by eapply find_socket_id_fresh|]. by exists fd, k1.
  - by injection Hrun as <- <- <-.
Qed.
End Routing.

(** ** Witnesses *)

Section Witnesses.
Definition f_sock : handler_kind → SocketHandler Wire := λ _, WireSocket.
Lemma f_streams kd : @StreamSocket Wire (f_sock kd) _. Proof. exact WireStreamSocket. Qed.
Lemma f_clean kd : @CleanRetry Wire (f_sock kd) _. Proof. exact WireCleanRetry. Qed.

(** Two sockets of a tunnel, with bytes waiting, and one that waits for its id. *)
Definition f_source : Source.ForwardSourceHandler :=
  Source.mkSource Network no_endpoint no_endpoint {[ 30 ]} {[ 1 := 10; 2 := 20 ]}.
Definition f_handler : Forward.PortForwardHandler :=
  Forward.mkForward {[ 7 := Destination.mkDestination Network 40 7 ]} [f_source] {[ 1 := 0%nat; 2 := 0%nat ]}.
Definition f_wire : Wire := with_in (with_in (with_in wire0 10 (lit "one")) 20 (lit "two")) 40 (lit "dst").

Lemma f_source_ok : source_ok f_source.
Proof.
  split.
  - intros i fd Hi. change (Source.socketFdMap f_source) with ({[ 1 := 10; 2 := 20 ]} : gmap Z Z) in Hi.
    apply lookup_insert_Some in Hi as [[_ <-]|[_ Hi%lookup_singleton_Some]]; [by vm_compute|].
    destruct Hi as [_ <-]. by vm_compute.
  - intros i j fd. change (Source.socketFdMap f_source) with ({[ 1 := 10; 2 := 20 ]} : gmap Z Z).
    intros [[<- <-]|[_ [<- <-]%lookup_singleton_Some]]%lookup_insert_Some
      [[<- ?]|[_ [<- ?]%lookup_singleton_Some]]%lookup_insert_Some; lia.
Qed.

Lemma f_handler_ok : routes_ok f_handler.
Proof.
  intros id i Hi. change (Forward.socketIdSourceHandlerMap f_handler)
    with ({[ 1 := 0%nat; 2 := 0%nat ]} : gmap Z nat) in Hi.
  by apply lookup_insert_Some in Hi as [[_ <-]|[_ [_ <-]%lookup_singleton_Some]]; eexists.
Qed.

Definition f_destination : Destination.ForwardDestinationHandler := Destination.mkDestination Network 40 7.
Definition msgs_of (o : outcome (list PortForwardData)) : list PortForwardData :=
  match o with Ok l => l | Stop _ => [] end.

Definition f_dst_run := Destination.update f_sock (λ _, []) 5 (f_destination, f_wire).
Definition f_dst_msgs : list PortForwardData := msgs_of f_dst_run.1.

Lemma destination_update_relays_witness :
  carried 7 f_dst_msgs = lit "dst" ∧ ¬ Exists (ends 7) f_dst_msgs.
Proof.
  split; [vm_compute; reflexivity|].
  destruct (destination_update_relays f_sock f_streams (λ _, []) 5 f_destination f_wire f_dst_msgs
    f_dst_run.2.1 f_dst_run.2.2) as (gone & _ & _ & Hiff); [done|vm_compute; reflexivity|].
  intros Hend%Hiff. vm_compute in Hend. discriminate.
Defined.

Definition f_src_run := Source.update f_sock (λ _, []) 5 map_to_list (f_source, f_wire).
Definition f_src_msgs : list PortForwardData := msgs_of f_src_run.1.

Lemma source_update_relays_witness :
  carried 1 f_src_msgs = lit "one" ∧
  incoming f_wire 20 = carried 2 f_src_msgs ++ incoming f_src_run.2.2 20.
Proof.
  split; [vm_compute; reflexivity|].
  refine (proj1 (proj2 (source_update_relays f_sock f_streams (λ _, []) 5 map_to_list f_source f_wire
    f_src_msgs f_src_run.2.1 f_src_run.2.2 f_source_ok _ _) 2 20 _));
    [intros m; reflexivity|vm_compute; reflexivity|vm_compute; reflexivity].
Defined.

Definition f_wired : Forward.PortForwardHandler := Forward.addSourceSocketId 3 30 f_handler.

Lemma addSourceSocketId_wires_witness : wired f_wired 3 = Some 30 ∧ wired f_wired 1 = wired f_handler 1.
Proof.
  destruct (addSourceSocketId_wires 3 30 f_handler 0) as (Hw & _ & Hother & _);
    [vm_compute; reflexivity|]. split; [exact Hw|apply Hother; lia].
Defined.

Definition f_data : PortForwardData := mkPwd (Some false) (Some 2) (Some (lit "reply")) None None.
Definition f_data_run := Forward.handle_data f_sock 9 f_data (f_handler, f_wire).

Lemma handle_data_routes_witness :
  write_post 20 (lit "reply") False f_wire f_data_run.2.2 ∧
  outgoing f_data_run.2.2 20 = lit "reply".
Proof.
  split; [|vm_compute; reflexivity].
  destruct (handle_data_routes f_sock f_streams f_clean 9 f_data f_handler f_wire f_data_run.1
    f_data_run.2.1 f_data_run.2.2 f_handler_ok) as [_ Hw]; try (vm_compute; reflexivity).
  exact Hw.
Defined.

Definition f_end : PortForwardData := mkPwd (Some false) (Some 2) None None (Some true).
Definition f_end_run := Forward.handle_data f_sock 9 f_end (f_handler, f_wire).

Lemma handle_data_closes_witness :
  wired f_end_run.2.1 2 = None ∧ wired f_end_run.2.1 1 = wired f_handler 1.
Proof.
  destruct (handle_data_closes f_sock f_streams 9 f_end f_handler f_wire f_end_run.2.1 f_end_run.2.2
    f_handler_ok) as (Hn & _ & Hother); [left; by eexists|vm_compute; reflexivity|].
  split; [exact Hn|apply (Hother false 1); intros [=]].
Defined.

(** A request to connect to port 80, with 7 drawn first (which is taken). *)
Definition f_request : PortForwardDestinationRequest :=
  mkPfdr (Some (mkEndpoint None (Some 80))) (Some 30).
Definition f_connect_wire : Wire := with_rands (with_connects wire0 [IoOk 50]) [7; 8].
Definition f_create_run :=
  Forward.createDestination f_sock (λ _, []) 10 f_request (f_handler, f_connect_wire).

Lemma createDestination_result_witness :
  Forward.destinationHandlers f_handler !! 8 = None ∧
  target f_create_run.2.1 true 8 = Some 50.
Proof.
  split; [|vm_compute; reflexivity].
  destruct (createDestination_result f_sock (λ _, []) 10 f_request f_handler f_connect_wire
    (mkPfdResponse (Some 30) (Some 8) None) f_create_run.2.1 f_create_run.2.2)
    as (_ & _ & Hfresh & _); [vm_compute; reflexivity|exact Hfresh].
Defined.
End Witnesses.
