(* ===== verification/TunnelsApart.v ===== *)
(** * Forwarded ports leave the rest of the program alone

    The port forwarding of a session works on sockets of its own.  When the system calls
    on those sockets respect some relation [R] on the state of the rest of the program (in
    [Activity]: the connection and the terminal are as they were, or the connection has
    written packets), and the kernel gives no forwarded socket a descriptor that the rest
    of the program has ([mine]), then so do the methods of [PortForwardHandler], and its
    descriptors stay apart. *)

From S2P Require Import Prelude Sockets Crypto Packets Wire Forwarding.
Import Source Destination Forward.

(** What the sockets of the forwarded ports promise. *)
Record respects {V} (mine : Z → Prop) (R : V → V → Prop) (h : SocketHandler V) : Prop := {
  respects_hasData fd k o k' : sh_hasData fd k = (o, k') → R k k';
  respects_read fd n k o k' : ¬ mine fd → sh_read fd n k = (o, k') → R k k';
  respects_write fd s k o k' : ¬ mine fd → sh_write fd s k = (o, k') → R k k';
  respects_close fd k o k' : ¬ mine fd → sh_close fd k = (o, k') → R k k';
  respects_listen e k o k' : sh_listen e k = (o, k') → R k k';
  respects_endpoints e k o k' : sh_getEndpointFds e k = (o, k') → R k k';
  respects_time k o k' : sh_time k = (o, k') → R k k';
  respects_sleep us k o k' : sh_sleep us k = (o, k') → R k k';
  respects_rand k o k' : sh_rand k = (o, k') → R k k';
  respects_connect e k o k' : sh_connect e k = (o, k') →
    R k k' ∧ ∀ fd, o = Ok (IoOk fd) → ¬ mine fd;
  respects_accept fd k o k' : sh_accept fd k = (o, k') →
    R k k' ∧ ∀ fd', o = Ok (IoOk fd') → ¬ mine fd';
}.

(** What the calls for the files of named pipes promise. *)
Record files_respect {V} `{!TempFiles V} (R : V → V → Prop) : Prop := {
  respects_mkdtemp s k o k' : tf_mkdtemp s k = (o, k') → R k k';
  respects_chmod s k o k' : tf_chmod s k = (o, k') → R k k';
  respects_chown s u g k o k' : tf_chown s u g k = (o, k') → R k k';
}.

(** [always I m]: the invariant holds again however [m] ends, also when it throws. *)
Definition always {S A} (I : S → Prop) (m : M S A) : Prop := ∀ s, I s → I (m s).2.

Section Always.
Context {S : Type} (I : S → Prop).

Lemma always_bind {A B} (m : M S A) (f : A → M S B) :
  always I m → (∀ a, always I (f a)) → always I (m ≫= f).
Proof.
  intros Hm Hf s Hs. rewrite M_bind_stop_inv. specialize (Hm s Hs).
  destruct (m s) as [[a|e] s1]; [by apply Hf|done].
Qed.

Lemma always_ret {A} (a : A) : always I (mret a).
Proof. by intros s Hs. Qed.

Lemma always_stop {A} e : always I (stop (A := A) e).
Proof. by intros s Hs. Qed.

Lemma always_catch {A} (m : M S A) h :
  always I m → (∀ w, always I (h w)) → always I (catch_runtime m h).
Proof.
  intros Hm Hh s Hs. unfold catch_runtime. specialize (Hm s Hs).
  destruct (m s) as [[a|[[[] w]| | |]] s1]; try done. by apply Hh.
Qed.

Lemma always_keeps {A} (m : M S A) : always I m → keeps I m.
Proof. intros Hm s Hs a s' E. specialize (Hm s Hs). by rewrite E in Hm. Qed.
End Always.

Section Tunnels.
Context {V : Type} (sock : handler_kind → SocketHandler V) `{!TempFiles V}.
Context `{!Proto PortForwardData} `{!Proto PortForwardDestinationRequest}.
Context `{!Proto PortForwardDestinationResponse}.
Variable strerror : Z → str.
Variables (mine : Z → Prop) (R : V → V → Prop).
Context `{!PreOrder R}.
Hypothesis Hsock : ∀ kd, respects mine R (sock kd).
Hypothesis Hfiles : files_respect R.
(** -1 is no descriptor. *)
Hypothesis Hmine : ¬ mine (-1).
Variables (order : gmap Z Z → list (Z * Z)) (order' : gmap Z ForwardDestinationHandler → list Z).
Hypothesis Horder : ∀ m p, p ∈ order m → m !! p.1 = Some p.2.

(** ** Calls on sockets *)

Lemma R_keeps {A} k0 (m : M V A) : (∀ k o k', m k = (o, k') → R k k') → keeps (R k0) m.
Proof. intros Hm k Hk a k' E. etrans; [exact Hk|by eapply Hm]. Qed.

Lemma away_read_socket fuel kd k0 b i fd :
  ¬ mine fd → keeps (R k0) (@read_socket V (sock kd) strerror fuel b i fd).
Proof.
  intros Hfd. induction fuel as [|fuel IH]; cbn [read_socket]; [apply keeps_stop|].
  repeat first
    [ exact IH | apply keeps_ret
    | apply R_keeps; intros ???; first
        [ apply (respects_hasData _ _ _ (Hsock kd)) | by apply (respects_read _ _ _ (Hsock kd))
        | by apply (respects_close _ _ _ (Hsock kd)) ]
    | apply keeps_bind; [|intros] | case_match ].
Qed.

Lemma away_write_all fuel kd k0 fd s :
  ¬ mine fd → keeps (R k0) (@writeAllOrReturn V (sock kd) fuel fd s).
Proof.
  intros Hfd. unfold writeAllOrReturn.
  assert (∀ n t c todo, keeps (R k0) (@writeAllOrReturn_loop V (sock kd) n fd t c todo)) as Hloop.
  { intros n. induction n as [|n IH]; intros t c todo; destruct todo as [|x todo];
      cbn [writeAllOrReturn_loop]; try apply keeps_ret; try apply keeps_stop.
    repeat first
      [ apply IH | apply keeps_ret | apply keeps_stop
      | apply R_keeps; intros ???; first
          [ by apply (respects_write _ _ _ (Hsock kd)) | by apply (respects_time _ _ _ (Hsock kd))
          | by apply (respects_sleep _ _ _ (Hsock kd)) ]
      | apply keeps_bind; [|intros] | case_match ]. }
  apply keeps_bind; [|intros; apply Hloop].
  apply R_keeps. intros ???. by apply (respects_time _ _ _ (Hsock kd)).
Qed.

(** ** One handler *)

Definition source_away (h : ForwardSourceHandler) : Prop :=
  (∀ fd, fd ∈ unassignedFds h → ¬ mine fd) ∧
  (∀ i fd, socketFdMap h !! i = Some fd → ¬ mine fd).
Definition destination_away (h : ForwardDestinationHandler) : Prop := ¬ mine (Destination.fd h).

(** A component that satisfies [P], beside the rest of the program, which was in [k0]. *)
Definition calm {S} (P : S → Prop) (k0 : V) (q : S * V) : Prop := P q.1 ∧ R k0 q.2.

Lemma calm_snd {S A} (P : S → Prop) k0 (m : M V A) : keeps (R k0) m → keeps (calm P k0) (on_snd m).
Proof. intros Hm [h k] [Hh Hk]. apply finishes_on_snd. intros a k' E. by split; [|apply (Hm k Hk a)]. Qed.

Lemma calm_get {S B} (P : S → Prop) k0 (f : S → M (S * V) B) :
  (∀ h, P h → keeps (calm P k0) (f h)) → keeps (calm P k0) (on_fst get ≫= f).
Proof. intros Hf. apply keeps_get. intros h k Hh. by apply Hf; [apply Hh|]. Qed.

Lemma calm_put {S} (P : S → Prop) k0 h : P h → keeps (calm P k0) (on_fst (put h)).
Proof. intros Hh [h1 k1] [_ Hk1] [] q [= <-]. by split. Qed.

Lemma calm_modify {S} (P : S → Prop) k0 g :
  (∀ h, P h → P (g h)) → keeps (calm P k0) (on_fst (modify g)).
Proof. intros Hg. apply keeps_modify. intros h k [Hh Hk]. by split; [apply Hg|]. Qed.

Lemma erase_all_lookup ids (m : gmap Z Z) i fd : erase_all ids m !! i = Some fd → m !! i = Some fd.
Proof.
  unfold erase_all. induction ids as [|j ids IH]; [done|]. cbn [foldr].
  intros [_ H]%lookup_delete_Some. by apply IH.
Qed.

Lemma away_update_loop fuel kd k0 sockets :
  Forall (λ p, ¬ mine p.2) sockets →
  keeps (R k0) (Source.update_loop sock strerror fuel kd sockets).
Proof.
  induction 1 as [|[i fd] l Hfd _ IH]; cbn [Source.update_loop]; [apply keeps_ret|].
  apply keeps_bind; [by apply away_read_socket|]. intros r. apply keeps_bind; [done|].
  intros r'. apply keeps_ret.
Qed.

Lemma away_set_unassigned h u :
  source_away h → (∀ fd, fd ∈ u → ¬ mine fd) → source_away (set_unassigned u h).
Proof. by intros [_ Hs] Hu. Qed.

Lemma away_close_on kd k0 fd : ¬ mine fd → keeps (R k0) (@sh_close V (sock kd) fd).
Proof. intros Hfd. apply R_keeps. intros ???. by apply (respects_close _ _ _ (Hsock kd)). Qed.

Lemma away_endpoints kd k0 e : keeps (R k0) (@sh_getEndpointFds V (sock kd) e).
Proof. apply R_keeps. intros ???. by apply (respects_endpoints _ _ _ (Hsock kd)). Qed.

Lemma away_source_update fuel k0 :
  keeps (calm source_away k0) (Source.update sock strerror fuel order).
Proof.
  unfold Source.update. apply calm_get. intros h [Hu Hs].
  apply keeps_bind.
  { apply calm_snd, away_update_loop. apply list.Forall_forall. intros [i fd] Hp%Horder. by eapply Hs. }
  intros r. apply keeps_bind; [|intros; apply keeps_ret].
  apply calm_put. split; [done|]. intros i fd Hi%erase_all_lookup. by eapply Hs.
Qed.

Lemma away_listen k0 : keeps (calm source_away k0) (Source.listen sock).
Proof.
  unfold Source.listen. apply calm_get. intros h _.
  apply keeps_bind; [apply calm_snd, away_endpoints|]. intros fds. clear h.
  induction fds as [|i fds IH]; cbn [listen_loop]; [apply keeps_ret|].
  apply calm_get. intros h _ q Hq. apply finishes_bind.
  intros r q1 [E Hq1]%on_snd_inv. apply (respects_accept _ _ _ (Hsock _)) in E as [HR Hr].
  assert (calm source_away k0 q1) as Hc.
  { destruct Hq as [Hq Hk]. split; [by rewrite Hq1|by etrans]. }
  cbv zeta. case_match; b2p; [|by apply IH].
  refine (keeps_bind _ _ _ _ _ q1 Hc); [|intros; apply keeps_ret].
  apply calm_modify. intros h1 [Hu Hs]. apply away_set_unassigned; [done|].
  intros f [->%elem_of_singleton|Hf]%elem_of_union; [|by apply Hu].
  destruct r as [fd|e]; [by apply Hr|done].
Qed.

Lemma away_active k0 fds : keeps (calm source_away k0) (Source.getActiveFds sock fds).
Proof.
  unfold Source.getActiveFds. apply calm_get. intros h _.
  apply keeps_bind; [apply calm_snd, away_endpoints|]. intros; apply keeps_ret.
Qed.

Lemma away_close_unassigned k0 fd : keeps (calm source_away k0) (closeUnassignedFd sock fd).
Proof.
  unfold closeUnassignedFd. apply calm_get. intros h [Hu Hs]. case_decide; [|apply keeps_ret].
  apply keeps_bind; [by apply calm_snd, away_close_on, Hu|]. intros _.
  apply calm_put, away_set_unassigned; [done|]. intros f [Hf _]%elem_of_difference. by apply Hu.
Qed.

Lemma away_send_data fuel k0 i s : keeps (calm source_away k0) (sendDataOnSocket sock fuel i s).
Proof.
  unfold sendDataOnSocket. apply calm_get. intros h [_ Hs]. case_match; [|apply keeps_ret].
  apply keeps_bind; [|intros; apply keeps_ret]. apply calm_snd, away_write_all. by eapply Hs.
Qed.

Lemma away_close_socket k0 i : keeps (calm source_away k0) (Source.closeSocket sock i).
Proof.
  unfold Source.closeSocket. apply calm_get. intros h [Hu Hs]. case_match; [|apply keeps_ret].
  apply keeps_bind; [apply calm_snd, away_close_on; by eapply Hs|]. intros _.
  apply calm_put. split; [done|]. cbn. intros j fd [_ Hj]%lookup_delete_Some. by eapply Hs.
Qed.

Lemma away_add_socket i fd h : source_away h → source_away (addSocket i fd h).
Proof.
  intros [Hu Hs]. unfold addSocket. case_decide; [|done]. split; cbn.
  - intros f [Hf _]%elem_of_difference. by apply Hu.
  - intros j f [[_ <-]|[_ Hj]]%lookup_insert_Some; [by apply Hu|by eapply Hs].
Qed.

Lemma away_destination_close k0 : keeps (calm destination_away k0) (Destination.close sock).
Proof.
  unfold Destination.close. apply calm_get. intros h Hh. by apply calm_snd, away_close_on.
Qed.

Lemma away_destination_write fuel k0 s :
  keeps (calm destination_away k0) (Destination.write sock fuel s).
Proof.
  unfold Destination.write. apply calm_get. intros h Hh.
  apply keeps_bind; [by apply calm_snd, away_write_all|]. intros; apply keeps_ret.
Qed.

Lemma away_destination_update fuel k0 :
  keeps (calm destination_away k0) (Destination.update sock strerror fuel).
Proof.
  unfold Destination.update. apply calm_get. intros h Hh. case_match; [apply keeps_ret|].
  apply keeps_bind; [by apply calm_snd, away_read_socket|]. intros r.
  apply keeps_bind; [|intros; apply keeps_ret]. apply calm_put. by case_match.
Qed.

(** ** The handlers of a session *)

Definition forward_away (p : PortForwardHandler) : Prop :=
  Forall source_away (sourceHandlers p) ∧
  ∀ i h, destinationHandlers p !! i = Some h → destination_away h.

Lemma forward_away_init : forward_away Forward.init.
Proof. by split; [constructor|]. Qed.

Lemma away_on_source {A} k0 i (m : M (ForwardSourceHandler * V) A) :
  keeps (calm source_away k0) m → keeps (calm forward_away k0) (on_source i m).
Proof.
  intros Hm [p k] [[Hs Hd] Hk] a q. unfold on_source. cbn in *.
  destruct (sourceHandlers p !! i) as [h|] eqn:Hi; [|done].
  destruct (m (h, k)) as [o [h' k']] eqn:E. intros [= -> <-].
  apply Hm in E as [Hh' Hk'];
    [|by split; [exact (proj1 (Forall_lookup _ _) Hs i h Hi)|]].
  split; [|done]. split; [|done]. by apply Forall_insert.
Qed.

Lemma away_on_destination {A} k0 i (m : M (ForwardDestinationHandler * V) A) :
  keeps (calm destination_away k0) m → keeps (calm forward_away k0) (on_destination i m).
Proof.
  intros Hm [p k] [[Hs Hd] Hk] a q. unfold on_destination. cbn in *.
  destruct (destinationHandlers p !! i) as [h|] eqn:Hi; [|done].
  destruct (m (h, k)) as [o [h' k']] eqn:E. intros [= -> <-].
  apply Hm in E as [Hh' Hk']; [|by split; [eapply Hd|]].
  split; [|done]. split; [done|]. cbn.
  intros j g [[_ <-]|[_ Hj]]%lookup_insert_Some; [done|by eapply Hd].
Qed.

Lemma away_delete p i :
  forward_away p → forward_away (set_destinations (delete i (destinationHandlers p)) p).
Proof. intros [Hs Hd]. split; [done|]. cbn. intros j h [_ Hj]%lookup_delete_Some. by eapply Hd. Qed.

Lemma away_update_sources fuel k0 idx :
  keeps (calm forward_away k0) (update_sources sock strerror fuel order idx).
Proof.
  induction idx as [|i idx IH]; cbn [update_sources]; [apply keeps_ret|].
  apply keeps_bind; [apply away_on_source, away_source_update|]. intros data.
  apply keeps_bind; [apply away_on_source, away_listen|]. intros fd.
  apply calm_get. intros p _. apply keeps_bind; [exact IH|]. intros; apply keeps_ret.
Qed.

Lemma away_update_destinations fuel k0 ids :
  keeps (calm forward_away k0) (update_destinations sock strerror fuel ids).
Proof.
  induction ids as [|i ids IH]; cbn [update_destinations]; [apply keeps_ret|].
  apply keeps_bind; [apply away_on_destination, away_destination_update|]. intros data.
  apply calm_get. intros p Hp. case_decide.
  - apply keeps_bind; [|intros; apply keeps_ret]. by apply calm_put, away_delete.
  - apply keeps_bind; [exact IH|]. intros; apply keeps_ret.
Qed.

Lemma away_update fuel k0 :
  keeps (calm forward_away k0) (Forward.update sock strerror fuel order order').
Proof.
  unfold Forward.update. apply calm_get. intros p _.
  apply keeps_bind; [apply away_update_sources|]. intros r. apply calm_get. intros p1 _.
  apply keeps_bind; [apply away_update_destinations|]. intros; apply keeps_ret.
Qed.

Lemma away_forward_fds k0 fds : keeps (calm forward_away k0) (getForwardFds sock fds).
Proof.
  unfold getForwardFds. apply calm_get. intros p _.
  apply keeps_bind; [|intros; apply calm_get; intros; apply keeps_ret].
  generalize (seq 0 (length (sourceHandlers p))). intros idx. revert fds.
  induction idx as [|i idx IH]; intros fds; cbn [getForwardFds_loop]; [apply keeps_ret|].
  apply keeps_bind; [apply away_on_source, away_active|]. intros. apply IH.
Qed.

Lemma away_handle_data fuel k0 pwd : keeps (calm forward_away k0) (handle_data sock fuel pwd).
Proof.
  unfold handle_data, closeSourceSocketId, sendDataToSourceOnSocket. cbv zeta.
  destruct (default false _).
  - apply calm_get. intros p _. case_match; [|apply keeps_ret]. case_match.
    + apply keeps_bind; [apply away_on_destination, away_destination_close|]. intros _.
      apply calm_modify. intros p1. apply away_delete.
    + apply away_on_destination, away_destination_write.
  - destruct (_ || _); apply calm_get; intros p _; (case_match; [|apply keeps_ret]).
    + apply keeps_bind; [apply away_on_source, away_close_socket|]. intros _.
      by apply calm_modify.
    + apply away_on_source, away_send_data.
Qed.

Lemma away_find_id k0 n i taken : keeps (R k0) (find_socket_id sock n i taken).
Proof.
  revert i. induction n as [|n IH]; intros i; cbn [find_socket_id]; (case_match; [|apply keeps_ret]);
    (apply keeps_bind; [apply R_keeps; intros ???; apply (respects_rand _ _ _ (Hsock Network))|intros j]);
    [apply keeps_ret|]. destruct n; [apply keeps_ret|apply IH].
Qed.

Lemma away_connect dst k r k' :
  connect_destination sock dst k = (Ok r, k') → R k k' ∧ ∀ fd, r = IoOk fd → ¬ mine fd.
Proof.
  unfold connect_destination. destruct (ep_port dst) as [port|].
  - rewrite M_bind_stop_inv. destruct (sh_connect _ k) as [[[fd|e]|e] k1] eqn:E; [| |done];
      apply (respects_connect _ _ _ (Hsock Network)) in E as [HR Hfd].
    + intros [= <- <-]. split; [done|]. intros f [= <-]. by apply Hfd.
    + intros E. apply (respects_connect _ _ _ (Hsock Network)) in E as [HR' Hfd'].
      split; [by etrans|]. intros f ->. by apply Hfd'.
  - intros E. apply (respects_connect _ _ _ (Hsock Pipe)) in E as [HR Hfd].
    split; [done|]. intros f ->. by apply Hfd.
Qed.

Lemma away_create_destination k0 n pfdr :
  keeps (calm forward_away k0) (createDestination sock strerror n pfdr).
Proof.
  unfold createDestination. cbv zeta. intros q [Hq Hk]. apply finishes_bind.
  intros r q1 [[HR Hr]%away_connect Hq1]%on_snd_inv.
  assert (calm forward_away k0 q1) as Hc by (split; [by rewrite Hq1|by etrans]).
  destruct r as [fd|e]; [|by apply finishes_ret]. revert q1 Hc Hq1 HR.
  intros q1 Hc _ _. revert q1 Hc. apply calm_get. intros p Hp.
  apply keeps_bind; [apply calm_snd, R_keeps; intros ???; apply (respects_rand _ _ _ (Hsock Network))|].
  intros i. apply keeps_bind; [apply calm_snd, away_find_id|]. intros [j|]; [|apply keeps_ret].
  apply keeps_bind; [|intros; apply keeps_ret]. apply calm_put.
  destruct Hp as [Hs Hd]. split; [done|]. cbn.
  intros j' h [[_ <-]|[_ Hj]]%lookup_insert_Some; [by apply (Hr fd)|by eapply Hd].
Qed.

Lemma away_add_source i fd p : forward_away p → forward_away (addSourceSocketId i fd p).
Proof.
  intros [Hs Hd]. unfold addSourceSocketId. destruct (find_unassigned _ _ _) as [j|]; [|done].
  split; [|done]. cbn. apply Forall_alter; [done|]. intros h _ Hh. by apply away_add_socket.
Qed.

(** ** A new tunnel *)

Lemma calm_always_snd {S A} (P : S → Prop) k0 (m : M V A) :
  (∀ k o k', m k = (o, k') → R k k') → always (calm P k0) (on_snd m).
Proof.
  intros Hm [h k] [Hh Hk]. unfold on_snd, zoom. cbn. destruct (m k) as [o k'] eqn:E. split; [done|].
  cbn. etrans; [exact Hk|by eapply Hm].
Qed.

Lemma away_fatal_fail k0 (m : M V (io_result unit)) :
  (∀ k o k', m k = (o, k') → R k k') → always (calm forward_away k0) (FATAL_FAIL m).
Proof.
  intros Hm. unfold FATAL_FAIL. apply always_bind; [by apply calm_always_snd|].
  intros []; [apply always_ret|apply always_stop].
Qed.

Lemma away_new_handler {B} kd src dst k0 (f : ForwardSourceHandler → M (PortForwardHandler * V) B) :
  always (calm forward_away k0) (f (mkSource kd src dst ∅ ∅)) →
  always (calm forward_away k0) (on_snd (ForwardSourceHandler_new sock kd src dst) ≫= f).
Proof.
  intros Hf [p k] [Hp Hk]. unfold ForwardSourceHandler_new. rewrite run_snd, M_bind_stop_inv.
  destruct (sh_listen src k) as [[u|e] k1] eqn:E; apply (respects_listen _ _ _ (Hsock kd)) in E.
  - by apply Hf; split; [|etrans].
  - by split; [|etrans].
Qed.

Lemma away_add_handler kd src dst k0 :
  always (calm forward_away k0)
    (on_fst (modify (λ p, set_sources (sourceHandlers p ++ [mkSource kd src dst ∅ ∅]) p))).
Proof.
  intros [p k] [[Hs Hd] Hk]. split; [|done]. split; [|done]. cbn. apply Forall_app. split; [done|].
  constructor; [|done]. split; [by intros f Hf%not_elem_of_empty|by intros ?? ?].
Qed.

Lemma away_create_source k0 pfsr want u g :
  always (calm forward_away k0) (createSource sock pfsr want u g).
Proof.
  unfold createSource, createSource_body. apply always_catch; [|intros; apply always_ret].
  apply always_bind.
  - case_match; [case_match; [apply always_stop|apply always_ret]|].
    apply always_bind; [apply calm_always_snd; intros ???; apply (respects_mkdtemp _ Hfiles)|]. intros d.
    apply always_bind; [apply away_fatal_fail; intros ???; apply (respects_chmod _ Hfiles)|]. intros _.
    apply always_bind; [apply away_fatal_fail; intros ???; apply (respects_chown _ Hfiles)|]. intros _.
    case_match; [apply always_ret|apply always_stop].
  - intros name. cbv zeta. set (src := match pfsr_source pfsr with Some s => s | None => _ end).
    destruct (ep_port src).
    + destruct want; [apply always_stop|]. apply away_new_handler.
      apply always_bind; [apply away_add_handler|]. intros; apply always_ret.
    + apply away_new_handler. apply always_bind.
      * destruct (_ && _); [|apply always_ret].
        apply always_bind; [apply away_fatal_fail; intros ???; apply (respects_chmod _ Hfiles)|]. intros _.
        apply away_fatal_fail. intros ???. apply (respects_chown _ Hfiles).
      * intros _. apply always_bind; [apply away_add_handler|]. intros; apply always_ret.
Qed.

(** [handlePacket], for a [writePacket] that respects [R]. *)
Lemma away_handle_packet fuel k0 (send : Packet → M (PortForwardHandler * V) unit) p :
  (∀ (r : PortForwardDestinationResponse) s, serialize r = Some s →
     keeps (calm forward_away k0) (send (Packet_new PORT_FORWARD_DESTINATION_RESPONSE s))) →
  keeps (calm forward_away k0) (handlePacket sock strerror fuel send p).
Proof.
  intros Hsend.
  assert (∀ r : PortForwardDestinationResponse, keeps (calm forward_away k0)
    (protoToString r ≫= λ s, send (Packet_new PORT_FORWARD_DESTINATION_RESPONSE s))) as Hreply.
  { intros r. unfold protoToString. destruct (serialize r) as [s|] eqn:Hs; [exact (Hsend r s Hs)|].
    intros q Hq. by apply finishes_bind, finishes_stop. }
  unfold handlePacket, stringToProto, closeSourceFd.
  repeat first
    [ apply away_handle_data | apply away_create_destination | apply Hreply
    | apply keeps_ret | apply keeps_stop
    | apply calm_modify; intros p1; apply away_add_source
    | apply away_on_source, away_close_unassigned
    | apply calm_get; intros | apply keeps_bind; [|intros] | case_match ].
Qed.
End Tunnels.
