(* ===== verification/Router.v ===== *)
(** * [UserTerminalRouter]: the registry of terminals

    [UserTerminalRouter.cpp]: user terminals connect to a pipe and register an id, a
    passkey and their descriptor; the server looks the terminal of a client up by the
    id of its connection and checks the passkey once more. *)

From S2P Require Import Prelude Sockets Crypto Packets Wire Backed Connection ServerConnection Forwarding.
Import Conn ServerClient.

Record TerminalUserInfo := mkTui {
  tui_id : option str;
  tui_passkey : option str;
  tui_uid : option Z;
  tui_gid : option Z;
  tui_fd : option Z;
}.

#[export] Instance TerminalUserInfo_eq_dec : EqDecision TerminalUserInfo.
Proof. solve_decision. Defined.
#[export] Instance TerminalUserInfo_countable : Countable TerminalUserInfo.
Proof.
  refine (inj_countable' (λ t, (tui_id t, tui_passkey t, tui_uid t, tui_gid t, tui_fd t))
    (λ '(a, b, c, d, e), mkTui a b c d e) _). by intros [].
Defined.

(** [IdKeyPair] *)
Record IdKeyPair := mkIdKeyPair { ikp_id : str; ikp_key : str }.
Definition no_pair : IdKeyPair := mkIdKeyPair [] [].

Module Router.

Record UserTerminalRouter := mkRouter {
  serverFd : Z;
  idInfoMap : gmap str TerminalUserInfo;
}.

Definition set_fd (fd : Z) (t : TerminalUserInfo) : TerminalUserInfo :=
  mkTui (tui_id t) (tui_passkey t) (tui_uid t) (tui_gid t) (Some fd).
Definition id_of (t : TerminalUserInfo) : str := default [] (tui_id t).
Definition passkey_of (t : TerminalUserInfo) : str := default [] (tui_passkey t).

(** [map::insert]: an entry that is there stays. *)
Definition register (t : TerminalUserInfo) (r : UserTerminalRouter) : bool * UserTerminalRouter :=
  match idInfoMap r !! id_of t with
  | Some _ => (false, r)
  | None => (true, mkRouter (serverFd r) (<[id_of t := t]> (idInfoMap r)))
  end.

Section Router.
Context {W : Type} `{SocketHandler W} `{!TempFiles W} `{!Proto TerminalUserInfo}.

(** The listening descriptor is the first one of the endpoint. *)
Definition UserTerminalRouter_new (e : SocketEndpoint) (uid gid : Z) : M W UserTerminalRouter :=
  _ ← sh_listen e;
  fds ← sh_getEndpointFds e;
  match fds with
  | [] => undefined "*begin() of an empty set"
  | fd :: _ =>
    r ← tf_chown (default [] (ep_name e)) uid gid;
    match r with
    | IoErr _ => fatal "Error"
    | IoOk _ =>
      r ← tf_chmod (default [] (ep_name e));
      match r with
      | IoErr _ => fatal "Error"
      | IoOk _ => mret (mkRouter fd ∅)
      end
    end
  end.

(** The [try] block of [acceptNewConnection]. *)
Definition read_user_info (fuel : nat) (terminalFd : Z) : M (UserTerminalRouter * W) IdKeyPair :=
  packet ← on_snd (readPacket fuel terminalFd);
  match packet with
  | None => fatal "Missing user info packet"
  | Some packet =>
    if negb (header packet =? TERMINAL_USER_INFO) then fatal "Got an invalid packet header"
    else
      tui ← stringToProto TerminalUserInfo (payload packet);
      let tui := set_fd terminalFd tui in
      r ← on_fst get;
      let '(inserted, r') := register tui r in
      _ ← on_fst (put r');
      if inserted : bool then mret (mkIdKeyPair (id_of tui) (passkey_of tui))
      else
        _ ← on_snd (sh_close terminalFd);
        mret no_pair
  end.

Definition acceptNewConnection (fuel : nat) : M (UserTerminalRouter * W) IdKeyPair :=
  r ← on_fst get;
  fd ← on_snd (sh_accept (serverFd r));
  match fd with
  | IoErr e => if would_block e then mret no_pair else fatal "Error"
  | IoOk terminalFd =>
    catch_runtime (read_user_info fuel terminalFd) (λ _,
      _ ← on_snd (sh_close terminalFd);
      mret no_pair)
  end.
End Router.

Definition tryGetInfoForConnection (c : Connection) (r : UserTerminalRouter)
    : outcome (option TerminalUserInfo) :=
  match idInfoMap r !! Conn.id c with
  | None => Stop (Fatal "Tried to read from an id that no longer exists")
  | Some t => Ok (if verifyPasskey (passkey_of t) c then Some t else None)
  end.

End Router.
Import Router.

(** ** The registry *)

Section RouterSpec.
Context {W : Type} `{SocketHandler W} `{!Proto TerminalUserInfo}.

(** What one registration does to the table: nothing, or one new entry, for the
    terminal [t] whose descriptor is [fd]. *)
Definition registers (fd : Z) (r r' : UserTerminalRouter) (pair : IdKeyPair) : Prop :=
  (r' = r ∧ pair = no_pair) ∨
  ∃ t, tui_fd t = Some fd ∧ pair = mkIdKeyPair (id_of t) (passkey_of t) ∧
    idInfoMap r !! id_of t = None ∧
    r' = mkRouter (serverFd r) (<[id_of t := t]> (idInfoMap r)).

Lemma registers_keeps fd r r' pair i t :
  registers fd r r' pair → idInfoMap r !! i = Some t → idInfoMap r' !! i = Some t.
Proof.
  intros [[-> _]|(t' & _ & _ & Hn & ->)] Hi; [done|]. cbn.
  rewrite lookup_insert_ne; [done|congruence].
Qed.

Lemma read_user_info_run fuel fd r k o r' k' :
  read_user_info fuel fd (r, k) = (o, (r', k')) →
  match o with Ok ikp => registers fd r r' ikp | Stop _ => r' = r end.
Proof.
  unfold read_user_info. rewrite run_snd.
  destruct (readPacket fuel fd k) as [[[p|]|f] k1]; [| |]; try by intros [= <- <- <-].
  case_match; [by intros [= <- <- <-]|].
  unfold stringToProto. destruct (parse (payload p)) as [t|]; [|by intros [= <- <- <-]].
  rewrite run_ret, run_fst_get. unfold register.
  destruct (idInfoMap r !! id_of (set_fd fd t)) eqn:Ht; rewrite run_fst_put.
  - rewrite run_snd. destruct (sh_close fd k1) as [[[]|f] k2]; intros [= <- <- <-]; [by left|done].
  - intros [= <- <- <-]. right. by exists (set_fd fd t).
Qed.

(** A terminal that connects is registered under an id that was free, with the
    descriptor it connected on and the passkey it sent, which are also the pair that
    is returned; in every other case the table is unchanged.  However the call ends,
    no terminal that was registered before is replaced. *)
Theorem acceptNewConnection_registers fuel r k o r' k' :
  acceptNewConnection fuel (r, k) = (o, (r', k')) →
  (∀ i t, idInfoMap r !! i = Some t → idInfoMap r' !! i = Some t) ∧
  match o with
  | Ok ikp => ∃ fd, registers fd r r' ikp ∧
      (r' = r ∨ ∃ k1, sh_accept (serverFd r) k = (Ok (IoOk fd), k1))
  | Stop _ => r' = r
  end.
Proof.
  unfold acceptNewConnection. rewrite run_fst_get, run_snd.
  assert (registers 0 r r no_pair) as Hsame by by left.
  destruct (sh_accept (serverFd r) k) as [[[fd|e]|f] k1] eqn:Ea; [| |by intros [= <- <- <-]].
  - unfold catch_runtime. destruct (read_user_info fuel fd (r, k1)) as [o1 [r1 k2]] eqn:E.
    pose proof (read_user_info_run _ _ _ _ _ _ _ E) as Hreg. destruct o1 as [ikp|f].
    { intros [= <- <- <-]. split; [intros i t; by eapply registers_keeps|]. exists fd. eauto. }
    subst r1. destruct f as [[[] w]| | |]; try by intros [= <- <- <-].
    rewrite run_snd. destruct (sh_close fd k2) as [[[]|f] k3]; intros [= <- <- <-]; (split; [done|]); [|done].
    exists 0. split; [done|by left].
  - destruct (would_block e); intros [= <- <- <-]; (split; [done|]); [|done].
    exists 0. split; [done|by left].
Qed.
End RouterSpec.

(** A client is given the terminal that is registered under the id of its
    connection exactly when that terminal's passkey is the connection's key. *)
Theorem tryGetInfoForConnection_exact c r t :
  tryGetInfoForConnection c r = Ok (Some t) ↔
  idInfoMap r !! Conn.id c = Some t ∧ passkey_of t = Conn.key c.
Proof.
  unfold tryGetInfoForConnection. destruct (idInfoMap r !! Conn.id c) as [t'|]; [|naive_solver].
  rewrite verifyPasskey_spec. case_bool_decide; naive_solver.
Qed.

(** ** Witness *)

Section Witness.
#[local] Instance r_tui_proto : Proto TerminalUserInfo := countable_proto (mkTui None None None None None).

Definition r_tui : TerminalUserInfo := mkTui (Some (lit "id")) (Some (lit "key")) None None None.
Definition r_packet : Packet := Packet_new TERMINAL_USER_INFO (default [] (serialize r_tui)).
Definition r_wire : Wire :=
  with_accepts (with_in wire0 6 (wire_out (writePacket 90 6 r_packet wire0).2 6)) [6].
Definition r_run := acceptNewConnection (W := Wire) 900 (mkRouter 3 ∅, r_wire).

Lemma acceptNewConnection_registers_witness :
  r_run.1 = Ok (mkIdKeyPair (lit "id") (lit "key")) ∧
  idInfoMap r_run.2.1 = {[ lit "id" := set_fd 6 r_tui ]}.
Proof.
  assert (r_run.1 = Ok (mkIdKeyPair (lit "id") (lit "key"))) as Ho by (vm_compute; reflexivity).
  split; [exact Ho|].
  destruct (acceptNewConnection_registers 900 (mkRouter 3 ∅) r_wire r_run.1 r_run.2.1 r_run.2.2)
    as [_ Hreg]; [unfold r_run; by rewrite <-!surjective_pairing|].
  rewrite Ho in Hreg. vm_compute. reflexivity.
Defined.
End Witness.
