(* ===== verification/CxxText.v ===== *)
(** * Text operations of the C++ and C libraries

    What the sources use of [std::string], [std::getline], [std::stoi] and of the C
    functions [strtol], [atoi], [tolower], [isspace], ..., and the helpers [split],
    [replace] and [replaceAll] of [Headers.hpp].  The C locale is assumed. *)

From S2P Require Import Prelude.

Definition NUL : ascii := "000"%char.
Definition TAB : ascii := "009"%char.
Definition LF : ascii := "010"%char.

(** ** Characters *)

Definition isdigit (c : ascii) : bool := (48 <=? bval c) && (bval c <=? 57).
Definition isblank (c : ascii) : bool := bool_decide (c = " "%char) || bool_decide (c = TAB).
Definition isspace (c : ascii) : bool := bool_decide (c = " "%char) || ((9 <=? bval c) && (bval c <=? 13)).
Definition isupper (c : ascii) : bool := (65 <=? bval c) && (bval c <=? 90).
Definition tolower (c : ascii) : ascii := if isupper c then byte (bval c + 32) else c.

(** ** [std::string] *)

(** [find]: the first position of a substring or of a character. *)
Fixpoint find (pat s : str) : option nat :=
  if decide (pat `prefix_of` s) then Some O
  else match s with [] => None | _ :: s' => S <$> find pat s' end.

Fixpoint find_char (c : ascii) (s : str) : option nat :=
  match s with
  | [] => None
  | x :: s' => if decide (x = c) then Some O else S <$> find_char c s'
  end.

Definition contains (c : ascii) (s : str) : bool := bool_decide (c ∈ s).

(** [find_first_not_of(set) == npos] *)
Definition consists_of (set s : str) : bool := bool_decide (Forall (λ c, c ∈ set) s).

(** [c_str()], as the C functions see it. *)
Fixpoint c_str (s : str) : str :=
  match s with
  | [] => []
  | c :: s' => if decide (c = NUL) then [] else c :: c_str s'
  end.

(** ** [Headers.hpp] *)

(** [split]: [std::getline] on a string stream until it fails.  [item] holds what the
    current call has extracted; a call that extracts nothing at all fails. *)
Fixpoint split_from (delim : ascii) (item s : str) : list str :=
  match s with
  | [] => match item with [] => [] | _ => [item] end
  | c :: s' =>
    if decide (c = delim) then item :: split_from delim [] s'
    else split_from delim (item ++ [c]) s'
  end.

Definition split (s : str) (delim : ascii) : list str := split_from delim [] s.

(** [replace]: the string after the call, and the result. *)
Definition replace (s from to : str) : bool * str :=
  match find from s with
  | None => (false, s)
  | Some p => (true, take p s ++ to ++ drop (p + length from) s)
  end.

(** The loop of [replaceAll]: [todo] is the string from [start_pos] on. *)
Fixpoint replaceAll_loop (fuel : nat) (before todo from to : str) (count : Z) : Z * str :=
  match fuel with
  | O => (count, before ++ todo)
  | S fuel' =>
    match find from todo with
    | None => (count, before ++ todo)
    | Some p =>
      replaceAll_loop fuel' (before ++ take p todo ++ to) (drop (p + length from) todo) from to (count + 1)
    end
  end.

(** Each round consumes a nonempty [from]: the length of the string is fuel enough. *)
Definition replaceAll (s from to : str) : Z * str :=
  match from with
  | [] => (0, s)
  | _ => replaceAll_loop (length s) [] s from to 0
  end.

(** ** Numbers *)

Fixpoint skip_spaces (s : str) : str :=
  match s with
  | c :: s' => if isspace c then skip_spaces s' else s
  | [] => []
  end.

(** The digits at the start of [s]: their value after [acc], and what follows. *)
Fixpoint scan_digits (acc : Z) (s : str) : Z * str :=
  match s with
  | c :: s' => if isdigit c then scan_digits (10 * acc + (bval c - 48)) s' else (acc, s)
  | [] => (acc, [])
  end.

(** An integer after white space and a sign; [None] when there is no digit. *)
Definition scan_int (s : str) : option Z :=
  let unsigned s :=
    match s with c :: _ => if isdigit c then Some (scan_digits 0 s).1 else None | [] => None end in
  match skip_spaces s with
  | "-"%char :: s' => Z.opp <$> unsigned s'
  | "+"%char :: s' => unsigned s'
  | s' => unsigned s'
  end.

Definition clamp_long (z : Z) : Z := Z.max (- 2 ^ 63) (Z.min (2 ^ 63 - 1) z).

(** [strtol(s, &end, 10)]; [None] when [end == s] (the value is 0). *)
Definition strtol (s : str) : option Z := clamp_long <$> scan_int s.
Definition atoi (s : str) : Z := to_i32 (default 0 (strtol s)).

(** [std::stoi]: both of its exceptions are [std::logic_error]s. *)
Definition stoi (s : str) : outcome Z :=
  match scan_int s with
  | None => Stop (Throw (Exn LogicError "stoi"))
  | Some z =>
    if (z <? - 2 ^ 31) || (2 ^ 31 <=? z) then Stop (Throw (Exn LogicError "stoi")) else Ok z
  end.

(** Decimal notation ([%u], [to_string]) of a number that is not negative. *)
Fixpoint dec_loop (fuel : nat) (z : Z) (acc : str) : str :=
  match fuel with
  | O => acc
  | S fuel' =>
    let acc := byte (48 + z mod 10) :: acc in
    if z <? 10 then acc else dec_loop fuel' (z / 10) acc
  end.
Definition dec (z : Z) : str := dec_loop (S (Z.to_nat (Z.log2 z))) z [].

(** ** Lemmas *)

Fixpoint join (delim : ascii) (l : list str) : str :=
  match l with
  | [] => []
  | [s] => s
  | s :: l' => s ++ delim :: join delim l'
  end.

Lemma contains_spec c s : contains c s = true ↔ c ∈ s.
Proof. apply bool_decide_eq_true. Qed.

Lemma find_char_None c s : find_char c s = None ↔ c ∉ s.
Proof.
  induction s as [|x s IH]; cbn; [set_solver|]. case_decide as Hx.
  - subst. split; [done|]. intros Hn. destruct Hn. by left.
  - rewrite fmap_None, IH, not_elem_of_cons. naive_solver.
Qed.

Lemma find_char_Some c s i :
  find_char c s = Some i ↔ s !! i = Some c ∧ c ∉ take i s.
Proof.
  revert i. induction s as [|x s IH]; intros i; cbn; [naive_solver|]. case_decide as Hx.
  - subst. destruct i as [|i]; cbn.
    + split; [|done]. intros _. split; [done|apply not_elem_of_nil].
    + split; [done|]. intros [_ Hn]. destruct Hn. by left.
  - rewrite fmap_Some. destruct i as [|i]; cbn.
    + split; [by intros (j & _ & ?)|]. by intros [[= ->] _].
    + setoid_rewrite IH. split; [|naive_solver set_solver].
      intros (j & [Hj Hn] & [= ->]). split; [done|]. set_solver.
Qed.

Lemma find_char_app c a s : c ∉ a → find_char c (a ++ c :: s) = Some (length a).
Proof.
  intros Ha. apply find_char_Some. rewrite lookup_app_r, Nat.sub_diag, take_app_length by done. done.
Qed.

(** *** [split] *)

Lemma split_from_item delim item s c :
  c ≠ delim → split_from delim item (c :: s) = split_from delim (item ++ [c]) s.
Proof. intros Hc. cbn. by rewrite decide_False. Qed.

Lemma split_from_delim delim item s :
  split_from delim item (delim :: s) = item :: split_from delim [] s.
Proof. cbn. by rewrite decide_True. Qed.

(** A stretch without the delimiter joins the current item. *)
Lemma split_from_stretch delim item a s :
  delim ∉ a → split_from delim item (a ++ s) = split_from delim (item ++ a) s.
Proof.
  revert item. induction a as [|c a IH]; intros item Ha; [by rewrite app_nil_r|].
  apply not_elem_of_cons in Ha as [Hc Ha]. cbn [app].
  rewrite split_from_item, IH, <-app_assoc by done. done.
Qed.

Lemma split_nil delim : split [] delim = [].
Proof. done. Qed.

Lemma split_cons delim a s :
  delim ∉ a → split (a ++ delim :: s) delim = a :: split s delim.
Proof. intros Ha. unfold split. rewrite split_from_stretch by done. apply split_from_delim. Qed.

Lemma split_one delim a : delim ∉ a → a ≠ [] → split a delim = [a].
Proof.
  intros Ha Hne. unfold split. rewrite <-(app_nil_r a) at 1.
  rewrite split_from_stretch by done. cbn. by destruct a.
Qed.

(** [split] undoes [join], unless the last item is empty. *)
Lemma split_join delim l :
  Forall (λ a, delim ∉ a) l → list.last l ≠ Some [] → split (join delim l) delim = l.
Proof.
  induction l as [|a [|b l] IH]; intros Hall Hlast; [done| |].
  - apply Forall_cons_1 in Hall as [Ha _]. apply split_one; [done|by intros ->].
  - apply Forall_cons_1 in Hall as [Ha Hall]. cbn [join].
    rewrite split_cons by done. f_equal. by apply IH.
Qed.

Lemma split_from_no_delim delim item s :
  delim ∉ item → Forall (λ a, delim ∉ a) (split_from delim item s).
Proof.
  revert item. induction s as [|c s IH]; intros item Hi; cbn.
  - destruct item; by repeat constructor.
  - case_decide; [constructor; [done|apply IH, not_elem_of_nil]|].
    apply IH. rewrite elem_of_app, list_elem_of_singleton. naive_solver.
Qed.

Lemma split_no_delim delim s : Forall (λ a, delim ∉ a) (split s delim).
Proof. apply split_from_no_delim, not_elem_of_nil. Qed.

Lemma split_from_concat delim item s :
  concat (split_from delim item s) = item ++ filter (λ c, c ≠ delim) s.
Proof.
  revert item. induction s as [|c s IH]; intros item; cbn [split_from].
  - destruct item; cbn; by rewrite ?app_nil_r.
  - destruct (decide (c = delim)) as [->|Hc]; cbn [concat]; rewrite IH.
    + rewrite filter_cons_False by naive_solver. done.
    + rewrite filter_cons_True, <-app_assoc by done. done.
Qed.

(** Nothing but delimiters is dropped. *)
Lemma split_concat delim s : concat (split s delim) = filter (λ c, c ≠ delim) s.
Proof. apply split_from_concat. Qed.

Lemma split_from_ne delim item s : item ++ s ≠ [] → split_from delim item s ≠ [].
Proof.
  revert item. induction s as [|c s IH]; intros item Hne; cbn.
  - rewrite app_nil_r in Hne. by destruct item.
  - case_decide; [done|]. apply IH. by destruct item.
Qed.

Lemma split_ne delim s : s ≠ [] → split s delim ≠ [].
Proof. intros Hs. by apply split_from_ne. Qed.

(** The text that a list of items stands for, up to one final delimiter. *)
Lemma split_from_join delim item s :
  item ++ s ≠ [] →
  join delim (split_from delim item s) = item ++ s ∨
  join delim (split_from delim item s) ++ [delim] = item ++ s.
Proof.
  revert item. induction s as [|c s IH]; intros item Hne; cbn.
  - rewrite app_nil_r in *. destruct item; [done|]. by left.
  - destruct (decide (c = delim)) as [->|Hc].
    + destruct s as [|c' s]; [by right|].
      pose proof (split_from_ne delim [] (c' :: s) ltac:(done)) as Hs.
      destruct (IH [] ltac:(done)) as [E|E]; revert E Hs;
        (destruct (split_from delim [] (c' :: s)) as [|b l]; [done|]); intros E _;
        [left|right]; cbn [join app] in *.
      * by rewrite E.
      * rewrite <-E, <-app_assoc. done.
    + destruct (IH (item ++ [c])) as [E|E]; [by destruct item|left|right];
        rewrite E, <-app_assoc; done.
Qed.

Lemma split_join_text delim s :
  s ≠ [] → join delim (split s delim) = s ∨ join delim (split s delim) ++ [delim] = s.
Proof. intros Hs. by apply (split_from_join delim []). Qed.

(** *** Decimal numbers *)

Definition is_digits (s : str) : Prop := Forall (λ c, isdigit c = true) s.

Lemma digit_byte d : 0 <= d < 10 → isdigit (byte (48 + d)) = true ∧ bval (byte (48 + d)) - 48 = d.
Proof.
  intros Hd. unfold isdigit. rewrite bval_byte, Z.mod_small by lia.
  rewrite andb_true_iff, !Z.leb_le. lia.
Qed.

Lemma scan_digits_app acc a s :
  is_digits a → scan_digits acc (a ++ s) = scan_digits (scan_digits acc a).1 s.
Proof.
  intros Ha. revert acc. induction Ha as [|c a Hc Ha IH]; intros acc; [done|].
  cbn [app scan_digits]. by rewrite Hc, IH.
Qed.

Lemma scan_digits_val acc a :
  is_digits a → scan_digits acc a = ((scan_digits acc a).1, []).
Proof.
  intros Ha. revert acc. induction Ha as [|c a Hc Ha IH]; intros acc; [done|].
  cbn [scan_digits]. rewrite Hc. apply IH.
Qed.

Lemma dec_loop_digits fuel z acc : is_digits acc → is_digits (dec_loop fuel z acc).
Proof.
  revert z acc. induction fuel as [|fuel IH]; intros z acc Hacc; cbn [dec_loop]; [done|].
  assert (is_digits (byte (48 + z mod 10) :: acc)).
  { constructor; [|done]. apply digit_byte. by apply Z.mod_pos_bound. }
  case_match; [done|]. by apply IH.
Qed.

Lemma dec_digits z : is_digits (dec z).
Proof. apply dec_loop_digits. constructor. Qed.

Lemma dec_loop_val fuel z acc :
  0 <= z < 10 ^ Z.of_nat fuel → (0 < fuel)%nat → is_digits acc →
  (scan_digits 0 (dec_loop fuel z acc)).1 = (scan_digits z acc).1.
Proof.
  revert z acc. induction fuel as [|fuel IH]; intros z acc Hz Hf Hacc; [lia|].
  cbn [dec_loop].
  destruct (digit_byte (z mod 10)) as [Hd Hv]; [by apply Z.mod_pos_bound|].
  pose proof (Z.div_mod z 10 ltac:(lia)). pose proof (Z.mod_pos_bound z 10 ltac:(lia)).
  destruct (z <? 10) eqn:Hlt; b2p.
  - cbn [scan_digits]. rewrite Hd, Hv, Z.mod_small by lia. done.
  - rewrite Nat2Z.inj_succ, Z.pow_succ_r in Hz by lia.
    rewrite IH; [|split; [apply Z.div_pos; lia|apply Z.div_lt_upper_bound; lia]|
      destruct fuel; [lia|lia]|by constructor].
    cbn [scan_digits]. rewrite Hd, Hv. do 2 f_equal. lia.
Qed.

Lemma dec_loop_ne fuel z acc : acc ≠ [] ∨ (0 < fuel)%nat → dec_loop fuel z acc ≠ [].
Proof.
  revert z acc. induction fuel as [|fuel IH]; intros z acc Hne; cbn [dec_loop]; [naive_solver lia|].
  case_match; [done|]. apply IH. by left.
Qed.

Lemma dec_ne z : dec z ≠ [].
Proof. apply dec_loop_ne. right. lia. Qed.

Lemma dec_val z : 0 <= z → (scan_digits 0 (dec z)).1 = z.
Proof.
  intros Hz. unfold dec. rewrite dec_loop_val; [done| |lia|constructor]. split; [done|].
  destruct (Z.eq_dec z 0) as [->|Hne]; [done|].
  pose proof (Z.log2_spec z ltac:(lia)) as [_ Hlt]. pose proof (Z.log2_nonneg z).
  rewrite Nat2Z.inj_succ, Z2Nat.id by done.
  pose proof (Z.pow_le_mono_l 2 10 (Z.succ (Z.log2 z)) ltac:(lia)). lia.
Qed.

Lemma digit_not_space c : isdigit c = true → isspace c = false.
Proof.
  unfold isspace. intros Hc. apply orb_false_iff. split.
  - apply bool_decide_eq_false. intros ->. discriminate Hc.
  - unfold isdigit in Hc. b2p. apply andb_false_iff. right. apply Z.leb_gt. lia.
Qed.

(** A text of digits is read as its value. *)
Lemma scan_int_digits s : is_digits s → s ≠ [] → scan_int s = Some (scan_digits 0 s).1.
Proof.
  intros [|c s' Hc Hs]; [done|]. intros _. unfold scan_int. cbn [skip_spaces].
  rewrite (digit_not_space _ Hc).
  assert (c ≠ "-"%char ∧ c ≠ "+"%char) as [Hm Hp].
  { split; intros ->; discriminate Hc. }
  destruct c as [[] [] [] [] [] [] [] []]; try done; by rewrite Hc.
Qed.

Lemma stoi_dec z : 0 <= z < 2 ^ 31 → stoi (dec z) = Ok z.
Proof.
  intros Hz. unfold stoi. rewrite scan_int_digits, dec_val by auto using dec_digits, dec_ne with lia.
  case_match eqn:E; [|done]. exfalso. apply orb_true_iff in E as [E|E]; b2p; lia.
Qed.

Lemma strtol_dec z : 0 <= z < 2 ^ 63 → strtol (dec z) = Some z.
Proof.
  intros Hz. unfold strtol. rewrite scan_int_digits, dec_val by auto using dec_digits, dec_ne with lia.
  cbn. f_equal. unfold clamp_long. lia.
Qed.

Lemma atoi_dec z : 0 <= z < 2 ^ 31 → atoi (dec z) = z.
Proof. intros Hz. unfold atoi. rewrite strtol_dec by lia. cbn. by apply to_i32_small; lia. Qed.

Lemma digits_not_in c s : isdigit c = false → is_digits s → c ∉ s.
Proof. intros Hc Hs Hin. unfold is_digits in Hs. rewrite list.Forall_forall in Hs. by rewrite (Hs _ Hin) in Hc. Qed.

Lemma dec_not_in c z : isdigit c = false → c ∉ dec z.
Proof. intros Hc. apply digits_not_in; [done|apply dec_digits]. Qed.
