(* ===== verification/HostParsing.v ===== *)
(** * [HostParsing.hpp]: [[user@]host[:port]] *)

From S2P Require Import Prelude CxxText.

Record ParsedHostString := mkParsed { user : str; host : str; portSuffix : str }.

(** [substr] to the end, from a position within the string. *)
Definition strip_user (hostString : str) : str * str :=
  match find_char "@"%char hostString with
  | Some atIndex => (take atIndex hostString, drop (S atIndex) hostString)
  | None => ([], hostString)
  end.

Definition parseHostString (hostString : str) : ParsedHostString :=
  let '(u, remaining) := strip_user hostString in
  match remaining with
  | "["%char :: _ =>
    match find_char "]"%char remaining with
    | Some closeBracket =>
      let h := take (S closeBracket) remaining in
      match remaining !! S closeBracket with
      | Some ":"%char => mkParsed u h (drop (S closeBracket) remaining)
      | _ => mkParsed u h []
      end
    | None => mkParsed u remaining []
    end
  | _ =>
    match find_char ":"%char remaining with
    | Some colonIndex => mkParsed u (take colonIndex remaining) (drop colonIndex remaining)
    | None => mkParsed u remaining []
    end
  end.

(** ** The grammar *)

(** A host is in brackets, or has neither a colon nor an opening bracket in front. *)
Definition bracketed (h : str) : Prop := ∃ inner, h = ("["%char :: inner ++ ["]"%char]) ∧ "]"%char ∉ inner.
Definition plain (h : str) : Prop :=
  (":"%char ∉ h) ∧ (∀ rest, h ≠ ("["%char :: rest)).
Definition port_suffix (p : str) : Prop := p = [] ∨ ∃ digits, p = (":"%char :: digits).

(** The text of [[user@]host[:port]]. *)
Definition render (p : ParsedHostString) : str :=
  (match user p with [] => [] | _ :: _ => user p ++ ["@"%char] end) ++ host p ++ portSuffix p.

(** C34. [parseHostString] reads what [[user@]host[:port]] means: it gives back the user,
    the host (a bracketed IPv6 address with its brackets) and the port suffix of any
    well-formed host string, in every combination of the optional parts. *)
Theorem parseHostString_render p :
  "@"%char ∉ user p → "@"%char ∉ host p ++ portSuffix p →
  bracketed (host p) ∨ plain (host p) → port_suffix (portSuffix p) →
  parseHostString (render p) = p.
Proof.
  intros Hu Hat Hhost Hport. destruct p as [u h q]. cbn [user host portSuffix] in *.
  assert (strip_user (render (mkParsed u h q)) = (u, h ++ q)) as Hstrip.
  { unfold strip_user, render. cbn [user host portSuffix]. destruct u as [|c u].
    - by rewrite (proj2 (find_char_None _ _)).
    - remember (c :: u) as u' eqn:E. clear E. rewrite <-app_assoc. change (["@"%char] ++ h ++ q) with ("@"%char :: h ++ q).
      rewrite find_char_app, take_app_length by done. f_equal.
      change ("@"%char :: h ++ q) with (["@"%char] ++ h ++ q). rewrite app_assoc.
      rewrite <-Nat.add_1_r. change 1%nat with (length ["@"%char]). rewrite <-length_app. apply drop_app_length. }
  unfold parseHostString. rewrite Hstrip. destruct Hhost as [(inner & -> & Hin)|[Hc Hb]].
  - cbn [app]. rewrite <-app_assoc. cbn [app].
    change ("["%char :: inner ++ "]"%char :: q) with (("["%char :: inner) ++ "]"%char :: q).
    rewrite find_char_app by set_solver.
    assert (("["%char :: inner) ++ "]"%char :: q = (("["%char :: inner) ++ ["]"%char]) ++ q) as ->
      by by rewrite <-app_assoc.
    assert (S (length ("["%char :: inner)) = length (("["%char :: inner) ++ ["]"%char])) as ->
      by (rewrite length_app; cbn; lia).
    rewrite take_app_length, drop_app_length, lookup_app_r, Nat.sub_diag by done.
    destruct Hport as [->|(d & ->)]; done.
  - assert (find_char ":"%char (h ++ q) = match q with [] => None | _ => Some (length h) end) as Hf.
    { destruct Hport as [->|(d & ->)]; [by rewrite app_nil_r, (proj2 (find_char_None _ _))|by apply find_char_app]. }
    rewrite Hf. destruct q as [|x q].
    + rewrite app_nil_r. destruct h as [|y h]; [done|].
      destruct y as [[] [] [] [] [] [] [] []]; try done. by destruct (Hb h).
    + rewrite take_app_length, drop_app_length. destruct h as [|y h]; cbn [app].
      * destruct Hport as [?|(d & [= -> ->])]; done.
      * destruct y as [[] [] [] [] [] [] [] []]; try done. by destruct (Hb h).
Qed.

Lemma parseHostString_render_witness :
  parseHostString (lit "me@[::1]:22") = mkParsed (lit "me") (lit "[::1]") (lit ":22").
Proof.
  refine (parseHostString_render (mkParsed (lit "me") (lit "[::1]") (lit ":22")) _ _ _ _).
  - apply find_char_None. reflexivity.
  - apply find_char_None. reflexivity.
  - left. exists (lit "::1"). split; [reflexivity|]. apply find_char_None. reflexivity.
  - right. exists (lit "22"). reflexivity.
Defined.
