(* ===== verification/TunnelUtils.v ===== *)
(** * [TunnelUtils.cpp]: tunnel arguments

    The text of a [-t] or [-r] option becomes port-forward requests. *)

From S2P Require Import Prelude Sockets CxxText Crypto Packets Wire Forwarding.

Definition isSocketPath (s : str) : bool :=
  match s with "/"%char :: _ => true | _ => false end.

Definition numeric (s : str) : bool := consists_of (lit "0123456789-") s.

Definition tunnel_error {A} (w : string) : outcome A := Stop (Throw (Exn TunnelParseException w)).

(** [v[i]] of a [vector<string>]. *)
Definition at_index (l : list str) (i : nat) : outcome str :=
  match l !! i with Some s => Ok s | None => Stop (UB "vector index out of range") end.

Definition named (name : str) : SocketEndpoint := mkEndpoint (Some name) None.
Definition localhost (port : Z) : SocketEndpoint := mkEndpoint (Some (lit "localhost")) (Some port).
Definition port_only (port : Z) : SocketEndpoint := mkEndpoint None (Some port).
Definition forward_request (source destination : SocketEndpoint) : PortForwardSourceRequest :=
  mkPfsr (Some source) (Some destination) None.

Definition socket_request (src dst : str) : outcome (list PortForwardSourceRequest) :=
  source ← (if isSocketPath src then mret (named src) else port ← stoi src; mret (localhost port));
  destination ← (if isSocketPath dst then mret (named dst) else port ← stoi dst; mret (port_only port));
  mret [forward_request source destination].

(** The two numbers of a range. *)
Definition port_range (s : str) : outcome (Z * Z) :=
  let l := split s "-"%char in
  first ← at_index l 0;
  start ← stoi first;
  second ← at_index l 1;
  stop ← stoi second;
  mret (start, stop).

Definition int_sub (a b : Z) : outcome Z :=
  if (a - b <? - 2 ^ 31) || (2 ^ 31 <=? a - b) then Stop (UB "signed overflow") else Ok (a - b).
Definition int_add (a b : Z) : outcome Z :=
  if (a + b <? - 2 ^ 31) || (2 ^ 31 <=? a + b) then Stop (UB "signed overflow") else Ok (a + b).

Definition range_requests (src dst : str) : outcome (list PortForwardSourceRequest) :=
  '(sourcePortStart, sourcePortEnd) ← port_range src;
  '(destinationPortStart, destinationPortEnd) ← port_range dst;
  sourceLength ← int_sub sourcePortEnd sourcePortStart;
  destinationLength ← int_sub destinationPortEnd destinationPortStart;
  if negb (sourceLength =? destinationLength)
  then tunnel_error "source/destination port range must have same length"
  else
    portRangeLength ← int_add sourceLength 1;
    mret ((λ i, forward_request (localhost (sourcePortStart + i)) (port_only (destinationPortStart + i)))
          <$> seqZ 0 portRangeLength).

(** The [try] block of [processEtStyleTunnelArg], for the first two parts. *)
Definition process_pair (src dst : str) : outcome (list PortForwardSourceRequest) :=
  let srcIsSocket := isSocketPath src in
  let srcIsNumeric := numeric src in
  let dstIsSocket := isSocketPath dst in
  if srcIsSocket || (dstIsSocket && srcIsNumeric) then socket_request src dst
  else if negb (numeric src) && negb (numeric dst) then
    mret [mkPfsr None (Some (named dst)) (Some src)]
  else if contains "-"%char src && contains "-"%char dst then range_requests src dst
  else if contains "-"%char src || contains "-"%char dst then
    tunnel_error "Invalid port range syntax: if source is a range, destination must be a range (and vice versa)"
  else
    source ← stoi src;
    destination ← stoi dst;
    mret [forward_request (localhost source) (port_only destination)].

(** The requests that are added to [pfsrs]; a [std::logic_error] becomes a
    [TunnelParseException]. *)
Definition processEtStyleTunnelArg (sourceDestination : list str) (input : str)
    : outcome (list PortForwardSourceRequest) :=
  match sourceDestination with
  | src :: dst :: _ =>
    match process_pair src dst with
    | Stop (Throw (Exn LogicError w)) =>
      tunnel_error (String.string_of_list_ascii
        (lit "Invalid tunnel argument '" ++ input ++ lit "': " ++ lit w))
    | r => r
    end
  | _ => tunnel_error "Tunnel argument must have source and destination between a ':'"
  end.

(** The loop of [parseSshTunnelArg]. *)
Fixpoint ssh_parts_loop (input : str) (inBrackets : bool) (currentPart : str) : list str :=
  match input with
  | [] => [currentPart]
  | c :: input' =>
    if decide (c = "["%char) then ssh_parts_loop input' true currentPart
    else if decide (c = "]"%char) then ssh_parts_loop input' false currentPart
    else if bool_decide (c = ":"%char) && negb inBrackets then currentPart :: ssh_parts_loop input' inBrackets []
    else ssh_parts_loop input' inBrackets (currentPart ++ [c])
  end.

Definition parseSshTunnelArg (input : str) : outcome (list str) :=
  let sshArgParts := ssh_parts_loop input false [] in
  if (length sshArgParts <? 4)%nat then
    tunnel_error "The 4 part ssh-style tunneling arg (bind_address:port:host:hostport) must be supplied."
  else if (4 <? length sshArgParts)%nat then
    tunnel_error "Ipv6 addresses must be inside of square brackets, ie [::1]:8080:[::]:9090"
  else Ok sshArgParts.

Definition ssh_request (parts : list str) : outcome (list PortForwardSourceRequest) :=
  bind_address ← at_index parts 0;
  port ← at_index parts 1;
  port ← stoi port;
  host ← at_index parts 2;
  hostport ← at_index parts 3;
  hostport ← stoi hostport;
  mret [forward_request (mkEndpoint (Some bind_address) (Some port)) (mkEndpoint (Some host) (Some hostport))].

Fixpoint process_elements (elements : list str) (input : str) : outcome (list PortForwardSourceRequest) :=
  match elements with
  | [] => mret []
  | element :: elements' =>
    pfsrs ← processEtStyleTunnelArg (split element ":"%char) input;
    rest ← process_elements elements' input;
    mret (pfsrs ++ rest)
  end.

Definition parseRangesToRequests (input : str) : outcome (list PortForwardSourceRequest) :=
  let splitByComma := split input ","%char in
  if (1 <? length splitByComma)%nat then process_elements splitByComma input
  else
    tunnelArg ← at_index splitByComma 0;
    let sourceDestination := split tunnelArg ":"%char in
    if (length sourceDestination <=? 2)%nat then processEtStyleTunnelArg sourceDestination input
    else
      sshStyleArgParts ← parseSshTunnelArg tunnelArg;
      ssh_request sshStyleArgParts.

(** ** Tunnel arguments and their meaning *)

(** One element of an argument: a port, a range of [n + 1] ports, a socket that is named
    by an environment variable, a pair of sockets, or a port and a socket. *)
Inductive tunnel :=
| OnePort (source destination : Z)
| PortRange (source destination n : Z)
| EnvSocket (variable path : str)
| SocketPair (source destination : str)
| PortToSocket (source : Z) (destination : str)
| SocketToPort (source : str) (destination : Z).

Definition text (t : tunnel) : str :=
  match t with
  | OnePort s d => dec s ++ ":"%char :: dec d
  | PortRange s d n => (dec s ++ "-"%char :: dec (s + n)) ++ ":"%char :: (dec d ++ "-"%char :: dec (d + n))
  | EnvSocket v p => v ++ ":"%char :: p
  | SocketPair s d => s ++ ":"%char :: d
  | PortToSocket s d => dec s ++ ":"%char :: d
  | SocketToPort s d => s ++ ":"%char :: dec d
  end.

Definition requests (t : tunnel) : list PortForwardSourceRequest :=
  match t with
  | OnePort s d => [forward_request (localhost s) (port_only d)]
  | PortRange s d n => (λ i, forward_request (localhost (s + i)) (port_only (d + i))) <$> seqZ 0 (n + 1)
  | EnvSocket v p => [mkPfsr None (Some (named p)) (Some v)]
  | SocketPair s d => [forward_request (named s) (named d)]
  | PortToSocket s d => [forward_request (localhost s) (named d)]
  | SocketToPort s d => [forward_request (named s) (port_only d)]
  end.

(** A word of an argument: nonempty, without the delimiters. *)
Definition word (s : str) : Prop := s ≠ [] ∧ (":"%char ∉ s) ∧ (","%char ∉ s).
Definition is_int (z : Z) : Prop := 0 <= z < 2 ^ 31.

Definition well_formed (t : tunnel) : Prop :=
  match t with
  | OnePort s d => is_int s ∧ is_int d
  | PortRange s d n => is_int s ∧ is_int d ∧ 0 <= n < 2 ^ 31 - 1 ∧ is_int (s + n) ∧ is_int (d + n)
  | EnvSocket v p => word v ∧ word p ∧ numeric v = false ∧ numeric p = false ∧ isSocketPath v = false
  | SocketPair s d => word s ∧ word d ∧ isSocketPath s = true ∧ isSocketPath d = true
  | PortToSocket s d => is_int s ∧ word d ∧ isSocketPath d = true
  | SocketToPort s d => word s ∧ isSocketPath s = true ∧ is_int d
  end.

Lemma digit_numeric c : isdigit c = true → c ∈ lit "0123456789-".
Proof.
  intros Hc. unfold isdigit in Hc. b2p.
  rewrite <-(byte_bval c). assert (bval c ∈ seqZ 48 10) as Hin by (apply elem_of_seqZ; lia).
  revert Hin. generalize (bval c). intros z Hz.
  assert (Forall (λ z, byte z ∈ lit "0123456789-") (seqZ 48 10)) as Hall by (vm_compute; repeat constructor).
  rewrite list.Forall_forall in Hall. by apply Hall.
Qed.

Lemma numeric_dec z : numeric (dec z) = true.
Proof.
  apply bool_decide_eq_true. eapply Forall_impl; [intros c; apply digit_numeric|apply dec_digits].
Qed.

Lemma numeric_app a b : numeric a = true → numeric b = true → numeric (a ++ b) = true.
Proof. unfold numeric, consists_of. rewrite !bool_decide_eq_true. apply Forall_app_2. Qed.

Lemma numeric_not_socket s : numeric s = true → isSocketPath s = false.
Proof.
  unfold numeric, consists_of. rewrite bool_decide_eq_true. intros Hs. destruct s as [|c s]; [done|].
  apply Forall_cons_1 in Hs as [Hc _]. cbn. destruct (decide (c = "/"%char)) as [->|Hne].
  - assert (bool_decide ("/"%char ∈ lit "0123456789-") = true) as E by by apply bool_decide_eq_true_2.
    discriminate E.
  - destruct c as [[] [] [] [] [] [] [] []]; done.
Qed.

Lemma contains_true c s : c ∈ s → contains c s = true.
Proof. apply bool_decide_eq_true_2. Qed.
Lemma contains_false c s : c ∉ s → contains c s = false.
Proof. apply bool_decide_eq_false_2. Qed.

Lemma split_two delim a b :
  delim ∉ a → delim ∉ b → b ≠ [] → split (a ++ delim :: b) delim = [a; b].
Proof. intros Ha Hb Hne. by rewrite split_cons, split_one. Qed.

Lemma port_range_dec a b : is_int a → is_int b → port_range (dec a ++ "-"%char :: dec b) = Ok (a, b).
Proof.
  intros Ha Hb. unfold port_range.
  rewrite split_two by (by apply dec_not_in || apply dec_ne).
  unfold at_index. cbn [lookup list_lookup mbind outcome_bind]. rewrite stoi_dec by done.
  cbn [mbind outcome_bind]. by rewrite stoi_dec.
Qed.

Lemma int_ops_small a b : - 2 ^ 31 <= a - b < 2 ^ 31 → int_sub a b = Ok (a - b).
Proof. intros H. unfold int_sub. case_match eqn:E; [|done]. apply orb_true_iff in E as [E|E]; b2p; lia. Qed.

Lemma int_add_small a b : - 2 ^ 31 <= a + b < 2 ^ 31 → int_add a b = Ok (a + b).
Proof. intros H. unfold int_add. case_match eqn:E; [|done]. apply orb_true_iff in E as [E|E]; b2p; lia. Qed.

Lemma range_requests_dec s d n :
  well_formed (PortRange s d n) →
  range_requests (dec s ++ "-"%char :: dec (s + n)) (dec d ++ "-"%char :: dec (d + n)) =
    Ok (requests (PortRange s d n)).
Proof.
  intros (Hs & Hd & Hn & Hsn & Hdn). unfold range_requests. rewrite !port_range_dec by done.
  unfold is_int in *. cbn [mbind outcome_bind].
  rewrite !int_ops_small by lia. cbn [mbind outcome_bind].
  replace (s + n - s) with n by lia. replace (d + n - d) with n by lia.
  rewrite Z.eqb_refl, int_add_small by lia. done.
Qed.

Lemma dash_numeric a b : numeric (dec a ++ "-"%char :: dec b) = true.
Proof.
  apply numeric_app; [apply numeric_dec|]. apply (numeric_app ["-"%char]); [|apply numeric_dec].
  by vm_compute.
Qed.

(** The two sides of an element. *)
Definition sides (t : tunnel) : str * str :=
  match t with
  | OnePort s d => (dec s, dec d)
  | PortRange s d n => (dec s ++ "-"%char :: dec (s + n), dec d ++ "-"%char :: dec (d + n))
  | EnvSocket v p => (v, p)
  | SocketPair s d => (s, d)
  | PortToSocket s d => (dec s, d)
  | SocketToPort s d => (s, dec d)
  end.

Lemma sides_words t : well_formed t → word (sides t).1 ∧ word (sides t).2.
Proof.
  assert (∀ z, word (dec z)) as Hdec.
  { intros z. split_and!; [apply dec_ne|by apply dec_not_in|by apply dec_not_in]. }
  assert (∀ a b, word (dec a ++ "-"%char :: dec b)) as Hrange.
  { intros a b. pose proof (dec_ne a). split; [by destruct (dec a)|].
    split; rewrite elem_of_app, elem_of_cons; intros [Hin|[Hin|Hin]]; try done;
      revert Hin; by apply dec_not_in. }
  destruct t; cbn [sides fst snd]; intros Hw; [by split|by split|..].
  - split; apply Hw.
  - split; apply Hw.
  - split; [apply Hdec|apply Hw].
  - split; [apply Hw|apply Hdec].
Qed.

Lemma process_pair_ok t : well_formed t → process_pair (sides t).1 (sides t).2 = Ok (requests t).
Proof.
  intros Hw. unfold process_pair. destruct t as [s d|s d n|v p|s d|s d|s d]; cbn [sides fst snd].
  - destruct Hw as [Hs Hd]. rewrite !numeric_not_socket, !numeric_dec by apply numeric_dec.
    rewrite !contains_false by by apply dec_not_in. cbn [negb andb orb].
    rewrite stoi_dec by done. cbn [mbind outcome_bind]. by rewrite stoi_dec.
  - rewrite !numeric_not_socket, !dash_numeric by apply dash_numeric. cbn [negb andb orb].
    rewrite !contains_true by set_solver. cbn [andb]. by apply range_requests_dec.
  - destruct Hw as (_ & _ & Hv & Hp & Hs). rewrite Hs, Hv, Hp, andb_false_r. done.
  - destruct Hw as (_ & _ & Hs & Hd). rewrite Hs. cbn [orb]. unfold socket_request. by rewrite Hs, Hd.
  - destruct Hw as (Hs & _ & Hd). rewrite (numeric_not_socket (dec s)), numeric_dec, Hd by apply numeric_dec. cbn [orb andb].
    unfold socket_request. rewrite (numeric_not_socket (dec s)) by apply numeric_dec. rewrite stoi_dec by done.
    cbn [mbind outcome_bind]. by rewrite Hd.
  - destruct Hw as (_ & Hs & Hd). rewrite Hs. cbn [orb]. unfold socket_request.
    rewrite Hs, (numeric_not_socket (dec d)) by apply numeric_dec. cbn [mbind outcome_bind]. by rewrite stoi_dec.
Qed.

Lemma process_element_ok t input :
  well_formed t → processEtStyleTunnelArg (split (text t) ":"%char) input = Ok (requests t).
Proof.
  intros Hw. destruct (sides_words t Hw) as [(Ha & Hb & _) (Hc & Hd & _)].
  assert (text t = (sides t).1 ++ ":"%char :: (sides t).2) as -> by by destruct t.
  rewrite split_two by done. unfold processEtStyleTunnelArg. by rewrite process_pair_ok.
Qed.

Lemma process_elements_ok l input :
  Forall well_formed l → process_elements (text <$> l) input = Ok (concat (requests <$> l)).
Proof.
  induction 1 as [|t l Ht Hl IH]; [done|]. cbn [fmap list_fmap process_elements].
  rewrite process_element_ok by done. cbn. by rewrite IH.
Qed.

(** [parseRangesToRequests] reads every tunnel argument that is written the way the
    program documents it: a comma-separated list of port pairs, port ranges, environment
    variables, socket pairs and pairs of a port and a socket yields exactly their requests,
    in order, and nothing else. *)
Theorem parseRangesToRequests_text l :
  l ≠ [] → Forall well_formed l →
  parseRangesToRequests (join ","%char (text <$> l)) = Ok (concat (requests <$> l)).
Proof.
  intros Hne Hw. unfold parseRangesToRequests.
  assert (∀ t, well_formed t → (","%char ∉ text t) ∧ text t ≠ []) as Htext.
  { intros t Ht. destruct (sides_words t Ht) as [(Ha & _ & Hb) (_ & _ & Hc)].
    assert (text t = (sides t).1 ++ ":"%char :: (sides t).2) as -> by by destruct t.
    rewrite elem_of_app, elem_of_cons. split; [naive_solver|by destruct (sides t).1]. }
  assert (split (join ","%char (text <$> l)) ","%char = text <$> l) as ->.
  { apply split_join.
    - apply Forall_fmap. eapply Forall_impl; [|exact Hw]. intros t Ht. by apply Htext.
    - destruct (list.last (text <$> l)) as [x|] eqn:El; [|done]. intros [= ->].
      apply last_Some_elem_of, list_elem_of_fmap in El as (t & Ht & Hin).
      rewrite list.Forall_forall in Hw. by apply (Htext t (Hw t Hin)). }
  destruct l as [|t [|t' l]]; [done| |].
  - apply Forall_cons_1 in Hw as [Ht _]. cbn [fmap list_fmap length Nat.ltb Nat.leb].
    unfold at_index. cbn [lookup list_lookup mbind outcome_bind].
    destruct (sides_words t Ht) as [(Ha & Hb & _) (Hc & Hd & _)].
    assert (split (text t) ":"%char = [(sides t).1; (sides t).2]) as E.
    { assert (text t = (sides t).1 ++ ":"%char :: (sides t).2) as -> by by destruct t. by apply split_two. }
    rewrite E. cbn [length Nat.leb]. rewrite <-E, process_element_ok by done. cbn. by rewrite app_nil_r.
  - rewrite length_fmap. cbn [length Nat.ltb Nat.leb]. by apply process_elements_ok.
Qed.

(** ** Errors *)

(** What an operation that only reads numbers and ranges can stop with. *)
Definition parse_failure (f : failure) : Prop :=
  (∃ k w, f = Throw (Exn k w) ∧ (k = LogicError ∨ k = TunnelParseException)) ∨ ∃ w, f = UB w.

Lemma bind_failure {A B} (o : outcome A) (g : A → outcome B) f :
  (∀ e, o = Stop e → parse_failure e) → (∀ a e, g a = Stop e → parse_failure e) →
  (o ≫= g) = Stop f → parse_failure f.
Proof. intros Ho Hg. destruct o as [a|e]; cbn; [apply Hg|]. intros [= ->]. by apply Ho. Qed.

Lemma stoi_failure s f : stoi s = Stop f → parse_failure f.
Proof. unfold stoi. repeat case_match; intros [= <-]; left; eauto. Qed.
Lemma at_index_failure l i f : at_index l i = Stop f → parse_failure f.
Proof. unfold at_index. case_match; intros [= <-]; right; eauto. Qed.
Lemma int_sub_failure a b f : int_sub a b = Stop f → parse_failure f.
Proof. unfold int_sub. case_match; intros [= <-]; right; eauto. Qed.
Lemma int_add_failure a b f : int_add a b = Stop f → parse_failure f.
Proof. unfold int_add. case_match; intros [= <-]; right; eauto. Qed.
Lemma tunnel_error_failure {A} w f : @tunnel_error A w = Stop f → parse_failure f.
Proof. intros [= <-]. left. eauto. Qed.
Lemma ret_failure {A} (a : A) f : mret a = Stop f → parse_failure f.
Proof. done. Qed.

Create HintDb tunnel discriminated.
#[local] Hint Resolve stoi_failure at_index_failure int_sub_failure int_add_failure
  tunnel_error_failure ret_failure : tunnel.

(** Walk through the sequence of a function. *)
Ltac fails :=
  first
    [ by eauto with tunnel
    | case_match; fails
    | apply bind_failure; [intros ?; fails|intros ? ?; fails] ].

Lemma port_range_failure s f : port_range s = Stop f → parse_failure f.
Proof. unfold port_range. fails. Qed.
#[local] Hint Resolve port_range_failure : tunnel.

Lemma process_pair_failure src dst f : process_pair src dst = Stop f → parse_failure f.
Proof. unfold process_pair, socket_request, range_requests. fails. Qed.

(** An argument of et style that cannot be read is always reported as a
    [TunnelParseException], never as one of the exceptions of [std::stoi]; the only other
    way to stop is to leave defined behaviour (an index that is out of range, or an int
    that overflows). *)
Theorem processEtStyleTunnelArg_errors sourceDestination input f :
  processEtStyleTunnelArg sourceDestination input = Stop f →
  (∃ w, f = Throw (Exn TunnelParseException w)) ∨ ∃ w, f = UB w.
Proof.
  unfold processEtStyleTunnelArg. destruct sourceDestination as [|src [|dst l]]; [by intros [= <-]; eauto..|].
  destruct (process_pair src dst) as [r|e] eqn:E; [done|].
  destruct (process_pair_failure _ _ _ E) as [(k & w & -> & [->| ->])|(w & ->)];
    intros [= <-]; eauto.
Qed.

(** ** Ssh-style arguments *)

(** A host, in brackets or not. *)
Definition host_text (brackets : bool) (h : str) : str :=
  if brackets then "["%char :: h ++ ["]"%char] else h.

Definition host_ok (brackets : bool) (h : str) : Prop :=
  (","%char ∉ h) ∧ ("["%char ∉ h) ∧ ("]"%char ∉ h) ∧ (brackets = false → ":"%char ∉ h).

Lemma ssh_parts_stretch a s b cur :
  ("["%char ∉ a) → ("]"%char ∉ a) → (b = false → ":"%char ∉ a) →
  ssh_parts_loop (a ++ s) b cur = ssh_parts_loop s b (cur ++ a).
Proof.
  revert cur. induction a as [|c a IH]; intros cur H1 H2 H3; [by rewrite app_nil_r|].
  apply not_elem_of_cons in H1 as [Hc1 H1]. apply not_elem_of_cons in H2 as [Hc2 H2].
  cbn [app ssh_parts_loop]. rewrite !decide_False by congruence.
  assert (bool_decide (c = ":"%char) && negb b = false) as ->.
  { destruct b; [by rewrite andb_false_r|]. rewrite bool_decide_eq_false_2; [done|].
    intros ->. apply H3; [done|by left]. }
  rewrite IH, <-app_assoc by (done || (intros Hb Hin; apply H3; [done|by right])). done.
Qed.

Lemma ssh_parts_host b h s :
  host_ok b h → ssh_parts_loop (host_text b h ++ s) false [] = ssh_parts_loop s false h.
Proof.
  intros (_ & H1 & H2 & H3). destruct b; cbn [host_text].
  - cbn [app ssh_parts_loop]. rewrite decide_True, <-app_assoc by done.
    rewrite ssh_parts_stretch by done. cbn. done.
  - by rewrite ssh_parts_stretch.
Qed.

(** Everything behind a delimiter is split on its own. *)
Lemma split_from_cut delim a s item :
  ∃ l, l ≠ [] ∧ split_from delim item (a ++ delim :: s) = l ++ split s delim.
Proof.
  revert item. induction a as [|c a IH]; intros item; cbn [app split_from].
  - rewrite decide_True by done. by exists [item].
  - case_decide; [|apply IH]. destruct (IH []) as (l & Hl & ->). by exists (item :: l).
Qed.

Lemma split_length delim a s : (S (length (split s delim)) ≤ length (split (a ++ delim :: s) delim))%nat.
Proof.
  unfold split at 2. destruct (split_from_cut delim a s []) as (l & Hl & ->).
  rewrite length_app. destruct l; [done|cbn; lia].
Qed.

Definition ssh_text (b1 : bool) (a p : str) (b2 : bool) (h q : str) : str :=
  host_text b1 a ++ ":"%char :: p ++ ":"%char :: host_text b2 h ++ ":"%char :: q.

Lemma ssh_parse b1 a p b2 h q :
  host_ok b1 a → host_ok false p → host_ok b2 h → host_ok false q →
  parseRangesToRequests (ssh_text b1 a p b2 h q) = ssh_request [a; p; h; q].
Proof.
  intros Ha Hp Hh Hq. unfold parseRangesToRequests.
  assert (∀ b x, host_ok b x → (","%char ∉ host_text b x)) as Hcomma.
  { intros b x (Hx & _). destruct b; cbn; [|done].
    rewrite elem_of_cons, elem_of_app, list_elem_of_singleton. naive_solver. }
  pose proof (Hcomma _ _ Ha). pose proof (Hcomma _ _ Hp). pose proof (Hcomma _ _ Hh). pose proof (Hcomma _ _ Hq).
  assert (split (ssh_text b1 a p b2 h q) ","%char = [ssh_text b1 a p b2 h q]) as ->.
  { apply split_one; unfold ssh_text; [|by destruct (host_text b1 a)].
    repeat (rewrite ?elem_of_app, ?elem_of_cons). cbn in *. naive_solver. }
  cbn [length Nat.ltb Nat.leb]. unfold at_index. cbn [lookup list_lookup mbind outcome_bind].
  assert ((length (split (ssh_text b1 a p b2 h q) ":"%char) <=? 2)%nat = false) as ->.
  { apply Nat.leb_gt. unfold ssh_text.
    pose proof (split_length ":"%char (host_text b1 a) (p ++ ":"%char :: host_text b2 h ++ ":"%char :: q)).
    pose proof (split_length ":"%char p (host_text b2 h ++ ":"%char :: q)).
    pose proof (split_length ":"%char (host_text b2 h) q). lia. }
  unfold parseSshTunnelArg.
  assert (ssh_parts_loop (ssh_text b1 a p b2 h q) false [] = [a; p; h; q]) as ->.
  { unfold ssh_text. rewrite ssh_parts_host by done. cbn [ssh_parts_loop].
    rewrite !decide_False by done. cbn [bool_decide negb andb].
    rewrite bool_decide_eq_true_2 by done. cbn [andb]. f_equal.
    change p with (host_text false p) at 1. rewrite ssh_parts_host by done. cbn [ssh_parts_loop].
    rewrite !decide_False, bool_decide_eq_true_2 by done. cbn [negb andb]. f_equal.
    rewrite ssh_parts_host by done. cbn [ssh_parts_loop].
    rewrite !decide_False, bool_decide_eq_true_2 by done. cbn [negb andb]. f_equal.
    rewrite <-(app_nil_r q) at 1. change q with (host_text false q) at 1. by rewrite ssh_parts_host. }
  done.
Qed.

(** An ssh-style argument [bind:port:host:hostport] yields one request with both
    hosts and both ports, where a host may be an IPv6 address in brackets, whose colons do
    not count. *)
Theorem parse_ssh_style b1 a b2 h p q :
  host_ok b1 a → host_ok b2 h → is_int p → is_int q →
  parseRangesToRequests (ssh_text b1 a (dec p) b2 h (dec q)) =
    Ok [forward_request (mkEndpoint (Some a) (Some p)) (mkEndpoint (Some h) (Some q))].
Proof.
  intros Ha Hh Hp Hq. assert (∀ z, host_ok false (dec z)) as Hdec.
  { intros z. split_and!; intros; by apply dec_not_in. }
  rewrite ssh_parse by done. unfold ssh_request, at_index. cbn [lookup list_lookup mbind outcome_bind].
  rewrite stoi_dec by done. cbn [mbind outcome_bind]. by rewrite stoi_dec.
Qed.

(** The documented promise that bad syntax throws [TunnelParseException] does not
    hold for ssh-style arguments, where the exception of [std::stoi] escapes when the port
    is not a number; and a range without its second number reads behind the end of a
    vector. *)
Theorem parse_promise_broken :
  (∀ b1 a p b2 h q, host_ok b1 a → host_ok false p → host_ok b2 h → host_ok false q → scan_int p = None →
     parseRangesToRequests (ssh_text b1 a p b2 h q) = Stop (Throw (Exn LogicError "stoi"))) ∧
  (∀ s d, is_int s →
     parseRangesToRequests ((dec s ++ ["-"%char]) ++ ":"%char :: (dec d ++ ["-"%char])) =
       Stop (UB "vector index out of range")).
Proof.
  split.
  - intros b1 a p b2 h q Ha Hp Hh Hq Hscan. rewrite ssh_parse by done.
    unfold ssh_request, at_index. cbn [lookup list_lookup mbind outcome_bind].
    assert (stoi p = Stop (Throw (Exn LogicError "stoi"))) as -> by (unfold stoi; by rewrite Hscan). done.
  - intros s d Hs. set (x := dec s ++ ["-"%char]). set (y := dec d ++ ["-"%char]).
    assert (∀ c z, isdigit c = false → c ≠ "-"%char → c ∉ (dec z ++ ["-"%char])) as Hno.
    { intros c z Hc Hd. rewrite elem_of_app, list_elem_of_singleton. intros [Hin|Hin]; [|done].
      revert Hin. by apply dec_not_in. }
    assert (∀ z, dec z ++ ["-"%char] ≠ []) as Hne by (intros z; by destruct (dec z)).
    assert (∀ z, numeric (dec z ++ ["-"%char]) = true) as Hnum
      by (intros z; apply numeric_app; [apply numeric_dec|by vm_compute]).
    unfold parseRangesToRequests. rewrite split_one; [| |by destruct x].
    2: { rewrite elem_of_app, elem_of_cons. intros [Hin|[Hin|Hin]]; [|done|]; revert Hin; by apply Hno. }
    cbn [length Nat.ltb Nat.leb]. unfold at_index at 1. cbn [lookup list_lookup mbind outcome_bind].
    rewrite split_two by (by apply Hno || apply Hne). cbn [length Nat.leb]. unfold processEtStyleTunnelArg, process_pair.
    assert (numeric x = true ∧ numeric y = true) as [Hx Hy] by (split; apply Hnum).
    rewrite !numeric_not_socket, Hx, Hy by done. cbn [negb andb orb].
    rewrite !contains_true by (unfold x, y; set_solver). cbn [andb]. unfold range_requests, port_range.
    assert (split x "-"%char = [dec s]) as -> by by (apply split_cons; apply dec_not_in).
    unfold at_index. cbn [lookup list_lookup mbind outcome_bind]. rewrite stoi_dec by done. done.
Qed.

(** ** Witnesses *)

Lemma parseRangesToRequests_text_witness :
  parseRangesToRequests (lit "8080:80,3-4:7-8,SOCK:/tmp/s") =
    Ok (concat (requests <$> [OnePort 8080 80; PortRange 3 7 1; EnvSocket (lit "SOCK") (lit "/tmp/s")])).
Proof.
  refine (parseRangesToRequests_text
    [OnePort 8080 80; PortRange 3 7 1; EnvSocket (lit "SOCK") (lit "/tmp/s")] _ _); [discriminate|].
  repeat constructor; try discriminate; try lia; try reflexivity;
    match goal with |- ?c ∉ ?l => apply (bool_decide_eq_false_1 (c ∈ l)); vm_compute; reflexivity end.
Defined.

Lemma processEtStyleTunnelArg_errors_witness :
  processEtStyleTunnelArg [lit ""; lit "80"] (lit ":80") =
    Stop (Throw (Exn TunnelParseException "Invalid tunnel argument ':80': stoi")) ∧
  ((∃ w, Throw (Exn TunnelParseException "Invalid tunnel argument ':80': stoi") =
         Throw (Exn TunnelParseException w)) ∨
   ∃ w, Throw (Exn TunnelParseException "Invalid tunnel argument ':80': stoi") = UB w).
Proof.
  assert (processEtStyleTunnelArg [lit ""; lit "80"] (lit ":80") =
    Stop (Throw (Exn TunnelParseException "Invalid tunnel argument ':80': stoi"))) as E by reflexivity.
  split; [exact E|exact (processEtStyleTunnelArg_errors _ _ _ E)].
Defined.

Lemma parse_ssh_style_witness :
  parseRangesToRequests (lit "[::1]:8080:[::]:9090") =
    Ok [forward_request (mkEndpoint (Some (lit "::1")) (Some 8080)) (mkEndpoint (Some (lit "::")) (Some 9090))].
Proof.
  refine (parse_ssh_style true (lit "::1") true (lit "::") 8080 9090 _ _ _ _); try (split; lia);
    (split; [|split; [|split; [|discriminate]]]);
    match goal with |- ?c ∉ ?l => apply (bool_decide_eq_false_1 (c ∈ l)); vm_compute; reflexivity end.
Defined.

Lemma parse_promise_broken_witness :
  parseRangesToRequests (lit "a:x:b:9") = Stop (Throw (Exn LogicError "stoi")) ∧
  parseRangesToRequests (lit "80-:90-") = Stop (UB "vector index out of range").
Proof.
  destruct parse_promise_broken as [Hssh Hrange]. split; [|apply (Hrange 80 90); unfold is_int; lia].
  refine (Hssh false (lit "a") (lit "x") false (lit "b") (lit "9") _ _ _ _ eq_refl);
    (split; [|split; [|split; [|intros _]]]);
    match goal with |- ?c ∉ ?l => apply (bool_decide_eq_false_1 (c ∈ l)); vm_compute; reflexivity end.
Defined.
