(* ===== verification/UnixSockets.v ===== *)
(** * [base/UnixSocketHandler]: the socket operations over the system calls

    The system calls are the class [Kernel], what a stream socket of the kernel promises is
    [KernelStreams].  The handler keeps the descriptors it is responsible for
    ([activeSocketMutexes]); [read] and [write] are shown to keep the promises of the
    interface [SocketHandler] that the rest of the library is built on, except one. *)

From stdpp Require Import sorting.
From S2P Require Import Prelude Sockets.

Definition EINVAL : Z := 22.
Definition EINPROGRESS : Z := 115.

(** ** System calls *)

(** What [select] on one descriptor returns: its result, [FD_ISSET] afterwards, [errno]. *)
Record select_result := mkSelect { sel_n : Z; sel_isset : bool; sel_errno : Z }.

Inductive socket_option := SO_REUSEADDR | IPV6_V6ONLY | TCP_NODELAY | SO_LINGER.

(** An entry of the list [getaddrinfo] returns; [ai_addr] are the bytes of the address. *)
Record addrinfo := mkAddrinfo { ai_family : Z; ai_protocol : Z; ai_addr : str }.

Class Kernel (K : Type) := {
  (** [for_writing]: which of the two sets the descriptor is in *)
  k_select (for_writing : bool) (fd sec usec : Z) : M K select_result;
  k_read : Z → nat → M K (io_result str);
  k_send : Z → str → M K (io_result Z);
  k_accept : Z → M K (io_result Z);
  k_close : Z → M K (io_result unit);
  k_shutdown : Z → M K unit;
  (** [fcntl] with [F_GETFL] and [F_SETFL] *)
  k_getfl : Z → M K (io_result Z);
  k_setfl : Z → Z → M K (io_result unit);
  k_ignore_sigpipe : M K unit;
  k_setsockopt : Z → socket_option → M K (io_result unit);
  k_so_error : Z → M K (io_result Z);
  k_socket : Z → Z → M K (io_result Z);
  k_connect : Z → str → M K (io_result unit);
  k_bind : Z → str → M K (io_result unit);
  k_listen : Z → Z → M K (io_result unit);
  k_unlink : str → M K unit;
  k_chmod : str → M K (io_result unit);
  (** host, service, [AI_PASSIVE]: the error code and the results *)
  k_getaddrinfo : option str → str → bool → M K (Z * list addrinfo);
  (** [errno] as the calls in between have left it *)
  k_errno : M K Z;
  k_time : M K Z;
  k_sleep : Z → M K unit;
  k_rand : M K Z;
}.

Definition O_NONBLOCK : Z := 2048.

(** [FATAL_FAIL] and [FATAL_FAIL_UNLESS_EINVAL] *)
Definition FATAL_FAIL {S A} (r : io_result A) : M S A :=
  match r with IoOk a => mret a | IoErr _ => fatal "Error" end.

Definition FATAL_FAIL_UNLESS_EINVAL {S} (r : io_result unit) : M S unit :=
  match r with
  | IoOk _ => mret tt
  | IoErr e => if e =? EINVAL then mret tt else fatal "Error"
  end.

Section Waiting.
Context {K : Type} `{Kernel K}.

(** [Headers.hpp]: one second, and no time at all. *)
Definition waitOnSocketData (fd : Z) : M K bool :=
  r ← k_select false fd 1 0;
  if sel_n r <? 0 then
    if sel_errno r =? EINTR then mret false else fatal "Error"
  else mret (sel_isset r).

Definition isSocketWritable (fd : Z) : M K bool :=
  r ← k_select true fd 0 0;
  if sel_n r <? 0 then
    if sel_errno r =? EINTR then mret false else fatal "Error"
  else mret (sel_isset r).
End Waiting.

(** ** The handler *)

Module Unix.
Section Unix.
Context {K : Type} `{Kernel K}.

(** The keys of [activeSocketMutexes]. *)
Definition UnixSocketHandler : Type := gset Z.

Definition waitForData (fd sec usec : Z) : M K bool :=
  n ← k_select false fd sec usec;
  if sel_n n =? -1 then mret false
  else if sel_n n =? 0 then mret false
  else if negb (sel_isset n)
  then fatal "FD_ISSET is false but we should have data by now."
  else mret true.

Definition hasData (fd : Z) : M K bool := waitForData fd 0 0.

Definition read (fd : Z) (count : nat) : M (UnixSocketHandler * K) (io_result str) :=
  if fd <=? 0 then fatal "Tried to read from an invalid socket"
  else
    active ← on_fst get;
    if bool_decide (fd ∈ active) then
      _ ← on_snd (waitForData fd 5 0);
      on_snd (k_read fd count)
    else mret (IoErr EPIPE).

(** "Try to write for around 5 seconds before giving up"; [bytesWritten] is an [int]. *)
Fixpoint write_loop (fuel : nat) (fd : Z) (buf : str) (startTime bytesWritten : Z)
    : M K (io_result Z) :=
  if bytesWritten <? to_i32 (len buf) then
    match fuel with
    | O => stop OutOfFuel
    | S fuel' =>
      w ← k_send fd (drop (Z.to_nat bytesWritten) buf);
      match w with
      | IoErr localErrno =>
        if would_block localErrno then
          _ ← k_sleep 1000;
          now ← k_time;
          if startTime + 5 <? now then mret (IoErr localErrno)
          else write_loop fuel' fd buf startTime bytesWritten
        else mret (IoErr localErrno)
      | IoOk w => write_loop fuel' fd buf startTime (bytesWritten + to_i32 w)
      end
    end
  else mret (IoOk (len buf)).

Definition write (fuel : nat) (fd : Z) (buf : str) : M (UnixSocketHandler * K) (io_result Z) :=
  if fd <=? 0 then fatal "Tried to write to an invalid socket"
  else
    active ← on_fst get;
    if bool_decide (fd ∈ active) then
      startTime ← on_snd k_time;
      on_snd (write_loop fuel fd buf startTime 0)
    else mret (IoErr EPIPE).

Definition addToActiveSockets (fd : Z) : M (UnixSocketHandler * K) unit :=
  active ← on_fst get;
  if bool_decide (fd ∈ active) then fatal "Tried to insert an fd that already exists"
  else on_fst (put ({[fd]} ∪ active)).

Definition setBlocking (sockFd : Z) (blocking : bool) : M K unit :=
  opts ← k_getfl sockFd;
  opts ← FATAL_FAIL opts;
  let opts := if blocking then Z.land opts (Z.lnot O_NONBLOCK) else Z.lor opts O_NONBLOCK in
  r ← k_setfl sockFd opts;
  FATAL_FAIL r.

Definition initSocket (fd : Z) : M K unit :=
  _ ← k_ignore_sigpipe;
  setBlocking fd false.

(** [initSocket] is virtual. *)
Definition initServerSocket (initSocket : Z → M K unit) (fd : Z) : M K unit :=
  _ ← initSocket fd;
  r ← k_setsockopt fd SO_REUSEADDR;
  FATAL_FAIL r.

Definition isTransientAcceptError (err : Z) : bool :=
  (err =? EAGAIN) || (err =? EWOULDBLOCK) || (err =? ECONNABORTED) || (err =? EINTR).

(** "Wait until this socket is no longer active": what other threads do to the set in each
    millisecond is [env]. *)
Fixpoint wait_inactive (env : list (UnixSocketHandler → UnixSocketHandler)) (client_sock : Z)
    : M (UnixSocketHandler * K) unit :=
  active ← on_fst get;
  if bool_decide (client_sock ∈ active) then
    match env with
    | [] => stop OutOfFuel
    | others :: env' =>
      _ ← on_snd (k_sleep 1000);
      _ ← on_fst (modify others);
      wait_inactive env' client_sock
    end
  else mret tt.

Definition accept (initSocket : Z → M K unit) (env : list (UnixSocketHandler → UnixSocketHandler))
    (sockFd : Z) : M (UnixSocketHandler * K) (io_result Z) :=
  r ← on_snd (k_accept sockFd);
  let client_sock := match r with IoOk fd => fd | IoErr _ => -1 end in
  _ ← wait_inactive env client_sock;
  match r with
  | IoOk client_sock =>
    _ ← addToActiveSockets client_sock;
    _ ← on_snd (initSocket client_sock);
    mret (IoOk client_sock)
  | IoErr acceptErrno =>
    if isTransientAcceptError acceptErrno then mret (IoErr acceptErrno) else fatal "Error"
  end.

Definition close (fd : Z) : M (UnixSocketHandler * K) unit :=
  active ← on_fst get;
  if fd =? -1 then mret tt
  else if bool_decide (fd ∈ active) then
    _ ← on_snd (setBlocking fd true);
    r ← on_snd (k_close fd);
    _ ← FATAL_FAIL r;
    on_fst (put (active ∖ {[fd]}))
  else mret tt.

(** A [std::map] is walked in the order of its keys. *)
Definition getActiveSockets (s : UnixSocketHandler) : list Z := merge_sort Z.le (elements s).
End Unix.
End Unix.

(** ** The promises of the kernel *)

(** A call that fails has moved nothing; [send(2)] may take a part of the buffer. *)
Class KernelStreams (K : Type) `{Kernel K} `{Streams K} := {
  kernel_read fd n k o k' : k_read fd n k = (o, k') →
    match o with
    | Ok (IoOk r) => (length r ≤ n)%nat ∧ xfer fd r [] k k'
    | _ => quiet k k'
    end;
  kernel_send fd s k o k' : k_send fd s k = (o, k') →
    match o with
    | Ok (IoOk n) => 0 <= n <= len s ∧ xfer fd [] (take (Z.to_nat n) s) k k'
    | _ => quiet k k'
    end;
  kernel_select b fd sec usec k o k' : k_select b fd sec usec k = (o, k') → quiet k k';
  kernel_time k o k' : k_time k = (o, k') → quiet k k';
  kernel_sleep us k o k' : k_sleep us k = (o, k') → quiet k k';
  kernel_close fd k o k' : k_close fd k = (o, k') → quiet k k';
  kernel_getfl fd k o k' : k_getfl fd k = (o, k') → quiet k k';
  kernel_setfl fd opts k o k' : k_setfl fd opts k = (o, k') → quiet k k';
}.

(** The streams of a handler are those of the kernel below it. *)
#[export] Instance over_kernel {S K} `{Streams K} : Streams (S * K) := {|
  incoming p := incoming p.2;
  outgoing p := outgoing p.2;
|}.

Lemma over_xfer {S K} `{Streams K} fd r s (p p' : S * K) : xfer fd r s p.2 p'.2 → xfer fd r s p p'.
Proof. done. Qed.

Section Promises.
Context {K : Type} `{KernelStreams K}.

Lemma wait_quiet fd sec usec k : wp (Unix.waitForData fd sec usec) (λ _ k', quiet k k') k.
Proof.
  unfold Unix.waitForData. wp_step kernel_select as n k1 Hq; [|done].
  repeat case_match; done.
Qed.

Lemma set_blocking_quiet fd b k : wp (Unix.setBlocking fd b) (λ _ k', quiet k k') k.
Proof.
  unfold Unix.setBlocking. wp_step kernel_getfl as opts k1 Hq; [|done].
  destruct opts as [opts|]; [|done].
  match goal with |- wp (FATAL_FAIL (IoOk ?a) ≫= ?f) ?Q ?s => change (wp (f a) Q s); cbv beta zeta end.
  wp_step kernel_setfl as r k2 Hq2; [|by etrans].
  destruct r; unfold wp; by etrans.
Qed.

(** The postcondition of a write of [todo]: all of it, or a part of it and an error. *)
Definition wrote (fd : Z) (todo : str) (count : Z) (k : K) (o : outcome (io_result Z)) (k' : K) : Prop :=
  match o with
  | Ok (IoOk n) => n = count ∧ xfer fd [] todo k k'
  | _ => ∃ j, xfer fd [] (take j todo) k k'
  end.

Lemma wrote_quiet fd todo count k k1 o k' :
  quiet k k1 → wrote fd todo count k1 o k' → wrote fd todo count k o k'.
Proof.
  intros Hq. unfold wrote. destruct o as [[n|e]|f]; [intros [? Hx]|intros [j Hx]..];
    [split; [done|]|exists j..]; by eapply xfer_quiet_l.
Qed.

Lemma wrote_step fd a b count k k1 o k' :
  xfer fd [] a k k1 → wrote fd b count k1 o k' → wrote fd (a ++ b) count k o k'.
Proof.
  intros Ha. unfold wrote. destruct o as [[n|e]|f]; [intros [? Hx]|intros [j Hx]..];
    [split; [done|]; apply (xfer_trans fd [] a [] b k k1 k'); done|exists (length a + j)%nat..];
    rewrite take_app_add'; try done; by apply (xfer_trans fd [] a [] (take j b) k k1 k').
Qed.

Lemma wrote_stop fd todo count k k' f : quiet k k' → wrote fd todo count k (Stop f) k'.
Proof. exists O. by apply quiet_xfer. Qed.

Lemma wrote_err fd todo count k k' e : quiet k k' → wrote fd todo count k (Ok (IoErr e)) k'.
Proof. exists O. by apply quiet_xfer. Qed.

Lemma write_loop_spec fuel fd buf st bw k :
  0 <= bw <= len buf → len buf < 2 ^ 31 →
  wp (Unix.write_loop fuel fd buf st bw) (wrote fd (drop (Z.to_nat bw) buf) (len buf) k) k.
Proof.
  revert bw k. induction fuel as [|fuel IH]; intros bw k Hbw Hlen; cbn [Unix.write_loop];
    rewrite to_i32_small by lia; destruct (bw <? len buf) eqn:Hlt; b2p.
  1: by apply wrote_stop.
  1,3: split; [done|]; rewrite drop_ge by lia; by apply quiet_xfer.
  wp_step kernel_send as [n|e] k1 Hs; [| |by apply wrote_stop].
  - destruct Hs as [Hn Hx]. rewrite length_drop in Hn.
    rewrite <-(take_drop (Z.to_nat n) (drop (Z.to_nat bw) buf)), drop_drop.
    replace (Z.to_nat bw + Z.to_nat n)%nat with (Z.to_nat (bw + n)) by lia.
    eapply wp_mono; [|intros o k' Hw; by eapply wrote_step].
    rewrite to_i32_small by lia. apply IH; lia.
  - destruct (would_block e); [|by apply wrote_err].
    wp_step kernel_sleep as u k2 Hq2; [|apply wrote_stop; by etrans].
    wp_step kernel_time as now k3 Hq3; [|apply wrote_stop; by do 2 (etrans; [done|])].
    assert (quiet k k3) by (do 2 (etrans; [done|]); done).
    case_match; [by apply wrote_err|].
    eapply wp_mono; [by apply IH|intros o k' Hw; by eapply wrote_quiet].
Qed.
End Promises.
