(* ===== verification/TcpSockets.v ===== *)
(** * [base/TcpSocketHandler] and [base/PipeSocketHandler]

    How the two socket handlers connect and listen ([Tcp], [Pipe]); their reads and writes
    are those of [UnixSocketHandler]. *)

From stdpp Require Import sorting.
From S2P Require Import Prelude Sockets CxxText UnixSockets.

Definition AF_UNIX : Z := 1.
Definition AF_INET6 : Z := 10.
Definition EAI_NONAME : Z := -2.

(** [std::to_string] *)
Definition to_string (z : Z) : str := if z <? 0 then "-"%char :: dec (- z) else dec z.

(** The accessors of a message: a field that is not set has its default. *)
Definition port_of_endpoint (e : SocketEndpoint) : Z := default 0 (ep_port e).
Definition name_of_endpoint (e : SocketEndpoint) : str := default [] (ep_name e).

(** A [std::set<int>] in its order. *)
Definition in_fd_order (s : gset Z) : list Z := merge_sort Z.le (elements s).

Section Sockets.
Context {K : Type} `{Kernel K}.

(** [FATAL_FAIL(::close(fd))] *)
Definition close_or_abort (fd : Z) : M K unit := r ← k_close fd; FATAL_FAIL r.

(** A connection attempt under way: wait 3 seconds for the result; [None] when there is
    none, else [SO_ERROR].  The result of [select] is not looked at. *)
Definition await_connect (fd : Z) : M K (option Z) :=
  r ← k_select true fd 3 0;
  if sel_isset r then
    so_error ← k_so_error fd;
    so_error ← FATAL_FAIL so_error;
    mret (Some so_error)
  else mret None.

Fixpoint close_all (fds : list Z) : M K unit :=
  match fds with
  | [] => mret tt
  | fd :: fds' => _ ← close_or_abort fd; close_all fds'
  end.
End Sockets.

(** ** [TcpSocketHandler] *)

Module Tcp.
Record TcpSocketHandler := mkTcp {
  active : Unix.UnixSocketHandler;
  portServerSockets : gmap Z (gset Z);
}.

Definition set_active (a : Unix.UnixSocketHandler) (s : TcpSocketHandler) : TcpSocketHandler :=
  mkTcp a (portServerSockets s).
Definition set_ports (p : gmap Z (gset Z)) (s : TcpSocketHandler) : TcpSocketHandler :=
  mkTcp (active s) p.

Section Tcp.
Context {K : Type} `{Kernel K}.

(** The methods of the base class, on its part of the state. *)
Definition on_unix {A} (m : M (Unix.UnixSocketHandler * K) A) : M (TcpSocketHandler * K) A :=
  zoom (λ p, (active p.1, p.2)) (λ u p, (set_active u.1 p.1, u.2)) m.

Definition initSocket (fd : Z) : M K unit :=
  _ ← Unix.initSocket fd;
  r ← k_setsockopt fd TCP_NODELAY;
  _ ← FATAL_FAIL_UNLESS_EINVAL r;
  r ← k_setsockopt fd SO_LINGER;
  FATAL_FAIL_UNLESS_EINVAL r.

(** One address: the connected socket, or [None] ([sockFd = -1]). *)
Definition try_address (p : addrinfo) : M K (option Z) :=
  r ← k_socket (ai_family p) (ai_protocol p);
  match r with
  | IoErr _ => mret None
  | IoOk sockFd =>
    _ ← Unix.setBlocking sockFd false;
    c ← k_connect sockFd (ai_addr p);
    let failed := match c with
                  | IoOk _ => false
                  | IoErr e => negb (e =? EINPROGRESS) && negb (e =? EWOULDBLOCK)
                  end in
    if failed : bool then
      _ ← Unix.setBlocking sockFd true;
      _ ← close_or_abort sockFd;
      mret None
    else
      so_error ← await_connect sockFd;
      match so_error with
      | Some so_error =>
        _ ← Unix.setBlocking sockFd true;
        if so_error =? 0 then mret (Some sockFd)
        else
          _ ← close_or_abort sockFd;
          mret None
      | None =>
        _ ← close_or_abort sockFd;
        mret None
      end
  end.

(** "loop through all the results and connect to the first we can" *)
Fixpoint connect_loop (results : list addrinfo) : M K (option Z) :=
  match results with
  | [] => mret None
  | p :: results' =>
    r ← try_address p;
    match r with
    | Some sockFd => mret (Some sockFd)
    | None => connect_loop results'
    end
  end.

(** The result is the descriptor or -1. *)
Definition connect (e : SocketEndpoint) : M (TcpSocketHandler * K) Z :=
  info ← on_snd (k_getaddrinfo (Some (c_str (name_of_endpoint e)))
                   (to_string (port_of_endpoint e)) false);
  if info.1 =? EAI_NONAME then mret (-1)
  else if negb (info.1 =? 0) then mret (-1)
  else
    r ← on_snd (connect_loop info.2);
    match r with
    | None => mret (-1)
    | Some sockFd =>
      _ ← on_snd (initSocket sockFd);
      _ ← on_unix (Unix.addToActiveSockets sockFd);
      mret sockFd
    end.

(** One address to listen on; [None] when no socket could be made for it. *)
Definition listen_address (p : addrinfo) : M K (option Z) :=
  r ← k_socket (ai_family p) (ai_protocol p);
  match r with
  | IoErr _ => mret None
  | IoOk sockFd =>
    _ ← Unix.initServerSocket initSocket sockFd;
    _ ← (if ai_family p =? AF_INET6 then
           r ← k_setsockopt sockFd IPV6_V6ONLY; FATAL_FAIL r
         else mret tt);
    b ← k_bind sockFd (ai_addr p);
    match b with
    | IoErr _ =>
      _ ← close_or_abort sockFd;
      throw RuntimeError "Error binding port"
    | IoOk _ =>
      r ← k_listen sockFd 32;
      _ ← FATAL_FAIL r;
      mret (Some sockFd)
    end
  end.

(** Addresses that were seen before are skipped. *)
Fixpoint listen_loop (ps : list addrinfo) (seen : list str) (serverSockets : gset Z)
    : M K (gset Z) :=
  match ps with
  | [] => mret serverSockets
  | p :: ps' =>
    if bool_decide (ai_addr p ∈ seen) then listen_loop ps' seen serverSockets
    else
      r ← listen_address p;
      listen_loop ps' (ai_addr p :: seen)
        (match r with Some fd => {[fd]} ∪ serverSockets | None => serverSockets end)
  end.

Definition listen (e : SocketEndpoint) : M (TcpSocketHandler * K) (gset Z) :=
  s ← on_fst get;
  let port := port_of_endpoint e in
  match portServerSockets s !! port with
  | Some _ => fatal "Tried to listen twice on the same port"
  | None =>
    info ← on_snd (k_getaddrinfo (c_str <$> ep_name e) (to_string port) true);
    if negb (info.1 =? 0) then fatal "exit(1)"
    else
      serverSockets ← on_snd (listen_loop info.2 [] ∅);
      if bool_decide (serverSockets = ∅) then fatal "Could not bind to any interface!"
      else
        _ ← on_fst (modify (set_ports (<[port := serverSockets]> (portServerSockets s))));
        mret serverSockets
  end.

Definition getEndpointFds (e : SocketEndpoint) : M (TcpSocketHandler * K) (gset Z) :=
  s ← on_fst get;
  match portServerSockets s !! port_of_endpoint e with
  | None => fatal "Tried to getEndpointFds on a port without calling listen() first"
  | Some fds => mret fds
  end.

Definition stopListening (e : SocketEndpoint) : M (TcpSocketHandler * K) unit :=
  s ← on_fst get;
  match portServerSockets s !! port_of_endpoint e with
  | None => fatal "Tried to stop listening to a port that we weren't listening on"
  | Some serverSockets =>
    _ ← on_snd (close_all (in_fd_order serverSockets));
    on_fst (modify (set_ports (delete (port_of_endpoint e) (portServerSockets s))))
  end.
End Tcp.
End Tcp.

(** ** [PipeSocketHandler] *)

Module Pipe.
Record PipeSocketHandler := mkPipe {
  active : Unix.UnixSocketHandler;
  pipeServerSockets : gmap str (gset Z);
}.

Definition set_active (a : Unix.UnixSocketHandler) (s : PipeSocketHandler) : PipeSocketHandler :=
  mkPipe a (pipeServerSockets s).
Definition set_pipes (p : gmap str (gset Z)) (s : PipeSocketHandler) : PipeSocketHandler :=
  mkPipe (active s) p.

(** [sun_path]: at most 108 characters are copied, and a longer path is cut. *)
Definition SUN_PATH : nat := 108.
Definition sun_path (p : str) : str := take SUN_PATH (c_str p).

Section Pipe.
Context {K : Type} `{Kernel K}.

Definition on_unix {A} (m : M (Unix.UnixSocketHandler * K) A) : M (PipeSocketHandler * K) A :=
  zoom (λ p, (active p.1, p.2)) (λ u p, (set_active u.1 p.1, u.2)) m.

(** The socket that is connected, or [None] ([sockFd = -1]). *)
Definition connect_path (path : str) : M K (option Z) :=
  r ← k_socket AF_UNIX 0;
  sockFd ← FATAL_FAIL r;
  _ ← Unix.initSocket sockFd;
  result ← k_connect sockFd path;
  let failed := match result with IoOk _ => false | IoErr e => negb (e =? EINPROGRESS) end in
  if failed : bool then
    _ ← k_shutdown sockFd;
    _ ← close_or_abort sockFd;
    mret None
  else
    so_error ← await_connect sockFd;
    match so_error with
    | Some so_error =>
      if so_error =? 0 then
        _ ← Unix.initSocket sockFd;
        mret (Some sockFd)
      else
        _ ← close_or_abort sockFd;
        mret None
    | None =>
      _ ← close_or_abort sockFd;
      mret None
    end.

Definition connect (e : SocketEndpoint) : M (PipeSocketHandler * K) Z :=
  r ← on_snd (connect_path (sun_path (name_of_endpoint e)));
  match r with
  | None => mret (-1)
  | Some sockFd =>
    _ ← on_unix (Unix.addToActiveSockets sockFd);
    mret sockFd
  end.

(** A socket that listens at [pipePath]; the result of [::listen] is not looked at.  A path
    of 108 characters or more leaves [sun_path] without a terminator, and [unlink] reads
    past it. *)
Definition listen_path (pipePath : str) : M K Z :=
  r ← k_socket AF_UNIX 0;
  fd ← FATAL_FAIL r;
  _ ← Unix.initServerSocket Unix.initSocket fd;
  if (SUN_PATH <=? length (c_str pipePath))%nat then undefined "sun_path has no terminator"
  else
    _ ← k_unlink (sun_path pipePath);
    r ← k_bind fd (sun_path pipePath);
    _ ← FATAL_FAIL r;
    _ ← k_listen fd 5;
    r ← k_chmod (sun_path pipePath);
    _ ← FATAL_FAIL r;
    mret fd.

Definition listen (e : SocketEndpoint) : M (PipeSocketHandler * K) (gset Z) :=
  s ← on_fst get;
  let pipePath := name_of_endpoint e in
  match pipeServerSockets s !! pipePath with
  | Some _ => throw RuntimeError "Tried to listen twice on the same path"
  | None =>
    fd ← on_snd (listen_path pipePath);
    _ ← on_fst (modify (set_pipes (<[pipePath := {[fd]}]> (pipeServerSockets s))));
    mret {[fd]}
  end.

Definition getEndpointFds (e : SocketEndpoint) : M (PipeSocketHandler * K) (gset Z) :=
  s ← on_fst get;
  match pipeServerSockets s !! name_of_endpoint e with
  | None => fatal "Tried to getPipeFd on a pipe without calling listen() first"
  | Some fds => mret fds
  end.

(** The entry of the path stays. *)
Definition stopListening (e : SocketEndpoint) : M (PipeSocketHandler * K) unit :=
  s ← on_fst get;
  match pipeServerSockets s !! name_of_endpoint e with
  | None => fatal "Tried to stop listening to a pipe that we weren't listening on"
  | Some fds =>
    match in_fd_order fds with
    | [] => undefined "*begin() of an empty set"
    | sockFd :: _ => on_snd (close_or_abort sockFd)
    end
  end.
End Pipe.
End Pipe.
