(* ===== verification/SocketPromises.v ===== *)
(** * What the socket handlers promise

    The implementation side of the interface [SocketHandler]: [TcpSocketHandler] as an
    instance of it, its reads and writes as a stream, the promise it breaks (a write that
    fails may have sent a part of the buffer, which its callers then send again), and the
    descriptors a connection attempt opens and closes. *)

From stdpp Require Import sorting.
From S2P Require Import Prelude Sockets Wire CxxText UnixSockets TcpSockets.

(** ** The instance *)

(** [fuel] is for the loop of [write], [env] for the one of [accept]. *)
Section Instance_.
Context {K : Type} `{Kernel K} (fuel : nat)
  (env : list (Unix.UnixSocketHandler → Unix.UnixSocketHandler)).
Import Tcp.

(** A call that returns -1 leaves [errno] as it is. *)
Definition or_errno (m : M (TcpSocketHandler * K) Z) : M (TcpSocketHandler * K) (io_result Z) :=
  r ← m;
  if r =? -1 then e ← on_snd k_errno; mret (IoErr e) else mret (IoOk r).

Definition tcp_socket : SocketHandler (TcpSocketHandler * K) := {|
  sh_hasData fd := on_snd (Unix.hasData fd);
  sh_read fd n := on_unix (Unix.read fd n);
  sh_write fd s := on_unix (Unix.write fuel fd s);
  sh_connect e := or_errno (connect e);
  sh_listen e := _ ← listen e; mret tt;
  sh_getEndpointFds e := fds ← getEndpointFds e; mret (in_fd_order fds);
  sh_accept fd := on_unix (Unix.accept initSocket env fd);
  sh_stopListening e := stopListening e;
  sh_close fd := on_unix (Unix.close fd);
  sh_wait fd := on_snd (waitOnSocketData fd);
  sh_time := on_snd k_time;
  sh_sleep us := on_snd (k_sleep us);
  sh_rand := on_snd k_rand;
|}.
End Instance_.

(** ** Streams *)

Section Streams.
Context {K : Type} `{KernelStreams K} (fuel : nat)
  (env : list (Unix.UnixSocketHandler → Unix.UnixSocketHandler)).
Import Tcp.

Lemma on_unix_inv {A} (m : M (Unix.UnixSocketHandler * K) A) (p : TcpSocketHandler * K) o p' :
  on_unix m p = (o, p') →
  ∃ u, m (active p.1, p.2) = (o, (u, p'.2)) ∧ p'.1 = set_active u p.1.
Proof.
  unfold on_unix, zoom. destruct (m _) as [r [u k]]. intros [= <- <-]. by exists u.
Qed.

(** [read]: an invalid descriptor aborts, an unknown one is not touched. *)
Lemma unix_read_run fd n u k o u' k' :
  Unix.read fd n (u, k) = (o, (u', k')) →
  u' = u ∧
  match o with
  | Ok (IoOk r) => fd ∈ u ∧ (length r ≤ n)%nat ∧ xfer fd r [] k k'
  | _ => quiet k k'
  end.
Proof.
  unfold Unix.read. destruct (fd <=? 0); [by intros [= <- <- <-]|]. rewrite run_fst_get.
  case_bool_decide; [|by intros [= <- <- <-]]. rewrite run_snd.
  destruct (Unix.waitForData fd 5 0 k) as [ow k1] eqn:Hw.
  pose proof (wp_run _ _ _ _ _ (wait_quiet fd 5 0 k) Hw) as Hq. cbv beta in Hq.
  destruct ow as [b|f]; [|by intros [= <- <- <-]].
  intros Hr. apply on_snd_inv in Hr as [Hr Hu]. cbn in Hr, Hu. subst u'. apply kernel_read in Hr.
  split; [done|]. destruct o as [[r|e]|f]; [|by etrans..].
  destruct Hr as [Hl Hx]. split; [done|]. split; [done|]. by eapply xfer_quiet_l.
Qed.

Lemma unix_write_run fd s u k o u' k' :
  Unix.write fuel fd s (u, k) = (o, (u', k')) → len s < 2 ^ 31 →
  u' = u ∧ wrote fd s (len s) k o k' ∧ (fd ∉ u → quiet k k').
Proof.
  intros Hrun Hlen. revert Hrun. unfold Unix.write.
  destruct (fd <=? 0); [intros [= <- <- <-]; split; [done|]; split; [by apply wrote_stop|done]|].
  rewrite run_fst_get. case_bool_decide as Hin;
    [|intros [= <- <- <-]; split; [done|]; split; [by apply wrote_err|done]].
  rewrite run_snd. destruct (k_time k) as [ot k1] eqn:Ht. apply kernel_time in Ht.
  destruct ot as [t|f]; [|intros [= <- <- <-]; split; [done|]; split; [by apply wrote_stop|done]].
  intros Hr. apply on_snd_inv in Hr as [Hr Hu]. cbn in Hr, Hu. subst u'.
  pose proof (wp_run _ _ _ _ _ (write_loop_spec fuel fd s t 0 k1 ltac:(lia) Hlen) Hr) as Hw.
  split; [done|]. split; [|done]. by eapply wrote_quiet.
Qed.

Lemma unix_close_quiet fd u k o u' k' : Unix.close fd (u, k) = (o, (u', k')) → quiet k k'.
Proof.
  unfold Unix.close. rewrite run_fst_get. destruct (fd =? -1); [by intros [= <- <- <-]|].
  case_bool_decide; [|by intros [= <- <- <-]]. rewrite run_snd.
  destruct (Unix.setBlocking fd true k) as [ob k1] eqn:Hb.
  pose proof (wp_run _ _ _ _ _ (set_blocking_quiet fd true k) Hb) as Hq. cbv beta in Hq.
  destruct ob as [[]|f]; [|by intros [= <- <- <-]]. rewrite run_snd.
  destruct (k_close fd k1) as [oc k2] eqn:Hc. apply kernel_close in Hc.
  destruct oc as [[[]|e]|f]; intros [= <- <- <-]; by etrans.
Qed.

Lemma wait_on_quiet fd k o k' : waitOnSocketData fd k = (o, k') → quiet k k'.
Proof.
  unfold waitOnSocketData. rewrite M_bind_stop_inv. destruct (k_select false fd 1 0 k) as [r k1] eqn:Hs.
  apply kernel_select in Hs. destruct r as [r|f]; [|by intros [= <- <-]].
  repeat case_match; by intros [= <- <-].
Qed.

Abbreviation handler := (tcp_socket (K := K) fuel env).

Lemma tcp_read_promise fd n (p p' : TcpSocketHandler * K) o :
  @sh_read _ handler fd n p = (o, p') →
  match o with
  | Ok (IoOk r) => fd ∈ active p.1 ∧ (length r ≤ n)%nat ∧ xfer fd r [] p p'
  | _ => quiet p p'
  end.
Proof.
  intros Hr. apply on_unix_inv in Hr as (u & Hr & _). apply unix_read_run in Hr as [_ Hr].
  by destruct o as [[r|e]|f].
Qed.

Lemma tcp_write_promise fd s (p p' : TcpSocketHandler * K) o :
  len s < 2 ^ 31 → @sh_write _ handler fd s p = (o, p') →
  match o with
  | Ok (IoOk n) => n = len s ∧ xfer fd [] s p p'
  | _ => ∃ j, xfer fd [] (take j s) p p'
  end ∧ (fd ∉ active p.1 → quiet p p').
Proof.
  intros Hlen Hw. apply on_unix_inv in Hw as (u & Hw & _).
  apply unix_write_run in Hw as (_ & Hw & Hq); [|done]. by destruct o as [[n|e]|f].
Qed.

Lemma tcp_other_promises (p p' : TcpSocketHandler * K) fd :
  (∀ o, @sh_close _ handler fd p = (o, p') → quiet p p') ∧
  (∀ o, @sh_hasData _ handler fd p = (o, p') → quiet p p') ∧
  (∀ o, @sh_wait _ handler fd p = (o, p') → quiet p p') ∧
  (∀ o, @sh_time _ handler p = (o, p') → quiet p p') ∧
  (∀ us o, @sh_sleep _ handler us p = (o, p') → quiet p p').
Proof.
  cbn [sh_close sh_hasData sh_wait sh_time sh_sleep tcp_socket]. split_and!.
  - intros o Hc. apply on_unix_inv in Hc as (u & Hc & _). by apply unix_close_quiet in Hc.
  - intros o Hd. apply on_snd_inv in Hd as [Hd _].
    by apply (wp_run _ _ _ _ _ (wait_quiet fd 0 0 p.2)) in Hd.
  - intros o Hd. apply on_snd_inv in Hd as [Hd _]. by apply wait_on_quiet in Hd.
  - intros o Hd. apply on_snd_inv in Hd as [Hd _]. by apply kernel_time in Hd.
  - intros us o Hd. apply on_snd_inv in Hd as [Hd _]. by apply kernel_sleep in Hd.
Qed.

(** So the theorems about [StreamHandler]s are about this program's. *)
#[export] Instance tcp_stream_handler : @StreamHandler (TcpSocketHandler * K) handler _.
Proof.
  split.
  - intros fd n p o p' Hr%tcp_read_promise. destruct o as [[r|e]|f]; [by destruct Hr as [_ Hr]|done..].
  - intros fd s p o p' Hl Hw. apply (tcp_write_promise _ _ _ _ _ Hl) in Hw as [Hw _].
    destruct o as [[n|e]|f]; [|done..]. destruct Hw as [-> Hx]. split; [lia|].
    by rewrite Nat2Z.id, firstn_all.
  - intros fd p o p'. apply (tcp_other_promises p p' fd).
  - intros p o p'. apply (tcp_other_promises p p' 0).
  - intros us p o p'. apply (tcp_other_promises p p' 0).
  - intros fd p o p'. apply (tcp_other_promises p p' fd).
  - intros fd p o p'. apply (tcp_other_promises p p' fd).
Qed.

(** C23. [TcpSocketHandler] over the system calls keeps the promises that the rest of the
    library relies on ([StreamSocket]), for buffers of less than 2^31 bytes: a read takes
    from the stream exactly what it returns; a write that returns has sent the whole
    buffer, one that fails a part of it; nothing else touches a stream; and a descriptor
    that is not active is neither read nor written at all. *)
Theorem tcp_keeps_promises (p p' : TcpSocketHandler * K) fd :
  let h := tcp_socket (K := K) fuel env in
  (∀ n o, sh_read fd n p = (o, p') →
     match o with
     | Ok (IoOk r) => fd ∈ active p.1 ∧ (length r ≤ n)%nat ∧ xfer fd r [] p p'
     | _ => quiet p p'
     end) ∧
  (∀ s o, len s < 2 ^ 31 → sh_write fd s p = (o, p') →
     match o with
     | Ok (IoOk n) => n = len s ∧ xfer fd [] s p p'
     | _ => ∃ j, xfer fd [] (take j s) p p'
     end ∧ (fd ∉ active p.1 → quiet p p')) ∧
  (∀ o, sh_close fd p = (o, p') → quiet p p') ∧
  (∀ o, sh_hasData fd p = (o, p') → quiet p p') ∧
  (∀ o, sh_wait fd p = (o, p') → quiet p p') ∧
  (∀ o, sh_time p = (o, p') → quiet p p') ∧
  (∀ us o, sh_sleep us p = (o, p') → quiet p p').
Proof.
  intros h. split; [intros n o; apply tcp_read_promise|].
  split; [intros s o; apply tcp_write_promise|apply tcp_other_promises].
Qed.
End Streams.

(** ** A kernel to run on *)

(** The in-memory world as a kernel: sockets come from the list of connections, a call that
    would block is the next 0 of the plan, and every sleep takes a second. *)
#[export] Instance WireKernel : Kernel Wire := {|
  k_select b fd sec usec := mret (mkSelect 1 true 0);
  k_read := wire_read;
  k_send := wire_write;
  k_accept := wire_accept;
  k_close fd := _ ← modify (λ w, with_closed w (fd :: w_closed w)); mret (IoOk tt);
  k_shutdown fd := mret tt;
  k_getfl fd := mret (IoOk 0);
  k_setfl fd opts := mret (IoOk tt);
  k_ignore_sigpipe := mret tt;
  k_setsockopt fd o := mret (IoOk tt);
  k_so_error fd := mret (IoOk 0);
  k_socket f p := wire_connect (mkEndpoint None None);
  k_connect fd a := λ w, (Ok (if is_broken w fd then IoErr ECONNREFUSED else IoOk tt), w);
  k_bind fd a := λ w, (Ok (if is_broken w fd then IoErr EINVAL else IoOk tt), w);
  k_listen fd n := mret (IoOk tt);
  k_unlink p := mret tt;
  k_chmod p := mret (IoOk tt);
  k_getaddrinfo h s b := mret (0, [mkAddrinfo 2 6 (lit "a"); mkAddrinfo AF_INET6 6 (lit "b")]);
  k_errno := mret 0;
  k_time := λ w, (Ok (w_clock w), w);
  k_sleep us := modify (λ w, with_clock w (w_clock w + 1));
  k_rand := wire_rand;
|}.

#[export] Instance WireKernelStreams : KernelStreams Wire.
Proof.
  split; try by intros *; intros [= <- <-].
  - intros fd n k o k' Hr. exact (stream_read fd n k o k' Hr).
  - intros fd s k o k'. cbn [k_send WireKernel]. unfold wire_write.
    destruct (is_broken k fd); [by intros [= <- <-]|].
    destruct (w_plan k) as [|[|n] pl]; intros [= <- <-]; [|done|];
      (split; [try case_match; lia|rewrite Nat2Z.id; apply wire_xfer_write]).
Qed.

(** ** The broken promise *)

Section Twice.
Context (fd : Z) (s : str).
Hypothesis (Hfd : 0 < fd) (Hlen : len s < 2 ^ 31).
Implicit Types (w : Wire).

Lemma loop_blocked fuel st bw w pl :
  w_plan w = O :: pl → w_broken w = [] → 0 <= bw < len s →
  Unix.write_loop (S fuel) fd s st bw w =
    let w' := with_clock (with_plan w pl) (w_clock w + 1) in
    if st + 5 <? w_clock w + 1 then (Ok (IoErr EAGAIN), w')
    else Unix.write_loop fuel fd s st bw w'.
Proof.
  intros Hp Hb Hbw. cbn [Unix.write_loop]. rewrite to_i32_small, (proj2 (Z.ltb_lt _ _)) by lia.
  rewrite M_bind_stop_inv. cbn [k_send WireKernel]. unfold wire_write, is_broken. rewrite Hb, Hp.
  rewrite bool_decide_false by apply not_elem_of_nil.
  change (would_block EAGAIN) with true. cbv [mbind M_bind k_sleep k_time WireKernel modify].
  cbn [w_clock with_clock with_plan]. by destruct (_ <? _).
Qed.

Lemma loop_sends fuel st bw w n pl :
  w_plan w = S n :: pl → w_broken w = [] → 0 <= bw → bw + Z.of_nat (S n) <= len s →
  Unix.write_loop (S fuel) fd s st bw w =
    Unix.write_loop fuel fd s st (bw + Z.of_nat (S n))
      (with_out (with_plan w pl) fd (wire_out w fd ++ take (S n) (drop (Z.to_nat bw) s))).
Proof.
  intros Hp Hb Hbw Hn. cbn [Unix.write_loop]. rewrite to_i32_small, (proj2 (Z.ltb_lt _ _)) by lia.
  rewrite M_bind_stop_inv. cbn [k_send WireKernel]. unfold wire_write, is_broken. rewrite Hb, Hp.
  rewrite bool_decide_false by apply not_elem_of_nil.
  rewrite length_drop, Nat.min_l by lia. rewrite to_i32_small by lia. done.
Qed.

Lemma loop_all fuel st w :
  w_plan w = [] → w_broken w = [] → s ≠ [] →
  Unix.write_loop (S (S fuel)) fd s st 0 w = (Ok (IoOk (len s)), with_out (with_plan w []) fd (wire_out w fd ++ s)).
Proof.
  intros Hp Hb Hs. assert (0 < len s) by (destruct s; [done|cbn; lia]).
  remember (S fuel) as fuel' eqn:Hf. cbn [Unix.write_loop].
  rewrite to_i32_small, (proj2 (Z.ltb_lt _ _)) by lia.
  rewrite M_bind_stop_inv. cbn [k_send WireKernel]. unfold wire_write, is_broken. rewrite Hb, Hp.
  rewrite bool_decide_false by apply not_elem_of_nil. change (drop (Z.to_nat 0) s) with s.
  rewrite to_i32_small, Z.add_0_l, firstn_all by lia. subst fuel'. cbn [Unix.write_loop].
  by rewrite to_i32_small, Z.ltb_irrefl by lia.
Qed.

(** Six waits of a second are too many. *)
Lemma loop_gives_up fuel bw w :
  w_plan w = replicate 6 O → w_broken w = [] → 0 <= bw < len s →
  Unix.write_loop (6 + fuel) fd s (w_clock w) bw w =
    (Ok (IoErr EAGAIN), with_clock (with_plan w []) (w_clock w + 6)).
Proof.
  intros Hp Hb Hbw. cbn [Nat.add].
  do 6 (erewrite loop_blocked; [|cbn; eauto..]; [|done..]; cbv zeta; cbn [w_clock with_clock with_plan];
        match goal with |- context [?a <? ?b] =>
          first [rewrite (proj2 (Z.ltb_ge a b)) by lia|rewrite (proj2 (Z.ltb_lt a b)) by lia] end).
  by replace (w_clock w + 1 + 1 + 1 + 1 + 1 + 1) with (w_clock w + 6) by lia.
Qed.
End Twice.

(** One iteration of [writeAllOrThrow] within its time. *)
Lemma throw_loop_step {W} `{SocketHandler W} fuel fd timeout st todo now w w1 r w2 :
  todo ≠ [] → sh_time w = (Ok now, w1) → now <= st + SOCKET_DATA_TRANSFER_TIMEOUT →
  sh_write fd todo w1 = (Ok r, w2) →
  writeAllOrThrow_loop (S fuel) fd timeout st todo w =
    match r with
    | IoErr e =>
      if would_block e || (negb timeout && (e =? ETIMEDOUT)) then
        (_ ← sh_sleep 100000; writeAllOrThrow_loop fuel fd timeout st todo) w2
      else throw RuntimeError "Failed a call to writeAll" w2
    | IoOk n =>
      if n =? 0 then throw RuntimeError "Socket closed during writeAll" w2
      else writeAllOrThrow_loop fuel fd timeout now (drop (Z.to_nat n) todo) w2
    end.
Proof.
  intros Htodo Ht Hnow Hw. destruct todo as [|c todo]; [done|]. cbn [writeAllOrThrow_loop].
  erewrite M_bind_ok by done. rewrite (proj2 (Z.ltb_ge _ _)), andb_false_r by done.
  erewrite M_bind_ok by done. by repeat case_match.
Qed.

Section Resent.
Context (fuel : nat) (env : list (Unix.UnixSocketHandler → Unix.UnixSocketHandler)).
Context (fd : Z) (s : str) (t : Tcp.TcpSocketHandler).
Hypothesis (Hfd : 0 < fd) (Hactive : fd ∈ Tcp.active t) (Hlen : len s < 2 ^ 31).

#[local] Instance tcp_over_wire : SocketHandler (Tcp.TcpSocketHandler * Wire) :=
  tcp_socket (8 + fuel) env.

Lemma tcp_write_run w o w' :
  Unix.write_loop (8 + fuel) fd s (w_clock w) 0 w = (o, w') →
  sh_write fd s (t, w) = (o, (t, w')).
Proof.
  intros Hrun. cbn [sh_write tcp_socket tcp_over_wire]. unfold Tcp.on_unix, zoom, Unix.write.
  rewrite (proj2 (Z.leb_gt _ _)) by lia. cbn [fst snd]. rewrite run_fst_get.
  rewrite bool_decide_true by done. rewrite run_snd.
  change (k_time w) with (Ok (w_clock w), w). cbv beta iota.
  unfold on_snd, zoom. cbn [fst snd]. rewrite Hrun. by destruct t.
Qed.

(** C38. [UnixSocketHandler::write] breaks the promise [CleanRetry] that its callers rely on.
    When the kernel takes [n] bytes and then nothing for more than five seconds, [write]
    reports [EAGAIN] with the [n] bytes sent, and [SocketHandler::writeAllOrThrow], which
    takes [EAGAIN] to mean that nothing was sent, sends the buffer from its start once the
    socket is writable again: it succeeds, and the peer receives [take n s ++ s]. *)
Theorem writeAllOrThrow_sends_twice w n timeout :
  (0 < n < length s)%nat → w_broken w = [] → w_plan w = n :: replicate 6 O →
  ∃ w', writeAllOrThrow 2 fd s timeout (t, w) = (Ok tt, (t, w')) ∧
        wire_out w' fd = wire_out w fd ++ take n s ++ s.
Proof.
  intros Hn Hb Hp. destruct n as [|n]; [lia|].
  assert (s ≠ []) by (intros ->; cbn in Hn; lia).
  set (w1 := with_out (with_plan w (replicate 6 O)) fd (wire_out w fd ++ take (S n) s)).
  set (w2 := with_clock (with_plan w1 []) (w_clock w + 6)).
  assert (sh_write fd s (t, w) = (Ok (IoErr EAGAIN), (t, w2))) as Hw1.
  { apply tcp_write_run. change (8 + fuel)%nat with (S (6 + (1 + fuel))).
    erewrite loop_sends by (eauto; lia). change (drop (Z.to_nat 0) s) with s.
    change (w_clock w) with (w_clock w1). apply loop_gives_up; [done..|lia]. }
  exists (with_out (with_plan (with_clock w2 (w_clock w2 + 1)) []) fd (wire_out w2 fd ++ s)). split.
  - unfold writeAllOrThrow. rewrite (M_bind_ok _ _ (t, w) (w_clock w) (t, w)) by done.
    rewrite (throw_loop_step _ _ _ _ _ (w_clock w) _ (t, w) (IoErr EAGAIN) (t, w2))
      by (first [done|unfold SOCKET_DATA_TRANSFER_TIMEOUT; lia]).
    change (would_block EAGAIN) with true. cbn [orb].
    rewrite (M_bind_ok _ _ (t, w2) tt (t, with_clock w2 (w_clock w2 + 1))) by done.
    rewrite (throw_loop_step _ _ _ _ _ (w_clock w + 7) _ (t, with_clock w2 (w_clock w2 + 1))
               (IoOk (len s)) (t, with_out (with_plan (with_clock w2 (w_clock w2 + 1)) []) fd
                                    (wire_out w2 fd ++ s))).
    2: done.
    2: { replace (w_clock w + 7) with (w_clock w + 6 + 1) by lia. done. }
    2: { unfold SOCKET_DATA_TRANSFER_TIMEOUT. lia. }
    2: { apply tcp_write_run. etrans; [by apply loop_all|done]. }
    case_match; b2p; [lia|]. by rewrite Nat2Z.id, drop_ge by done.
  - rewrite wire_out_with_out, decide_True by done. cbn [wire_out].
    change (wire_out w2 fd) with (wire_out w1 fd). unfold w1.
    by rewrite wire_out_with_out, decide_True, <-app_assoc by done.
Qed.
End Resent.

(** ** Concrete inputs *)

(** A handler with one active socket, on a kernel that takes three bytes and stalls. *)
Definition one_socket : Tcp.TcpSocketHandler := Tcp.mkTcp {[ 7 ]} ∅.
Definition stalling : Wire := with_plan wire0 (3%nat :: replicate 6 O).

Lemma writeAllOrThrow_sends_twice_witness :
  ∃ w', writeAllOrThrow (H := tcp_socket 8 []) 2 7 (lit "abcdefgh") true (one_socket, stalling)
          = (Ok tt, (one_socket, w')) ∧
        wire_out w' 7 = lit "abcabcdefgh".
Proof.
  apply (writeAllOrThrow_sends_twice 0 [] 7 (lit "abcdefgh") one_socket ltac:(lia)
           ltac:(set_solver) ltac:(cbn; lia) stalling 3 true); [cbn; lia|reflexivity..].
Defined.

Lemma tcp_keeps_promises_witness :
  let p := (one_socket, stalling) in
  let p' := (sh_write (SocketHandler := tcp_socket 8 []) 7 (lit "abcdefgh") p).2 in
  (sh_write (SocketHandler := tcp_socket 8 []) 7 (lit "abcdefgh") p).1 = Ok (IoErr EAGAIN) ∧
  ∃ j, xfer 7 [] (take j (lit "abcdefgh")) p p'.
Proof.
  intros p p'. split; [vm_compute; reflexivity|].
  refine (proj1 (proj1 (proj2 (tcp_keeps_promises 8 [] p p' 7)) (lit "abcdefgh")
    (Ok (IoErr EAGAIN)) _ _)); [cbn; lia|vm_compute; reflexivity].
Defined.
