(* ===== verification/Descriptors.v ===== *)
(** * Who closes a descriptor

    [KernelFds] says which system calls open and close descriptors.  Over it the
    bookkeeping of [TcpSocketHandler] and [PipeSocketHandler] is shown to be exact: what a
    handler holds is open, and what is open and not held by the handler stays as it was,
    so that no operation leaks a descriptor or closes one of somebody else; with two
    exceptions, which are shown too. *)

From S2P Require Import Prelude Sockets Wire CxxText UnixSockets TcpSockets SocketPromises.

(** A call that leaves a part of the state as it is. *)
Definition leaves {K P A} (part : K → P) (m : M K A) : Prop :=
  ∀ k, finishes m (λ _ k', part k' = part k) k.

Section Leaves.
Context {K P : Type} (part : K → P).

Lemma leaves_ret {A} (a : A) : leaves part (mret a).
Proof. intros k. by apply finishes_ret. Qed.

Lemma leaves_stop {A} e : leaves part (stop (A := A) e).
Proof. intros k. apply finishes_stop. Qed.

Lemma leaves_abort {A} why : leaves part (fatal (A := A) why).
Proof. apply leaves_stop. Qed.

Lemma leaves_bind {A B} (m : M K A) (f : A → M K B) :
  leaves part m → (∀ a, leaves part (f a)) → leaves part (m ≫= f).
Proof.
  intros Hm Hf k. apply finishes_bind. intros a k1 H1%Hm b k2 H2%Hf. congruence.
Qed.

Lemma leaves_fatal {A} (r : io_result A) : leaves part (FATAL_FAIL r).
Proof. destruct r; [apply leaves_ret|apply leaves_stop]. Qed.

Lemma leaves_fatal_einval r : leaves part (FATAL_FAIL_UNLESS_EINVAL r).
Proof. destruct r; cbn; [|case_match]; auto using leaves_ret, leaves_abort. Qed.
End Leaves.

Create HintDb fds.
#[export] Hint Resolve leaves_ret leaves_stop leaves_abort leaves_bind leaves_fatal
  leaves_fatal_einval : fds.

Class KernelFds (K : Type) `{Kernel K} := {
  open_fds : K → gset Z;
  fds_valid k : -1 ∉ open_fds k;
  fds_socket f p k r k' : k_socket f p k = (Ok r, k') →
    match r with
    | IoOk fd => (fd ∉ open_fds k) ∧ open_fds k' = {[fd]} ∪ open_fds k
    | IoErr _ => open_fds k' = open_fds k
    end;
  fds_accept fd k r k' : k_accept fd k = (Ok r, k') →
    match r with
    | IoOk fd' => (fd' ∉ open_fds k) ∧ open_fds k' = {[fd']} ∪ open_fds k
    | IoErr _ => open_fds k' = open_fds k
    end;
  fds_close fd k r k' : k_close fd k = (Ok r, k') →
    match r with
    | IoOk _ => open_fds k' = open_fds k ∖ {[fd]}
    | IoErr _ => True
    end;
  fds_select b fd s us : leaves open_fds (k_select b fd s us);
  fds_shutdown fd : leaves open_fds (k_shutdown fd);
  fds_getfl fd : leaves open_fds (k_getfl fd);
  fds_setfl fd opts : leaves open_fds (k_setfl fd opts);
  fds_sigpipe : leaves open_fds k_ignore_sigpipe;
  fds_setsockopt fd o : leaves open_fds (k_setsockopt fd o);
  fds_so_error fd : leaves open_fds (k_so_error fd);
  fds_connect fd a : leaves open_fds (k_connect fd a);
  fds_bind fd a : leaves open_fds (k_bind fd a);
  fds_listen fd n : leaves open_fds (k_listen fd n);
  fds_unlink p : leaves open_fds (k_unlink p);
  fds_chmod p : leaves open_fds (k_chmod p);
  fds_getaddrinfo h s b : leaves open_fds (k_getaddrinfo h s b);
  fds_read fd n : leaves open_fds (k_read fd n);
  fds_send fd s : leaves open_fds (k_send fd s);
  fds_time : leaves open_fds k_time;
  fds_sleep us : leaves open_fds (k_sleep us);
  fds_rand : leaves open_fds k_rand;
  fds_errno : leaves open_fds k_errno;
}.


(** ** Operations on one descriptor *)

Section Fds.
Context {K : Type} `{KernelFds K}.

Hint Resolve fds_getfl fds_setfl fds_sigpipe fds_setsockopt fds_select fds_so_error : fds.

Lemma leaves_setBlocking fd b : leaves open_fds (Unix.setBlocking fd b).
Proof. unfold Unix.setBlocking. auto 10 with fds. Qed.
Hint Resolve leaves_setBlocking : fds.

Lemma leaves_unix_init fd : leaves open_fds (Unix.initSocket fd).
Proof. unfold Unix.initSocket. auto with fds. Qed.
Hint Resolve leaves_unix_init : fds.

Lemma leaves_tcp_init fd : leaves open_fds (Tcp.initSocket fd).
Proof. unfold Tcp.initSocket. auto 10 with fds. Qed.

Lemma leaves_server_init init fd : leaves open_fds (init fd) → leaves open_fds (Unix.initServerSocket init fd).
Proof. intros. unfold Unix.initServerSocket. auto with fds. Qed.
Hint Resolve leaves_tcp_init leaves_server_init : fds.

Lemma leaves_await fd : leaves open_fds (await_connect fd).
Proof.
  unfold await_connect. apply leaves_bind; [auto with fds|]. intros r.
  case_match; auto 10 with fds.
Qed.

Lemma close_closes fd k :
  finishes (close_or_abort fd) (λ _ k', open_fds k' = open_fds k ∖ {[fd]}) k.
Proof.
  unfold close_or_abort. apply finishes_bind. intros [[]|e] k1 H1%fds_close; [|apply finishes_stop].
  by apply finishes_ret.
Qed.

Lemma close_all_closes fds k :
  finishes (close_all fds) (λ _ k', open_fds k' = open_fds k ∖ list_to_set fds) k.
Proof.
  revert k. induction fds as [|fd fds IH]; intros k; cbn [close_all list_to_set].
  - apply finishes_ret. set_solver.
  - apply finishes_bind. intros [] k1 H1%close_closes [] k2 ->%IH. rewrite H1. set_solver.
Qed.

(** The outcome of an attempt: a new descriptor, or none and nothing left open. *)
Definition opened (k : K) (r : option Z) (k' : K) : Prop :=
  match r with
  | Some fd => (fd ∉ open_fds k) ∧ open_fds k' = {[fd]} ∪ open_fds k
  | None => open_fds k' = open_fds k
  end.

(** Calls that leave the descriptors as they are can be skipped. *)
Lemma skip_call {A B} (m : M K A) (f : A → M K B) s k (Q : B → K → Prop) :
  leaves open_fds m → open_fds k = s →
  (∀ a k1, open_fds k1 = s → finishes (f a) Q k1) → finishes (m ≫= f) Q k.
Proof. intros Hm Hk Hf. apply finishes_bind. intros a k1 H1%Hm. apply Hf. congruence. Qed.
End Fds.

#[export] Hint Resolve leaves_setBlocking leaves_unix_init leaves_tcp_init leaves_server_init leaves_await : fds.
#[export] Hint Resolve fds_getfl fds_setfl fds_sigpipe fds_setsockopt fds_select fds_so_error
  fds_read fds_send fds_time fds_sleep fds_rand fds_shutdown fds_connect fds_bind fds_listen fds_unlink fds_chmod fds_getaddrinfo fds_errno : fds.

(** [skip x k]: the next call leaves the descriptors as they are. *)
Tactic Notation "skip" simple_intropattern(x) ident(k) :=
  eapply skip_call; [solve [auto with fds]|eassumption|];
  let Hk := fresh "Hk" in intros x k Hk; cbv beta zeta.

(** The next test of the code, whatever it looks at. *)
Ltac branch := match goal with |- finishes (if ?b then _ else _) _ _ => destruct b end.

Section Attempts.
Context {K : Type} `{KernelFds K}.

(** A descriptor that is not needed after all. *)
Lemma fail_opened fd k k1 :
  (fd ∉ open_fds k) → open_fds k1 = {[fd]} ∪ open_fds k →
  finishes (_ ← close_or_abort fd; mret None) (opened k) k1.
Proof.
  intros Hnew H1. apply finishes_bind. intros [] k2 H2%close_closes.
  apply finishes_ret. cbn. set_solver.
Qed.

Lemma try_address_opens p k : finishes (Tcp.try_address p) (opened k) k.
Proof.
  unfold Tcp.try_address. apply finishes_bind. intros [fd|e] k1 Hs%fds_socket; [|by apply finishes_ret].
  destruct Hs as [Hnew Hk1]. skip _ k2. skip c k3. branch; [skip _ k4; by eapply fail_opened|].
  skip so k4. destruct so as [so|]; [|by eapply fail_opened].
  skip _ k5. branch; [by apply finishes_ret|by eapply fail_opened].
Qed.

Lemma connect_loop_opens ps k : finishes (Tcp.connect_loop ps) (opened k) k.
Proof.
  revert k. induction ps as [|p ps IH]; intros k; cbn [Tcp.connect_loop]; [by apply finishes_ret|].
  apply finishes_bind. intros r k1 Hr%try_address_opens. destruct r as [fd|]; [by apply finishes_ret|].
  eapply finishes_mono; [apply IH|]. intros [fd|] k2; unfold opened; cbn in Hr; by rewrite Hr.
Qed.

Lemma connect_path_opens path k : finishes (Pipe.connect_path path) (opened k) k.
Proof.
  unfold Pipe.connect_path. apply finishes_bind. intros [fd|e] k1 Hs%fds_socket; [|apply finishes_stop].
  destruct Hs as [Hnew Hk1]. cbn [FATAL_FAIL].
  match goal with |- finishes (mret fd ≫= ?f) _ _ => change (finishes (f fd) (opened k) k1); cbv beta end.
  skip _ k2. skip c k3. branch; [skip _ k4; by eapply fail_opened|].
  skip so k4. destruct so as [so|]; [|by eapply fail_opened].
  branch; [skip _ k5; by apply finishes_ret|by eapply fail_opened].
Qed.

Lemma listen_address_opens p k : finishes (Tcp.listen_address p) (opened k) k.
Proof.
  unfold Tcp.listen_address. apply finishes_bind. intros [fd|e] k1 Hs%fds_socket; [|by apply finishes_ret].
  destruct Hs as [Hnew Hk1]. skip _ k2.
  eapply skip_call; [case_match; auto with fds|eassumption|]. intros _ k3 Hk3.
  skip b k4. destruct b as [[]|e].
  - skip r k5. skip _ k6. by apply finishes_ret.
  - apply finishes_bind. intros [] k5 _. apply finishes_stop.
Qed.

(** [listen] on all addresses: what it returns are exactly the sockets it has opened. *)
Lemma listen_loop_opens ps seen acc k :
  finishes (Tcp.listen_loop ps seen acc)
    (λ fds k', ∃ new, new ## open_fds k ∧ open_fds k' = new ∪ open_fds k ∧ fds = new ∪ acc) k.
Proof.
  revert seen acc k. induction ps as [|p ps IH]; intros seen acc k; cbn [Tcp.listen_loop].
  { apply finishes_ret. exists ∅. split_and!; set_solver. }
  case_bool_decide; [apply IH|].
  apply finishes_bind. intros r k1 Hr%listen_address_opens fds k2 (new & Hd & Hk2 & ->)%IH.
  rewrite Hk2. destruct r as [fd|]; cbn in Hr.
  - destruct Hr as [Hnew Hr]. rewrite Hr in *. exists ({[fd]} ∪ new). split_and!; set_solver.
  - rewrite Hr in *. by exists new.
Qed.
End Attempts.

(** ** The books of a handler *)

(** What a handler keeps: the active sockets, and the server sockets of each endpoint. *)
Section Books.
Context {Key : Type} `{Countable Key}.
Implicit Types (act open : gset Z) (srv : gmap Key (gset Z)).

Definition holds act srv (fd : Z) : Prop :=
  fd ∈ act ∨ ∃ e fds, srv !! e = Some fds ∧ fd ∈ fds.

(** All that is held is open, and held once. *)
Record sound act srv open : Prop := {
  held_open fd : holds act srv fd → fd ∈ open;
  held_apart e fds : srv !! e = Some fds → act ## fds;
  held_once e e' fds fds' : srv !! e = Some fds → srv !! e' = Some fds' → e ≠ e' → fds ## fds';
}.

(** Open, but not held by this handler. *)
Definition stray act srv open (fd : Z) : Prop := fd ∈ open ∧ ¬ holds act srv fd.

(** The books stay sound, and nothing is leaked or closed for somebody else. *)
Definition balanced act srv open act' srv' open' : Prop :=
  sound act' srv' open' ∧ ∀ fd, stray act' srv' open' fd ↔ stray act srv open fd.

Lemma balanced_refl act srv open : sound act srv open → balanced act srv open act srv open.
Proof. by split. Qed.

Lemma balanced_open act srv open fd :
  sound act srv open → (fd ∉ open) → balanced act srv open ({[fd]} ∪ act) srv ({[fd]} ∪ open).
Proof.
  intros [Ho Ha Hn] Hfd.
  assert (∀ fd', holds ({[fd]} ∪ act) srv fd' ↔ fd' = fd ∨ holds act srv fd') as Hh
    by (unfold holds; set_solver).
  split; [split|].
  - intros fd'. rewrite Hh. set_solver.
  - intros e fds He. assert (fd ∉ fds) by (intros ?; apply Hfd, Ho; right; eauto).
    specialize (Ha e fds He). set_solver.
  - done.
  - intros fd'. unfold stray. rewrite Hh. specialize (Ho fd'). set_solver.
Qed.

Lemma balanced_close act srv open fd :
  sound act srv open → fd ∈ act → balanced act srv open (act ∖ {[fd]}) srv (open ∖ {[fd]}).
Proof.
  intros [Ho Ha Hn] Hfd.
  assert (∀ fd', holds (act ∖ {[fd]}) srv fd' ↔ fd' ≠ fd ∧ holds act srv fd') as Hh.
  { intros fd'. unfold holds. split; [|set_solver]. intros [?|(e & fds & He & ?)]; [set_solver|].
    split; [|eauto]. specialize (Ha e fds He). set_solver. }
  split; [split|].
  - intros fd' [? ?%Ho]%Hh. set_solver.
  - intros e fds He%Ha. set_solver.
  - done.
  - intros fd'. unfold stray. rewrite Hh. pose proof (Ho fd (or_introl Hfd)).
    destruct (decide (fd' = fd)) as [->|]; [|set_solver]. split; [set_solver|].
    intros [_ []]. by left.
Qed.

Lemma balanced_listen act srv open e fds :
  sound act srv open → srv !! e = None → fds ## open →
  balanced act srv open act (<[e := fds]> srv) (fds ∪ open).
Proof.
  intros [Ho Ha Hn] He Hfds.
  assert (∀ fd, holds act (<[e := fds]> srv) fd ↔ fd ∈ fds ∨ holds act srv fd) as Hh.
  { intros fd. unfold holds. setoid_rewrite lookup_insert_Some. split.
    - intros [?|(e' & fds' & [[<- <-]|[? ?]] & ?)]; eauto 6.
    - intros [?|[?|(e' & fds' & He' & ?)]]; [|by left|]; right; [exists e, fds; auto|].
      exists e', fds'. split; [right; split; congruence|done]. }
  split; [split|].
  - intros fd. rewrite Hh. set_solver.
  - intros e' fds' [[<- <-]|[_ ?%Ha]]%lookup_insert_Some; [|done].
    intros fd ??. apply (Hfds fd); [done|]. by apply Ho; left.
  - assert (∀ e' fds', srv !! e' = Some fds' → fds ## fds') as Hnew.
    { intros e' fds' He' fd ??. apply (Hfds fd); [done|]. apply Ho; right; eauto. }
    intros e1 e2 fds1 fds2 [[<- <-]|[? H1]]%lookup_insert_Some [[<- <-]|[? H2]]%lookup_insert_Some ?;
      [done|by eapply Hnew|symmetry; by eapply Hnew|by eapply (Hn e1 e2)].
  - intros fd. unfold stray. rewrite Hh. specialize (Ho fd). set_solver.
Qed.

Lemma balanced_stop act srv open e fds :
  sound act srv open → srv !! e = Some fds →
  balanced act srv open act (delete e srv) (open ∖ fds).
Proof.
  intros [Ho Ha Hn] He.
  assert (∀ fd, holds act (delete e srv) fd ↔ (fd ∉ fds) ∧ holds act srv fd) as Hh.
  { intros fd. unfold holds. setoid_rewrite lookup_delete_Some. split.
    - intros [?|(e' & fds' & [? He'] & ?)]; (split; [|unfold holds; eauto]); intros ?.
      + by apply (Ha e fds He fd).
      + by apply (Hn e e' fds fds' He He' ltac:(done) fd).
    - intros [? [?|(e' & fds' & He' & ?)]]; [by left|right]. exists e', fds'. split_and!; [|done..].
      intros <-. by simplify_eq. }
  split; [split|].
  - intros fd [? ?%Ho]%Hh. set_solver.
  - intros e' fds' [? ?%Ha]%lookup_delete_Some. done.
  - intros e1 e2 fds1 fds2 [? H1]%lookup_delete_Some [? H2]%lookup_delete_Some. eauto.
  - intros fd. unfold stray. rewrite Hh, elem_of_difference.
    assert (fd ∈ fds → holds act srv fd) by (right; eauto).
    destruct (decide (fd ∈ fds)); tauto.
Qed.
End Books.

(** ** The methods of [UnixSocketHandler] *)

Lemma finishes_get {S W A} (f : S → M (S * W) A) (Q : A → S * W → Prop) s w :
  finishes (f s) Q (s, w) → finishes (on_fst get ≫= f) Q (s, w).
Proof. intros Hf r p'. by rewrite run_fst_get; apply Hf. Qed.

Section UnixSteps.
Context {K : Type} `{KernelFds K}.

(** What a method does to the active sockets and to the descriptors. *)
Inductive unix_step (u : gset Z) (k : K) : gset Z → K → Prop :=
| step_same k' : open_fds k' = open_fds k → unix_step u k u k'
| step_open fd k' : (fd ∉ open_fds k) → open_fds k' = {[fd]} ∪ open_fds k →
    unix_step u k ({[fd]} ∪ u) k'
| step_close fd k' : fd ∈ u → open_fds k' = open_fds k ∖ {[fd]} → unix_step u k (u ∖ {[fd]}) k'.

Lemma unix_step_balanced {Key} `{Countable Key} (srv : gmap Key (gset Z)) u k u' k' :
  sound u srv (open_fds k) → unix_step u k u' k' →
  balanced u srv (open_fds k) u' srv (open_fds k').
Proof.
  intros Hs [k1 ->|fd k1 ? ->|fd k1 ? ->];
    auto using balanced_refl, balanced_open, balanced_close.
Qed.

Lemma wait_leaves fd sec usec : leaves open_fds (Unix.waitForData fd sec usec).
Proof.
  unfold Unix.waitForData. apply leaves_bind; [auto with fds|]. intros n.
  repeat case_match; auto with fds.
Qed.

Lemma write_loop_leaves fuel fd s st bw : leaves open_fds (Unix.write_loop fuel fd s st bw).
Proof.
  revert bw. induction fuel as [|fuel IH]; intros bw; cbn [Unix.write_loop]; case_match; auto with fds.
  apply leaves_bind; [auto with fds|]. intros [n|e]; [done|]. case_match; [|auto with fds].
  repeat (apply leaves_bind; [by auto with fds|intros ?]). case_match; auto with fds.
Qed.

(** A method that only runs system calls. *)
Lemma on_snd_same {S A} (m : M K A) (s : S) k :
  leaves open_fds m →
  finishes (on_snd m) (λ _ p', p'.1 = s ∧ open_fds p'.2 = open_fds k) (s, k).
Proof. intros Hm. apply finishes_on_snd. intros a k' E%Hm. by split. Qed.

Lemma read_same fd n u k :
  finishes (Unix.read fd n) (λ _ p', p'.1 = u ∧ open_fds p'.2 = open_fds k) (u, k).
Proof.
  unfold Unix.read. case_match; [apply finishes_stop|]. apply finishes_get.
  case_bool_decide; [|by apply finishes_ret]. apply finishes_bind, finishes_on_snd.
  intros b k1 E%wait_leaves. rewrite <-E. apply on_snd_same. auto with fds.
Qed.

Lemma write_same fuel fd s u k :
  finishes (Unix.write fuel fd s) (λ _ p', p'.1 = u ∧ open_fds p'.2 = open_fds k) (u, k).
Proof.
  unfold Unix.write. case_match; [apply finishes_stop|]. apply finishes_get.
  case_bool_decide; [|by apply finishes_ret]. apply finishes_bind, finishes_on_snd.
  intros t k1 E%fds_time. rewrite <-E. apply on_snd_same, write_loop_leaves.
Qed.

Lemma close_step fd u k : finishes (Unix.close fd) (λ _ p', unix_step u k p'.1 p'.2) (u, k).
Proof.
  unfold Unix.close. apply finishes_get.
  case_match; [by apply finishes_ret, step_same|].
  case_bool_decide; [|by apply finishes_ret, step_same].
  apply finishes_bind, finishes_on_snd. intros _ k1 E1%leaves_setBlocking.
  apply finishes_bind, finishes_on_snd. intros [[]|e] k2 E2%fds_close; [|apply finishes_stop].
  intros [] p' [= <-]. apply step_close; [done|]. cbn. by rewrite E2, E1.
Qed.

(** The number that [accept] is given is not in use, so it never waits; a failed [accept]
    is no exception. *)
Lemma accept_step init env fd u k :
  (∀ fd, leaves open_fds (init fd)) → u ⊆ open_fds k →
  finishes (Unix.accept init env fd) (λ _ p', unix_step u k p'.1 p'.2) (u, k).
Proof.
  intros Hinit Hu. unfold Unix.accept.
  apply finishes_bind, finishes_on_snd. intros r k1 Hr%fds_accept. cbv zeta.
  assert (match r with IoOk fd => fd | IoErr _ => -1 end ∉ u) as Hnew.
  { destruct r as [fd'|e]; [set_solver|]. intros ?%Hu. by apply (fds_valid k). }
  apply finishes_bind.
  assert (∀ c, c ∉ u → Unix.wait_inactive env c (u, k1) = (Ok tt, (u, k1))) as Hw.
  { intros c Hc. destruct env; cbn [Unix.wait_inactive]; rewrite run_fst_get;
      by rewrite bool_decide_false by done. }
  intros [] p1. rewrite Hw by done. intros [= <-]. destruct r as [fd'|e].
  - destruct Hr as [Hfd' Hk1]. apply finishes_bind. unfold Unix.addToActiveSockets.
    apply finishes_get. case_bool_decide; [done|]. intros [] p2 [= <-]. cbn.
    apply finishes_bind, finishes_on_snd. intros [] k2 E2%Hinit. apply finishes_ret.
    apply step_open; [done|]. cbn. by rewrite E2.
  - case_match; [by apply finishes_ret, step_same|apply finishes_stop].
Qed.
End UnixSteps.

(** ** [TcpSocketHandler] *)

Lemma finishes_zoom {S T A} (g : S → T) (f : T → S → S) (m : M T A) (Q : A → S → Prop) s :
  finishes m (λ a t, Q a (f t s)) (g s) → finishes (zoom g f m) Q s.
Proof.
  intros Hm a s'. unfold zoom. destruct (m (g s)) as [r t] eqn:E. intros [= -> <-]. by apply Hm.
Qed.

(** The parts of a handler that are about descriptors. *)
Class Keeper (T Key : Type) `{Countable Key} := {
  held_active : T → gset Z;
  held_servers : T → gmap Key (gset Z);
  with_active : gset Z → T → T;
  with_active_active u t : held_active (with_active u t) = u;
  with_active_servers u t : held_servers (with_active u t) = held_servers t;
}.

Section KeeperBooks.
Context {K T Key : Type} `{KernelFds K} `{Keeper T Key}.
Implicit Types (p : T * K).

Definition books_sound p : Prop := sound (held_active p.1) (held_servers p.1) (open_fds p.2).
Definition books_balanced p p' : Prop :=
  balanced (held_active p.1) (held_servers p.1) (open_fds p.2)
    (held_active p'.1) (held_servers p'.1) (open_fds p'.2).

Lemma books_same p p' :
  books_sound p → p'.1 = p.1 → open_fds p'.2 = open_fds p.2 → books_balanced p p'.
Proof. unfold books_balanced. intros Hs -> ->. by apply balanced_refl. Qed.

Lemma books_system {A} (m : M K A) p :
  books_sound p → leaves open_fds m → finishes (on_snd m) (λ _ p', books_balanced p p') p.
Proof.
  intros Hs Hm. destruct p as [t k]. eapply finishes_mono; [by apply on_snd_same|].
  intros ? p' [H3 H4]. by apply books_same.
Qed.

Lemma books_unix {A} (m : M (Unix.UnixSocketHandler * K) A) p :
  books_sound p →
  finishes m (λ _ q, unix_step (held_active p.1) p.2 q.1 q.2) (held_active p.1, p.2) →
  finishes (zoom (λ p, (held_active p.1, p.2)) (λ u p, (with_active u.1 p.1, u.2)) m)
    (λ _ p', books_balanced p p') p.
Proof.
  intros Hs Hm. apply finishes_zoom. eapply finishes_mono; [exact Hm|].
  intros ? q Hq. unfold books_balanced. cbn [fst snd].
  rewrite with_active_active, with_active_servers. by apply unix_step_balanced.
Qed.

Lemma books_unix_same {A} (m : M (Unix.UnixSocketHandler * K) A) p :
  books_sound p →
  finishes m (λ _ q, q.1 = held_active p.1 ∧ open_fds q.2 = open_fds p.2) (held_active p.1, p.2) →
  finishes (zoom (λ p, (held_active p.1, p.2)) (λ u p, (with_active u.1 p.1, u.2)) m)
    (λ _ p', books_balanced p p') p.
Proof.
  intros Hs Hm. apply books_unix; [done|]. eapply finishes_mono; [exact Hm|].
  intros ? [u k] [Hu ?]. cbn in *. subst u. by apply step_same.
Qed.

(** A new connection becomes active. *)
Lemma books_add fd t k k' :
  books_sound (t, k) → (fd ∉ open_fds k) → open_fds k' = {[fd]} ∪ open_fds k →
  finishes (zoom (λ p, (held_active p.1, p.2)) (λ u p, (with_active u.1 p.1, u.2))
              (Unix.addToActiveSockets fd)) (λ _ p', books_balanced (t, k) p') (t, k').
Proof.
  intros Hs Hnew E. apply finishes_zoom. unfold Unix.addToActiveSockets. apply finishes_get.
  case_bool_decide; [apply finishes_stop|]. intros [] q [= <-].
  unfold books_balanced. cbn [fst snd]. rewrite with_active_active, with_active_servers, E.
  by apply balanced_open.
Qed.
End KeeperBooks.

#[export] Instance tcp_keeper : Keeper Tcp.TcpSocketHandler Z := {|
  held_active := Tcp.active;
  held_servers := Tcp.portServerSockets;
  with_active := Tcp.set_active;
  with_active_active u t := eq_refl;
  with_active_servers u t := eq_refl;
|}.

#[export] Instance pipe_keeper : Keeper Pipe.PipeSocketHandler str := {|
  held_active := Pipe.active;
  held_servers := Pipe.pipeServerSockets;
  with_active := Pipe.set_active;
  with_active_active u t := eq_refl;
  with_active_servers u t := eq_refl;
|}.

Section TcpBooks.
Context {K : Type} `{KernelFds K}.
Import Tcp.
Implicit Types (p : TcpSocketHandler * K).

Lemma tcp_connect_balanced e p : books_sound p → finishes (connect e) (λ _ p', books_balanced p p') p.
Proof.
  intros Hs. destruct p as [t k]. unfold connect.
  apply finishes_bind, finishes_on_snd. intros info k1 E1%fds_getaddrinfo.
  case_match; [by apply finishes_ret, books_same|]. case_match; [by apply finishes_ret, books_same|].
  apply finishes_bind, finishes_on_snd. intros r k2 E2%connect_loop_opens.
  destruct r as [fd|]; cbn in E2; rewrite E1 in E2; [|by apply finishes_ret, books_same].
  destruct E2 as [Hnew E2].
  apply finishes_bind, finishes_on_snd. intros [] k3 E3%leaves_tcp_init.
  apply finishes_bind. apply (finishes_mono _ (λ _ p', books_balanced (t, k) p')).
  { refine (books_add fd t k k3 Hs Hnew _). congruence. }
  intros [] p' Hp'. by apply finishes_ret.
Qed.

Lemma tcp_listen_balanced e p : books_sound p → finishes (listen e) (λ _ p', books_balanced p p') p.
Proof.
  intros Hs. destruct p as [t k]. unfold listen. apply finishes_get. cbv zeta.
  case_match eqn:Hport; [apply finishes_stop|].
  apply finishes_bind, finishes_on_snd. intros info k1 E1%fds_getaddrinfo.
  case_match; [apply finishes_stop|].
  apply finishes_bind, finishes_on_snd. intros fds k2 (new & Hnew & E2 & ->)%listen_loop_opens.
  case_bool_decide; [apply finishes_stop|]. intros r p'. rewrite run_fst_modify. intros [= _ <-].
  unfold books_balanced. cbn. rewrite E2, E1, (right_id_L ∅ (∪)).
  apply balanced_listen; [done..|]. by rewrite <-E1.
Qed.

Lemma in_fd_order_set (s : gset Z) : list_to_set (in_fd_order s) = s.
Proof.
  unfold in_fd_order. apply leibniz_equiv. intros fd.
  rewrite elem_of_list_to_set, (sorting.merge_sort_Permutation Z.le). by rewrite elem_of_elements.
Qed.

Lemma tcp_stop_balanced e p : books_sound p → finishes (stopListening e) (λ _ p', books_balanced p p') p.
Proof.
  intros Hs. destruct p as [t k]. unfold stopListening. apply finishes_get.
  case_match eqn:Hport; [|apply finishes_stop].
  apply finishes_bind, finishes_on_snd. intros [] k1 E1%close_all_closes.
  rewrite in_fd_order_set in E1. intros [] p' [= <-].
  unfold books_balanced. cbn. rewrite E1. by apply balanced_stop.
Qed.

Lemma tcp_fds_balanced e p : books_sound p → finishes (getEndpointFds e) (λ _ p', books_balanced p p') p.
Proof.
  intros Hs. destruct p as [t k]. unfold getEndpointFds. apply finishes_get.
  case_match; [by apply finishes_ret, books_same|apply finishes_stop].
Qed.

Lemma or_errno_balanced (m : M (TcpSocketHandler * K) Z) p :
  finishes m (λ _ p', books_sound p' ∧ books_balanced p p') p →
  finishes (or_errno m) (λ _ p', books_balanced p p') p.
Proof.
  intros Hm. unfold or_errno. apply finishes_bind. eapply finishes_mono; [exact Hm|].
  intros r [t k] [Hs Hb]. case_match; [|by apply finishes_ret].
  apply finishes_bind, finishes_on_snd. intros e k1 E%fds_errno. apply finishes_ret.
  unfold books_balanced in *. cbn in *. by rewrite E.
Qed.

(** C24. The descriptors of [TcpSocketHandler].  When all that the handler holds (active
    sockets and the server sockets of each port) is open and held once, this is so again
    after every method that returns, whichever system calls failed on the way; and the
    descriptors that are open without being held by the handler are the same as before.  So
    a connection attempt over any list of addresses leaks no descriptor, and no method
    closes a descriptor of another part of the program. *)
Theorem tcp_no_descriptor_leaks fuel env p :
  books_sound p →
  let handler := tcp_socket (K := K) fuel env in
  (∀ e, finishes (sh_connect e) (λ _ p', books_balanced p p') p) ∧
  (∀ e, finishes (sh_listen e) (λ _ p', books_balanced p p') p) ∧
  (∀ e, finishes (sh_stopListening e) (λ _ p', books_balanced p p') p) ∧
  (∀ e, finishes (sh_getEndpointFds e) (λ _ p', books_balanced p p') p) ∧
  (∀ fd, finishes (sh_accept fd) (λ _ p', books_balanced p p') p) ∧
  (∀ fd, finishes (sh_close fd) (λ _ p', books_balanced p p') p) ∧
  (∀ fd n, finishes (sh_read fd n) (λ _ p', books_balanced p p') p) ∧
  (∀ fd s, finishes (sh_write fd s) (λ _ p', books_balanced p p') p) ∧
  (∀ fd, finishes (sh_hasData fd) (λ _ p', books_balanced p p') p).
Proof.
  intros Hs. cbn. split_and!; intros.
  - apply or_errno_balanced. eapply finishes_mono; [by apply tcp_connect_balanced|].
    intros r p' Hb. by split; [apply Hb|].
  - apply finishes_bind. eapply finishes_mono; [by apply tcp_listen_balanced|].
    intros r p' Hb. by apply finishes_ret.
  - by apply tcp_stop_balanced.
  - apply finishes_bind. eapply finishes_mono; [by apply tcp_fds_balanced|].
    intros r p' Hb. by apply finishes_ret.
  - apply (books_unix _ _ Hs), accept_step; [apply leaves_tcp_init|].
    intros fd' ?. apply (held_open _ _ _ Hs). by left.
  - apply (books_unix _ _ Hs), close_step.
  - apply (books_unix_same _ _ Hs), read_same.
  - apply (books_unix_same _ _ Hs), write_same.
  - apply (books_system _ _ Hs), wait_leaves.
Qed.
End TcpBooks.

(** ** [PipeSocketHandler] *)

Section PipeBooks.
Context {K : Type} `{KernelFds K}.
Import Pipe.
Implicit Types (p : PipeSocketHandler * K).

Lemma listen_path_opens path k :
  finishes (listen_path path)
    (λ fd k', (fd ∉ open_fds k) ∧ open_fds k' = {[fd]} ∪ open_fds k) k.
Proof.
  unfold listen_path. apply finishes_bind. intros [fd|e] k1 Hs%fds_socket; [|apply finishes_stop].
  destruct Hs as [Hnew Hk1]. cbn [FATAL_FAIL].
  match goal with |- finishes (mret fd ≫= ?f) ?Q _ => change (finishes (f fd) Q k1); cbv beta end.
  skip _ k2. branch; [apply finishes_stop|].
  skip _ k3. skip b k4. skip _ k5. skip l k6. skip c k7. skip _ k8. by apply finishes_ret.
Qed.

(** The same for [PipeSocketHandler]'s [connect] and [listen] and what it inherits. *)
Theorem pipe_no_descriptor_leaks fuel env p :
  books_sound p →
  (∀ e, finishes (connect e) (λ _ p', books_balanced p p') p) ∧
  (∀ e, finishes (listen e) (λ _ p', books_balanced p p') p) ∧
  (∀ fd, finishes (on_unix (Unix.accept Unix.initSocket env fd)) (λ _ p', books_balanced p p') p) ∧
  (∀ fd, finishes (on_unix (Unix.close fd)) (λ _ p', books_balanced p p') p) ∧
  (∀ fd n, finishes (on_unix (Unix.read fd n)) (λ _ p', books_balanced p p') p) ∧
  (∀ fd s, finishes (on_unix (Unix.write fuel fd s)) (λ _ p', books_balanced p p') p).
Proof.
  intros Hs. split_and!; intros.
  - destruct p as [t k]. unfold connect. apply finishes_bind, finishes_on_snd.
    intros r k1 E1%connect_path_opens. destruct r as [fd|]; cbn in E1; [|by apply finishes_ret, books_same].
    destruct E1 as [Hnew E1]. apply finishes_bind.
    apply (finishes_mono _ (λ _ p', books_balanced (t, k) p')); [by refine (books_add fd t k k1 Hs Hnew _)|].
    intros [] p' Hp'. by apply finishes_ret.
  - destruct p as [t k]. unfold listen. apply finishes_get. cbv zeta.
    case_match eqn:Hpath; [apply finishes_stop|].
    apply finishes_bind, finishes_on_snd. intros fd k1 [Hnew E1]%listen_path_opens.
    intros r p'. rewrite run_fst_modify. intros [= _ <-]. unfold books_balanced. cbn. rewrite E1.
    apply balanced_listen; [done..|]. set_solver.
  - apply (books_unix _ _ Hs), accept_step; [apply leaves_unix_init|].
    intros fd' ?. apply (held_open _ _ _ Hs). by left.
  - apply (books_unix _ _ Hs), close_step.
  - apply (books_unix_same _ _ Hs), read_same.
  - apply (books_unix_same _ _ Hs), write_same.
Qed.

(** [PipeSocketHandler::stopListening] closes the server socket but keeps the entry of
    the path: the state of the handler does not change, its books are wrong from then on
    (it holds a descriptor that is not open), listening on the path again throws "Tried to
    listen twice on the same path", and stopping again closes the same number a second
    time, whoever owns it by then.  ([TcpSocketHandler::stopListening] erases its entry.) *)
Theorem pipe_stopListening_keeps_path e s k s' k' :
  stopListening e (s, k) = (Ok tt, (s', k')) →
  s' = s ∧ ¬ books_sound (s', k') ∧
  (∀ k2, listen e (s', k2) =
     (Stop (Throw (Exn RuntimeError "Tried to listen twice on the same path")), (s', k2))) ∧
  ∃ fd, open_fds k' = open_fds k ∖ {[fd]} ∧
        ∀ k2 k3, stopListening e (s', k2) = (Ok tt, (s', k3)) → open_fds k3 = open_fds k2 ∖ {[fd]}.
Proof.
  unfold stopListening. rewrite run_fst_get.
  destruct (pipeServerSockets s !! name_of_endpoint e) as [fds|] eqn:Hpath; [|done].
  destruct (in_fd_order fds) as [|fd l] eqn:Hfds; [done|].
  intros [Hrun Hs']%on_snd_inv. cbn in Hrun, Hs'. subst s'. apply close_closes in Hrun.
  split_and!; [done| | |exists fd; split; [done|]].
  - intros Hs. assert (fd ∈ open_fds k') as Hin; [|rewrite Hrun in Hin; set_solver].
    apply (held_open _ _ _ Hs). right. exists (name_of_endpoint e), fds. split; [done|].
    rewrite <-(in_fd_order_set fds), Hfds. set_solver.
  - intros k2. unfold listen. rewrite run_fst_get. cbv zeta. by rewrite Hpath.
  - intros k2 k3. rewrite run_fst_get, Hpath, Hfds. intros [Hrun2 _]%on_snd_inv.
    by apply close_closes in Hrun2.
Qed.
End PipeBooks.

(** ** A kernel to run on *)

(** A table of descriptors; which calls of [connect] and [bind] succeed is given. *)
Record FdWorld := mkFds { fw_open : gset Z; fw_answers : list bool }.

Definition next_fd (s : gset Z) : Z := 1 + foldr Z.max 2 (elements s).

Definition new_fd : M FdWorld (io_result Z) := λ w,
  let fd := next_fd (fw_open w) in (Ok (IoOk fd), mkFds ({[fd]} ∪ fw_open w) (fw_answers w)).

Definition answer (e : Z) : M FdWorld (io_result unit) := λ w,
  match fw_answers w with
  | false :: l => (Ok (IoErr e), mkFds (fw_open w) l)
  | l => (Ok (IoOk tt), mkFds (fw_open w) (tail l))
  end.

Definition close_fd (fd : Z) : M FdWorld (io_result unit) := λ w,
  if bool_decide (fd ∈ fw_open w)
  then (Ok (IoOk tt), mkFds (fw_open w ∖ {[fd]}) (fw_answers w))
  else (Ok (IoErr EBADF), w).

#[export] Instance FdKernel : Kernel FdWorld := {|
  k_select b fd sec usec := mret (mkSelect 1 true 0);
  k_read fd n := mret (IoOk []);
  k_send fd s := mret (IoOk (len s));
  k_accept fd := new_fd;
  k_close := close_fd;
  k_shutdown fd := mret tt;
  k_getfl fd := mret (IoOk 0);
  k_setfl fd opts := mret (IoOk tt);
  k_ignore_sigpipe := mret tt;
  k_setsockopt fd o := mret (IoOk tt);
  k_so_error fd := mret (IoOk 0);
  k_socket f p := new_fd;
  k_connect fd a := answer ECONNREFUSED;
  k_bind fd a := answer EINVAL;
  k_listen fd n := mret (IoOk tt);
  k_unlink p := mret tt;
  k_chmod p := mret (IoOk tt);
  k_getaddrinfo h s b := mret (0, [mkAddrinfo 2 6 (lit "a"); mkAddrinfo AF_INET6 6 (lit "b")]);
  k_errno := mret ECONNREFUSED;
  k_time := mret 0;
  k_sleep us := mret tt;
  k_rand := mret 0;
|}.

Lemma next_fd_new s : next_fd s ∉ s.
Proof.
  unfold next_fd. rewrite <-elem_of_elements. intros Hin.
  assert (∀ l x, x ∈ l → x <= foldr Z.max 2 l) as Hmax.
  { induction l as [|y l IH]; intros x; [by intros ?%not_elem_of_nil|].
    cbn. intros [->|?%IH]%elem_of_cons; lia. }
  apply Hmax in Hin. lia.
Qed.

Lemma next_fd_pos s : 3 <= next_fd s.
Proof. unfold next_fd. induction (elements s); cbn; lia. Qed.

(** The table, less the number that stands for no descriptor. *)
Definition fw_fds (w : FdWorld) : gset Z := fw_open w ∖ {[-1]}.

Lemma new_fd_spec w r w' :
  new_fd w = (Ok r, w') →
  match r with
  | IoOk fd => (fd ∉ fw_fds w) ∧ fw_fds w' = {[fd]} ∪ fw_fds w
  | IoErr _ => fw_fds w' = fw_fds w
  end.
Proof.
  intros [= <- <-]. unfold fw_fds. cbn. pose proof (next_fd_new (fw_open w)).
  pose proof (next_fd_pos (fw_open w)). split; [set_solver|].
  rewrite difference_union_distr_l_L. f_equal. apply difference_disjoint_L.
  apply disjoint_singleton_l. intros ?%elem_of_singleton. lia.
Qed.

Lemma close_fd_spec fd w r w' :
  close_fd fd w = (Ok r, w') →
  match r with IoOk _ => fw_fds w' = fw_fds w ∖ {[fd]} | IoErr _ => True end.
Proof.
  unfold close_fd, fw_fds. case_bool_decide; intros [= <- <-]; [|done]. cbn. set_solver.
Qed.

Lemma answer_leaves e : leaves fw_fds (answer e).
Proof. intros w r w'. unfold answer. destruct (fw_answers w) as [|[] l]; by intros [= <- <-]. Qed.

#[export] Instance FdKernelFds : KernelFds FdWorld.
Proof.
  refine {| open_fds := fw_fds |}; intros;
    first [apply leaves_ret|apply answer_leaves|by apply new_fd_spec|by eapply close_fd_spec
          |unfold fw_fds; set_solver].
Defined.

Lemma listen_address_binds p open answers :
  Tcp.listen_address p (mkFds open (true :: answers)) =
    (Ok (Some (next_fd open)), mkFds ({[next_fd open]} ∪ open) answers).
Proof.
  unfold Tcp.listen_address. by destruct (ai_family p =? AF_INET6).
Qed.

Lemma listen_address_refused p open answers :
  Tcp.listen_address p (mkFds open (false :: answers)) =
    (Stop (Throw (Exn RuntimeError "Error binding port")), mkFds open answers).
Proof.
  set (opened := mkFds ({[next_fd open]} ∪ open) answers).
  assert (k_close (next_fd open) opened = (Ok (IoOk tt), mkFds open answers)) as Hclose.
  { cbn. unfold close_fd. cbn [fw_open fw_answers opened].
    rewrite bool_decide_true by set_solver. pose proof (next_fd_new open).
    repeat f_equal. set_solver. }
  unfold Tcp.listen_address.
  rewrite (M_bind_ok _ _ _ (IoOk (next_fd open))
             (mkFds ({[next_fd open]} ∪ open) (false :: answers))) by done.
  rewrite (M_bind_ok _ _ _ tt (mkFds ({[next_fd open]} ∪ open) (false :: answers))) by done.
  rewrite (M_bind_ok _ _ _ tt (mkFds ({[next_fd open]} ∪ open) (false :: answers)))
    by by destruct (_ =? _).
  rewrite (M_bind_ok _ _ _ (IoErr EINVAL) opened) by done.
  unfold close_or_abort. by rewrite !M_bind_stop_inv, Hclose.
Qed.

(** [TcpSocketHandler::listen] forgets the sockets it has opened when a later address
    cannot be bound.  With two addresses of which the second cannot be bound, [listen]
    throws, the handler is as before, and the socket bound to the first address stays open:
    no entry names it, so nothing will ever accept from it or close it. *)
Theorem tcp_listen_forgets_sockets e t open answers :
  Tcp.portServerSockets t !! port_of_endpoint e = None →
  Tcp.listen e (t, mkFds open (true :: false :: answers)) =
    (Stop (Throw (Exn RuntimeError "Error binding port")),
     (t, mkFds ({[next_fd open]} ∪ open) answers)).
Proof.
  intros Hport. unfold Tcp.listen. rewrite run_fst_get. cbv zeta. rewrite Hport, run_snd.
  cbn [k_getaddrinfo FdKernel mret M_ret fst snd Z.eqb negb]. rewrite run_snd.
  cbn [Tcp.listen_loop]. rewrite bool_decide_false by apply not_elem_of_nil.
  rewrite (M_bind_ok _ _ _ _ _ (listen_address_binds _ open (false :: answers))).
  rewrite bool_decide_false by (by intros ?%list_elem_of_singleton).
  by rewrite (M_bind_stop _ _ _ _ _ (listen_address_refused _ _ answers)).
Qed.

(** ** Concrete inputs *)

(** The first address refuses the connection, the second accepts it. *)
Lemma tcp_no_descriptor_leaks_witness :
  let p := (Tcp.mkTcp ∅ ∅, mkFds {[ 5 ]} [false; true]) in
  let p' := (sh_connect (SocketHandler := tcp_socket 9 []) (mkEndpoint None None) p).2 in
  Tcp.active p'.1 = {[ 6 ]} ∧ fw_open p'.2 = {[ 5; 6 ]} ∧ books_balanced p p'.
Proof.
  intros p p'. split; [vm_compute; reflexivity|]. split; [vm_compute; reflexivity|].
  refine (proj1 (tcp_no_descriptor_leaks 9 [] p _) (mkEndpoint None None) (IoOk 6) p' _).
  - split; [intros fd [H|(e & fds & H & _)]|intros e fds H|intros e e' fds fds' H];
      vm_compute in H; discriminate H.
  - vm_compute. reflexivity.
Defined.

Definition pipe_at (s : str) : SocketEndpoint := mkEndpoint (Some s) None.

Lemma pipe_no_descriptor_leaks_witness :
  let p := (Pipe.mkPipe ∅ ∅, mkFds {[ 5 ]} []) in
  let p' := (Pipe.listen (pipe_at (lit "/tmp/s")) p).2 in
  fw_open p'.2 = {[ 5; 6 ]} ∧ books_balanced p p'.
Proof.
  intros p p'. split; [vm_compute; reflexivity|].
  refine (proj1 (proj2 (pipe_no_descriptor_leaks 9 [] p _)) (pipe_at (lit "/tmp/s")) {[ 6 ]} p' _).
  - split; [intros fd [H|(e & fds & H & _)]|intros e fds H|intros e e' fds fds' H];
      vm_compute in H; discriminate H.
  - vm_compute. reflexivity.
Defined.

(** Stopping twice closes the descriptor that somebody else was given in between. *)
Lemma pipe_stopListening_keeps_path_witness :
  let e := pipe_at (lit "/tmp/s") in
  let s := Pipe.mkPipe ∅ {[ lit "/tmp/s" := {[ 6 ]} ]} in
  Pipe.stopListening e (s, mkFds {[ 6 ]} []) = (Ok tt, (s, mkFds ∅ [])) ∧
  ¬ books_sound (s, mkFds ∅ []) ∧
  (new_fd (mkFds {[ 4; 5 ]} [])).1 = Ok (IoOk 6) ∧
  Pipe.stopListening e (s, mkFds {[ 4; 5; 6 ]} []) = (Ok tt, (s, mkFds {[ 4; 5 ]} [])).
Proof.
  intros e s. assert (Pipe.stopListening e (s, mkFds {[ 6 ]} []) = (Ok tt, (s, mkFds ∅ []))) as H
    by (vm_compute; reflexivity).
  split; [exact H|]. split; [exact (proj1 (proj2 (pipe_stopListening_keeps_path e _ _ _ _ H)))|].
  split; vm_compute; reflexivity.
Defined.

Lemma tcp_listen_forgets_sockets_witness :
  let t := Tcp.mkTcp ∅ ∅ in
  Tcp.listen (mkEndpoint None (Some 80)) (t, mkFds ∅ [true; false]) =
    (Stop (Throw (Exn RuntimeError "Error binding port")), (t, mkFds {[ 3 ]} [])).
Proof.
  exact (tcp_listen_forgets_sockets (mkEndpoint None (Some 80)) (Tcp.mkTcp ∅ ∅) ∅ [] eq_refl).
Defined.
