(* ===== verification/RawSockets.v ===== *)
(** * [RawSocketUtils]: whole buffers on plain descriptors

    [RawSocketUtils.cpp].  The system calls [read], [write] and [waitOnSocketData] on a
    descriptor are the operations of a [SocketHandler] instance for plain
    descriptors, with the laws of a stream where a theorem needs them. *)

From S2P Require Import Prelude Sockets Wire.

Module Raw.
Section Raw.
Context {W : Type} `{SocketHandler W}.

(** [todo] is the rest of the buffer; the body of the [do] loop runs at least
    once. *)
Fixpoint writeAll_loop (fuel : nat) (fd : Z) (todo : str) : M W unit :=
  match fuel with
  | O => stop OutOfFuel
  | S fuel' =>
    rc ← sh_write fd todo;
    match rc with
    | IoErr e =>
      if would_block e then
        _ ← sh_sleep 100000;
        writeAll_loop fuel' fd todo
      else throw RuntimeError "Cannot write to raw socket"
    | IoOk n =>
      if n =? 0 then throw RuntimeError "Cannot write to raw socket: socket closed"
      else
        match drop (Z.to_nat n) todo with
        | [] => mret tt
        | rest => writeAll_loop fuel' fd rest
        end
    end
  end.

Definition writeAll (fuel : nat) (fd : Z) (buf : str) : M W unit :=
  if fd <? 0 then throw RuntimeError "Invalid file descriptor for readAll"
  else match buf with [] => mret tt | _ => writeAll_loop fuel fd buf end.

Fixpoint readAll_loop (fuel : nat) (fd : Z) (count : nat) (acc : str) : M W str :=
  match fuel with
  | O => stop OutOfFuel
  | S fuel' =>
    ready ← sh_wait fd;
    if negb ready then readAll_loop fuel' fd count acc
    else
      rc ← sh_read fd (count - length acc);
      match rc with
      | IoErr e =>
        if would_block e then readAll_loop fuel' fd count acc
        else throw RuntimeError "Cannot read from raw socket"
      | IoOk [] => throw RuntimeError "Socket has closed abruptly."
      | IoOk s =>
        if decide (length (acc ++ s) = count) then mret (acc ++ s)
        else readAll_loop fuel' fd count (acc ++ s)
      end
  end.

Definition readAll (fuel : nat) (fd : Z) (count : nat) : M W str :=
  if fd <? 0 then throw RuntimeError "Invalid file descriptor for readAll"
  else if decide (count = O) then mret [] else readAll_loop fuel fd count [].
End Raw.

Section Laws.
Context {W : Type} `{StreamSocket W} `{!CleanRetry W}.

Lemma raw_writeAll_loop_spec fuel fd todo w :
  wp (writeAll_loop fuel fd todo) (λ o, write_post fd todo (o = Ok tt) w) w.
Proof.
  revert todo w. induction fuel as [|fuel IH]; intros todo w; cbn [writeAll_loop].
  { by apply write_post_none; auto. }
  eapply wp_bind; [intros o w2 E; exact (conj (stream_write _ _ _ _ _ E) E)| |].
  2: { intros f w2 [[k Hx] _]. exists (take k todo). split_and!; [done|apply prefix_take|done]. }
  intros [n|e] w2 [Hx E].
  - destruct Hx as [Hn Hx]. case_match.
    + exists (take (Z.to_nat n) todo). split_and!; [done|apply prefix_take|done].
    + destruct (drop (Z.to_nat n) todo) as [|b bs] eqn:Hd.
      * exists todo. split_and!; [|done|done].
        by rewrite <-(take_drop (Z.to_nat n) todo), Hd, app_nil_r.
      * eapply wp_mono; [apply IH|]. intros o w'. rewrite <-Hd. eauto using write_post_step.
  - case_match eqn:Hretry.
    + assert (quiet w w2) as Hq2 by (apply (clean_retry _ _ _ _ _ E); auto).
      eapply wp_mono; [|intros o w' Hp; eapply write_post_quiet; [exact Hq2|exact Hp]].
      wp_step stream_sleep as [] w3 Hq3; [|by apply write_post_none; auto].
      eapply wp_mono; [apply IH|]. eauto using write_post_quiet.
    + destruct Hx as [k Hx]. exists (take k todo). split_and!; [done|apply prefix_take|done].
Qed.

Lemma raw_writeAll_run fuel fd buf w o w' :
  writeAll fuel fd buf w = (o, w') → write_post fd buf (o = Ok tt) w w'.
Proof.
  apply (wp_run _ (λ o, write_post fd buf (o = Ok tt) w)). unfold writeAll.
  case_match; [by apply write_post_none; auto|].
  destruct buf; [by apply write_post_none; auto|]. apply raw_writeAll_loop_spec.
Qed.

Lemma raw_readAll_loop_spec fuel fd count acc w :
  (length acc < count)%nat →
  wp (readAll_loop fuel fd count acc) (read_post fd count acc w) w.
Proof.
  revert acc w. induction fuel as [|fuel IH]; intros acc w Hacc; cbn [readAll_loop];
    [by apply read_post_stop; [|lia]|].
  wp_step stream_wait as ready w1 Hq1; [|by apply read_post_stop; [|lia]].
  eapply wp_mono; [|intros o w' Hp; apply (read_post_quiet _ _ _ w w1); [done|exact Hp]].
  destruct ready; cbn [negb]; [|by apply IH].
  wp_step stream_read as [[|b bs]|e] w2 Hr; [| | |by apply read_post_stop; [|lia]].
  - apply read_post_stop; [by apply (quiet_xfer fd), Hr|lia].
  - destruct Hr as [Hle Hr]. eapply wp_mono;
      [|intros o w' Hp; eapply read_post_step; [exact Hr|exact Hp]].
    assert (length (acc ++ b :: bs) ≤ count)%nat by (rewrite length_app; lia).
    case_decide; [by apply read_post_ok; [|lia]|]. apply IH. lia.
  - case_match; [|by apply read_post_stop; [|lia]].
    eapply wp_mono; [by apply IH|eauto using read_post_quiet].
Qed.

Lemma raw_readAll_run fuel fd count w o w' :
  readAll fuel fd count w = (o, w') → read_post fd count [] w o w'.
Proof.
  apply (wp_run _ (read_post fd count [] w)). unfold readAll.
  case_match; [by apply read_post_stop; [|cbn; lia]|].
  case_decide as Hc; [subst; by apply read_post_ok|]. apply raw_readAll_loop_spec. cbn. lia.
Qed.
End Laws.

(** ** Termination *)

Section Termination.
Context {W : Type} `{StreamSocket W} `{!Stalls W}.

Lemma raw_writeAll_loop_total fuel fd todo w :
  (length todo + stalls w < fuel)%nat →
  wp (writeAll_loop fuel fd todo) (λ o _, returns o) w.
Proof.
  revert todo w. induction fuel as [|fuel IH]; intros todo w Hf; [lia|]. cbn [writeAll_loop].
  wp_step stalls_write as [n|e] w2 Hr; [| |unfold returns; intros [= ->]; naive_solver].
  - case_match; [done|]. destruct (drop (Z.to_nat n) todo) as [|b bs] eqn:Hd; [done|].
    apply IH. rewrite <-Hd, length_drop.
    assert (length todo ≠ O) by (intros ->%length_zero_iff_nil; by rewrite drop_nil in Hd).
    b2p. lia.
  - case_match eqn:Hretry; [|done].
    assert (stalls w2 < stalls w)%nat by (apply Hr; auto).
    wp_step stalls_sleep as [] w3 Hs; [|unfold returns; intros [= ->]; naive_solver].
    apply IH. lia.
Qed.
End Termination.
End Raw.
