(* ===== verification/TerminalMessages.v ===== *)
(** * The messages between client, server and terminal

    The rest of [proto/ETerminal.proto] (port forwarding has its own in [Forwarding]): what
    is typed and shown, the size of the window, and the setup of a session. *)

From S2P Require Import Prelude Sockets Packets Wire Forwarding.

Record TerminalBuffer := mkTb { tb_buffer : option str }.
Record TerminalInfo := mkTi {
  ti_id : option str;
  ti_row : option Z;
  ti_column : option Z;
  ti_width : option Z;
  ti_height : option Z;
}.
Record TermInit := mkTermInit { environmentnames : list str; environmentvalues : list str }.
Record InitialPayload := mkPayload {
  ip_jumphost : option bool;
  ip_reversetunnels : list PortForwardSourceRequest;
  ip_environmentvariables : gmap str str;
}.
Record InitialResponse := mkResponse { ir_error : option str }.

(** The accessors of fields that may be absent. *)
Definition buffer_of (t : TerminalBuffer) : str := default [] (tb_buffer t).
Definition jumphost_of (p : InitialPayload) : bool := default false (ip_jumphost p).

(** Packet types of [proto/ET.proto]. *)
Definition INITIAL_PAYLOAD : Z := 253.
Definition INITIAL_RESPONSE : Z := 252.

#[export] Instance TerminalBuffer_eq_dec : EqDecision TerminalBuffer.
Proof. solve_decision. Defined.
#[export] Instance TerminalBuffer_countable : Countable TerminalBuffer.
Proof. by apply (inj_countable' tb_buffer mkTb); intros []. Defined.

#[export] Instance TerminalInfo_eq_dec : EqDecision TerminalInfo.
Proof. solve_decision. Defined.
#[export] Instance TerminalInfo_countable : Countable TerminalInfo.
Proof.
  by apply (inj_countable' (λ t, (ti_id t, ti_row t, ti_column t, ti_width t, ti_height t))
    (λ t, let '(a, b, c, d, e) := t in mkTi a b c d e)); intros [].
Defined.

#[export] Instance TermInit_eq_dec : EqDecision TermInit.
Proof. solve_decision. Defined.
#[export] Instance TermInit_countable : Countable TermInit.
Proof.
  by apply (inj_countable' (λ t, (environmentnames t, environmentvalues t))
    (λ t, mkTermInit t.1 t.2)); intros [].
Defined.

(** ** The text of a session *)

(** The text that a packet types or shows. *)
Definition keys `{!Proto TerminalBuffer} (p : Packet) : str :=
  if header p =? TERMINAL_BUFFER then
    match parse (payload p) with Some tb => buffer_of tb | None => [] end
  else [].
Definition typed `{!Proto TerminalBuffer} (ps : list Packet) : str := concat (keys <$> ps).
