(* ===== verification/FifoPath.v ===== *)
(** * [terminal/ServerFifoPath]: where server and terminals meet

    The path of the router's pipe: how the server makes the directory and how a terminal
    finds the pipe.  The effective user and the environment of a process are a record; the
    file system and the mode mask are the class [FifoOs]. *)

From S2P Require Import Prelude Sockets Wire.

Record process_env := mkEnv { euid : Z; getenv : str → option str }.

Definition EEXIST : Z := 17.

(** What [stat] says of a file: the owner and the mode. *)
Record file_stat := mkStat { st_uid : Z; st_mode : Z }.
Definition S_ISDIR (mode : Z) : bool := Z.land mode 61440 =? 16384.
Definition S_IWGRP : Z := 16.
Definition S_IWOTH : Z := 2.

Class FifoOs (W : Type) := {
  fo_umask : Z → M W Z;
  fo_mkdir : str → Z → M W (io_result unit);
  fo_stat : str → M W (io_result file_stat);
}.

Definition ROUTER_FIFO_BASENAME : str := lit "etserver.idpasskey.fifo".
Definition ROOT_FIFO_DIRECTORY : str := lit "/var/run".
Definition ROOT_ROUTER_FIFO_NAME : str := ROOT_FIFO_DIRECTORY ++ lit "/" ++ ROUTER_FIFO_BASENAME.

Definition IsRoot (e : process_env) : bool := euid e =? 0.
Definition IsAbsolutePath (path : str) : bool :=
  match path with c :: _ => bool_decide (c = "/"%char) | [] => false end.

Definition GetHome (e : process_env) : outcome str :=
  match getenv e (lit "HOME") with
  | None => Stop (Fatal "Failed to get the value of the $HOME environment variable.")
  | Some home =>
    if IsAbsolutePath home then Ok home
    else Stop (Fatal "Unexpected relative path for $HOME environment variable")
  end.

(** The value, and whether it is the default. *)
Definition GetXdgRuntimeDir (e : process_env) : outcome (str * bool) :=
  match getenv e (lit "XDG_RUNTIME_DIR") with
  | Some dataHome =>
    if IsAbsolutePath dataHome then Ok (dataHome, false)
    else home ← GetHome e; Ok (home ++ lit "/.local/share", true)
  | None => home ← GetHome e; Ok (home ++ lit "/.local/share", true)
  end.

Module Fifo.

Record ServerFifoPath := mkFifo { pathOverride : option str }.

Section Fifo.
Context {W : Type} `{SocketHandler W} `{!FifoOs W}.
Variable env : process_env.

Definition setPathOverride (path : str) : M (ServerFifoPath * W) unit :=
  match path with
  | [] => fatal "Server fifo path must not be empty"
  | _ => on_fst (put (mkFifo (Some path)))
  end.

Definition TryCreateDirectory (dir : str) (mode : Z) : M W unit :=
  oldMode ← fo_umask 0;
  r ← fo_mkdir dir mode;
  _ ← match r with
      | IoErr e => if e =? EEXIST then mret tt else fatal "Unexpected result creating a directory"
      | IoOk _ => mret tt
      end;
  m ← fo_umask oldMode;
  if m =? 0 then mret tt else fatal "Unexpected result when restoring umask".

Definition createDirectoriesIfRequired (p : ServerFifoPath) : M W unit :=
  if bool_decide (is_Some (pathOverride p)) || IsRoot env then mret tt
  else
    xdgRuntimeDir ← lift (GetXdgRuntimeDir env);
    _ ← (if xdgRuntimeDir.2 : bool then
           homeDir ← lift (GetHome env);
           _ ← TryCreateDirectory (homeDir ++ lit "/.local") 493;
           TryCreateDirectory (homeDir ++ lit "/.local/share") 493
         else mret tt);
    let etserverDir := xdgRuntimeDir.1 ++ lit "/etserver" in
    _ ← TryCreateDirectory etserverDir 448;
    r ← fo_stat etserverDir;
    match r with
    | IoErr _ => fatal "Failed to create server fifo directory"
    | IoOk etserverStat =>
      if negb (st_uid etserverStat =? euid env)
      then fatal "Server fifo directory must be owned by the current user"
      else if negb (S_ISDIR (st_mode etserverStat))
      then fatal "Server fifo directory must be a directory"
      else if negb (Z.land (st_mode etserverStat) (Z.lor S_IWGRP S_IWOTH) =? 0)
      then fatal "Server fifo directory must not provide write access to group/other"
      else mret tt
    end.

Definition getPathForCreation (p : ServerFifoPath) : outcome str :=
  match pathOverride p with
  | Some path => Ok path
  | None =>
    if IsRoot env then Ok ROOT_ROUTER_FIFO_NAME
    else
      dir ← GetXdgRuntimeDir env;
      Ok (dir.1 ++ lit "/etserver/" ++ ROUTER_FIFO_BASENAME)
  end.

Definition getEndpointForConnect (p : ServerFifoPath) : option SocketEndpoint :=
  match pathOverride p with
  | Some path => Some (mkEndpoint (Some path) None)
  | None => None
  end.

Definition reportConnectionError {A} (localErrno : Z) : M W A :=
  if localErrno =? ECONNREFUSED
  then throw RuntimeError "The Eternal Terminal daemon is not running. Please (re)start the et daemon on the server."
  else throw RuntimeError "Connection error communicating with et daemon".

Definition detectAndConnect (specificRouterEndpoint : option SocketEndpoint) : M W Z :=
  match specificRouterEndpoint with
  | Some e =>
    r ← sh_connect e;
    match r with IoOk fd => mret fd | IoErr err => reportConnectionError err end
  | None =>
    r ← sh_connect (mkEndpoint (Some ROOT_ROUTER_FIFO_NAME) None);
    match r with
    | IoOk fd => mret fd
    | IoErr err =>
      if negb (IsRoot env) then
        dir ← lift (GetXdgRuntimeDir env);
        r ← sh_connect (mkEndpoint (Some (dir.1 ++ lit "/etserver/" ++ ROUTER_FIFO_BASENAME)) None);
        match r with IoOk fd => mret fd | IoErr err => reportConnectionError err end
      else reportConnectionError err
    end
  end.
End Fifo.
End Fifo.
Import Fifo.

(** ** The directory *)

(** The mode mask of the process. *)
Class FifoMask (W : Type) `{!FifoOs W} := {
  mode_mask : W → Z;
  umask_swaps m k o k' : fo_umask m k = (o, k') → o = Ok (mode_mask k) ∧ mode_mask k' = m;
  mkdir_mask d m k o k' : fo_mkdir d m k = (o, k') → mode_mask k' = mode_mask k;
  stat_mask d k o k' : fo_stat d k = (o, k') → mode_mask k' = mode_mask k;
}.

Section Directory.
Context {W : Type} `{!FifoOs W} `{!FifoMask W}.
Variable env : process_env.

Lemma create_restores_mask dir mode k :
  finishes (TryCreateDirectory dir mode) (λ _ k', mode_mask k' = mode_mask k) k.
Proof.
  unfold TryCreateDirectory. apply finishes_bind. intros old k1 [[= ->] H1]%umask_swaps.
  apply finishes_bind. intros r k2 H2%mkdir_mask. apply finishes_bind. intros [] k3 Hr.
  assert (k3 = k2) as -> by (revert Hr; repeat case_match; by intros [= <-]).
  apply finishes_bind. intros m k4 [_ H4]%umask_swaps. destruct (m =? 0); [by apply finishes_ret|apply finishes_stop].
Qed.

Lemma group_other_bits mode :
  Z.land mode (Z.lor S_IWGRP S_IWOTH) = 0 → Z.testbit mode 4 = false ∧ Z.testbit mode 1 = false.
Proof.
  intros H. split.
  - assert (Z.testbit (Z.land mode (Z.lor S_IWGRP S_IWOTH)) 4 = false) as Hb by by rewrite H.
    rewrite Z.land_spec in Hb. change (Z.testbit (Z.lor S_IWGRP S_IWOTH) 4) with true in Hb.
    by rewrite andb_true_r in Hb.
  - assert (Z.testbit (Z.land mode (Z.lor S_IWGRP S_IWOTH)) 1 = false) as Hb by by rewrite H.
    rewrite Z.land_spec in Hb. change (Z.testbit (Z.lor S_IWGRP S_IWOTH) 1) with true in Hb.
    by rewrite andb_true_r in Hb.
Qed.

(** What is known of the directory of the pipe [path] in the state [k']. *)
Definition secure_directory (path : str) (k' : W) : Prop :=
  ∃ dir st k1,
    fo_stat (dir ++ lit "/etserver") k1 = (Ok (IoOk st), k') ∧
    path = dir ++ lit "/etserver/" ++ ROUTER_FIFO_BASENAME ∧
    st_uid st = euid env ∧ S_ISDIR (st_mode st) = true ∧
    Z.testbit (st_mode st) 4 = false ∧ Z.testbit (st_mode st) 1 = false.

(** C36. When [createDirectoriesIfRequired] returns for a process that is neither root nor
    given a path, the directory in which the pipe is then created was seen to be a
    directory, owned by this user, that neither its group nor others can write to; and the
    mode mask of the process is what it was. *)
Theorem fifo_directory_secure p k k' :
  pathOverride p = None → IsRoot env = false →
  createDirectoriesIfRequired env p k = (Ok tt, k') →
  ∃ path, getPathForCreation env p = Ok path ∧ secure_directory path k' ∧
          mode_mask k' = mode_mask k.
Proof.
  intros Hp Hroot. unfold createDirectoriesIfRequired, getPathForCreation. rewrite Hp, Hroot.
  rewrite bool_decide_false by (by intros [? [=]]). cbn [orb].
  destruct (GetXdgRuntimeDir env) as [[dir dflt]|f] eqn:Hdir; [|done]. run. cbn [outcome_bind mbind].
  intros Hrun. eexists. split; [done|].
  refine ((_ : finishes _ (λ _ k', secure_directory _ k' ∧ mode_mask k' = mode_mask k) k) _ _ Hrun).
  apply finishes_bind, (finishes_mono _ (λ _ k1, mode_mask k1 = mode_mask k)).
  { destruct dflt; [|by apply finishes_ret]. destruct (GetHome env) as [home|f]; [|apply finishes_stop].
    apply finishes_bind. intros h k0 [= <- <-]. apply finishes_bind. intros [] k1 H1%create_restores_mask.
    intros [] k2 H2%create_restores_mask. congruence. }
  intros [] k1 H1. apply finishes_bind. intros [] k2 H2%create_restores_mask.
  apply finishes_bind. intros [st|e] k3 Hst; [|apply finishes_stop]. pose proof (stat_mask _ _ _ _ Hst).
  destruct (st_uid st =? euid env) eqn:Hu; [|apply finishes_stop].
  destruct (S_ISDIR (st_mode st)) eqn:Hd; [|apply finishes_stop].
  destruct (Z.land _ _ =? 0) eqn:Hm; [|apply finishes_stop]. b2p. apply finishes_ret.
  apply group_other_bits in Hm as [? ?]. split; [|congruence]. by exists dir, st, k2.
Qed.
End Directory.

(** ** The connection *)

Section Connect.
Context {W : Type} `{SocketHandler W}.
Implicit Types (es et : process_env).

Definition at_path (path : str) : SocketEndpoint := mkEndpoint (Some path) None.

Lemma same_runtime_dir es et :
  (∀ n, getenv et n = getenv es n) → GetXdgRuntimeDir et = GetXdgRuntimeDir es.
Proof. intros He. unfold GetXdgRuntimeDir, GetHome. by rewrite !He. Qed.

(** A terminal finds the server.  If the server has created its pipe as root, or as the
    same user with the same environment, then a terminal that is not told where the pipe is
    ends up with a connection to [/var/run] or to exactly the path of the server; and when it
    gives up, a connection to the server's path has been refused. *)
Theorem terminal_finds_server es et path k o k' :
  getPathForCreation es (mkFifo None) = Ok path →
  IsRoot es = true ∨ (IsRoot et = false ∧ IsRoot es = false ∧ ∀ n, getenv et n = getenv es n) →
  (∀ e k1 x k2, sh_connect e k1 ≠ (Stop (Throw x), k2)) →
  detectAndConnect et None k = (o, k') →
  match o with
  | Ok fd =>
    sh_connect (at_path ROOT_ROUTER_FIFO_NAME) k = (Ok (IoOk fd), k') ∨
    ∃ e k1, IsRoot et = false ∧ sh_connect (at_path ROOT_ROUTER_FIFO_NAME) k = (Ok (IoErr e), k1) ∧
      (IsRoot es = false → sh_connect (at_path path) k1 = (Ok (IoOk fd), k'))
  | Stop (Throw _) => ∃ k1 e k2, sh_connect (at_path path) k1 = (Ok (IoErr e), k2)
  | Stop _ => True
  end.
Proof.
  unfold getPathForCreation, detectAndConnect. cbn [pathOverride]. intros Hpath Hsame Hnothrow.
  rewrite M_bind_stop_inv.
  destruct (sh_connect (mkEndpoint (Some ROOT_ROUTER_FIFO_NAME) None) k) as [[[fd|e]|f] k1] eqn:H1.
  - intros [= <- <-]. by left.
  - destruct (IsRoot et) eqn:Het; cbn [negb].
    { assert (IsRoot es = true) as Hes by (destruct Hsame as [?|[[=] _]]; done).
      rewrite Hes in Hpath. injection Hpath as <-.
      unfold reportConnectionError.
      destruct (e =? ECONNREFUSED); intros [= <- <-]; by eexists _, _, _. }
    destruct (GetXdgRuntimeDir et) as [[dir dflt]|f] eqn:Hdir.
    2: { run. intros [= <- <-]. unfold GetXdgRuntimeDir, GetHome in Hdir.
         repeat case_match; simplify_eq/=; done. }
    run. rewrite M_bind_stop_inv.
    assert (IsRoot es = false → path = dir ++ lit "/etserver/" ++ ROUTER_FIFO_BASENAME) as Hsamepath.
    { intros Hes. destruct Hsame as [?|(_ & _ & Henv)]; [congruence|].
      rewrite Hes, <-(same_runtime_dir _ _ Henv), Hdir in Hpath. by injection Hpath. }
    destruct (sh_connect (mkEndpoint (Some (dir ++ lit "/etserver/" ++ ROUTER_FIFO_BASENAME)) None) k1)
      as [[[fd|e2]|f] k2] eqn:H2; cbn [fst].
    + intros [= <- <-]. right. exists e, k1. split_and!; [done..|]. by intros ->%Hsamepath.
    + assert (∃ k1 e k2, sh_connect (at_path path) k1 = (Ok (IoErr e), k2)) as Hrefused.
      { destruct (IsRoot es) eqn:Hes; [injection Hpath as <-; by eexists _, _, _|].
        rewrite (Hsamepath eq_refl). by eexists _, _, _. }
      unfold reportConnectionError. destruct (e2 =? ECONNREFUSED); by intros [= <- <-].
    + intros [= <- <-]. destruct f; try done. by apply Hnothrow in H2.
  - intros [= <- <-]. destruct f; try done. by apply Hnothrow in H1.
Qed.
End Connect.

(** Root neither asks the environment for a path nor makes a directory. *)
Theorem root_ignores_environment {W} `{SocketHandler W} `{!FifoOs W} e o p :
  IsRoot e = true →
  let bare := mkEnv (euid e) (λ _, None) in
  createDirectoriesIfRequired (W := W) e p = mret tt ∧
  getPathForCreation e p = getPathForCreation bare p ∧
  detectAndConnect (W := W) e o = detectAndConnect (W := W) bare o.
Proof.
  intros He bare. assert (IsRoot bare = true) as Hb by exact He.
  unfold createDirectoriesIfRequired, getPathForCreation, detectAndConnect.
  by rewrite He, Hb, orb_true_r.
Qed.

(** ** Concrete inputs *)

Record FifoWorld := mkFifoWorld { fw_mask : Z; fw_stat : file_stat }.

#[export] Instance FifoWorldOs : FifoOs FifoWorld := {|
  fo_umask m := λ w, (Ok (fw_mask w), mkFifoWorld m (fw_stat w));
  fo_mkdir d m := λ w, (Ok (IoErr EEXIST), w);
  fo_stat d := λ w, (Ok (IoOk (fw_stat w)), w);
|}.

#[export] Instance FifoWorldMask : FifoMask FifoWorld.
Proof.
  refine {| mode_mask := fw_mask |}.
  - by intros m k o k' [= <- <-].
  - by intros d m k o k' [= <- <-].
  - by intros d k o k' [= <- <-].
Defined.

Definition alice : process_env :=
  mkEnv 1000 (λ n, if decide (n = lit "HOME") then Some (lit "/home/alice") else None).

Lemma fifo_directory_secure_witness :
  let w := mkFifoWorld 18 (mkStat 1000 16832) in
  getPathForCreation alice (mkFifo None) = Ok (lit "/home/alice/.local/share/etserver/etserver.idpasskey.fifo") ∧
  ∃ path, getPathForCreation alice (mkFifo None) = Ok path ∧ secure_directory alice path w ∧
          mode_mask w = mode_mask w.
Proof.
  split; [vm_compute; reflexivity|].
  apply (fifo_directory_secure alice (mkFifo None) (mkFifoWorld 18 (mkStat 1000 16832))
           (mkFifoWorld 18 (mkStat 1000 16832))); vm_compute; reflexivity.
Defined.

(** The root server is not running, the one of alice is. *)
Lemma terminal_finds_server_witness :
  let w := with_connects wire0 [IoErr ECONNREFUSED; IoOk 9] in
  (detectAndConnect alice None w).1 = Ok 9 ∧
  (sh_connect (at_path ROOT_ROUTER_FIFO_NAME) w = (Ok (IoOk 9), wire0) ∨
   ∃ e k1, IsRoot alice = false ∧
     sh_connect (at_path ROOT_ROUTER_FIFO_NAME) w = (Ok (IoErr e), k1) ∧
     (IsRoot alice = false →
      sh_connect (at_path (lit "/home/alice/.local/share/etserver/etserver.idpasskey.fifo")) k1 =
        (Ok (IoOk 9), wire0))).
Proof.
  intros w. split; [vm_compute; reflexivity|].
  refine (terminal_finds_server alice alice _ w (Ok 9) wire0 _ _ _ _).
  - vm_compute. reflexivity.
  - right. split; [reflexivity|]. split; reflexivity.
  - intros e k1 x k2. cbn. unfold wire_connect. destruct (w_connects k1); discriminate.
  - vm_compute. reflexivity.
Defined.

Lemma root_ignores_environment_witness :
  let e := mkEnv 0 (getenv alice) in
  detectAndConnect (W := Wire) e None = detectAndConnect (W := Wire) (mkEnv 0 (λ _, None)) None.
Proof.
  exact (proj2 (proj2 (root_ignores_environment (W := Wire) (FifoOs0 := Build_FifoOs Wire
    (λ m, mret 0) (λ d m, mret (IoOk tt)) (λ d, mret (IoErr 2))) (mkEnv 0 (getenv alice)) None (mkFifo None) eq_refl))).
Defined.

