(* ===== verification/Loops.v ===== *)
(** * What the event loops share

    [select] on sets of descriptors, the control flow of a loop's body, and the placing of a
    component's operations in the state of a loop that owns several components. *)

From S2P Require Import Prelude Sockets Wire Forwarding.

(** [select] on sets of descriptors to read and to write (the first set as it is
    afterwards), [write] on a plain descriptor, and the environment. *)
Class Poll (W : Type) := {
  poll_select : gset Z → gset Z → M W (gset Z);
  poll_write : Z → str → M W (io_result Z);
  poll_close : Z → M W unit;
  poll_setenv : str → str → M W unit;
}.

(** How an iteration of a loop goes on: with the next statement, with the next iteration
    ([continue]), or not at all ([break]). *)
Inductive stage := Go | Again | Leave.

(** [m1; m2], unless [m1] continues or breaks. *)
Definition then_ {S} (m1 m2 : M S stage) : M S stage :=
  st ← m1;
  match st with Go => m2 | _ => mret st end.

(** A handler of the sockets of [W] beside another component. *)
Definition beside {S W} (h : SocketHandler W) : SocketHandler (S * W) := {|
  sh_hasData fd := on_snd (sh_hasData fd);
  sh_read fd n := on_snd (sh_read fd n);
  sh_write fd s := on_snd (sh_write fd s);
  sh_connect e := on_snd (sh_connect e);
  sh_listen e := on_snd (sh_listen e);
  sh_getEndpointFds e := on_snd (sh_getEndpointFds e);
  sh_accept fd := on_snd (sh_accept fd);
  sh_stopListening e := on_snd (sh_stopListening e);
  sh_close fd := on_snd (sh_close fd);
  sh_wait fd := on_snd (sh_wait fd);
  sh_time := on_snd sh_time;
  sh_sleep us := on_snd (sh_sleep us);
  sh_rand := on_snd sh_rand;
|}.

Definition files_beside {S W} (t : TempFiles W) : TempFiles (S * W) := {|
  tf_GetTempDirectory := tf_GetTempDirectory (W := W);
  tf_mkdtemp s := on_snd (tf_mkdtemp s);
  tf_chmod s := on_snd (tf_chmod s);
  tf_chown s u g := on_snd (tf_chown s u g);
|}.

#[export] Instance WirePoll : Poll Wire := {|
  poll_select r w := mret r;
  poll_write := wire_write;
  poll_close fd := modify (λ w, with_closed w (fd :: w_closed w));
  poll_setenv n v := mret tt;
|}.
