(* ===== verification/TextFlow.v ===== *)
(** * The text in a run, and the forwarded ports beside it

    Which traces carry no text ([mute]): those of keep-alives, window sizes and tunnels.
    The port forwarding of a session ([PortForwardHandler], over the state [X] of the
    program that owns it) leaves only such traces, so long as the kernel gives its sockets
    descriptors of their own. *)

From S2P Require Import Prelude Sockets Crypto Packets Wire Backed ReaderSpec Connection Endpoint Apart.
From S2P Require Import Activity Forwarding TunnelsApart TerminalMessages Loops.
Import Conn.

Section Text.
Context `{!Proto TerminalBuffer}.

Lemma typed_nil : typed [] = [].
Proof. done. Qed.

Lemma typed_app ps ps' : typed (ps ++ ps') = typed ps ++ typed ps'.
Proof. unfold typed. by rewrite fmap_app, concat_app. Qed.

Lemma typed_one p : typed [p] = keys p.
Proof. unfold typed. cbn. by rewrite app_nil_r. Qed.

Lemma typed_prefix ps ps' : ps `prefix_of` ps' → typed ps `prefix_of` typed ps'.
Proof. intros [r ->]. rewrite typed_app. by apply prefix_app_r. Qed.

(** Packets of other types carry no text. *)
Lemma keys_other type s : to_u8 type ≠ TERMINAL_BUFFER → keys (Packet_new type s) = [].
Proof.
  intros Hh. unfold keys. change (header (Packet_new type s)) with (to_u8 type).
  by rewrite (proj2 (Z.eqb_neq _ _) Hh).
Qed.

(** No text is sent, and nothing else happens. *)
Definition mute (t : trace) : Prop :=
  typed (accepted t) = [] ∧ delivered t = [] ∧ from_tty t = [] ∧ to_tty t = [].

Lemma mute_nothing : mute nothing.
Proof. done. Qed.

Lemma mute_joined t t' : mute t → mute t' → mute (t ⊕ t').
Proof.
  intros (A1 & A2 & A3 & A4) (B1 & B2 & B3 & B4). unfold mute. cbn [accepted delivered from_tty to_tty joined].
  by rewrite typed_app, A1, A2, A3, A4, B1, B2, B3, B4.
Qed.

Lemma mute_sends ps t : sends ps t → typed ps = [] → mute t.
Proof. intros (E & ? & ? & ?) Ht. unfold mute. by rewrite E. Qed.
End Text.

(** A message that fits a packet. *)
Class Compact (T : Type) `{!Proto T} := {
  compact (t : T) s : serialize t = Some s → len s < 2 ^ 31 - 22;
}.

Lemma compact_writable {T} `{!Proto T, !Compact T} type (t : T) s :
  serialize t = Some s → writable (Packet_new type s).
Proof.
  intros Hs%compact. unfold writable, packet_ok, Packet_new, Packet_length, HEADER_SIZE, to_u8. cbn.
  pose proof (Z.mod_pos_bound type 256). split_and!; [done|lia..].
Qed.

(** No text is sent or received. *)
Definition wordless `{!Proto TerminalBuffer} (t : trace) : Prop :=
  typed (accepted t) = [] ∧ typed (delivered t) = [] ∧ from_tty t = [] ∧ to_tty t = [].

Section Wordless.
Context `{!Proto TerminalBuffer}.

Lemma wordless_nothing : wordless nothing.
Proof. done. Qed.

Lemma wordless_joined t t' : wordless t → wordless t' → wordless (t ⊕ t').
Proof.
  intros (A1 & A2 & A3 & A4) (B1 & B2 & B3 & B4). unfold wordless.
  cbn [accepted delivered from_tty to_tty joined]. by rewrite !typed_app, A1, A2, A3, A4, B1, B2, B3, B4.
Qed.

Lemma mute_wordless t : mute t → wordless t.
Proof. intros (M1 & M2 & M3 & M4). unfold wordless. by rewrite M1, M2, M3, M4. Qed.

Lemma takes_wordless p t : takes [p] t → keys p = [] → wordless t.
Proof. intros (T1 & T2 & T3 & T4) Hk. unfold wordless. by rewrite T1, T2, T3, T4, typed_one, Hk. Qed.

Lemma takes_none t : takes [] t → mute t.
Proof. intros (T1 & T2 & T3 & T4). unfold mute. by rewrite T1, T2, T3, T4. Qed.
End Wordless.

(** A message in a packet, and the text that was typed for it. *)
Definition sends_proto {X} `{!Proto X} (type : Z) (x : X) (t : trace) : Prop :=
  ∃ s, serialize x = Some s ∧ sends [Packet_new type s] t.

Section TextMessages.
Context `{!Proto TerminalBuffer, !ProtoLaws TerminalBuffer}.

Lemma sends_proto_mute {X} `{!Proto X} type (x : X) t :
  to_u8 type ≠ TERMINAL_BUFFER → sends_proto type x t → mute t.
Proof. intros Ht (s & _ & Hs). apply (mute_sends _ _ Hs). rewrite typed_one. by apply keys_other. Qed.

(** What is read from the terminal is sent, and nothing is shown. *)
Definition types_text (t : trace) : Prop :=
  typed (accepted t) = from_tty t ∧ delivered t = [] ∧ to_tty t = [].

Lemma types_nothing t : types [] t → types_text t.
Proof. intros (T1 & T2 & T3 & T4). unfold types_text. by rewrite T1, T2, T3, T4. Qed.

Lemma types_then_sends c s t t' :
  types (c :: s) t → sends_proto TERMINAL_BUFFER (mkTb (Some (c :: s))) t' → types_text (t ⊕ t').
Proof.
  intros (T1 & T2 & T3 & T4) (raw & Hs & S1 & S2 & S3 & S4). unfold types_text.
  cbn [accepted delivered from_tty to_tty joined].
  rewrite T1, T2, T3, T4, S1, S2, S3, S4, !app_nil_r. cbn [app]. split_and!; [|done..].
  rewrite typed_one. unfold keys. cbn. by rewrite (parse_serialize _ _ Hs).
Qed.
End TextMessages.

(** The kernel gives the sockets of forwarded ports descriptors of their own, and opening
    them does not disturb the descriptors [mine] of the rest. *)
Class OwnDescriptors {W} `{!Streams W} (mine : Z → Prop) (h : SocketHandler W) : Prop := {
  own_connect e k o k' : sh_connect e k = (o, k') →
    (∀ z, mine z → untouched z k k') ∧ ∀ z, o = Ok (IoOk z) → ¬ mine z;
  own_accept fd k o k' : sh_accept fd k = (o, k') →
    (∀ z, mine z → untouched z k k') ∧ ∀ z, o = Ok (IoOk z) → ¬ mine z;
  own_listen e k o k' : sh_listen e k = (o, k') → ∀ z, mine z → untouched z k k';
  own_endpoints e k o k' : sh_getEndpointFds e k = (o, k') → ∀ z, mine z → untouched z k k';
  own_rand k o k' : sh_rand k = (o, k') → ∀ z, mine z → untouched z k k';
}.

Section Beside.
Context {W X O : Type} `{!Streams W} `{!SocketHandler W} `{!StreamSocket W} `{!SecretBox}.
Context `{!ConnectionObject W O} `{!ConnectionObjectLaws W O} `{!Proto TerminalBuffer}.
Variables (fd tfd : Z).
(** The connection of the program, and what holds of its state. *)
Variables (conn_of : X → O) (ok : X → Prop).

Definition view_of (v : X * W) : O * W := (conn_of v.1, v.2).
Definition ok_of (v : X * W) : Prop := ok v.1.

Definition mine (z : Z) : Prop := z = fd ∨ z = tfd.

(** The rest of the program, while the port forwarding works: it may send packets without
    text. *)
Definition without_text (v v' : X * W) : Prop :=
  ok v.1 → ok v'.1 ∧ ∃ t, acts fd tfd (view_of v) t (view_of v') ∧ mute t.

#[export] Instance without_text_preorder : PreOrder without_text.
Proof.
  split.
  - intros v Hv. split; [done|]. exists nothing. split; [by apply still_acts|apply mute_nothing].
  - intros v1 v2 v3 R1 R2 Hv. destruct (R1 Hv) as (Hv2 & t & A1 & M1).
    destruct (R2 Hv2) as (Hv3 & t' & A2 & M2). split; [done|]. exists (t ⊕ t').
    split; [by eapply acts_trans|by apply mute_joined].
Qed.

Lemma without_text_still x (k k' : W) :
  (∀ z, mine z → untouched z k k') → without_text (x, k) (x, k').
Proof.
  intros Hu Hx. split; [done|]. exists nothing. split; [|apply mute_nothing].
  apply still_acts. split_and!; [done|apply Hu; by right|apply Hu; by left].
Qed.

Lemma tunnels_respect (h : SocketHandler W) :
  @StreamSocket W h _ → OwnDescriptors mine h → respects mine without_text (beside (S := X) h).
Proof.
  intros Hs Hown.
  assert (∀ k k' : W, quiet k k' → ∀ z, mine z → untouched z k k') as Hq by (intros k k' Hq z _; apply Hq).
  assert (∀ z0 r s (k k' : W), ¬ mine z0 → xfer z0 r s k k' → ∀ z, mine z → untouched z k k') as Hx.
  { intros z0 r s k k' Hz0 (_ & _ & Hx) z Hz. apply Hx. by intros ->. }
  assert (∀ {A} (m : M W A) v (o : outcome A) v', on_snd m v = (o, v') →
    (∀ z, mine z → untouched z v.2 v'.2) → without_text v v') as Hlift.
  { intros A m [x k] o [x' k'] [_ Ex]%on_snd_inv Hu. cbn in *. subst x'. by apply without_text_still. }
  split; cbn.
  - intros z k o k' E. eapply Hlift; [exact E|]. apply on_snd_inv in E as [E _]. by eapply Hq, stream_hasData.
  - intros z n k o k' Hz E. eapply Hlift; [exact E|]. apply on_snd_inv in E as [E _].
    apply stream_read in E. destruct o as [[r|e]|e]; [by eapply Hx, E|by apply Hq..].
  - intros z s k o k' Hz E. eapply Hlift; [exact E|]. apply on_snd_inv in E as [E _].
    apply stream_write in E. destruct o as [[r|e]|e]; [by eapply Hx, E|destruct E as [n E]; by eapply Hx..].
  - intros z k o k' Hz E. eapply Hlift; [exact E|]. apply on_snd_inv in E as [E _]. by eapply Hq, stream_close.
  - intros e k o k' E. eapply Hlift; [exact E|]. apply on_snd_inv in E as [E _]. by eapply own_listen.
  - intros e k o k' E. eapply Hlift; [exact E|]. apply on_snd_inv in E as [E _]. by eapply own_endpoints.
  - intros k o k' E. eapply Hlift; [exact E|]. apply on_snd_inv in E as [E _]. by eapply Hq, stream_time.
  - intros us k o k' E. eapply Hlift; [exact E|]. apply on_snd_inv in E as [E _]. by eapply Hq, stream_sleep.
  - intros k o k' E. eapply Hlift; [exact E|]. apply on_snd_inv in E as [E _]. by eapply own_rand.
  - intros e k o k' E. pose proof E as E0. apply on_snd_inv in E0 as [E0 _].
    apply own_connect in E0 as [Hu Hz]. split; [by eapply Hlift|done].
  - intros z k o k' E. pose proof E as E0. apply on_snd_inv in E0 as [E0 _].
    apply own_accept in E0 as [Hu Hz]. split; [by eapply Hlift|done].
Qed.

(** The program with its port forwarding. *)
Abbreviation Thread := (Forward.PortForwardHandler * (X * W))%type.
Definition thread_view (q : Thread) : O * W := view_of q.2.
Definition thread_ok (q : Thread) : Prop := forward_away mine q.1 ∧ ok q.2.1.

(** What the port forwarding does leaves no text. *)
Lemma tunnels_perform {A} (m : M Thread A) :
  (∀ v, keeps (calm without_text (forward_away mine) v) m) →
  performs fd tfd thread_view thread_ok m (λ _, mute).
Proof.
  intros Hm [p v] [Hp Hv] a [p' v'] E.
  destruct (Hm v (p, v) (conj Hp (reflexivity v)) a (p', v') E) as [Hp' HR].
  destruct (HR Hv) as (Hv' & t & Ha & Ht). by exists t.
Qed.

(** Operations of the program itself. *)
Lemma thread_performs {A} (m : M (X * W) A) Q :
  performs fd tfd view_of ok_of m Q → performs fd tfd thread_view thread_ok (on_snd m) Q.
Proof.
  intros Hm [p v] [Hp Hv] a q' [E Ep]%on_snd_inv. destruct q' as [p' v']. cbn in E, Ep. subst p'.
  destruct (Hm v Hv a v' E) as (t & Ha & Hv' & HQ). by exists t.
Qed.

Lemma tunnels_send (send : Packet → M (X * W) unit) p v :
  performs fd tfd view_of ok_of (send p) (λ _, mute) →
  keeps (calm without_text (forward_away mine) v) (on_snd (send p)).
Proof.
  intros Hs. apply (calm_snd without_text). intros v1 Hv1 a v2 E. etrans; [exact Hv1|].
  intros Hok. destruct (Hs v1 Hok a v2 E) as (t & ? & ? & ?). eauto.
Qed.
End Beside.
