(* ===== verification/UserTerminal.v ===== *)
(** * [terminal/UserTerminalHandler]: the process that owns the shell

    The loop between the router's pipe and the pseudo-terminal ([UserTerm]).  The pieces of
    the system it runs on: the system calls of [Kernel] and [Poll], the pipe's [SocketHandler] and the virtual methods of [UserTerminal].  Shown:
    what is typed reaches the terminal in order and once, what is shown reaches the router
    in order and once, and the input that is held back stays bounded. *)

From S2P Require Import Prelude Sockets Packets Wire CxxText UnixSockets TcpSockets SocketPromises Forwarding Router TerminalMessages FifoPath Loops.

(** [struct winsize]: four unsigned shorts. *)
Record winsize := mkWinsize { ws_row : Z; ws_col : Z; ws_xpixel : Z; ws_ypixel : Z }.
Definition to_u16 (z : Z) : Z := z mod 65536.

(** The virtual methods of [UserTerminal]. *)
Class UserTerminal (W : Type) := {
  term_setup : Z → M W Z;
  term_handleSessionEnd : M W unit;
  term_cleanup : M W unit;
  term_setInfo : winsize → M W unit;
}.

Module UserTerm.

(** The members, and the variables of the loop. *)
Record UserTerminalHandler := mkUser {
  routerFd : Z;
  noratelimit : bool;
  shuttingDown : bool;
  lastSecond : Z;
  outputPerSecond : Z;
  pendingInput : str;
}.

Definition set_router (fd : Z) (u : UserTerminalHandler) : UserTerminalHandler :=
  mkUser fd (noratelimit u) (shuttingDown u) (lastSecond u) (outputPerSecond u) (pendingInput u).
Definition shutdown (u : UserTerminalHandler) : UserTerminalHandler :=
  mkUser (routerFd u) (noratelimit u) true (lastSecond u) (outputPerSecond u) (pendingInput u).
Definition new_second (now : Z) (u : UserTerminalHandler) : UserTerminalHandler :=
  if lastSecond u =? now then u
  else mkUser (routerFd u) (noratelimit u) (shuttingDown u) now 0 (pendingInput u).
Definition add_output (n : Z) (u : UserTerminalHandler) : UserTerminalHandler :=
  mkUser (routerFd u) (noratelimit u) (shuttingDown u) (lastSecond u) (outputPerSecond u + n)
    (pendingInput u).
Definition set_pending (s : str) (u : UserTerminalHandler) : UserTerminalHandler :=
  mkUser (routerFd u) (noratelimit u) (shuttingDown u) (lastSecond u) (outputPerSecond u) s.

Definition maxPendingInput : nat := Z.to_nat (256 * 1024).
Definition READ_SIZE : nat := Z.to_nat (16 * 1024).
Definition LINES_PER_SECOND : Z := 1024.

(** [std::count(s.begin(), s.end(), '\n')] *)
Definition count_lines (s : str) : Z := len (filter (λ c, c = LF) s).

Section UserTerm.
Context {W : Type} `{Kernel W} `{SocketHandler W} `{!Poll W} `{!UserTerminal W}.
Context `{!Proto TerminalBuffer} `{!Proto TerminalInfo} `{!Proto TermInit}.

(** [term->handleSessionEnd(); shuttingDown = true; break;] *)
Definition end_session : M (UserTerminalHandler * W) stage :=
  _ ← on_snd term_handleSessionEnd;
  _ ← on_fst (modify shutdown);
  mret Leave.

(** From the terminal to the router. *)
Definition read_output (fuel : nat) (masterFd : Z) (rfd : gset Z)
    : M (UserTerminalHandler * W) stage :=
  u ← on_fst get;
  if bool_decide (masterFd ∈ rfd) && (noratelimit u || (outputPerSecond u <? LINES_PER_SECOND)) then
    rc ← on_snd (k_read masterFd READ_SIZE);
    match rc with
    | IoOk ((_ :: _) as s) =>
      _ ← on_fst (modify (add_output (count_lines s)));
      _ ← on_snd (writeAllOrThrow fuel (routerFd u) s false);
      mret Go
    | IoOk [] => end_session
    | IoErr readErrno => if would_block readErrno then mret Again else end_session
    end
  else mret Go.

(** From the router: what is typed is kept for the terminal, a new size is set.  A type
    that is neither is ignored. *)
Definition read_router (fuel : nat) (rfd : gset Z) : M (UserTerminalHandler * W) stage :=
  u ← on_fst get;
  if bool_decide (routerFd u ∈ rfd) then
    rc ← on_snd (k_read (routerFd u) 1);
    match rc with
    | IoErr readErrno =>
      if (readErrno =? EAGAIN) || (readErrno =? EINTR) then mret Again
      else throw RuntimeError "Router read error"
    | IoOk [] => throw RuntimeError "Router has ended abruptly.  Killing terminal session."
    | IoOk (packetType :: _) =>
      if bval packetType =? TERMINAL_BUFFER then
        tb ← on_snd (readProto TerminalBuffer fuel (routerFd u) false);
        _ ← on_fst (modify (λ u, set_pending (pendingInput u ++ buffer_of tb) u));
        mret Go
      else if bval packetType =? TERMINAL_INFO then
        ti ← on_snd (readProto TerminalInfo fuel (routerFd u) false);
        _ ← on_snd (term_setInfo (mkWinsize (to_u16 (default 0 (ti_row ti)))
                      (to_u16 (default 0 (ti_column ti))) (to_u16 (default 0 (ti_width ti)))
                      (to_u16 (default 0 (ti_height ti)))));
        mret Go
      else mret Go
    end
  else mret Go.

(** "A short write just leaves the rest pending for the next iteration." *)
Definition drain (masterFd : Z) : M (UserTerminalHandler * W) stage :=
  u ← on_fst get;
  match pendingInput u with
  | [] => mret Go
  | _ :: _ =>
    rc ← on_snd (poll_write masterFd (pendingInput u));
    match rc with
    | IoOk n =>
      _ ← (if 0 <? n then on_fst (modify (set_pending (drop (Z.to_nat n) (pendingInput u))))
           else mret tt);
      mret Go
    | IoErr writeErrno => if would_block writeErrno then mret Go else end_session
    end
  end.

Definition iteration (fuel : nat) (masterFd : Z) : M (UserTerminalHandler * W) stage :=
  u ← on_fst get;
  routerWritable ← on_snd (isSocketWritable (routerFd u));
  let rfds := (if routerWritable : bool then {[masterFd]} else ∅)
              ∪ (if (length (pendingInput u) <? maxPendingInput)%nat then {[routerFd u]} else ∅) in
  let wfds := match pendingInput u with [] => ∅ | _ => {[masterFd]} end in
  rfd ← on_snd (poll_select rfds wfds);
  currentSecond ← on_snd k_time;
  _ ← on_fst (modify (new_second currentSecond));
  catch_all
    (then_ (read_output fuel masterFd rfd) (then_ (read_router fuel rfd) (drain masterFd)))
    (λ _, _ ← on_fst (modify shutdown); mret Leave).

(** [env]: whether another thread has called [shutdown] before each iteration. *)
Fixpoint loop (fuel : nat) (env : list bool) (masterFd : Z) : M (UserTerminalHandler * W) unit :=
  match env with
  | [] => stop OutOfFuel
  | down :: env' =>
    _ ← on_fst (modify (if down : bool then shutdown else id));
    u ← on_fst get;
    if shuttingDown u then mret tt
    else
      st ← iteration fuel masterFd;
      match st with
      | Leave => mret tt
      | _ => loop fuel env' masterFd
      end
  end.

Definition runUserTerminal (fuel : nat) (env : list bool) (masterFd : Z)
    : M (UserTerminalHandler * W) unit :=
  now ← on_snd k_time;
  _ ← on_fst (modify (λ u, mkUser (routerFd u) (noratelimit u) (shuttingDown u) now 0 []));
  _ ← loop fuel env masterFd;
  on_snd term_cleanup.

(** The constructor: the server is told who owns the terminal.  [uid] and [gid] are those of
    the process. *)
Definition UserTerminalHandler_new `{!Proto TerminalUserInfo} (fuel : nat) (env : process_env)
    (uid gid : Z) (_noratelimit : bool) (routerEndpoint : option SocketEndpoint) (idPasskey : str)
    : M W UserTerminalHandler :=
  match split idPasskey "/"%char with
  | id :: passkey :: _ =>
    let tui := mkTui (Some id) (Some passkey) (Some uid) (Some gid) None in
    routerFd ← Fifo.detectAndConnect env routerEndpoint;
    _ ← catch_runtime
          (s ← protoToString tui;
           writePacket fuel routerFd (Packet_new TERMINAL_USER_INFO s))
          (λ _, fatal "Error connecting to router");
    mret (mkUser routerFd _noratelimit false 0 0 [])
  | _ => undefined "idpasskey_splited[1]"
  end.

(** The environment for the shell; a value that is missing is read past the end. *)
Fixpoint set_environment (names values : list str) : M W unit :=
  match names, values with
  | [], _ => mret tt
  | n :: ns, v :: vs =>
    _ ← poll_setenv (c_str n) (c_str v);
    set_environment ns vs
  | _ :: _, [] => undefined "environmentvalues(a)"
  end.

(** [attempts]: how often [readPacket] may return [false]. *)
Fixpoint read_init (fuel attempts : nat) : M (UserTerminalHandler * W) unit :=
  match attempts with
  | O => stop OutOfFuel
  | S attempts' =>
    u ← on_fst get;
    p ← on_snd (readPacket fuel (routerFd u));
    match p with
    | None => read_init fuel attempts'
    | Some p =>
      if negb (header p =? TERMINAL_INIT) then fatal "Invalid terminal init packet header"
      else
        ti ← stringToProto TermInit (payload p);
        on_snd (set_environment (environmentnames ti) (environmentvalues ti))
    end
  end.

Definition run (fuel attempts : nat) (env : list bool) : M (UserTerminalHandler * W) unit :=
  _ ← read_init fuel attempts;
  u ← on_fst get;
  masterfd ← on_snd (term_setup (routerFd u));
  _ ← runUserTerminal fuel env masterfd;
  on_snd (poll_close (routerFd u)).
End UserTerm.
End UserTerm.

(** ** What passes through *)

Import UserTerm.

(** [select] and the terminal's own methods leave the streams alone; [write] is like
    [send]. *)
Class PollStreams (W : Type) `{!Poll W} `{!UserTerminal W} `{!Streams W} := {
  poll_select_quiet r w k o k' : poll_select r w k = (o, k') → quiet k k';
  poll_write_sends fd s k o k' : poll_write fd s k = (o, k') →
    match o with
    | Ok (IoOk n) => 0 <= n <= len s ∧ xfer fd [] (take (Z.to_nat n) s) k k'
    | _ => quiet k k'
    end;
  term_end_quiet k o k' : term_handleSessionEnd k = (o, k') → quiet k k';
  term_info_quiet w k o k' : term_setInfo w k = (o, k') → quiet k k';
}.

(** The bytes of whole messages of the router, and the text that is typed in them. *)
Section RouterText.
Context `{!Proto TerminalBuffer} `{!Proto TerminalInfo}.

Inductive router_text : str → str → Prop :=
| text_none : router_text [] []
| text_keys c raw s tb rest t :
    bval c = TERMINAL_BUFFER → length raw = 8%nat → le64_decode raw = len s → parse s = Some tb →
    router_text rest t → router_text (c :: raw ++ s ++ rest) (buffer_of tb ++ t)
| text_info c raw s (ti : TerminalInfo) rest t :
    bval c = TERMINAL_INFO → length raw = 8%nat → le64_decode raw = len s → parse s = Some ti →
    router_text rest t → router_text (c :: raw ++ s ++ rest) t
| text_other c rest t :
    bval c ≠ TERMINAL_BUFFER → bval c ≠ TERMINAL_INFO →
    router_text rest t → router_text (c :: rest) t.

Lemma router_text_app a b s t : router_text a s → router_text b t → router_text (a ++ b) (s ++ t).
Proof.
  intros Ha Hb. induction Ha; cbn [app]; rewrite <-?app_assoc; [done|..];
    [by eapply text_keys|by eapply text_info|by apply text_other].
Qed.
End RouterText.

Section Relay.
Context {W : Type} `{!Kernel W} `{!SocketHandler W} `{!Streams W} `{!Poll W} `{!UserTerminal W}.
Context `{!KernelStreams W} `{!StreamSocket W} `{!CleanRetry W} `{!PollStreams W}.
Context `{!Proto TerminalBuffer} `{!Proto TerminalInfo}.
Context `{!ProtoLaws TerminalBuffer} `{!ProtoLaws TerminalInfo}.
Variables (fuel : nat) (masterFd : Z).
Implicit Types (p : UserTerminalHandler * W).

(** From [p] to [p'] whole messages [taken] of the router were read, and [rest] of one more;
    the text [typed] in them joined the pending input, of which [out] was written to the
    terminal; [shown] was read from the terminal and [sent] of it passed on.  A [clean] run
    stopped between two messages, with nothing lost. *)
Definition relays (clean : Prop) p p' : Prop :=
  ∃ taken rest typed out shown sent,
    incoming p.2 (routerFd p.1) = taken ++ rest ++ incoming p'.2 (routerFd p.1) ∧
    router_text taken typed ∧
    outgoing p'.2 masterFd = outgoing p.2 masterFd ++ out ∧
    pendingInput p.1 ++ typed = out ++ pendingInput p'.1 ∧
    incoming p.2 masterFd = shown ++ incoming p'.2 masterFd ∧
    outgoing p'.2 (routerFd p.1) = outgoing p.2 (routerFd p.1) ++ sent ∧
    sent `prefix_of` shown ∧ (clean → rest = [] ∧ sent = shown) ∧
    routerFd p'.1 = routerFd p.1.

Lemma relays_trans clean p p1 p' : relays True p p1 → relays clean p1 p' → relays clean p p'.
Proof.
  intros (ta & re & ty & ou & sh & se & Hr & Ht & Ho & Hp & Hm & Hs & _ & Hc & Hf).
  destruct (Hc I) as [-> ->].
  intros (ta' & re' & ty' & ou' & sh' & se' & Hr' & Ht' & Ho' & Hp' & Hm' & Hs' & Hpre & Hc' & Hf').
  rewrite Hf in *. exists (ta ++ ta'), re', (ty ++ ty'), (ou ++ ou'), (sh ++ sh'), (sh ++ se').
  rewrite Hr, Hr', Ho', Ho, Hm, Hm', Hs', Hs, Hf', <-!app_assoc. split_and!; try done.
  - by apply router_text_app.
  - by rewrite app_assoc, Hp, <-Hp', <-app_assoc.
  - by apply prefix_app.
  - by intros [-> ->]%Hc'.
Qed.

Lemma relays_weaken (clean clean' : Prop) p p' :
  (clean' → clean) → relays clean p p' → relays clean' p p'.
Proof.
  intros Himp (ta & re & ty & ou & sh & se & H). exists ta, re, ty, ou, sh, se. naive_solver.
Qed.

(** Steps that move no byte. *)
Lemma relays_quiet clean p p' :
  quiet p.2 p'.2 → routerFd p'.1 = routerFd p.1 → pendingInput p'.1 = pendingInput p.1 →
  relays clean p p'.
Proof.
  intros Hq Hr Hp. exists [], [], [], [], [], []. rewrite Hp, !app_nil_r.
  destruct (Hq masterFd) as [-> ->], (Hq (routerFd p.1)) as [-> ->].
  split_and!; try done. apply text_none.
Qed.

(** Only a run that goes on is clean. *)
Definition goes_on (o : outcome stage) : Prop :=
  match o with Ok Leave | Stop _ => False | _ => True end.

Definition relayed (m : M (UserTerminalHandler * W) stage) : Prop :=
  ∀ p, routerFd p.1 ≠ masterFd → wp m (λ o p', relays (goes_on o) p p') p.

Lemma relayed_then m1 m2 : relayed m1 → relayed m2 → relayed (then_ m1 m2).
Proof.
  intros H1 H2 p Hne. unfold then_.
  eapply wp_bind; [intros o p1 E; exact (wp_run _ _ _ _ _ (H1 p Hne) E)| |done].
  intros st p1 Hr. destruct st; [|done..]. eapply wp_mono; [apply H2|].
  - destruct Hr as (?&?&?&?&?&?&?&?&?&?&?&?&?&?& ->). done.
  - intros o p' Hp. by eapply relays_trans.
Qed.

(** Bytes from the terminal to the router. *)
Lemma relays_shown clean p k1 p' shown sent :
  routerFd p.1 ≠ masterFd → routerFd p'.1 = routerFd p.1 → pendingInput p'.1 = pendingInput p.1 →
  xfer masterFd shown [] p.2 k1 → xfer (routerFd p.1) [] sent k1 p'.2 →
  sent `prefix_of` shown → (clean → sent = shown) → relays clean p p'.
Proof.
  intros Hne Hf Hp (Hi1 & Ho1 & Hx1) (Hi2 & Ho2 & Hx2) Hpre Hc.
  destruct (Hx1 (routerFd p.1)) as [Hi1' Ho1']; [done|].
  destruct (Hx2 masterFd) as [Hi2' Ho2']; [done|].
  exists [], [], [], [], shown, sent. rewrite Hp, !app_nil_r in *. cbn [app] in *.
  split_and!; try done; try congruence; [apply text_none|]. intros ?. split; auto.
Qed.

(** Bytes from the router. *)
Lemma relays_typed clean p p' taken rest typed :
  routerFd p.1 ≠ masterFd → routerFd p'.1 = routerFd p.1 →
  pendingInput p'.1 = pendingInput p.1 ++ typed → router_text taken typed →
  xfer (routerFd p.1) (taken ++ rest) [] p.2 p'.2 → (clean → rest = []) → relays clean p p'.
Proof.
  intros Hne Hf Hp Ht (Hi & Ho & Hx) Hc. destruct (Hx masterFd) as [Hi' Ho']; [done|].
  exists taken, rest, typed, [], [], []. rewrite Hp, Hi, Ho, Hi', Ho', !app_nil_r, <-!app_assoc.
  split_and!; try done. intros ?. split; auto.
Qed.

Lemma relays_end clean p :
  wp end_session (λ o p', relays clean p p') p.
Proof.
  destruct p as [u k]. unfold wp, end_session. rewrite run_snd.
  destruct (term_handleSessionEnd k) as [o k1] eqn:He. apply term_end_quiet in He.
  destruct o as [[]|f]; by apply relays_quiet.
Qed.

(** Bytes to the terminal. *)
Lemma relays_out clean p p' out :
  routerFd p.1 ≠ masterFd → routerFd p'.1 = routerFd p.1 →
  pendingInput p.1 = out ++ pendingInput p'.1 → xfer masterFd [] out p.2 p'.2 → relays clean p p'.
Proof.
  intros Hne Hf Hp (Hi & Ho & Hx). destruct (Hx (routerFd p.1)) as [Hi' Ho']; [done|].
  exists [], [], [], out, [], []. rewrite Hp, Hi, Ho, Hi', Ho', !app_nil_r.
  split_and!; try done. apply text_none.
Qed.

Lemma relayed_drain : relayed (drain masterFd).
Proof.
  intros [u k] Hne. cbn in Hne. unfold drain, wp. rewrite run_fst_get.
  destruct (pendingInput u) as [|c s] eqn:Hu; [by apply relays_quiet|]. rewrite <-Hu, run_snd.
  destruct (poll_write masterFd (pendingInput u) k) as [[[n|e]|f] k1] eqn:Hw;
    apply poll_write_sends in Hw; [|case_match; [by apply relays_quiet|]|by apply relays_quiet].
  - destruct Hw as [Hn Hx]. apply (relays_out _ _ _ (take (Z.to_nat n) (pendingInput u))); [done|..].
    + by case_match.
    + case_match; b2p; run; cbn; [by rewrite take_drop|]. by replace n with 0 by lia.
    + by case_match.
  - apply (relays_trans _ (u, k) (u, k1)); [by apply relays_quiet|apply (relays_end _ (u, k1))].
Qed.

(** What a failing [readProto] has read of its message does not matter: the loop ends. *)
Lemma relayed_read_output rfd : relayed (read_output fuel masterFd rfd).
Proof.
  intros [u k] Hne. cbn in Hne. unfold read_output, wp. rewrite run_fst_get.
  case_match; [|by apply relays_quiet]. rewrite run_snd.
  destruct (k_read masterFd READ_SIZE k) as [[[[|c s]|e]|f] k1] eqn:Hr; apply kernel_read in Hr.
  - destruct Hr as [_ Hr]. apply (quiet_xfer masterFd) in Hr.
    apply (relays_trans _ (u, k) (u, k1)); [by apply relays_quiet|apply (relays_end _ (u, k1))].
  - destruct Hr as [_ Hr]. run. rewrite run_snd.
    destruct (writeAllOrThrow fuel (routerFd u) (c :: s) false k1) as [o k2] eqn:Hw.
    apply writeAllOrThrow_run in Hw as (sent & Hx & Hpre & Hall).
    destruct o as [[]|f]; (apply (relays_shown _ _ k1 _ (c :: s) sent); [done..|]); [|done].
    intros _. by apply Hall.
  - case_match; [by apply relays_quiet|].
    apply (relays_trans _ (u, k) (u, k1)); [by apply relays_quiet|apply (relays_end _ (u, k1))].
  - by apply relays_quiet.
Qed.

(** The rest of a message, after its type. *)
Lemma relays_message {T} `{!Proto T} `{!ProtoLaws T} u k k1 c (f : T → M (UserTerminalHandler * W) stage) :
  routerFd u ≠ masterFd → xfer (routerFd u) [c] [] k k1 →
  (∀ raw s t k2, length raw = 8%nat → le64_decode raw = len s → parse s = Some t →
     xfer (routerFd u) (c :: raw ++ s ++ []) [] k k2 →
     wp (f t) (λ o p', relays (goes_on o) (u, k) p') (u, k2)) →
  wp (t ← on_snd (readProto T fuel (routerFd u) false); f t)
    (λ o p', relays (goes_on o) (u, k) p') (u, k1).
Proof.
  intros Hne Hx1 Hf. unfold wp. rewrite run_snd.
  destruct (readProto T fuel (routerFd u) false k1) as [[t|e] k2] eqn:Hr.
  - apply readProto_ok in Hr as (raw & s & Hraw & Hdec & Hx2 & Hp). apply (Hf raw s t k2); [done..|].
    rewrite app_nil_r. by apply (xfer_trans _ [c] [] (raw ++ s) [] k k1 k2).
  - apply readProto_run in Hr as [r Hx2].
    apply (relays_typed _ _ _ [] ([c] ++ r) []); [done|done|by rewrite app_nil_r|apply text_none| |done].
    by apply (xfer_trans _ [c] [] r [] k k1 k2).
Qed.

Lemma relayed_read_router rfd : relayed (read_router fuel rfd).
Proof.
  intros [u k] Hne. cbn in Hne. unfold read_router, wp. rewrite run_fst_get.
  case_match; [|by apply relays_quiet]. rewrite run_snd.
  destruct (k_read (routerFd u) 1 k) as [[[[|c s]|e]|f] k1] eqn:Hr; apply kernel_read in Hr.
  - destruct Hr as [_ Hr]. apply (quiet_xfer (routerFd u)) in Hr. by apply relays_quiet.
  - destruct Hr as [Hl Hr]. destruct s; [|cbn in Hl; lia].
    destruct (bval c =? TERMINAL_BUFFER) eqn:Hb; [|destruct (bval c =? TERMINAL_INFO) eqn:Hi]; b2p.
    + apply (relays_message u k k1 c); [done..|]. intros raw s tb k2 Hraw Hdec Hp Hx. unfold wp. run.
      apply (relays_typed _ _ _ (c :: raw ++ s ++ []) [] (buffer_of tb ++ [])); try done.
      * cbn. by rewrite app_nil_r.
      * by eapply text_keys; [..|apply text_none].
      * by rewrite app_nil_r.
    + apply (relays_message u k k1 c); [done..|]. intros raw s ti k2 Hraw Hdec Hp Hx. unfold wp.
      rewrite run_snd. destruct (term_setInfo _ k2) as [o k3] eqn:Hs. apply term_info_quiet in Hs.
      assert (relays True (u, k) (u, k3)) as Hrel.
      { apply (relays_typed _ _ _ (c :: raw ++ s ++ []) [] []); try done.
        - by rewrite app_nil_r.
        - by eapply text_info; [..|apply text_none].
        - rewrite app_nil_r. by eapply xfer_quiet_r. }
      destruct o as [[]|f]; by apply (relays_weaken True _ _ (u, k3)).
    + apply (relays_typed _ _ _ [c] [] []); try done.
      * by rewrite app_nil_r.
      * by apply text_other; [..|apply text_none].
  - case_match; by apply relays_quiet.
  - by apply relays_quiet.
Qed.

Lemma relayed_body rfd :
  relayed (then_ (read_output fuel masterFd rfd) (then_ (read_router fuel rfd) (drain masterFd))).
Proof.
  apply relayed_then; [apply relayed_read_output|].
  apply relayed_then; [apply relayed_read_router|apply relayed_drain].
Qed.

Lemma relayed_catch m : relayed m →
  relayed (catch_all m (λ _, _ ← on_fst (modify shutdown); mret Leave)).
Proof.
  intros Hm p Hne. specialize (Hm p Hne). unfold wp, catch_all in *.
  by destruct (m p) as [[st|[e| | |]] [u k]].
Qed.

Lemma writable_quiet fd k : wp (isSocketWritable fd) (λ _ k', quiet k k') k.
Proof.
  unfold isSocketWritable. wp_step kernel_select as r k1 Hq; [|done]. repeat case_match; done.
Qed.

Lemma relayed_iteration : relayed (iteration fuel masterFd).
Proof.
  intros [u k] Hne. cbn in Hne. unfold iteration, wp. rewrite run_fst_get, run_snd.
  destruct (isSocketWritable (routerFd u) k) as [[b|f] k1] eqn:Hw;
    apply (wp_run _ _ _ _ _ (writable_quiet _ _)) in Hw; [|by apply relays_quiet].
  cbv zeta. rewrite run_snd. destruct (poll_select _ _ k1) as [[rfd|f] k2] eqn:Hs;
    apply poll_select_quiet in Hs; [|apply relays_quiet; [by etrans|done..]].
  rewrite run_snd. destruct (k_time k2) as [[now|f] k3] eqn:Ht; apply kernel_time in Ht;
    [|apply relays_quiet; [by do 2 (etrans; [done|])|done..]].
  run. assert (relays True (u, k) (new_second now u, k3)) as Hrel.
  { apply relays_quiet; [by do 2 (etrans; [done|])|cbn; unfold new_second; by case_match..]. }
  eapply (wp_mono _ (λ o p', relays (goes_on o) (new_second now u, k3) p')).
  - apply (relayed_catch _ (relayed_body rfd)). cbn. unfold new_second. by case_match.
  - intros o p' Hp. by eapply relays_trans.
Qed.

(** The iterations of the loop that go on; [shutdown] may be called in between. *)
Inductive iterations : UserTerminalHandler * W → UserTerminalHandler * W → Prop :=
| iterations_none p : iterations p p
| iterations_next p st p1 p' :
    iteration fuel masterFd p = (Ok st, p1) → st ≠ Leave → iterations p1 p' → iterations p p'.

Lemma relayed_iterations p p1 o p' :
  routerFd p.1 ≠ masterFd → iterations p p1 → iteration fuel masterFd p1 = (o, p') →
  relays (goes_on o) p p'.
Proof.
  intros Hne Hits Hlast. revert Hne. induction Hits as [p|p st p2 p1 H Hst _ IH]; intros Hne.
  - exact (wp_run _ _ _ _ _ (relayed_iteration p Hne) Hlast).
  - pose proof (wp_run _ _ _ _ _ (relayed_iteration p Hne) H) as Hrel.
    assert (relays True p p2) as Hrel' by (eapply relays_weaken; [|exact Hrel]; by destruct st).
    apply (relays_trans _ _ p2); [done|]. apply IH; [done|].
    destruct Hrel' as (?&?&?&?&?&?&?&?&?&?&?&?&?&?& ->). done.
Qed.
End Relay.

Section Terminal.
Context {W : Type} `{!Kernel W} `{!Streams W} `{!Poll W} `{!UserTerminal W}.
Context (pipe : SocketHandler W) `{!@StreamHandler W pipe _}.
#[local] Instance steady_pipe : SocketHandler W := steady pipe.
Context `{!KernelStreams W} `{!PollStreams W}.
Context `{!Proto TerminalBuffer} `{!Proto TerminalInfo}.
Context `{!ProtoLaws TerminalBuffer} `{!ProtoLaws TerminalInfo}.

(** C15. The terminal process relays.  After any number of iterations of its loop, and
    whatever the last one does (a read or a write may fail, and an exception ends the loop):
    what was typed in the messages read from the router is, in order and without a loss,
    what was written to the terminal followed by what is still pending; what was sent to
    the router is a prefix of what was read from the terminal; and when the loop goes on,
    no byte is missing in either direction.  This is about the runs up to the first write to
    the router that asks to be retried after it has sent a part of its buffer ([steady]): a
    [UnixSocketHandler::write] that the router stalls for five seconds does that, and
    [writeAllOrThrow] then sends the part twice (C38). *)
Theorem user_terminal_relays fuel masterFd (p p1 : UserTerminalHandler * W) o p' :
  routerFd p.1 ≠ masterFd → iterations fuel masterFd p p1 → iteration fuel masterFd p1 = (o, p') →
  relays masterFd (goes_on o) p p'.
Proof. apply relayed_iterations. Qed.
End Terminal.

(** ** The input that is held back *)

(** No descriptor is ready that [select] was not asked for, and the text of a message is no
    longer than the message. *)
Class PollSubset (W : Type) `{!Poll W} := {
  poll_select_subset r w k s k' : poll_select r w k = (Ok s, k') → s ⊆ r;
}.

Class BufferFits `{!Proto TerminalBuffer} := {
  buffer_fits s tb : parse s = Some tb → (length (buffer_of tb) ≤ length s)%nat;
}.

Section Bounded.
Context {W : Type} `{!Kernel W} `{!SocketHandler W} `{!Poll W} `{!UserTerminal W}.
Context `{!PollSubset W} `{!Proto TerminalBuffer} `{!Proto TerminalInfo} `{!BufferFits}.
Context `{!Streams W} `{!StreamSocket W} `{!ProtoLaws TerminalBuffer}.
Variables (fuel : nat) (masterFd : Z).
Implicit Types (p : UserTerminalHandler * W).

Definition pending p : Z := len (pendingInput p.1).

Ltac same_pending := run; unfold pending; cbn; (split; [lia|done]).

(** The pending input does not grow. *)
Definition not_longer (m : M (UserTerminalHandler * W) stage) : Prop :=
  ∀ p, wp m (λ _ p', pending p' <= pending p ∧ routerFd p'.1 = routerFd p.1) p.

Lemma end_not_longer : not_longer end_session.
Proof.
  intros [u k]. unfold wp, end_session. rewrite run_snd.
  destruct (term_handleSessionEnd k) as [[[]|f] k1]; same_pending.
Qed.

Lemma drain_not_longer : not_longer (drain masterFd).
Proof.
  intros [u k]. unfold wp, drain. rewrite run_fst_get.
  destruct (pendingInput u) as [|c s] eqn:Hu; [same_pending|]. rewrite <-Hu, run_snd.
  destruct (poll_write masterFd (pendingInput u) k) as [[[n|e]|f] k1]; [|case_match|].
  - case_match; [|same_pending]. run. unfold pending. cbn. rewrite length_drop. split; [lia|done].
  - same_pending.
  - apply (end_not_longer (u, k1)).
  - same_pending.
Qed.

Lemma read_output_not_longer rfd : not_longer (read_output fuel masterFd rfd).
Proof.
  intros [u k]. unfold wp, read_output. rewrite run_fst_get.
  case_match; [|same_pending]. rewrite run_snd.
  destruct (k_read masterFd READ_SIZE k) as [[[[|c s]|e]|f] k1].
  - apply (end_not_longer (u, k1)).
  - run. rewrite run_snd. destruct (writeAllOrThrow _ _ _ _ k1) as [[[]|f] k2]; same_pending.
  - case_match; [same_pending|apply (end_not_longer (u, k1))].
  - same_pending.
Qed.

Lemma readProto_bounded {T} `{!Proto T} fd w (t : T) w' :
  readProto T fuel fd false w = (Ok t, w') →
  t = proto_default ∨ ∃ s, parse s = Some t ∧ len s <= MAX_PROTO_LENGTH.
Proof.
  unfold readProto. rewrite M_bind_stop_inv.
  destruct (readAll fuel fd 8 false w) as [[raw|f] w1]; [|done].
  case_match eqn:Hlen; [done|]. case_match; [intros [= <- _]; by left|]. b2p.
  rewrite M_bind_stop_inv. destruct (readAll fuel fd _ false w1) as [[s|f] w2] eqn:Hs; [|done].
  apply readAll_ok in Hs as [Hl _]. destruct (parse s) eqn:Hp; [|done]. intros [= <- _].
  right. exists s. split; [done|lia].
Qed.

(** One message is added at most, and only below the limit. *)
Definition LIMIT : Z := 256 * 1024 + MAX_PROTO_LENGTH.

Lemma read_router_bounded rfd p :
  (routerFd p.1 ∈ rfd → pending p < 256 * 1024) → pending p < LIMIT →
  wp (read_router fuel rfd) (λ _ p', pending p' < LIMIT ∧ routerFd p'.1 = routerFd p.1) p.
Proof.
  destruct p as [u k]. intros Hready Hp. unfold wp, read_router. rewrite run_fst_get.
  case_bool_decide as Hin; [|done]. specialize (Hready Hin). rewrite run_snd.
  destruct (k_read (routerFd u) 1 k) as [[[[|c s]|e]|f] k1]; [done| |by case_match|done].
  case_match; [|case_match; [|done]]; rewrite run_snd.
  - destruct (readProto TerminalBuffer fuel (routerFd u) false k1) as [[tb|f] k2] eqn:Hr; [|done].
    run. unfold pending in *. cbn in *. rewrite length_app.
    assert (len (buffer_of tb) <= MAX_PROTO_LENGTH); [|unfold LIMIT; lia].
    apply readProto_bounded in Hr as [->|(s' & Hs & Hl)].
    + pose proof (buffer_fits [] _ parse_empty). unfold MAX_PROTO_LENGTH. cbn in *. lia.
    + pose proof (buffer_fits _ _ Hs). lia.
  - destruct (readProto TerminalInfo fuel (routerFd u) false k1) as [[ti|f] k2] eqn:Hr; [|done].
    rewrite run_snd. by destruct (term_setInfo _ k2) as [[[]|f] k3].
Qed.

Lemma wp_then m1 m2 p (R Q : UserTerminalHandler * W → Prop) :
  wp m1 (λ _ p', R p') p → (∀ p1, R p1 → Q p1) → (∀ p1, R p1 → wp m2 (λ _ p', Q p') p1) →
  wp (then_ m1 m2) (λ _ p', Q p') p.
Proof.
  intros H1 HR H2. unfold then_. eapply wp_bind; [intros o p1 E; exact (wp_run _ _ _ _ _ H1 E)| |auto].
  intros st p1 Hp. destruct st; [by apply H2|by apply HR..].
Qed.

Lemma max_pending : Z.of_nat maxPendingInput = 256 * 1024.
Proof. unfold maxPendingInput. by rewrite Z2Nat.id. Qed.

Lemma iteration_bounded p :
  routerFd p.1 ≠ masterFd → pending p < LIMIT →
  wp (iteration fuel masterFd) (λ _ p', pending p' < LIMIT ∧ routerFd p'.1 = routerFd p.1) p.
Proof.
  destruct p as [u k]. intros Hne Hp. cbn in Hne. unfold iteration, wp. rewrite run_fst_get, run_snd.
  destruct (isSocketWritable (routerFd u) k) as [[b|f] k1]; [|done]. cbv zeta. rewrite run_snd.
  destruct (poll_select _ _ k1) as [[rfd|f] k2] eqn:Hs; [|done]. apply poll_select_subset in Hs.
  assert (routerFd u ∈ rfd → pending (u, k) < 256 * 1024) as Hready.
  { intros Hin. apply Hs in Hin. destruct (length (pendingInput u) <? maxPendingInput)%nat eqn:Hl.
    + apply Nat.ltb_lt in Hl. pose proof max_pending. unfold pending. cbn [fst]. lia.
    + destruct b; set_solver. }
  rewrite run_snd. destruct (k_time k2) as [[now|f] k3]; [|done]. run.
  set (u1 := new_second now u). assert (pendingInput u1 = pendingInput u ∧ routerFd u1 = routerFd u) as [Hu1 Hf1]
    by (unfold u1, new_second; by destruct (lastSecond u =? now)).
  assert (wp (then_ (read_output fuel masterFd rfd) (then_ (read_router fuel rfd) (drain masterFd)))
            (λ _ p', pending p' < LIMIT ∧ routerFd p'.1 = routerFd u) (u1, k3)) as Hbody.
  { assert (pending (u1, k3) = pending (u, k)) as Hp1 by (unfold pending; cbn [fst]; by rewrite Hu1).
    eapply (wp_then _ _ _ _ (λ p', pending p' < LIMIT ∧ routerFd p'.1 = routerFd u));
      [apply read_output_not_longer| |]; intros p1 [Hp2 Hf2]; cbn in Hf2; rewrite Hf1 in Hf2;
      [split; [lia|done]|].
    eapply wp_then; [apply read_router_bounded; [|lia]| |].
    - rewrite Hf2. intros ?%Hready. lia.
    - intros p2. by rewrite Hf2.
    - intros p2 [Hp3 Hf3]. eapply wp_mono; [apply drain_not_longer|].
      intros ? p3 [Hp4 Hf4]. split; [lia|congruence]. }
  unfold wp, catch_all in *. by destruct (then_ _ _ (u1, k3)) as [[st|[e| | |]] [u2 k4]].
Qed.

(** C37. The input that waits for the terminal is bounded: whatever the router sends, after
    any number of iterations there are less than 256 KB and one message (128 MB) of it, as
    the loop does not read from the router while there are 256 KB. *)
Theorem pending_input_bounded p p1 o p' :
  routerFd p.1 ≠ masterFd → pending p < LIMIT → iterations fuel masterFd p p1 →
  iteration fuel masterFd p1 = (o, p') → pending p' < LIMIT.
Proof.
  intros Hne Hp Hits Hlast. revert Hne Hp. induction Hits as [p|p st p2 p1 H1 Hst _ IH]; intros Hne Hp.
  - exact (proj1 (wp_run _ _ _ _ _ (iteration_bounded p Hne Hp) Hlast)).
  - destruct (wp_run _ _ _ _ _ (iteration_bounded p Hne Hp) H1) as [Hp2 Hf2].
    apply IH; [done|by rewrite Hf2|done].
Qed.
End Bounded.

(** ** Concrete inputs *)

(** The text itself, behind a tag when it is there. *)
#[export] Instance tb_proto : Proto TerminalBuffer := {|
  serialize t := Some (match tb_buffer t with None => [] | Some b => "b"%char :: b end);
  parse s := Some (match s with [] => mkTb None | _ :: b => mkTb (Some b) end);
  proto_default := mkTb None;
|}.

#[export] Instance tb_proto_laws : ProtoLaws TerminalBuffer.
Proof. split; [|done]. by intros [[b|]] s [= <-]. Qed.

#[export] Instance tb_fits : BufferFits.
Proof. split. intros [|c b] tb [= <-]; cbn; lia. Qed.

#[export] Instance ti_proto : Proto TerminalInfo := countable_proto (mkTi None None None None None).
#[export] Instance ti_proto_laws : ProtoLaws TerminalInfo := countable_proto_laws _.

#[export] Instance WireTerminal : UserTerminal Wire := {|
  term_setup fd := mret 7;
  term_handleSessionEnd := mret tt;
  term_cleanup := mret tt;
  term_setInfo w := mret tt;
|}.

#[export] Instance WirePollStreams : PollStreams Wire.
Proof.
  split; try by intros *; intros [= <- <-]. exact kernel_send.
Qed.

#[export] Instance WirePollSubset : PollSubset Wire.
Proof. by split; intros r w k s k' [= <- <-]. Qed.

(** The router sends a command, the terminal shows its prompt. *)
Definition u_wire : Wire :=
  with_in (with_in wire0 7 (lit "$ ")) 5
    (byte 1 :: proto_frame (default [] (serialize (mkTb (Some (lit "make")))))).
Definition u_start : UserTerminalHandler * Wire := (mkUser 5 false false 0 0 [], u_wire).

Lemma user_terminal_relays_witness :
  let after := (@iteration Wire _ (steady WireSocket) _ _ _ _ 20 7 u_start) in
  after.1 = Ok Go ∧
  wire_out after.2.2 7 = lit "make" ∧ wire_out after.2.2 5 = lit "$ " ∧
  relays 7 True u_start after.2.
Proof.
  split; [vm_compute; reflexivity|]. split; [vm_compute; reflexivity|].
  split; [vm_compute; reflexivity|].
  refine (user_terminal_relays WireSocket 20 7 u_start u_start (Ok Go) _ _ (iterations_none 20 7 u_start) _).
  - vm_compute. discriminate.
  - vm_compute. reflexivity.
Defined.

Lemma pending_input_bounded_witness : pending (iteration 20 7 u_start).2 < LIMIT.
Proof.
  refine (pending_input_bounded 20 7 u_start u_start (iteration 20 7 u_start).1 _ _ _
            (iterations_none 20 7 u_start) _).
  - vm_compute. discriminate.
  - vm_compute. reflexivity.
  - apply surjective_pairing.
Defined.
