(* ===== verification/TerminalServer.v ===== *)
(** * [terminal/TerminalServer]: the server's loops

    The loop that accepts clients and terminals, and the thread that each client gets: a
    terminal session ([runTerminal]) or a proxy ([runJumpHost]).  A thread works on the
    state of the whole server (the connections are shared objects of [ServerConnection]) and
    on its own port forwarding.  What other threads do to the server between two iterations
    of a loop is a parameter, which also counts the iterations. *)

From stdpp Require Import sorting.
From S2P Require Import Prelude Sockets Crypto Packets Wire Backed Connection ClientConnection.
From S2P Require Import ServerConnection UnixSockets Forwarding Router TerminalMessages Loops.
Import Conn.

(** [SetEnv] and tunnels join one [std::map], which is listed in the order of its keys. *)
Fixpoint string_leb (a b : str) : bool :=
  match a, b with
  | [], _ => true
  | _ :: _, [] => false
  | x :: a', y :: b' => (bval x <? bval y) || ((bval x =? bval y) && string_leb a' b')
  end.

Definition env_list (e : gmap str str) : list (str * str) :=
  merge_sort (λ a b, Is_true (string_leb a.1 b.1)) (map_to_list e).

Module Term.

Record TerminalServer := mkTS {
  ts_server : Server.ServerConnection;
  ts_router : Router.UserTerminalRouter;
  terminalThreads : list positive;
  halt : bool;
}.

Definition set_server (s : Server.ServerConnection) (t : TerminalServer) : TerminalServer :=
  mkTS s (ts_router t) (terminalThreads t) (halt t).
Definition set_router (r : Router.UserTerminalRouter) (t : TerminalServer) : TerminalServer :=
  mkTS (ts_server t) r (terminalThreads t) (halt t).

(** [TerminalServer::shutdown], which hides that of [ServerConnection]. *)
Definition shutdown (t : TerminalServer) : TerminalServer :=
  mkTS (ts_server t) (ts_router t) (terminalThreads t) true.

Definition BUF_SIZE : Z := 16 * 1024.

Section Term.
Context {W : Type} `{!Kernel W} `{!Poll W} `{!SecretBox} `{!TempFiles W}.
(** The sockets of the network, of forwarded pipes, and of the terminals' pipes. *)
Context (sock : handler_kind → SocketHandler W) (term_sock : SocketHandler W).
Context `{!Proto SequenceHeader} `{!Proto CatchupBuffer}.
Context `{!Proto PortForwardData} `{!Proto PortForwardDestinationRequest}.
Context `{!Proto PortForwardDestinationResponse} `{!Proto TerminalUserInfo}.
Context `{!Proto TerminalBuffer} `{!Proto TerminalInfo} `{!Proto TermInit}.
Context `{!Proto InitialPayload} `{!Proto InitialResponse}.
Variable strerror : Z → str.
(** The orders in which unordered maps are walked. *)
Variables (order : gmap Z Z → list (Z * Z))
  (order' : gmap Z Destination.ForwardDestinationHandler → list Z).
Variable fuel : nat.
(** What other threads do to a connection while [writePacket] waits. *)
Variable others : list ((Connection → Connection) * (Connection → Connection)).

#[local] Instance network : SocketHandler W := sock Network.
#[local] Instance server_object : ConnectionObject W Connection := base_object.

(** The constructor: the sockets of the server, then the router's. *)
Definition TerminalServer_new (_serverEndpoint _routerEndpoint : SocketEndpoint) (uid gid : Z)
    : M W TerminalServer :=
  server ← Server.ServerConnection_new _serverEndpoint;
  router ← Router.UserTerminalRouter_new (H := term_sock) _routerEndpoint uid gid;
  mret (mkTS server router [] false).

(** ** The parts of the state *)

Definition on_server {A} (m : M (Server.ServerConnection * W) A) : M (TerminalServer * W) A :=
  zoom (λ p, (ts_server p.1, p.2)) (λ q p, (set_server q.1 p.1, q.2)) m.
Definition on_router {A} (m : M (Router.UserTerminalRouter * W) A) : M (TerminalServer * W) A :=
  zoom (λ p, (ts_router p.1, p.2)) (λ q p, (set_router q.1 p.1, q.2)) m.

(** A method of the connection at [l]. *)
Definition on_client {A} (l : positive) (m : M (Connection * W) A) : M (TerminalServer * W) A :=
  on_server (Server.on_object l m).

Definition client_state (l : positive) : M (TerminalServer * W) Connection :=
  on_client l (on_fst get).

Definition send_packet (l : positive) (p : Packet) : M (TerminalServer * W) unit :=
  _ ← on_client l (ConnOps.writePacket fuel others p);
  mret tt.

(** [Packet(type, protoToString(t))] *)
Definition send_proto {T} `{!Proto T} (l : positive) (type : Z) (t : T) : M (TerminalServer * W) unit :=
  s ← protoToString t;
  send_packet l (Packet_new type s).

(** ** The main loop *)

(** [numFdsSet] and the set as [select] leaves it. *)
Variable core_select : gset Z → M W (io_result (gset Z)).

Fixpoint accept_all (fds : list Z) (rfds : gset Z) : M (TerminalServer * W) unit :=
  match fds with
  | [] => mret tt
  | i :: fds' =>
    _ ← (if bool_decide (i ∈ rfds) then _ ← on_server (Server.acceptNewConnection i); mret tt
         else mret tt);
    accept_all fds' rfds
  end.

Definition run_iteration (serverPortFds : list Z) : M (TerminalServer * W) unit :=
  t ← on_fst get;
  let serverFd := Router.serverFd (ts_router t) in
  r ← on_snd (core_select ({[serverFd]} ∪ list_to_set serverPortFds));
  match r with
  | IoErr e => if e =? EINTR then mret tt else fatal "Error"
  | IoOk rfds =>
    if bool_decide (rfds = ∅) then mret tt
    else
      _ ← accept_all serverPortFds rfds;
      if bool_decide (serverFd ∈ rfds) then
        idKeyPair ← on_router (Router.acceptNewConnection (H := term_sock) fuel);
        match ikp_id idKeyPair with
        | [] => mret tt
        | _ => on_server (on_fst (modify (Server.addClientKey (ikp_id idKeyPair) (ikp_key idKeyPair))))
        end
      else mret tt
  end.

Fixpoint run_loop (env : list (TerminalServer → TerminalServer)) (serverPortFds : list Z)
    : M (TerminalServer * W) unit :=
  match env with
  | [] => stop OutOfFuel
  | others :: env' =>
    _ ← on_fst (modify others);
    t ← on_fst get;
    if halt t then mret tt
    else
      _ ← run_iteration serverPortFds;
      run_loop env' serverPortFds
  end.

(** [join] waits for the threads, whose steps are in [joined]. *)
Definition run (env : list (TerminalServer → TerminalServer)) (joined : TerminalServer → TerminalServer)
    : M (TerminalServer * W) unit :=
  t ← on_fst get;
  serverPortFds ← on_snd (sh_getEndpointFds (Server.serverEndpoint (ts_server t)));
  _ ← run_loop env serverPortFds;
  _ ← on_fst (modify shutdown);
  _ ← on_fst (modify shutdown);
  on_fst (modify joined).

(** The thread that runs [handleConnection] is started. *)
Definition newClient (l : positive) : M (TerminalServer * W) bool :=
  _ ← on_fst (modify (λ t, mkTS (ts_server t) (ts_router t) (terminalThreads t ++ [l]) (halt t)));
  mret true.

(** The end of both kinds of thread. *)
Definition remove_session (l : positive) : M (TerminalServer * W) unit :=
  c ← client_state l;
  _ ← on_server (Server.removeClient (id c));
  mret tt.

(** [rfd]: the descriptors that [select] is asked for. *)
Definition session_fds (l : positive) (terminalFd : Z) (c : Connection) : gset Z :=
  (if canBufferWrite (2 * BUF_SIZE) c then {[terminalFd]} else ∅)
  ∪ (if 0 <? socketFd c then {[socketFd c]} else ∅).

(** ** A proxy *)

(** [run = false; break;] *)
Definition jump_terminal (l : positive) (terminalFd : Z) : M (TerminalServer * W) stage :=
  catch_runtime
    (p ← on_snd (readPacket (H := term_sock) fuel terminalFd);
     match p with
     | Some packet => _ ← send_packet l packet; mret Go
     | None => mret Go
     end)
    (λ _, mret Leave).

Definition jump_client (l : positive) (terminalFd : Z) : M (TerminalServer * W) stage :=
  ready ← on_client l hasData;
  if ready : bool then
    p ← on_client l ConnOps.readPacket;
    match p with
    | None => mret Again
    | Some packet =>
      catch_runtime
        (_ ← on_snd (writePacket (H := term_sock) fuel terminalFd packet); mret Go)
        (λ _, mret Leave)
    end
  else mret Go.

Definition jump_iteration (l : positive) (terminalFd : Z) : M (TerminalServer * W) stage :=
  c ← client_state l;
  let serverClientFd := socketFd c in
  rfd ← on_snd (poll_select (session_fds l terminalFd c) ∅);
  catch_runtime
    (then_ (if bool_decide (terminalFd ∈ rfd) then jump_terminal l terminalFd else mret Go)
           (if (0 <? serverClientFd) && bool_decide (serverClientFd ∈ rfd)
            then jump_client l terminalFd else mret Go))
    (λ _, _ ← on_client l closeSocket; mret Go).

Fixpoint jump_loop (env : list (TerminalServer → TerminalServer)) (l : positive) (terminalFd : Z)
    : M (TerminalServer * W) unit :=
  match env with
  | [] => stop OutOfFuel
  | others :: env' =>
    _ ← on_fst (modify others);
    t ← on_fst get;
    c ← client_state l;
    if halt t || shuttingDown c then mret tt
    else
      st ← jump_iteration l terminalFd;
      match st with
      | Leave => mret tt
      | _ => jump_loop env' l terminalFd
      end
  end.

Definition runJumpHost (env : list (TerminalServer → TerminalServer)) (l : positive)
    (payload : InitialPayload) : M (TerminalServer * W) unit :=
  _ ← send_proto l INITIAL_RESPONSE (mkResponse None);
  t ← on_fst get;
  c ← client_state l;
  maybeUserInfo ← lift (Router.tryGetInfoForConnection c (ts_router t));
  match maybeUserInfo with
  | None => on_client l closeSocket
  | Some userInfo =>
    let terminalFd := default 0 (tui_fd userInfo) in
    s ← protoToString payload;
    _ ← on_snd (writePacket (H := term_sock) fuel terminalFd (Packet_new JUMPHOST_INIT s));
    _ ← jump_loop env l terminalFd;
    remove_session l
  end.

(** ** A terminal session

    [T]: the port forwarding of the thread beside the server. *)

Abbreviation T := (Forward.PortForwardHandler * (TerminalServer * W))%type.

#[local] Instance thread_files : TempFiles (TerminalServer * W) := files_beside _.
Definition thread_sock (k : handler_kind) : SocketHandler (TerminalServer * W) := beside (sock k).

(** The reverse tunnels; [None] when one cannot be opened and the client has been told. *)
Fixpoint open_tunnels (l : positive) (uid gid : Z) (tunnels : list PortForwardSourceRequest)
    (environment : gmap str str) : M T (option (gmap str str)) :=
  match tunnels with
  | [] => mret (Some environment)
  | pfsr :: tunnels' =>
    let want := bool_decide (is_Some (pfsr_environmentvariable pfsr)) in
    r ← Forward.createSource thread_sock pfsr want uid gid;
    match pfs_error r.1 with
    | Some e =>
      _ ← on_snd (send_proto l INITIAL_RESPONSE (mkResponse (Some e)));
      mret None
    | None =>
      open_tunnels l uid gid tunnels'
        (match pfsr_environmentvariable pfsr with
         | Some v => <[v := default [] r.2]> environment
         | None => environment
         end)
    end
  end.

(** The shell's output. *)
Definition read_terminal (l : positive) (terminalFd : Z) : M T stage :=
  rc ← on_snd (on_snd (k_read terminalFd (Z.to_nat BUF_SIZE)));
  match rc with
  | IoOk ((_ :: _) as s) =>
    _ ← on_snd (send_proto l TERMINAL_BUFFER (mkTb (Some s)));
    mret Go
  | IoOk [] => mret Leave
  | IoErr e =>
    if would_block e then _ ← on_snd (on_snd (k_sleep 1000000)); mret Again
    else mret Leave
  end.

Fixpoint send_all {X} `{!Proto X} (l : positive) (type : Z) (xs : list X) : M T unit :=
  match xs with
  | [] => mret tt
  | x :: xs' => _ ← on_snd (send_proto l type x); send_all l type xs'
  end.

Definition forward_sockets (l : positive) : M T stage :=
  r ← Forward.update thread_sock strerror fuel order order';
  _ ← send_all l PORT_FORWARD_DESTINATION_REQUEST r.1;
  _ ← send_all l PORT_FORWARD_DATA r.2;
  mret Go.

Definition is_forward_packet (p : Packet) : bool :=
  (header p =? PORT_FORWARD_DATA) || (header p =? PORT_FORWARD_DESTINATION_REQUEST)
  || (header p =? PORT_FORWARD_DESTINATION_RESPONSE).

(** A type and a message on the terminal's pipe. *)
Definition to_terminal {X} `{!Proto X} (terminalFd type : Z) (x : X) : M W unit :=
  _ ← writeAllOrThrow (H := term_sock) fuel terminalFd [byte type] false;
  writeProto (H := term_sock) fuel terminalFd x false.

(** One packet of the client. *)
Definition client_packet (l : positive) (terminalFd : Z) (packet : Packet) : M T unit :=
  if is_forward_packet packet then
    Forward.handlePacket thread_sock strerror fuel (λ p, on_snd (send_packet l p)) packet
  else if header packet =? TERMINAL_BUFFER then
    tb ← stringToProto TerminalBuffer (payload packet);
    on_snd (on_snd (to_terminal terminalFd TERMINAL_BUFFER tb))
  else if header packet =? KEEP_ALIVE then
    on_snd (send_packet l (Packet_new KEEP_ALIVE []))
  else if header packet =? TERMINAL_INFO then
    ti ← stringToProto TerminalInfo (payload packet);
    on_snd (on_snd (to_terminal terminalFd TERMINAL_INFO ti))
  else fatal "Unknown packet type".

(** [while (serverClientState->hasData())]; [n] bounds the packets of one batch. *)
Fixpoint client_packets (n : nat) (l : positive) (terminalFd : Z) : M T unit :=
  ready ← on_snd (on_client l hasData);
  if ready : bool then
    match n with
    | O => stop OutOfFuel
    | S n' =>
      p ← on_snd (on_client l ConnOps.readPacket);
      match p with
      | None => mret tt
      | Some packet =>
        _ ← client_packet l terminalFd packet;
        client_packets n' l terminalFd
      end
    end
  else mret tt.

(** The body of the [try]. *)
Definition terminal_steps (l : positive) (terminalFd serverClientFd : Z) (rfd : gset Z) : M T stage :=
  then_ (if bool_decide (terminalFd ∈ rfd) then read_terminal l terminalFd else mret Go)
    (then_ (forward_sockets l)
       (if (0 <? serverClientFd) && bool_decide (serverClientFd ∈ rfd)
        then _ ← client_packets fuel l terminalFd; mret Go
        else mret Go)).

Definition terminal_iteration (l : positive) (terminalFd : Z) : M T stage :=
  c ← on_snd (client_state l);
  let serverClientFd := socketFd c in
  pfFds ← Forward.getForwardFds thread_sock ∅;
  rfd ← on_snd (on_snd (poll_select (session_fds l terminalFd c ∪ pfFds) ∅));
  catch_runtime (terminal_steps l terminalFd serverClientFd rfd)
    (λ _, _ ← on_snd (on_client l closeSocket); mret Go).

Fixpoint terminal_loop (env : list (TerminalServer → TerminalServer)) (l : positive) (terminalFd : Z)
    : M T unit :=
  match env with
  | [] => stop OutOfFuel
  | others :: env' =>
    _ ← on_snd (on_fst (modify others));
    t ← on_snd (on_fst get);
    if halt t then mret tt
    else
      st ← terminal_iteration l terminalFd;
      match st with
      | Leave => mret tt
      | _ => terminal_loop env' l terminalFd
      end
  end.

(** What the session does before its loop: the descriptor of the terminal, or [None] when
    a tunnel cannot be opened. *)
Definition session_setup (l : positive) (payload : InitialPayload) (userInfo : TerminalUserInfo)
    : M T (option Z) :=
  environment ← open_tunnels l (default 0 (tui_uid userInfo)) (default 0 (tui_gid userInfo))
                  (ip_reversetunnels payload) (ip_environmentvariables payload);
  match environment with
  | None => mret None
  | Some environment =>
    _ ← on_snd (send_proto l INITIAL_RESPONSE (mkResponse None));
    let terminalFd := default 0 (tui_fd userInfo) in
    s ← protoToString (mkTermInit (env_list environment).*1 (env_list environment).*2);
    _ ← on_snd (on_snd (writePacket (H := term_sock) fuel terminalFd (Packet_new TERMINAL_INIT s)));
    mret (Some terminalFd)
  end.

Definition terminal_session (env : list (TerminalServer → TerminalServer)) (l : positive)
    (payload : InitialPayload) (userInfo : TerminalUserInfo) : M T unit :=
  terminalFd ← session_setup l payload userInfo;
  match terminalFd with
  | None => mret tt
  | Some terminalFd =>
    _ ← terminal_loop env l terminalFd;
    on_snd (remove_session l)
  end.

(** The port forwarding lives as long as the call. *)
Definition with_forwarding {A} (m : M T A) : M (TerminalServer * W) A := λ p,
  let '(o, (_, p')) := m (Forward.init, p) in (o, p').

Definition runTerminal (env : list (TerminalServer → TerminalServer)) (l : positive)
    (payload : InitialPayload) : M (TerminalServer * W) unit :=
  t ← on_fst get;
  c ← client_state l;
  maybeUserInfo ← lift (Router.tryGetInfoForConnection c (ts_router t));
  match maybeUserInfo with
  | None => on_client l closeSocket
  | Some userInfo => with_forwarding (terminal_session env l payload userInfo)
  end.

(** ** The thread of a client *)

(** [waits]: what others do to the server during each [sleep(1)]. *)
Fixpoint first_packet (waits : list (TerminalServer → TerminalServer)) (l : positive)
    : M (TerminalServer * W) Packet :=
  match waits with
  | [] => stop OutOfFuel
  | others :: waits' =>
    p ← on_client l ConnOps.readPacket;
    match p with
    | Some packet => mret packet
    | None =>
      _ ← on_snd (k_sleep 1000000);
      _ ← on_fst (modify others);
      first_packet waits' l
    end
  end.

Definition handleConnection (waits env : list (TerminalServer → TerminalServer)) (l : positive)
    : M (TerminalServer * W) unit :=
  packet ← first_packet waits l;
  if negb (header packet =? INITIAL_PAYLOAD) then fatal "Invalid header: expecting INITIAL_PAYLOAD"
  else
    payload ← stringToProto InitialPayload (payload packet);
    if jumphost_of payload then runJumpHost env l payload
    else runTerminal env l payload.
End Term.
End Term.
Import Term.

(** ** The thread of a client that is gone *)

Section Waiting.
Context {W : Type} `{!Kernel W} `{!Poll W} `{!SecretBox} `{!TempFiles W}.
Context (sock : handler_kind → SocketHandler W) (term_sock : SocketHandler W).
Context `{!Proto PortForwardData} `{!Proto PortForwardDestinationRequest}.
Context `{!Proto PortForwardDestinationResponse}.
Context `{!Proto TerminalBuffer} `{!Proto TerminalInfo} `{!Proto TermInit}.
Context `{!Proto InitialPayload} `{!Proto InitialResponse}.
Variables (strerror : Z → str) (order : gmap Z Z → list (Z * Z))
  (order' : gmap Z Destination.ForwardDestinationHandler → list Z) (fuel : nat).
Variable others : list ((Connection → Connection) * (Connection → Connection)).
Variable l : positive.

(** The connection at [l] has been shut down. *)
Definition gone (t : TerminalServer) : Prop :=
  ∃ c, Server.objects (ts_server t) !! l = Some c ∧ shuttingDown c = true.

#[local] Instance waiting_network : SocketHandler W := sock Network.
#[local] Instance waiting_object : ConnectionObject W Connection := base_object.

Hypothesis k_sleep_returns : ∀ us k, ∃ k', k_sleep us k = (Ok tt, k').

Lemma gone_reads_nothing t k :
  gone t → ∃ q, on_client l ConnOps.readPacket (t, k) = (Ok None, q) ∧ gone q.1.
Proof.
  intros (c & Hc & Hd). eexists. unfold on_client, on_server, zoom, Server.on_object. cbn [fst snd].
  rewrite Hc. unfold ConnOps.readPacket. rewrite run_fst_get. cbn [as_conn waiting_object base_object].
  rewrite Hd. split; [done|]. exists c. split; [|done]. apply lookup_insert_eq.
Qed.

Lemma first_packet_waits waits t k :
  Forall (λ f, ∀ t, gone t → gone (f t)) waits → gone t →
  ∃ q, first_packet sock waits l (t, k) = (Stop OutOfFuel, q).
Proof.
  intros Hw. revert t k. induction Hw as [|f waits Hf _ IH]; intros t k Ht; cbn [first_packet]; [by eexists|].
  destruct (gone_reads_nothing t k Ht) as [[t1 k1] [Hr Ht1]].
  destruct (k_sleep_returns 1000000 k1) as [k2 Hs].
  rewrite (M_bind_ok _ _ _ _ _ Hr). unfold on_snd, zoom. rewrite M_bind_stop_inv. cbn [fst snd].
  rewrite Hs. apply IH, Hf, Ht1.
Qed.

(** The thread of a client whose connection is shut down before its first packet never
    ends, even when the server halts: it waits for the packet in a loop that looks at
    neither.  However often it looks, and whatever the other threads do in between that
    does not bring the connection back, it is still waiting. *)
Theorem handleConnection_never_ends waits env t k :
  Forall (λ f, ∀ t, gone t → gone (f t)) waits → gone t →
  (handleConnection sock term_sock strerror order order' fuel others waits env l (t, k)).1
  = Stop OutOfFuel.
Proof.
  intros Hw Ht. destruct (first_packet_waits waits t k Hw Ht) as [q Hq].
  unfold handleConnection. by rewrite (M_bind_stop _ _ _ _ _ Hq).
Qed.
End Waiting.
