(* ===== verification/ServerSession.v ===== *)
(** * What a client types reaches its terminal

    The thread of a client on the server ([TerminalServer]) and the terminal's process
    ([UserTerminal]) together: a batch of packets from the client puts on the pipe of the
    terminal exactly the messages that the process there reads as the text that was typed. *)

From S2P Require Import Prelude Sockets Crypto Packets Wire Backed WriterSpec ReaderSpec Connection Endpoint Apart.
From S2P Require Import ServerConnection UnixSockets TcpSockets SocketPromises Forwarding Router TerminalMessages Loops UserTerminal TerminalServer.
Import Conn.

(** ** A batch of packets *)

(** What the terminal's process reads of a message that was written for it. *)
Lemma message_text `{!Proto TerminalBuffer} `{!ProtoLaws TerminalBuffer} `{!Proto TerminalInfo}
    `{!ProtoLaws TerminalInfo} :
  (∀ tb s, serialize tb = Some s → len s <= MAX_PROTO_LENGTH →
     router_text (byte TERMINAL_BUFFER :: proto_frame s) (buffer_of tb)) ∧
  (∀ (ti : TerminalInfo) s, serialize ti = Some s → len s <= MAX_PROTO_LENGTH →
     router_text (byte TERMINAL_INFO :: proto_frame s) []).
Proof.
  assert (∀ s : str, len s <= MAX_PROTO_LENGTH → le64_decode (le64_encode (len s)) = len s) as Hdec.
  { intros s Hs. unfold MAX_PROTO_LENGTH in Hs. rewrite le64_roundtrip, to_i64_small by lia. done. }
  split; intros t s Hs Hl; unfold proto_frame; rewrite <-(app_nil_r s) at 2.
  - rewrite <-(app_nil_r (buffer_of t)).
    eapply text_keys; [done|apply length_le64|by apply Hdec|by apply parse_serialize|apply text_none].
  - eapply text_info; [done|apply length_le64|by apply Hdec|by apply parse_serialize|apply text_none].
Qed.

Import Term.

Section Batch.
Context {W : Type} `{!Streams W} `{!SecretBox} `{!TempFiles W}.
Context (sock : handler_kind → SocketHandler W) (term_sock : SocketHandler W).
Context `{!@StreamSocket W (sock Network) _} `{!@StreamSocket W term_sock _} `{!@CleanRetry W term_sock _}.
Context `{!Proto PortForwardData} `{!Proto PortForwardDestinationRequest}.
Context `{!Proto PortForwardDestinationResponse}.
Context `{!Proto TerminalBuffer} `{!ProtoLaws TerminalBuffer}.
Context `{!Proto TerminalInfo} `{!ProtoLaws TerminalInfo}.
Variables (strerror : Z → str) (fuel : nat).
Variable others : list ((Connection → Connection) * (Connection → Connection)).
Variables (l : positive) (terminalFd : Z).

#[local] Instance batch_network : SocketHandler W := sock Network.
#[local] Instance batch_object : ConnectionObject W Connection := base_object.
#[local] Instance batch_laws : ConnectionObjectLaws W Connection := base_object_laws.
Hypothesis (Hterm : 0 < terminalFd) (Hothers : keep_apart terminalFd others).

Lemma mutes_base_hasData : mutes terminalFd hasData.
Proof.
  intros k0 [c k] Hc a [c' k'] E. apply (mutes_hasData terminalFd k0 (c, k) Hc a (c', k')).
  unfold ConnOps.on_conn. cbn [as_conn with_conn batch_object base_object]. by rewrite E.
Qed.

(** The connection at [l] does not have the terminal's descriptor. *)
Definition client_apart (t : TerminalServer) : Prop :=
  ∀ c, Server.objects (ts_server t) !! l = Some c → apart terminalFd c.

Lemma mutes_on_client {A} (m : M (Connection * W) A) t k :
  mutes terminalFd m → client_apart t →
  finishes (on_client l m)
    (λ _ p', client_apart p'.1 ∧ outgoing p'.2 terminalFd = outgoing k terminalFd) (t, k).
Proof.
  intros Hm Ht a q. unfold on_client, on_server, zoom. cbn [fst snd]. unfold Server.on_object. cbn [fst snd].
  destruct (Server.objects (ts_server t) !! l) as [c|] eqn:Hc; [|done].
  destruct (m (c, k)) as [o [c' k']] eqn:E. cbn [fst snd]. intros [= -> <-].
  apply (mutes_run _ _ _ _ _ Hm) in E as [Hc' [_ Ho]]; [|by apply Ht]. split; [|done].
  intros c1. cbn. rewrite lookup_insert_eq. by intros [= <-].
Qed.

(** The state of the thread. *)
Abbreviation Thread := (Forward.PortForwardHandler * (TerminalServer * W))%type.

(** [t] has been written to the terminal's pipe, as messages that are read there. *)
Definition wrote (q q' : Thread) (t : str) : Prop :=
  client_apart q'.2.1 ∧
  ∃ bytes, outgoing q'.2.2 terminalFd = outgoing q.2.2 terminalFd ++ bytes ∧ router_text bytes t.

Lemma wrote_nothing q q' :
  client_apart q'.2.1 → outgoing q'.2.2 terminalFd = outgoing q.2.2 terminalFd → wrote q q' [].
Proof.
  intros Hq Ho. split; [done|]. exists []. rewrite Ho, app_nil_r. split; [done|apply text_none].
Qed.

Lemma wrote_trans q1 q2 q3 t1 t2 : wrote q1 q2 t1 → wrote q2 q3 t2 → wrote q1 q3 (t1 ++ t2).
Proof.
  intros [_ (b1 & E1 & Ht1)] [Hq3 (b2 & E2 & Ht2)]. split; [done|]. exists (b1 ++ b2).
  rewrite E2, E1, <-app_assoc. split; [done|by apply router_text_app].
Qed.

(** What [m] writes to the terminal's pipe is read there as the text [t]. *)
Definition writes_text {A} (m : M Thread A) (t : str) : Prop :=
  ∀ q, client_apart q.2.1 → finishes m (λ _ q', wrote q q' t) q.

Lemma writes_nothing {A} (m : M (Connection * W) A) :
  mutes terminalFd m → writes_text (on_snd (on_client l m)) [].
Proof.
  intros Hm [f [t k]] Hq. apply finishes_on_snd. eapply finishes_mono; [by apply mutes_on_client|].
  intros a [t' k'] [Ht Ho]. by apply wrote_nothing.
Qed.

Lemma send_writes_nothing p : writes_text (on_snd (send_packet sock fuel others l p)) [].
Proof.
  intros [f [t k]] Hq. apply finishes_on_snd, finishes_bind.
  eapply finishes_mono; [apply mutes_on_client; [by apply mutes_writePacket|done]|].
  intros a [t' k'] [Ht Ho]. apply finishes_ret. by apply wrote_nothing.
Qed.

Lemma to_terminal_writes {X} `{!Proto X} type (x : X) t :
  (∀ s, serialize x = Some s → len s <= MAX_PROTO_LENGTH →
     router_text (byte type :: proto_frame s) t) →
  writes_text (on_snd (on_snd (to_terminal term_sock fuel terminalFd type x))) t.
Proof.
  intros Ht [f [ts k]] Hq. apply finishes_on_snd, finishes_on_snd. intros [] k'.
  unfold to_terminal. rewrite M_bind_stop_inv.
  destruct (@writeAllOrThrow W term_sock fuel terminalFd [byte type] false k) as [[[]|e] k1] eqn:E1; [|done].
  intros E2. pose proof (writeAllOrThrow_ok _ _ _ _ _ _ E1) as (_ & Ho & _).
  destruct (writeProto_ok _ _ _ _ _ _ E2) as (s & Hs & Hl & _ & Hx & _). split; [done|].
  exists (byte type :: proto_frame s). split; [|by apply Ht].
  cbn [snd]. rewrite Hx, Ho. by rewrite <-app_assoc.
Qed.

(** One packet that does not concern a forwarded port. *)
Lemma client_packet_types p :
  is_forward_packet p = false →
  writes_text (client_packet sock term_sock strerror fuel others l terminalFd p) (keys p).
Proof.
  intros Hp. unfold client_packet, keys. rewrite Hp.
  destruct (header p =? TERMINAL_BUFFER).
  { unfold stringToProto. destruct (parse (payload p)) as [tb|]; [|intros ? ?; by apply finishes_bind, finishes_stop].
    intros q Hq. apply finishes_bind, finishes_ret. apply to_terminal_writes; [apply message_text|done]. }
  destruct (header p =? KEEP_ALIVE).
  { apply send_writes_nothing. }
  destruct (header p =? TERMINAL_INFO).
  { unfold stringToProto. destruct (parse (payload p)) as [ti|]; [|intros ? ?; by apply finishes_bind, finishes_stop].
    intros q Hq. apply finishes_bind, finishes_ret. apply to_terminal_writes; [apply message_text|done]. }
  intros q Hq. by apply finishes_stop.
Qed.

(** The packets [ps] that a run of the loop read and handled. *)
Inductive batch : list Packet → Thread → Thread → Prop :=
| batch_empty q q' :
    on_snd (on_client l hasData) q = (Ok false, q') → batch [] q q'
| batch_partial q q1 q' :
    on_snd (on_client l hasData) q = (Ok true, q1) →
    on_snd (on_client l ConnOps.readPacket) q1 = (Ok None, q') → batch [] q q'
| batch_packet q q1 q2 q3 q' p ps :
    on_snd (on_client l hasData) q = (Ok true, q1) →
    on_snd (on_client l ConnOps.readPacket) q1 = (Ok (Some p), q2) →
    client_packet sock term_sock strerror fuel others l terminalFd p q2 = (Ok tt, q3) →
    batch ps q3 q' → batch (p :: ps) q q'.

Lemma client_packets_batch n q q' :
  client_packets sock term_sock strerror fuel others n l terminalFd q = (Ok tt, q') →
  ∃ ps, batch ps q q'.
Proof.
  revert q. induction n as [|n IH]; intros q; cbn [client_packets]; rewrite M_bind_stop_inv;
    destruct (on_snd (on_client l hasData) q) as [[[]|e] q1] eqn:Hd; try done;
    try (intros [= <-]; exists []; by apply batch_empty).
  rewrite M_bind_stop_inv.
  destruct (on_snd (on_client l ConnOps.readPacket) q1) as [[[p|]|e] q2] eqn:Hr; [|..|done].
  - rewrite M_bind_stop_inv.
    destruct (client_packet _ _ _ _ _ _ _ _ q2) as [[[]|e] q3] eqn:Hp; [|done].
    intros [ps Hps]%IH. exists (p :: ps). by eapply batch_packet.
  - intros [= <-]. exists []. by eapply batch_partial.
Qed.

Lemma batch_typed ps q q' :
  batch ps q q' → Forall (λ p, is_forward_packet p = false) ps → client_apart q.2.1 →
  wrote q q' (typed ps).
Proof.
  intros Hb. induction Hb as [q q' Hd|q q1 q' Hd Hr|q q1 q2 q3 q' p ps Hd Hr Hp _ IH]; intros Hps Hq.
  - exact (writes_nothing _ mutes_base_hasData q Hq _ _ Hd).
  - pose proof (writes_nothing _ mutes_base_hasData q Hq _ _ Hd) as Hq1.
    apply (wrote_trans _ q1 _ [] []); [done|].
    exact (writes_nothing _ (mutes_readPacket _ Hterm) q1 (proj1 Hq1) _ _ Hr).
  - inversion_clear Hps as [|?? Hf Hps'].
    pose proof (writes_nothing _ mutes_base_hasData q Hq _ _ Hd) as E1.
    pose proof (writes_nothing _ (mutes_readPacket _ Hterm) q1 (proj1 E1) _ _ Hr) as E2.
    pose proof (client_packet_types p Hf q2 (proj1 E2) _ _ Hp) as E3.
    apply (wrote_trans _ q1 _ [] _ E1), (wrote_trans _ q2 _ [] _ E2), (wrote_trans _ q3 _ _ _ E3).
    by apply IH; [|apply E3].
Qed.

(** What a client types reaches its terminal.  When the server's thread returns from
    reading what the client has sent, there is the list of the packets it read; and if none
    of them concerns a forwarded port, the bytes it has put on the pipe of the terminal are
    exactly messages that the terminal's process reads as the text of the packets typed at
    the client, in order; the connection's own traffic (keep-alives sent back, a broken
    socket that is closed) puts nothing there.  (For a pipe whose writes ask to be retried only
    when they have sent nothing.) *)
Theorem typed_text_arrives n q q' :
  client_packets sock term_sock strerror fuel others n l terminalFd q = (Ok tt, q') →
  client_apart q.2.1 →
  ∃ ps, batch ps q q' ∧
    (Forall (λ p, is_forward_packet p = false) ps →
     ∃ bytes, outgoing q'.2.2 terminalFd = outgoing q.2.2 terminalFd ++ bytes ∧
              router_text bytes (typed ps)).
Proof.
  intros [ps Hb]%client_packets_batch Hq. exists ps. split; [done|]. intros Hps.
  by apply batch_typed.
Qed.
End Batch.

(** ** A concrete session *)

Section Witnesses.
#[local] Existing Instance example_secretbox.
(** No port is forwarded here. *)
#[local] Instance v_data : Proto PortForwardData :=
  {| serialize _ := None; parse _ := None; proto_default := mkPwd None None None None None |}.
#[local] Instance v_request : Proto PortForwardDestinationRequest :=
  {| serialize _ := None; parse _ := None; proto_default := mkPfdr None None |}.
#[local] Instance v_response : Proto PortForwardDestinationResponse :=
  {| serialize _ := None; parse _ := None; proto_default := mkPfdResponse None None None |}.
#[local] Instance v_files : TempFiles Wire := {|
  tf_GetTempDirectory := lit "/tmp/";
  tf_mkdtemp s := mret s;
  tf_chmod s := mret (IoOk tt);
  tf_chown s u g := mret (IoOk tt);
|}.

Definition v_key : CryptoHandler := mkCrypto (initial_nonce CLIENT_SERVER_NONCE_MSB) (lit "key").
Definition v_back : CryptoHandler := mkCrypto (initial_nonce SERVER_CLIENT_NONCE_MSB) (lit "key").

(** The client types "ls" and keeps the connection alive. *)
Definition v_packets : list Packet :=
  [Packet_new TERMINAL_BUFFER (default [] (serialize (mkTb (Some (lit "ls")))));
   Packet_new KEEP_ALIVE []].
Definition v_wire : Wire := with_in wire0 6 (concat (frame_of <$> seal_all v_key v_packets)).

(** Its connection has descriptor 6, the terminal has descriptor 9. *)
Definition v_connection : Connection :=
  mkConnection (lit "id") (lit "key") 6 false (Some (Reader.init v_key 6)) (Some (Writer.init v_back 6)).
Definition v_others : list ((Connection → Connection) * (Connection → Connection)) :=
  [(λ c, c, λ c, c)].
Definition v_server : TerminalServer :=
  mkTS (Server.set_objects {[ 1%positive := v_connection ]} (Server.init (mkEndpoint None (Some 2022))))
    (Router.mkRouter 8 ∅) [] false.
Definition v_run : M (Forward.PortForwardHandler * (TerminalServer * Wire)) unit :=
  client_packets (λ _, WireSocket) WireSocket (λ _, []) 100 v_others 10 1 9.
Definition v_start : Forward.PortForwardHandler * (TerminalServer * Wire) := (Forward.init, (v_server, v_wire)).

Lemma typed_text_arrives_witness :
  (v_run v_start).1 = Ok tt ∧
  ∃ ps, batch (λ _, WireSocket) WireSocket (λ _, []) 100 v_others 1 9 ps v_start (v_run v_start).2 ∧
    (Forall (λ p, is_forward_packet p = false) ps →
     ∃ bytes, wire_out (v_run v_start).2.2.2 9 = [] ++ bytes ∧ router_text bytes (typed ps)).
Proof.
  split; [vm_compute; reflexivity|].
  refine (typed_text_arrives (λ _, WireSocket) WireSocket (λ _, []) 100 v_others 1 9 _ _ 10 v_start
    (v_run v_start).2 _ _).
  - lia.
  - constructor; [|constructor]. split; intros o Ho; exact Ho.
  - vm_compute. reflexivity.
  - intros c Hc. vm_compute in Hc. injection Hc as <-.
    split; intros x Hx; vm_compute in Hx; injection Hx as <-; vm_compute; discriminate.
Defined.
(** Somebody has shut the connection down before its first packet, and halts the server. *)
#[local] Instance v_payload : Proto InitialPayload :=
  {| serialize _ := None; parse _ := None; proto_default := mkPayload None [] ∅ |}.
#[local] Instance v_initial : Proto InitialResponse :=
  {| serialize _ := None; parse _ := None; proto_default := mkResponse None |}.
#[local] Instance v_init : Proto TermInit := countable_proto (mkTermInit [] []).

Definition v_gone : TerminalServer :=
  set_server (Server.set_objects
    {[ 1%positive := mkConnection (lit "id") (lit "key") (-1) true None None ]}
    (Server.init (mkEndpoint None (Some 2022)))) v_server.

Lemma handleConnection_never_ends_witness :
  (handleConnection (λ _, WireSocket) WireSocket (λ _, []) map_to_list (λ m, (map_to_list m).*1)
     100 v_others [Term.shutdown; Term.shutdown] [] 1 (v_gone, v_wire)).1 = Stop OutOfFuel.
Proof.
  refine (handleConnection_never_ends (λ _, WireSocket) WireSocket (λ _, []) map_to_list
    (λ m, (map_to_list m).*1) 100 v_others 1 _ [Term.shutdown; Term.shutdown] [] v_gone v_wire _ _).
  - intros us k. eexists. reflexivity.
  - repeat constructor; intros t (c & Hc & Hd); exists c; split; assumption.
  - eexists. split; [vm_compute; reflexivity|reflexivity].
Defined.
End Witnesses.
