(* ===== verification/ClientStart.v ===== *)
(** * The start of a client's session

    What [terminal/TerminalClient] and [terminal/UserJumphostHandler] share: the first
    exchange with the server after [connect], and the calls of [ClientConnection] that are
    made without its mutex. *)

From S2P Require Import Prelude Sockets Crypto Packets Wire Backed Connection ClientConnection.
From S2P Require Import UnixSockets Forwarding TerminalMessages Loops.
Import Conn ConnOps Client.

(** How the first exchange ends. *)
Inductive reply := Accepted | Refused (error : str) | Silent.

Section Start.
Context {W : Type} `{!Kernel W} `{!Poll W} `{!SocketHandler W} `{!SecretBox}.
Context `{!Proto ConnectRequest} `{!Proto ConnectResponse}.
Context `{!Proto InitialPayload} `{!Proto InitialResponse}.
Variable fuel : nat.
(** What other threads do to the connection while [writePacket] waits, and before each
    look at the socket (the last look comes first). *)
Variable others : list ((ClientConnection → ClientConnection) * (ClientConnection → ClientConnection)).
Variable between : nat → ClientConnection → ClientConnection.

#[local] Instance start_object : ConnectionObject W ClientConnection := client_object.

Definition client_fd : M (ClientConnection * W) Z :=
  o ← on_fst get;
  mret (socketFd (conn o)).

(** [for (int a = 0; a < 3; a++)]: [attempts] are left. *)
Fixpoint wait_response (attempts : nat) : M (ClientConnection * W) reply :=
  match attempts with
  | O => mret Silent
  | S attempts' =>
    _ ← on_fst (modify (between attempts'));
    clientFd ← client_fd;
    if clientFd <? 0 then
      _ ← on_snd (k_sleep 1000000);
      wait_response attempts'
    else
      rfd ← on_snd (poll_select {[clientFd]} ∅);
      if bool_decide (clientFd ∈ rfd) then
        p ← readPacket;
        match p with
        | None => wait_response attempts'
        | Some initialResponsePacket =>
          if negb (header initialResponsePacket =? INITIAL_RESPONSE)
          then fatal "Missing initial response!"
          else
            initialResponse ← stringToProto InitialResponse (payload initialResponsePacket);
            match ir_error initialResponse with
            | Some e => mret (Refused e)
            | None => mret Accepted
            end
        end
      else wait_response attempts'
  end.

Definition greet (payload : InitialPayload) : M (ClientConnection * W) reply :=
  s ← protoToString payload;
  _ ← writePacket fuel others (Packet_new INITIAL_PAYLOAD s);
  wait_response 3.

Definition first_exchange (payload : InitialPayload) : M (ClientConnection * W) reply :=
  connected ← connect fuel;
  if connected : bool then greet payload else mret Silent.

(** "Connect Timeout" after three failures; the loop around it ends with a [break] after
    its first round. *)
Definition count_failure (connectFailCount : Z) : M (ClientConnection * W) Z :=
  let connectFailCount := connectFailCount + 1 in
  if connectFailCount =? 3 then throw RuntimeError "Connect Timeout" else mret connectFailCount.

(** [waitReconnect] without the mutex: [finish] is what the reconnect thread does until it
    ends, [None] when it does not. *)
Definition join_reconnect (finish : ClientConnection → option ClientConnection)
    : M (ClientConnection * W) unit :=
  o ← on_fst get;
  match reconnectThread o with
  | None => mret tt
  | Some Finished => on_fst (modify (set_thread None))
  | Some Running =>
    match finish o with
    | None => stop OutOfFuel
    | Some o' => on_fst (put (set_thread None o'))
    end
  end.

Definition close_and_reconnect (finish : ClientConnection → option ClientConnection)
    : M (ClientConnection * W) unit :=
  _ ← join_reconnect finish;
  _ ← on_base closeSocket;
  o ← on_fst get;
  if negb (shuttingDown (conn o)) then on_fst (modify (set_thread (Some Running))) else mret tt.
End Start.
