(* ===== verification/TerminalClient.v ===== *)
(** * [terminal/TerminalClient]: the user's end of a session

    The constructor, which opens the tunnels and makes the first exchange with the server,
    and the loop between the console, the connection and the forwarded sockets.  The console
    is the class [Console]; its [write] is the default of [Console.hpp].  What other threads
    do between two iterations is a parameter, which also counts the iterations. *)

From S2P Require Import Prelude Sockets Crypto Packets Wire CxxText TunnelUtils Backed WriterSpec Connection.
From S2P Require Import ClientConnection Endpoint UnixSockets TcpSockets SocketPromises Forwarding.
From S2P Require Import RawSockets TerminalMessages Loops ClientStart Apart.
Import Conn ConnOps Client.

Class Console (W : Type) := {
  con_setup : M W unit;
  con_teardown : M W unit;
  con_getFd : M W Z;
  con_getTerminalInfo : M W TerminalInfo;
}.

(** [operator==] of messages of one type: their serialised forms *)
Definition same_message {X} `{!Proto X} (a b : X) : bool := bool_decide (serialize a = serialize b).

Module TermClient.

(** The members, and the variables of the loop. *)
Record TerminalClient := mkTC {
  connection : ClientConnection;
  (** whether there is a console *)
  console : bool;
  down : bool;
  keepaliveDuration : Z;
  keepaliveTime : Z;
  waitingOnKeepalive : bool;
  lastTerminalInfo : TerminalInfo;
}.

Definition set_connection (o : ClientConnection) (t : TerminalClient) : TerminalClient :=
  mkTC o (console t) (down t) (keepaliveDuration t) (keepaliveTime t) (waitingOnKeepalive t)
    (lastTerminalInfo t).
Definition shutdown (t : TerminalClient) : TerminalClient :=
  mkTC (connection t) (console t) true (keepaliveDuration t) (keepaliveTime t)
    (waitingOnKeepalive t) (lastTerminalInfo t).
Definition set_deadline (now : Z) (t : TerminalClient) : TerminalClient :=
  mkTC (connection t) (console t) (down t) (keepaliveDuration t) (now + keepaliveDuration t)
    (waitingOnKeepalive t) (lastTerminalInfo t).
Definition set_waiting (b : bool) (t : TerminalClient) : TerminalClient :=
  mkTC (connection t) (console t) (down t) (keepaliveDuration t) (keepaliveTime t) b
    (lastTerminalInfo t).
Definition set_info (i : TerminalInfo) (t : TerminalClient) : TerminalClient :=
  mkTC (connection t) (console t) (down t) (keepaliveDuration t) (keepaliveTime t)
    (waitingOnKeepalive t) i.

Definition BUF_SIZE : nat := Z.to_nat (16 * 1024).

Section TermClient.
Context {W : Type} `{!Kernel W} `{!Poll W} `{!Console W} `{!SecretBox} `{!TempFiles W}.
(** The sockets of the network and of forwarded pipes, and plain descriptors. *)
Context (sock : handler_kind → SocketHandler W) (raw : SocketHandler W).
Context `{!Proto SequenceHeader} `{!Proto CatchupBuffer}.
Context `{!Proto ConnectRequest} `{!Proto ConnectResponse}.
Context `{!Proto PortForwardData} `{!Proto PortForwardDestinationRequest}.
Context `{!Proto PortForwardDestinationResponse}.
Context `{!Proto TerminalBuffer} `{!Proto TerminalInfo}.
Context `{!Proto InitialPayload} `{!Proto InitialResponse}.
Variable strerror : Z → str.
Variables (order : gmap Z Z → list (Z * Z))
  (order' : gmap Z Destination.ForwardDestinationHandler → list Z).
Variable fuel : nat.
(** What other threads do while [writePacket] waits, and while [join] waits. *)
Variable others : list ((ClientConnection → ClientConnection) * (ClientConnection → ClientConnection)).
Variable finish : ClientConnection → option ClientConnection.

#[local] Instance client_network : SocketHandler W := sock Network.
#[local] Instance client_conn : ConnectionObject W ClientConnection := client_object.

(** ** The constructor *)

(** A tunnel that cannot be opened is only logged. *)
Fixpoint open_sources (pfsrs : list PortForwardSourceRequest)
    : M (Forward.PortForwardHandler * W) unit :=
  match pfsrs with
  | [] => mret tt
  | pfsr :: pfsrs' =>
    _ ← Forward.createSource sock pfsr false (-1) (-1);
    open_sources pfsrs'
  end.

(** The socket of the ssh agent; [None] is [exit(1)]. *)
Definition agent_tunnel (getenv : str → option str) (identityAgent : str)
    : option (list PortForwardSourceRequest) :=
  authSock ← match identityAgent with [] => getenv (lit "SSH_AUTH_SOCK") | _ => Some identityAgent end;
  Some (match authSock with
        | [] => []
        | _ => [mkPfsr None (Some (named authSock)) (Some (lit "SSH_AUTH_SOCK"))]
        end).

(** The tunnels of the payload; [None] is [exit(1)]. *)
Definition setup_tunnels (getenv : str → option str) (tunnels reverseTunnels : str)
    (forwardSshAgent : bool) (identityAgent : str)
    : M (Forward.PortForwardHandler * W) (option (list PortForwardSourceRequest)) :=
  catch_runtime
    (_ ← match tunnels with
         | [] => mret tt
         | _ => pfsrs ← lift (parseRangesToRequests tunnels); open_sources pfsrs
         end;
     reverse ← match reverseTunnels with
               | [] => mret []
               | _ => lift (parseRangesToRequests reverseTunnels)
               end;
     if forwardSshAgent then mret (app reverse <$> agent_tunnel getenv identityAgent)
     else mret (Some reverse))
    (λ _, mret None).

(** The environment variables of the payload: each pair is assigned in turn. *)
Definition environment_of (envVars : list (str * str)) : gmap str str :=
  foldl (λ m p, <[p.1 := p.2]> m) ∅ envVars.

(** One round of the loop that connects; [false] is [exit(1)]. *)
Definition connect_round (between : nat → ClientConnection → ClientConnection)
    (payload : InitialPayload) (connectFailCount : Z) : M (ClientConnection * W) bool :=
  catch_runtime
    (r ← first_exchange fuel others between payload;
     match r with
     | Accepted => mret true
     | Refused _ => mret false
     | Silent => _ ← count_failure connectFailCount; mret true
     end)
    (λ _, mret false).

(** [None] is [exit(1)]. *)
Definition TerminalClient_new (getenv : str → option str)
    (between : nat → ClientConnection → ClientConnection)
    (_socketEndpoint : SocketEndpoint) (id passkey : str) (_console jumphost : bool)
    (tunnels reverseTunnels : str) (forwardSshAgent : bool) (identityAgent : str)
    (_keepaliveDuration : Z) (envVars : list (str * str))
    : M (Forward.PortForwardHandler * W) (option TerminalClient) :=
  reverse ← setup_tunnels getenv tunnels reverseTunnels forwardSshAgent identityAgent;
  match reverse with
  | None => mret None
  | Some reversetunnels =>
    let payload := mkPayload (Some jumphost) reversetunnels (environment_of envVars) in
    r ← on_snd (with_new (ClientConnection_new _socketEndpoint id passkey)
                         (connect_round between payload 0));
    mret (if r.1 : bool
          then Some (mkTC r.2 _console false _keepaliveDuration 0 false (mkTi None None None None None))
          else None)
  end.

(** ** The parts of the state *)

Abbreviation T := (Forward.PortForwardHandler * (TerminalClient * W))%type.

#[local] Instance client_files : TempFiles (TerminalClient * W) := files_beside _.
Definition client_sock (k : handler_kind) : SocketHandler (TerminalClient * W) := beside (sock k).

Definition on_connection {A} (m : M (ClientConnection * W) A) : M (TerminalClient * W) A :=
  zoom (λ p, (connection p.1, p.2)) (λ q p, (set_connection q.1 p.1, q.2)) m.

(** The destructor, with that of the connection. *)
Definition TerminalClient_destroy : M (TerminalClient * W) unit :=
  on_connection (_ ← on_base Conn.shutdown; _ ← join_reconnect finish; on_base closeSocket).

Definition send (p : Packet) : M (TerminalClient * W) unit :=
  _ ← on_connection (writePacket fuel others p);
  mret tt.

Definition send_proto {X} `{!Proto X} (type : Z) (x : X) : M (TerminalClient * W) unit :=
  s ← protoToString x;
  send (Packet_new type s).

(** [keepaliveTime = time(NULL) + keepaliveDuration] *)
Definition touch : M (TerminalClient * W) unit :=
  now ← on_snd k_time;
  on_fst (modify (set_deadline now)).

Definition console_write (s : str) : M W unit :=
  fd ← con_getFd;
  @Raw.writeAll W raw fuel fd s.

(** ** The loop *)

(** What is typed. *)
Definition read_console (consoleFd : Z) (rfd : gset Z) : M (TerminalClient * W) stage :=
  if bool_decide (consoleFd ∈ rfd) then
    rc ← on_snd (k_read consoleFd BUF_SIZE);
    match rc with
    | IoOk ((_ :: _) as s) =>
      _ ← send_proto TERMINAL_BUFFER (mkTb (Some s));
      _ ← touch;
      mret Go
    | IoOk [] => mret Leave
    | IoErr savedErrno => if would_block savedErrno then mret Go else mret Leave
    end
  else mret Go.

Definition is_forward_packet (p : Packet) : bool :=
  (header p =? PORT_FORWARD_DATA) || (header p =? PORT_FORWARD_DESTINATION_REQUEST)
  || (header p =? PORT_FORWARD_DESTINATION_RESPONSE).

(** One packet of the server: what it adds to [coalesced]. *)
Definition server_packet (packet : Packet) : M T str :=
  if is_forward_packet packet then
    _ ← on_snd touch;
    _ ← Forward.handlePacket client_sock strerror fuel (λ p, on_snd (send p)) packet;
    mret []
  else if header packet =? TERMINAL_BUFFER then
    t ← on_snd (on_fst get);
    if console t then
      tb ← stringToProto TerminalBuffer (payload packet);
      _ ← on_snd touch;
      mret (buffer_of tb)
    else mret []
  else if header packet =? KEEP_ALIVE then
    _ ← on_snd (on_fst (modify (set_waiting false)));
    mret []
  else fatal "Unknown packet type".

(** [while (connection->hasData())]; [n] bounds the packets of one batch. *)
Fixpoint server_packets (n : nat) (coalesced : str) : M T str :=
  ready ← on_snd (on_connection (on_conn hasData));
  if ready : bool then
    match n with
    | O => stop OutOfFuel
    | S n' =>
      p ← on_snd (on_connection ConnOps.read);
      match p with
      | None => mret coalesced
      | Some packet =>
        s ← server_packet packet;
        server_packets n' (coalesced ++ s)
      end
    end
  else mret coalesced.

Definition read_server : M T unit :=
  coalesced ← server_packets fuel [];
  t ← on_snd (on_fst get);
  match coalesced with
  | [] => mret tt
  | _ => if console t then on_snd (on_snd (console_write coalesced)) else mret tt
  end.

Definition keep_alive (clientFd : Z) : M (TerminalClient * W) unit :=
  t ← on_fst get;
  now ← on_snd k_time;
  _ ← (if (0 <? clientFd) && (keepaliveTime t <? now) then
         _ ← touch;
         if waitingOnKeepalive t then
           _ ← on_connection (close_and_reconnect finish);
           on_fst (modify (set_waiting false))
         else
           _ ← send (Packet_new KEEP_ALIVE []);
           on_fst (modify (set_waiting true))
       else mret tt);
  if clientFd <? 0 then on_fst (modify (set_waiting false)) else mret tt.

Definition window_size : M (TerminalClient * W) unit :=
  t ← on_fst get;
  if console t then
    ti ← on_snd con_getTerminalInfo;
    if same_message ti (lastTerminalInfo t) then mret tt
    else
      _ ← on_fst (modify (set_info ti));
      send_proto TERMINAL_INFO ti
  else mret tt.

Fixpoint send_all {X} `{!Proto X} (type : Z) (xs : list X) : M (TerminalClient * W) unit :=
  match xs with
  | [] => mret tt
  | x :: xs' => _ ← send_proto type x; _ ← touch; send_all type xs'
  end.

Definition forward_sockets : M T unit :=
  r ← Forward.update client_sock strerror fuel order order';
  _ ← on_snd (send_all PORT_FORWARD_DESTINATION_REQUEST r.1);
  on_snd (send_all PORT_FORWARD_DATA r.2).

(** The body of the [try]. *)
Definition steps (consoleFd clientFd : Z) (rfd : gset Z) : M T stage :=
  t ← on_snd (on_fst get);
  then_ (if console t then on_snd (read_console consoleFd rfd) else mret Go)
    (_ ← (if (0 <? clientFd) && bool_decide (clientFd ∈ rfd) then read_server else mret tt);
     _ ← on_snd (keep_alive clientFd);
     _ ← on_snd window_size;
     _ ← forward_sockets;
     mret Go).

Definition iteration : M T stage :=
  t ← on_snd (on_fst get);
  consoleFd ← (if console t then on_snd (on_snd con_getFd) else mret (-1));
  let clientFd := socketFd (conn (connection t)) in
  pfFds ← Forward.getForwardFds client_sock ∅;
  rfd ← on_snd (on_snd (poll_select
          ((if console t then {[consoleFd]} else ∅) ∪ (if 0 <? clientFd then {[clientFd]} else ∅)
           ∪ pfFds) ∅));
  catch_runtime (steps consoleFd clientFd rfd) (λ _,
    _ ← on_snd (on_fst (modify shutdown));
    mret Go).

Fixpoint loop (env : list (TerminalClient → TerminalClient)) : M T unit :=
  match env with
  | [] => stop OutOfFuel
  | f :: env' =>
    _ ← on_snd (on_fst (modify f));
    t ← on_snd (on_fst get);
    if shuttingDown (conn (connection t)) || down t then mret tt
    else
      st ← iteration;
      match st with
      | Leave => mret tt
      | _ => loop env'
      end
  end.

(** What is typed for the user, before the loop. *)
Definition command_text (command : str) (noexit : bool) : str :=
  command ++ (if noexit then [LF] else lit "; exit" ++ [LF]).

(** [run] up to its loop. *)
Definition start (command : str) (noexit : bool) : M T unit :=
  t ← on_snd (on_fst get);
  _ ← (if console t then on_snd (on_snd con_setup) else mret tt);
  _ ← on_snd touch;
  _ ← on_snd (on_fst (modify (set_waiting false)));
  _ ← match command with
      | [] => mret tt
      | _ => on_snd (send_proto TERMINAL_BUFFER (mkTb (Some (command_text command noexit))))
      end;
  on_snd (on_fst (modify (set_info (mkTi None None None None None)))).

Definition run (env : list (TerminalClient → TerminalClient)) (command : str) (noexit : bool)
    : M T unit :=
  t ← on_snd (on_fst get);
  _ ← start command noexit;
  _ ← loop env;
  if console t then on_snd (on_snd con_teardown) else mret tt.
End TermClient.
End TermClient.
