(* ===== verification/ClientSession.v ===== *)
(** * What the server shows, and what a client does when it cannot reach the server

    Theorems about [TerminalClient]: the text of a batch of packets reaches the console; a
    keep-alive that is not answered gives the connection up; a first [connect] that fails
    goes unnoticed. *)

From S2P Require Import Prelude Sockets Crypto Packets Wire CxxText Backed WriterSpec ReaderSpec Connection.
From S2P Require Import ClientConnection Endpoint UnixSockets TcpSockets SocketPromises Forwarding.
From S2P Require Import RawSockets TerminalMessages Loops ClientStart Apart TerminalClient.
Import Conn ConnOps Client TermClient.

(** ** The console *)

Section Shown.
Context {W : Type} `{!Streams W} `{!Kernel W} `{!Console W} `{!SecretBox} `{!TempFiles W}.
Context (sock : handler_kind → SocketHandler W) (raw : SocketHandler W).
Context `{!@StreamSocket W (sock Network) _} `{!@StreamSocket W raw _} `{!@CleanRetry W raw _}.
Context `{!KernelStreams W}.
Context `{!Proto PortForwardData} `{!Proto PortForwardDestinationRequest}.
Context `{!Proto PortForwardDestinationResponse} `{!Proto TerminalBuffer}.
Variables (strerror : Z → str) (fuel : nat).
Variable others : list ((ClientConnection → ClientConnection) * (ClientConnection → ClientConnection)).
Variable consoleFd : Z.

#[local] Instance shown_network : SocketHandler W := sock Network.
#[local] Instance shown_object : ConnectionObject W ClientConnection := client_object.
#[local] Instance shown_laws : ConnectionObjectLaws W ClientConnection := client_laws.

Hypothesis Hcon : 0 < consoleFd.
Hypothesis con_getFd_fixed : ∀ k : W, con_getFd k = (Ok consoleFd, k).

Abbreviation Thread := (Forward.PortForwardHandler * (TerminalClient * W))%type.

(** The connection does not have the console's descriptor. *)
Definition tc_apart (t : TerminalClient) : Prop := apart consoleFd (conn (connection t)).

(** Nothing is shown between [q] and [q']. *)
Definition kept (q q' : Thread) : Prop :=
  tc_apart q'.2.1 ∧ console q'.2.1 = console q.2.1 ∧
  outgoing q'.2.2 consoleFd = outgoing q.2.2 consoleFd.

Lemma kept_trans q1 q2 q3 : kept q1 q2 → kept q2 q3 → kept q1 q3.
Proof. intros (_ & E1 & E2) (Hq & E3 & E4). split_and!; [done|congruence..]. Qed.

Lemma kept_on_connection {A} (m : M (ClientConnection * W) A) q a q' :
  mutes consoleFd m → on_snd (on_connection m) q = (Ok a, q') → tc_apart q.2.1 → kept q q'.
Proof.
  destruct q as [f [t k]]. intros Hm [E Hf]%on_snd_inv Hq. unfold on_connection, zoom in E.
  cbn [fst snd] in *. destruct (m (connection t, k)) as [o [c' k']] eqn:Em.
  injection E as -> E. apply (mutes_run _ _ _ _ _ Hm) in Em as [Hc [_ Ho]]; [|exact Hq].
  unfold kept. destruct q' as [f' [t' k1]]. cbn in *. injection E as <- <-. by split_and!.
Qed.

Lemma kept_modify f q u q' :
  on_snd (on_fst (modify f)) q = (Ok u, q') →
  (∀ t, connection (f t) = connection t ∧ console (f t) = console t) → tc_apart q.2.1 → kept q q'.
Proof.
  destruct q as [p [t k]]. intros [= <- <-] Hf Hq. unfold kept, tc_apart in *. cbn in *.
  destruct (Hf t) as [-> ->]. by split_and!.
Qed.

Lemma kept_touch q u q' : on_snd touch q = (Ok u, q') → tc_apart q.2.1 → kept q q'.
Proof.
  destruct q as [f [t k]]. intros [E Hf]%on_snd_inv Hq. unfold touch in E. cbn [fst snd] in *.
  rewrite run_snd in E. destruct (k_time k) as [[now|e] k1] eqn:Ek; [|done].
  destruct q' as [f' [t' k']]. cbn in *. injection E as <- <- <-.
  apply kernel_time in Ek. unfold kept, tc_apart in *. cbn. split_and!; [done|done|apply Ek].
Qed.

(** The text of one packet that does not concern a forwarded port. *)
Definition shown (t : TerminalClient) (s : str) : str := if console t then s else [].

Lemma server_packet_text p q s q' :
  TermClient.is_forward_packet p = false → tc_apart q.2.1 →
  server_packet sock strerror fuel others p q = (Ok s, q') →
  kept q q' ∧ s = shown q.2.1 (keys p).
Proof.
  destruct q as [f [t k]]. intros Hp Hq. unfold server_packet, keys, shown. rewrite Hp.
  assert (kept (f, (t, k)) (f, (t, k))) as Hrefl by by split_and!.
  destruct (header p =? TERMINAL_BUFFER).
  - rewrite M_bind_stop_inv. cbn. destruct (console t) eqn:Hc; [|by intros [= <- <-]].
    unfold stringToProto. destruct (parse (payload p)) as [tb|]; [|done].
    rewrite run_ret, M_bind_stop_inv.
    destruct (on_snd touch (f, (t, k))) as [[u|e] q1] eqn:Ht; [|done].
    intros [= <- <-]. split; [|done]. by apply (kept_touch _ _ _ Ht).
  - destruct (header p =? KEEP_ALIVE); [|done].
    intros [= <- <-]. split; [|cbn; by destruct (console t)].
    by apply (kept_modify (set_waiting false) _ tt).
Qed.

(** The packets [ps] that a run of the loop read and handled, and the text they gave. *)
Inductive batch : list Packet → str → Thread → Thread → Prop :=
| batch_empty q q' :
    on_snd (on_connection (on_conn hasData)) q = (Ok false, q') → batch [] [] q q'
| batch_partial q q1 q' :
    on_snd (on_connection (on_conn hasData)) q = (Ok true, q1) →
    on_snd (on_connection ConnOps.read) q1 = (Ok None, q') → batch [] [] q q'
| batch_packet q q1 q2 q3 q' p s ps text :
    on_snd (on_connection (on_conn hasData)) q = (Ok true, q1) →
    on_snd (on_connection ConnOps.read) q1 = (Ok (Some p), q2) →
    server_packet sock strerror fuel others p q2 = (Ok s, q3) →
    batch ps text q3 q' → batch (p :: ps) (s ++ text) q q'.

Lemma server_packets_batch n acc q r q' :
  server_packets sock strerror fuel others n acc q = (Ok r, q') →
  ∃ ps text, batch ps text q q' ∧ r = acc ++ text.
Proof.
  revert acc q. induction n as [|n IH]; intros acc q; cbn [server_packets]; rewrite M_bind_stop_inv;
    destruct (on_snd (on_connection (on_conn hasData)) q) as [[[]|e] q1] eqn:Hd; try done;
    try (intros [= <- <-]; exists [], []; rewrite app_nil_r; split; [by apply batch_empty|done]).
  rewrite M_bind_stop_inv.
  destruct (on_snd (on_connection ConnOps.read) q1) as [[[p|]|e] q2] eqn:Hr; [| |done].
  - rewrite M_bind_stop_inv.
    destruct (server_packet sock strerror fuel others p q2) as [[s|e] q3] eqn:Hp; [|done].
    intros (ps & text & Hb & ->)%IH. exists (p :: ps), (s ++ text).
    split; [by eapply batch_packet|by rewrite app_assoc].
  - intros [= <- <-]. exists [], []. rewrite app_nil_r. split; [by eapply batch_partial|done].
Qed.

Lemma shown_kept q q' s : kept q q' → shown q'.2.1 s = shown q.2.1 s.
Proof. intros (_ & E & _). unfold shown. by rewrite E. Qed.

Lemma shown_app t a b : shown t (a ++ b) = shown t a ++ shown t b.
Proof. unfold shown. by destruct (console t). Qed.

Lemma shown_nil t : shown t (typed []) = [].
Proof. unfold shown. by destruct (console t). Qed.

Lemma batch_shown ps text q q' :
  batch ps text q q' → Forall (λ p, TermClient.is_forward_packet p = false) ps → tc_apart q.2.1 →
  kept q q' ∧ text = shown q.2.1 (typed ps).
Proof.
  intros Hb. induction Hb as [q q' Hd|q q1 q' Hd Hr|q q1 q2 q3 q' p s ps text Hd Hr Hp _ IH]; intros Hps Hq;
    pose proof (kept_on_connection _ _ _ _ (mutes_hasData _) Hd Hq) as K1.
  - split; [done|]. by rewrite shown_nil.
  - pose proof (kept_on_connection _ _ _ _ (mutes_read _ Hcon) Hr (proj1 K1)) as K2.
    split; [by eapply kept_trans|]. by rewrite shown_nil.
  - inversion_clear Hps as [|?? Hf Hps'].
    pose proof (kept_on_connection _ _ _ _ (mutes_read _ Hcon) Hr (proj1 K1)) as K2.
    destruct (server_packet_text _ _ _ _ Hf (proj1 K2) Hp) as [K3 ->].
    destruct (IH Hps' (proj1 K3)) as [K4 ->].
    pose proof (kept_trans _ _ _ K1 K2) as K12. pose proof (kept_trans _ _ _ K12 K3) as K13.
    split; [by apply (kept_trans _ q3)|].
    rewrite (shown_kept _ _ _ K13), (shown_kept _ _ _ K12). unfold typed. cbn [fmap list_fmap concat]. by rewrite shown_app.
Qed.

(** What the server shows reaches the console.  When a client with a console returns
    from reading what the server has sent, there is the list of the packets it read; and if
    none of them concerns a forwarded port, it has written to the console exactly the text
    of these packets, in order and in one piece, and nothing else (a broken connection that
    is closed to be made again writes nothing there).  The writes to the console itself are
    system calls, which have sent nothing when they ask to be retried. *)
Theorem server_text_shown q q' :
  read_server sock raw strerror fuel others q = (Ok tt, q') →
  tc_apart q.2.1 → console q.2.1 = true →
  ∃ ps text q1, batch ps text q q1 ∧
    (Forall (λ p, TermClient.is_forward_packet p = false) ps →
     outgoing q'.2.2 consoleFd = outgoing q.2.2 consoleFd ++ typed ps).
Proof.
  unfold read_server. rewrite M_bind_stop_inv. intros Hrun Hq Hc.
  destruct (server_packets sock strerror fuel others fuel [] q) as [[text|e] q1] eqn:E; [|done].
  apply server_packets_batch in E as (ps & text' & Hb & ->). exists ps, text', q1.
  split; [done|]. intros Hps. destruct (batch_shown _ _ _ _ Hb Hps Hq) as [(_ & Hc1 & Ho) ->].
  unfold shown in *. rewrite Hc in *. rewrite <-Ho.
  destruct q1 as [f [t k]]. cbn [app] in Hrun. rewrite M_bind_stop_inv in Hrun. cbn in Hrun.
  cbn [snd fst] in *. destruct (typed ps) as [|c s] eqn:Ht; [injection Hrun as <-; by rewrite app_nil_r|].
  rewrite Hc1, <-Ht in Hrun. rewrite <-Ht. apply on_snd_inv in Hrun as [[Hrun _]%on_snd_inv _].
  unfold console_write in Hrun. cbn [snd] in Hrun. rewrite (M_bind_ok _ _ _ _ _ (con_getFd_fixed k)) in Hrun.
  apply Raw.raw_writeAll_run in Hrun as (s' & (_ & Hout & _) & _ & Hall). by rewrite Hout, Hall.
Qed.
End Shown.

(** ** Keep-alives *)

Section KeepAlive.
Context {W : Type} `{!Kernel W} `{!SecretBox}.
Context (sock : handler_kind → SocketHandler W).
Variable fuel : nat.
Variable others : list ((ClientConnection → ClientConnection) * (ClientConnection → ClientConnection)).
Variable finish : ClientConnection → option ClientConnection.

#[local] Instance alive_network : SocketHandler W := sock Network.
#[local] Instance alive_object : ConnectionObject W ClientConnection := client_object.

Abbreviation keep_alive := (keep_alive sock fuel others finish).

(** A check that is due: the clock is past the deadline, and is read again for the next. *)
Definition due (t : TerminalClient) (k : W) (now' : Z) (k' : W) : Prop :=
  ∃ now k1, k_time k = (Ok now, k1) ∧ keepaliveTime t < now ∧ k_time k1 = (Ok now', k').

Lemma M_bind_unit {S} (m : M S unit) s : (m ≫= λ _, mret tt) s = m s.
Proof. rewrite M_bind_stop_inv. by destruct (m s) as [[[]|e] s']. Qed.

Lemma keep_alive_due clientFd t k now' k1 :
  0 < clientFd → due t k now' k1 →
  keep_alive clientFd (t, k) =
    (if waitingOnKeepalive t then
       on_connection (close_and_reconnect finish) ≫= λ _, on_fst (modify (set_waiting false))
     else TermClient.send sock fuel others (Packet_new KEEP_ALIVE []) ≫= λ _, on_fst (modify (set_waiting true)))
    (set_deadline now' t, k1).
Proof.
  intros Hfd (now & k0 & H1 & Hlt & H2). unfold TermClient.keep_alive.
  rewrite run_fst_get, run_snd, H1. rewrite (proj2 (Z.ltb_lt _ _) Hfd), (proj2 (Z.ltb_lt _ _) Hlt).
  rewrite (proj2 (Z.ltb_ge clientFd 0)) by lia. cbn [andb].
  assert (touch (t, k0) = (Ok tt, (set_deadline now' t, k1))) as Ht.
  { unfold touch. rewrite run_snd, H2. done. }
  rewrite M_bind_unit. by rewrite (M_bind_ok _ _ _ _ _ Ht).
Qed.

Lemma close_and_reconnect_closes o k o' k' :
  close_and_reconnect finish (o, k) = (Ok tt, (o', k')) →
  socketFd (conn o') = -1 ∧ (shuttingDown (conn o') = true ∨ reconnectThread o' = Some Running).
Proof.
  unfold close_and_reconnect. rewrite M_bind_stop_inv.
  destruct (join_reconnect finish (o, k)) as [[[]|e] [o1 k1]]; [|done].
  rewrite M_bind_stop_inv. destruct (on_base closeSocket (o1, k1)) as [[[]|e] [o2 k2]] eqn:Hc; [|done].
  assert (socketFd (conn o2) = -1) as Hfd.
  { rewrite on_base_run in Hc. destruct (closeSocket (conn o1, k1)) as [r [c k3]] eqn:E.
    cbn in Hc. injection Hc as -> <- <-. revert E. unfold closeSocket. rewrite run_fst_get.
    case_match; [b2p; by intros [= <- <-]|]. rewrite run_fst_modify.
    intros [_ E]%on_snd_inv. cbn in E. by rewrite E. }
  rewrite run_fst_get. destruct (shuttingDown (conn o2)) eqn:Hs; cbn [negb]; intros [= <- <-]; auto.
Qed.

(** C17. A server that falls silent is given up.  A check of the keep-alive that is due, and
    returns, has run [writePacket] with an empty [KEEP_ALIVE] (on the connection and the world
    as they were, and nothing else) and has set the next deadline, one duration later; when a later check is due too, and no answer of the
    server was read in between, the connection is closed and its reconnect thread runs (or the
    client shuts down). *)
Theorem silent_server_given_up clientFd t k now1 k1 t1 k1' t2 k2 now2 k3 t3 k3' :
  0 < clientFd → waitingOnKeepalive t = false → due t k now1 k1 →
  keep_alive clientFd (t, k) = (Ok tt, (t1, k1')) →
  waitingOnKeepalive t2 = waitingOnKeepalive t1 → due t2 k2 now2 k3 → keep_alive clientFd (t2, k2) = (Ok tt, (t3, k3')) →
  (∃ b, writePacket fuel others (Packet_new KEEP_ALIVE []) (connection t, k1) = (Ok b, (connection t1, k1'))) ∧
  keepaliveTime t1 = now1 + keepaliveDuration t ∧
  socketFd (conn (connection t3)) = -1 ∧
  (shuttingDown (conn (connection t3)) = true ∨ reconnectThread (connection t3) = Some Running).
Proof.
  intros Hfd Hw D1 H1 Hw2 D2 H2. rewrite (keep_alive_due _ _ _ _ _ Hfd D1), Hw in H1.
  assert (waitingOnKeepalive t1 = true ∧ keepaliveTime t1 = now1 + keepaliveDuration t ∧
    ∃ b, writePacket fuel others (Packet_new KEEP_ALIVE []) (connection t, k1) = (Ok b, (connection t1, k1')))
    as (Hw1 & Hd1 & Hsent).
  { revert H1. rewrite M_bind_stop_inv. unfold TermClient.send, on_connection, zoom. rewrite M_bind_stop_inv.
    cbn [fst snd connection set_deadline].
    destruct (writePacket fuel others (Packet_new KEEP_ALIVE []) (connection t, k1)) as [[b|e] [c k4]] eqn:E; [|done].
    cbn. intros [= <- <-]. split; [done|]. split; [done|]. by exists b. }
  split; [done|]. split; [done|]. rewrite (keep_alive_due _ _ _ _ _ Hfd D2), Hw2, Hw1 in H2.
  revert H2. rewrite M_bind_stop_inv. unfold on_connection, zoom. cbn [fst snd].
  destruct (close_and_reconnect finish _) as [[[]|e] [c k4]] eqn:Hc; [|done].
  intros [= <- <-]. cbn. by eapply close_and_reconnect_closes.
Qed.
End KeepAlive.

(** ** A first connection that fails *)

Section Unreachable.
Context {W : Type} `{!Kernel W} `{!Poll W} `{!Console W} `{!SecretBox} `{!TempFiles W}.
Context (sock : handler_kind → SocketHandler W) (raw : SocketHandler W).
Context `{!Proto ConnectRequest} `{!Proto ConnectResponse}.
Context `{!Proto PortForwardData} `{!Proto PortForwardDestinationRequest}.
Context `{!Proto PortForwardDestinationResponse} `{!Proto TerminalBuffer} `{!Proto TerminalInfo}.
Context `{!Proto InitialPayload} `{!Proto InitialResponse}.
Variable strerror : Z → str.
Variables (order : gmap Z Z → list (Z * Z))
  (order' : gmap Z Destination.ForwardDestinationHandler → list Z).
Variable fuel : nat.
Variable others : list ((ClientConnection → ClientConnection) * (ClientConnection → ClientConnection)).
Variable finish : ClientConnection → option ClientConnection.

#[local] Instance lost_network : SocketHandler W := sock Network.
#[local] Instance lost_object : ConnectionObject W ClientConnection := client_object.

(** A connection that was never made, and is not shut down. *)
Definition never_connected (o : ClientConnection) : Prop :=
  writer (conn o) = None ∧ shuttingDown (conn o) = false.

Lemma connect_exchange_writer o k r o' k' :
  never_connected o → connect_exchange fuel (o, k) = (r, (o', k')) →
  r ≠ Ok true → never_connected o'.
Proof.
  intros Ho. unfold connect_exchange. rewrite run_fst_get, run_snd.
  destruct (sh_connect (remoteEndpoint o) k) as [[r0|e] k1]; [|by intros [= <- <- <-]].
  rewrite run_fst_modify. destruct r0 as [fd|e]; [|by intros [= <- <- <-]].
  destruct (fd =? -1); [by intros [= <- <- <-]|].
  rewrite run_snd. destruct (writeProto _ _ _ _ k1) as [[[]|e] k2]; [|by intros [= <- <- <-]].
  rewrite run_snd. destruct (readProto _ _ _ _ k2) as [[resp|e] k3]; [|by intros [= <- <- <-]].
  destruct (bool_decide _ && bool_decide _); [by intros [= <- <- <-]|].
  destruct (CryptoHandler_new _ SERVER_CLIENT_NONCE_MSB) as [rc|e]; [|by intros [= <- <- <-]].
  rewrite run_lift_ok, run_fst_modify.
  destruct (CryptoHandler_new _ CLIENT_SERVER_NONCE_MSB) as [wc|e]; [|by intros [= <- <- <-]].
  by intros [= <- <- <-].
Qed.

Lemma connect_fails_without_writer o k o' k' :
  never_connected o → connect fuel (o, k) = (Ok false, (o', k')) → never_connected o'.
Proof.
  intros Ho. unfold connect, catch_runtime.
  destruct (connect_exchange fuel (o, k)) as [r [o1 k1]] eqn:E.
  destruct r as [b|[[[] why]| | |]]; try done.
  - intros [= -> <- <-]. by apply (connect_exchange_writer _ _ _ _ _ Ho E).
  - rewrite run_fst_get, M_bind_stop_inv. destruct (negb _).
    + unfold on_snd, zoom. cbn [fst snd]. destruct (sh_close _ k1) as [[[]|e] k2]; [|done].
      intros [= <- <-]. by apply (connect_exchange_writer _ _ _ _ _ Ho E).
    + intros [= <- <-]. by apply (connect_exchange_writer _ _ _ _ _ Ho E).
Qed.

Hypothesis sh_sleep_returns : ∀ us k, ∃ k', sh_sleep us k = (Ok tt, k').

(** [writePacket] keeps trying, whatever other threads do that does not make the
    connection. *)
Lemma writePacket_never_returns p o k :
  Forall (λ e, (∀ o, never_connected o → never_connected (e.1 o)) ∧
               (∀ o, never_connected o → never_connected (e.2 o))) others →
  never_connected o → ∃ q, writePacket fuel others p (o, k) = (Stop OutOfFuel, q).
Proof.
  intros Hothers. revert o k. induction Hothers as [|[f g] l [Hf Hg] _ IH]; intros o k Ho;
    cbn [writePacket]; rewrite run_fst_get; cbn [as_conn lost_object client_object];
    rewrite (proj2 Ho); [by eexists|].
  rewrite run_fst_modify. pose proof (Hf o Ho) as Ho1. cbn in Ho1.
  rewrite M_bind_stop_inv. unfold write. rewrite run_fst_get. cbn [as_conn lost_object client_object].
  rewrite (proj1 Ho1). cbn [mret M_ret].
  rewrite run_fst_get, run_snd. destruct (sh_sleep_returns (if negb (socketFd (conn (f o)) =? -1) then 1000 else 100 * 1000) k) as [k' Hk].
  cbn [as_conn lost_object client_object]. rewrite Hk, run_fst_modify. apply IH. by apply Hg.
Qed.

Hypothesis con_setup_returns : ∀ k, ∃ k', con_setup k = (Ok tt, k').
Hypothesis k_time_returns : ∀ k, ∃ now k', k_time k = (Ok now, k').
Hypothesis buffer_serializes : ∀ tb : TerminalBuffer, is_Some (serialize tb).

Abbreviation new e i key := (ClientConnection_new e i key).

(** C18. A first connection that fails goes unnoticed.  When [connect] returns false, the
    round of the constructor that made the call ends as if the server had accepted (the loop
    that would try again leaves after its first round), with a connection that was never
    made; and [run] of a client with a command then never gets past sending the command,
    however long it tries and whatever other threads do that does not make the connection. *)
Theorem failed_connect_unnoticed between payload e i key k o k' :
  connect fuel (new e i key, k) = (Ok false, (o, k')) →
  connect_round sock fuel others between payload 0 (new e i key, k) = (Ok true, (o, k')) ∧
  (Forall (λ e, (∀ o, never_connected o → never_connected (e.1 o)) ∧
                (∀ o, never_connected o → never_connected (e.2 o))) others →
   ∀ env command noexit f t k1, connection t = o → command ≠ [] →
   (run sock raw strerror order order' fuel others finish env command noexit (f, (t, k1))).1 =
     Stop OutOfFuel).
Proof.
  intros Hc. split.
  { unfold connect_round, catch_runtime, first_exchange.
    by rewrite M_bind_stop_inv, (M_bind_ok _ _ _ _ _ Hc). }
  intros Hothers env command noexit f t k1 Ht Hcommand.
  assert (never_connected o) as Ho by (by eapply connect_fails_without_writer; [|exact Hc]).
  cut (∃ q, start sock fuel others command noexit (f, (t, k1)) = (Stop OutOfFuel, q)).
  { intros [q Hq]. unfold run. rewrite M_bind_stop_inv. cbn [on_snd on_fst zoom get fst snd].
    by rewrite (M_bind_stop _ _ _ _ _ Hq). }
  unfold start. rewrite M_bind_stop_inv. cbn [on_snd on_fst zoom get fst snd].
  destruct (con_setup_returns k1) as [k2 Hk2].
  assert (∃ k3, (if console t then on_snd (on_snd con_setup) else mret tt) (f, (t, k1)) = (Ok tt, (f, (t, k3))))
    as [k3 Hk3].
  { destruct (console t); [|by eexists]. exists k2. unfold on_snd, zoom. cbn. by rewrite Hk2. }
  rewrite (M_bind_ok _ _ _ _ _ Hk3).
  destruct (k_time_returns k3) as (now & k4 & Hk4).
  assert (on_snd touch (f, (t, k3)) = (Ok tt, (f, (set_deadline now t, k4)))) as Ht4.
  { unfold on_snd, zoom, touch. cbn [fst snd]. rewrite run_snd, Hk4. done. }
  rewrite (M_bind_ok _ _ _ _ _ Ht4).
  rewrite M_bind_stop_inv. cbn [on_snd on_fst zoom modify fst snd].
  destruct command as [|c command]; [done|]. rewrite M_bind_stop_inv. unfold send_proto, on_snd, zoom.
  cbn [fst snd]. destruct (buffer_serializes (mkTb (Some (command_text (c :: command) noexit)))) as [s Hs].
  unfold protoToString. rewrite Hs, run_ret. unfold TermClient.send, on_connection, zoom.
  rewrite M_bind_stop_inv. cbn [fst snd connection set_waiting set_deadline]. rewrite Ht.
  destruct (writePacket_never_returns (Packet_new TERMINAL_BUFFER s) o k4 Hothers Ho) as [q Hq].
  cbv [client_network client_conn lost_network lost_object] in *. rewrite Hq. by eexists.
Qed.
End Unreachable.

(** ** Concrete sessions *)

Section Witnesses.
#[local] Existing Instance example_secretbox.
#[local] Instance d_object : ConnectionObject Wire ClientConnection := client_object.
#[local] Instance d_data : Proto PortForwardData :=
  {| serialize _ := None; parse _ := None; proto_default := mkPwd None None None None None |}.
#[local] Instance d_request : Proto PortForwardDestinationRequest :=
  {| serialize _ := None; parse _ := None; proto_default := mkPfdr None None |}.
#[local] Instance d_response : Proto PortForwardDestinationResponse :=
  {| serialize _ := None; parse _ := None; proto_default := mkPfdResponse None None None |}.
#[local] Instance d_buffer : Proto TerminalBuffer := countable_proto (mkTb None).
#[local] Instance d_info : Proto TerminalInfo := countable_proto (mkTi None None None None None).
#[local] Instance d_connect : Proto ConnectRequest := countable_proto (mkConnectRequest None None).
#[local] Instance d_connected : Proto ConnectResponse := countable_proto (mkConnectResponse None None).
#[local] Instance d_payload : Proto InitialPayload :=
  {| serialize _ := None; parse _ := None; proto_default := mkPayload None [] ∅ |}.
#[local] Instance d_initial : Proto InitialResponse :=
  {| serialize _ := None; parse _ := None; proto_default := mkResponse None |}.
#[local] Instance d_files : TempFiles Wire := {|
  tf_GetTempDirectory := lit "/tmp/";
  tf_mkdtemp s := mret s;
  tf_chmod s := mret (IoOk tt);
  tf_chown s u g := mret (IoOk tt);
|}.
#[local] Instance d_console : Console Wire := {|
  con_setup := mret tt;
  con_teardown := mret tt;
  con_getFd := mret 1;
  con_getTerminalInfo := mret (mkTi None (Some 25) (Some 80) None None);
|}.

Definition d_crypto (msb : Z) : CryptoHandler := mkCrypto (initial_nonce msb) (lit "key").
Definition d_others : list ((ClientConnection → ClientConnection) * (ClientConnection → ClientConnection)) :=
  [(λ o, o, λ o, o)].
Definition d_client (waiting : bool) : TerminalClient :=
  mkTC (mkClient (mkConnection (lit "id") (lit "key") 6 false
          (Some (Reader.init (d_crypto SERVER_CLIENT_NONCE_MSB) 6))
          (Some (Writer.init (d_crypto CLIENT_SERVER_NONCE_MSB) 6)))
        (mkEndpoint (Some (lit "host")) (Some 2022)) None)
    true false 5 (-1) waiting (mkTi None None None None None).

(** The server shows "hi" in two packets. *)
Definition d_packets : list Packet :=
  [Packet_new TERMINAL_BUFFER (default [] (serialize (mkTb (Some (lit "h")))));
   Packet_new KEEP_ALIVE [];
   Packet_new TERMINAL_BUFFER (default [] (serialize (mkTb (Some (lit "i")))))].
Definition d_wire : Wire :=
  with_in wire0 6 (concat (frame_of <$> seal_all (d_crypto SERVER_CLIENT_NONCE_MSB) d_packets)).
Definition d_start : Forward.PortForwardHandler * (TerminalClient * Wire) :=
  (Forward.init, (d_client true, d_wire)).
Definition d_read : M (Forward.PortForwardHandler * (TerminalClient * Wire)) unit :=
  read_server (λ _, WireSocket) WireSocket (λ _, []) 100 d_others.

Lemma server_text_shown_witness :
  (d_read d_start).1 = Ok tt ∧ wire_out (d_read d_start).2.2.2 1 = lit "hi" ∧
  ∃ ps text q1, batch (λ _, WireSocket) (λ _, []) 100 d_others ps text d_start q1 ∧
    (Forall (λ p, TermClient.is_forward_packet p = false) ps →
     outgoing (d_read d_start).2.2.2 1 = outgoing d_start.2.2 1 ++ typed ps).
Proof.
  split; [vm_compute; reflexivity|]. split; [vm_compute; reflexivity|].
  refine (server_text_shown (λ _, WireSocket) WireSocket (λ _, []) 100 d_others 1 _ _ d_start
    (d_read d_start).2 _ _ _).
  - lia.
  - reflexivity.
  - vm_compute. reflexivity.
  - split; intros x Hx; vm_compute in Hx; injection Hx as <-; vm_compute; discriminate.
  - reflexivity.
Defined.

Definition d_alive (t : TerminalClient) : outcome unit * (TerminalClient * Wire) :=
  keep_alive (λ _, WireSocket) 100 d_others (λ o, Some o) 6 (t, wire0).

Lemma silent_server_given_up_witness :
  (∃ b, writePacket (O := ClientConnection) 100 d_others (Packet_new KEEP_ALIVE [])
      (connection (d_client false), wire0) =
    (Ok b, (connection (d_alive (d_client false)).2.1, (d_alive (d_client false)).2.2))) ∧
  keepaliveTime (d_alive (d_client false)).2.1 = 5 ∧
  socketFd (conn (connection (d_alive (d_client true)).2.1)) = -1 ∧
  (shuttingDown (conn (connection (d_alive (d_client true)).2.1)) = true ∨
   reconnectThread (connection (d_alive (d_client true)).2.1) = Some Running).
Proof.
  refine (silent_server_given_up (λ _, WireSocket) 100 d_others (λ o, Some o) 6
    (d_client false) wire0 0 wire0 (d_alive (d_client false)).2.1 (d_alive (d_client false)).2.2
    (d_client true) wire0 0 wire0 (d_alive (d_client true)).2.1 (d_alive (d_client true)).2.2
    _ _ _ _ _ _ _).
  - lia.
  - reflexivity.
  - exists 0, wire0. repeat split.
  - vm_compute. reflexivity.
  - vm_compute. reflexivity.
  - exists 0, wire0. repeat split.
  - vm_compute. reflexivity.
Defined.

(** Nobody listens. *)
Definition d_failed : ClientConnection * Wire :=
  (connect 100 (ClientConnection_new (mkEndpoint (Some (lit "host")) (Some 2022)) (lit "id") (lit "key"), wire0)).2.

Lemma failed_connect_unnoticed_witness :
  (run (λ _, WireSocket) WireSocket (λ _, []) map_to_list (λ m, (map_to_list m).*1) 100 d_others
     (λ o, Some o) [] (lit "ls") false
     (Forward.init, (set_connection d_failed.1 (d_client false), wire0))).1 = Stop OutOfFuel.
Proof.
  refine (proj2 (failed_connect_unnoticed (λ _, WireSocket) WireSocket (λ _, []) map_to_list
    (λ m, (map_to_list m).*1) 100 d_others (λ o, Some o) _ _ _ _ (λ _ o, o) (mkPayload None [] ∅)
    (mkEndpoint (Some (lit "host")) (Some 2022)) (lit "id") (lit "key") wire0 d_failed.1 d_failed.2 _)
    _ [] (lit "ls") false Forward.init _ wire0 _ _).
  - intros us k. eexists. reflexivity.
  - intros k. eexists. reflexivity.
  - intros k. eexists _, _. reflexivity.
  - intros tb. eexists. reflexivity.
  - vm_compute. reflexivity.
  - constructor; [split; intros o Ho; exact Ho|constructor].
  - reflexivity.
  - discriminate.
Defined.
End Witnesses.
