(* ===== verification/ClientFlow.v ===== *)
(** * The flow of text through the client

    One iteration of the client's loop ([TerminalClient]), as a trace: the text of the
    packets it gives to its connection is what was typed at the console in the meantime, and
    what it writes to the console is the text of the packets it has taken from the
    connection.  Ports may be forwarded beside it. *)

From S2P Require Import Prelude Sockets Crypto Packets Wire CxxText Backed WriterSpec ReaderSpec Connection.
From S2P Require Import ClientConnection Endpoint Apart UnixSockets TcpSockets SocketPromises Forwarding.
From S2P Require Import RawSockets TerminalMessages Loops ClientStart TerminalClient.
From S2P Require Import Activity TunnelsApart TextFlow.
Import Conn ConnOps Client TermClient.

Section Client.
Context {W : Type} `{!Streams W} `{!Kernel W} `{!Poll W} `{!Console W} `{!SecretBox} `{!TempFiles W}.
Context (sock : handler_kind → SocketHandler W) (raw : SocketHandler W).
Context `{!∀ kd, @StreamSocket W (sock kd) _} `{!@StreamSocket W raw _} `{!@CleanRetry W raw _}.
Context `{!KernelStreams W}.
Context `{!Proto PortForwardData, !Compact PortForwardData}.
Context `{!Proto PortForwardDestinationRequest, !Compact PortForwardDestinationRequest}.
Context `{!Proto PortForwardDestinationResponse, !Compact PortForwardDestinationResponse}.
Context `{!Proto TerminalBuffer, !ProtoLaws TerminalBuffer, !Compact TerminalBuffer}.
Context `{!Proto TerminalInfo, !Compact TerminalInfo}.
Variables (strerror : Z → str) (order : gmap Z Z → list (Z * Z))
  (order' : gmap Z Destination.ForwardDestinationHandler → list Z) (fuel : nat).
Variable others : list ((ClientConnection → ClientConnection) * (ClientConnection → ClientConnection)).
Variable finish : ClientConnection → option ClientConnection.
Variables (fd consoleFd : Z).

#[local] Instance flow_network : SocketHandler W := sock Network.
#[local] Instance flow_object : ConnectionObject W ClientConnection := client_object.
#[local] Instance flow_laws : ConnectionObjectLaws W ClientConnection := client_laws.

(** The console and the connection have descriptors of their own; [select] and the size of
    the window leave the streams alone; other threads do not touch the connection. *)
Hypothesis (Hcon : 0 < consoleFd) (Hfd : 0 <= fd) (Hne : fd ≠ consoleFd).
Hypothesis con_getFd_fixed : ∀ k : W, con_getFd k = (Ok consoleFd, k).
Hypothesis con_info_quiet : ∀ (k : W) o k', con_getTerminalInfo k = (o, k') → quiet k k'.
Hypothesis select_quiet : ∀ r w (k : W) o k', poll_select r w k = (o, k') → quiet k k'.
Hypothesis Hothers : keep_conn others.
Hypothesis Hfinish : ∀ o o', finish o = Some o' → conn o' = conn o.
Hypothesis Horder : ∀ m p, p ∈ order m → m !! p.1 = Some p.2.
Hypothesis Hown : ∀ kd, OwnDescriptors (mine fd consoleFd) (sock kd).

(** The client has a console, and a connection that is in order. *)
Definition client_ok (t : TerminalClient) : Prop :=
  apart consoleFd (conn (connection t)) ∧ shuttingDown (conn (connection t)) = false ∧
  console t = true.

Abbreviation does := (performs fd consoleFd (λ st : ClientConnection * W, st) (in_order consoleFd)).
Abbreviation cl := (performs fd consoleFd (view_of connection) (ok_of (W := W) client_ok)).
Abbreviation th := (performs fd consoleFd (thread_view connection)
  (thread_ok (W := W) fd consoleFd client_ok)).

(** ** The parts of the loop *)

Lemma client_lift {A} (m : M (ClientConnection * W) A) Q : does m Q → cl (on_connection m) Q.
Proof.
  intros Hm. eapply performs_lift; [exact Hm| |].
  - intros [t k] (Ha & Hd & _). by split.
  - intros [t k] a [t' k'] (_ & _ & Hc) E. unfold on_connection, zoom in E. cbn in E.
    unfold view_of. cbn. destruct (m (connection t, k)) as [o [c1 k1]]. injection E as -> <- <-.
    split; [done|]. intros [? ?]. by split_and!.
Qed.

Lemma cl_modify f :
  (∀ t, connection (f t) = connection t ∧ console (f t) = console t) →
  cl (on_fst (modify f)) (λ _ t, t = nothing).
Proof.
  intros Hf. apply performs_still. intros [t k] a q' Hq [= <- <-].
  destruct (Hf t) as [E1 E2]. unfold view_of, ok_of, client_ok in *. cbn in *. rewrite E1, E2.
  split; [by apply quiet_still|done].
Qed.

Lemma cl_quiet {A} (m : M W A) :
  (∀ k o k', m k = (o, k') → quiet k k') → cl (on_snd m) (λ _ t, t = nothing).
Proof.
  intros Hm. apply performs_still. intros [t k] a [t' k'] Hq [E Et]%on_snd_inv. cbn in Et, E. subst t'.
  apply Hm in E. split; [by apply quiet_still|done].
Qed.

Lemma cl_send p : writable p → cl (send sock fuel others p) (λ _, sends [p]).
Proof.
  intros Hp. unfold send. eapply performs_bind; [by apply client_lift, does_writePacket|].
  intros b t Ht. apply performs_ret. by rewrite nothing_joined.
Qed.

Lemma cl_send_proto {X} `{!Proto X, !Compact X} type (x : X) :
  cl (send_proto sock fuel others type x) (λ _, sends_proto type x).
Proof.
  unfold send_proto, protoToString. destruct (serialize x) as [s|] eqn:Hs; [|by intros q Hq a q'].
  apply performs_pure.
  eapply performs_mono; [by apply cl_send, (compact_writable _ x)|]. intros u t Ht. by exists s.
Qed.

Lemma cl_touch : cl touch (λ _ t, t = nothing).
Proof.
  unfold touch. apply performs_skip; [apply cl_quiet; intros ???; apply kernel_time|].
  intros now. by apply cl_modify.
Qed.

Lemma cl_read_console rfd : cl (read_console sock fuel others consoleFd rfd) (λ _, types_text).
Proof.
  unfold read_console. case_bool_decide; [|by apply performs_ret].
  apply (performs_bind _ _ _ _ _ _
    (λ rc t, types (match rc with IoOk s => s | IoErr _ => [] end) t)).
  { intros [t k] Hq rc [t' k'] [E Et]%on_snd_inv. cbn in E, Et. subst t'.
    apply kernel_read in E. destruct rc as [s|e]; cycle 1.
    - exists nothing. split_and!; [by apply still_acts, quiet_still|done..].
    - destruct E as [_ Hx].
      destruct (typing_acts fd consoleFd (connection t) (connection t) k k' s Hne eq_refl Hx) as (tr & Ha & Ht).
      by exists tr. }
  intros [[|c s]|e] t Ht.
  - apply performs_ret. rewrite nothing_joined. by apply types_nothing.
  - eapply performs_bind; [apply (cl_send_proto TERMINAL_BUFFER (mkTb (Some (c :: s))))|].
    intros u t1 Hs. apply performs_skip; [apply cl_touch|]. intros _.
    apply performs_ret. rewrite nothing_joined. by apply (types_then_sends c s).
  - case_match; apply performs_ret; rewrite nothing_joined; by apply types_nothing.
Qed.

(** Closing the connection for the reconnect thread. *)
Lemma cl_close : cl (on_connection (close_and_reconnect finish)) (λ _, sends []).
Proof.
  apply client_lift, does_close; [done|]. intros [o k] [] [o' k'].
  unfold close_and_reconnect. rewrite M_bind_stop_inv.
  destruct (join_reconnect finish (o, k)) as [[[]|e] [o1 k1]] eqn:Hj; [|done].
  assert (conn o1 = conn o ∧ k1 = k) as [E1 ->].
  { revert Hj. unfold join_reconnect. rewrite run_fst_get.
    destruct (reconnectThread o) as [[]|]; [|by intros [= <- <-]|by intros [= <- <-]].
    destruct (finish o) as [o2|] eqn:Hf; [|done]. intros [= <- <-]. by apply Hfinish in Hf. }
  rewrite M_bind_stop_inv, on_base_run, E1.
  destruct (closeSocket (conn o, k)) as [[[]|e] [c k2]] eqn:Hc; [|done]. cbn [fst snd].
  rewrite run_fst_get. intros Hend. apply closeSocket_effect in Hc.
  assert (conn o' = c ∧ k' = k2) as [Eo ->] by (revert Hend; by destruct (negb _); intros [= <- <-]).
  unfold closed. cbn [fst snd as_conn flow_object client_object]. by rewrite Eo.
Qed.

Lemma cl_keep_alive clientFd : cl (keep_alive sock fuel others finish clientFd) (λ _, mute).
Proof.
  unfold keep_alive. apply performs_get. intros t k _.
  apply performs_skip; [apply cl_quiet; intros ???; apply kernel_time|]. intros now.
  eapply (performs_bind _ _ _ _ _ _ (λ _, mute)).
  - destruct (_ && _); [|by apply performs_ret].
    apply performs_skip; [apply cl_touch|]. intros _. destruct (waitingOnKeepalive t).
    + eapply performs_bind; [apply cl_close|]. intros u t1 Ht.
      eapply performs_mono; [by apply cl_modify|]. intros u2 t2 ->. rewrite nothing_joined.
      by apply (mute_sends _ _ Ht).
    + eapply performs_bind; [apply cl_send; vm_compute; split_and!; congruence|]. intros u t1 Ht.
      eapply performs_mono; [by apply cl_modify|]. intros u2 t2 ->. rewrite nothing_joined.
      apply (mute_sends _ _ Ht). rewrite typed_one. by apply keys_other.
  - intros u t1 Ht. destruct (clientFd <? 0).
    + eapply performs_mono; [by apply cl_modify|]. intros u2 t2 ->. by rewrite nothing_joined.
    + apply performs_ret. by rewrite nothing_joined.
Qed.

Lemma cl_window_size : cl (window_size sock fuel others) (λ _, mute).
Proof.
  unfold window_size. apply performs_get. intros t k _. destruct (console t); [|by apply performs_ret].
  apply performs_skip; [apply cl_quiet, con_info_quiet|]. intros ti.
  destruct (same_message _ _); [by apply performs_ret|].
  apply performs_skip; [by apply cl_modify|]. intros _.
  eapply performs_mono; [apply cl_send_proto|]. intros u t1. by apply sends_proto_mute.
Qed.

Lemma cl_send_all {X} `{!Proto X, !Compact X} type (xs : list X) :
  to_u8 type ≠ TERMINAL_BUFFER → cl (send_all sock fuel others type xs) (λ _, mute).
Proof.
  intros Ht. induction xs as [|x xs IH]; cbn [send_all]; [by apply performs_ret|].
  eapply performs_bind; [apply cl_send_proto|]. intros u t1 M1.
  apply performs_skip; [apply cl_touch|]. intros _.
  eapply performs_mono; [exact IH|]. intros u2 t2 M2. apply mute_joined; [|done].
  exact (sends_proto_mute _ _ _ Ht M1).
Qed.

(** ** Beside the forwarded ports *)

Lemma fd_not_minus_one : ¬ mine fd consoleFd (-1).
Proof. intros [?|?]; lia. Qed.

Lemma tunnels_beside kd :
  respects (mine fd consoleFd) (without_text fd consoleFd connection client_ok) (client_sock sock kd).
Proof. apply tunnels_respect; [apply _|apply Hown]. Qed.

Abbreviation no_text := (without_text fd consoleFd connection client_ok).

#[local] Instance no_text_preorder : PreOrder no_text := without_text_preorder fd consoleFd _ _.

Lemma tc_snd {A} (m : M (TerminalClient * W) A) Q : cl m Q → th (on_snd m) Q.
Proof. apply thread_performs. Qed.

Lemma th_get {B} (f : TerminalClient → M (Forward.PortForwardHandler * (TerminalClient * W)) B) Q :
  (∀ t, client_ok t → th (f t) Q) → th (on_snd (on_fst get) ≫= f) Q.
Proof.
  intros Hf. eapply performs_then; [|exact Hf]. apply tc_snd, performs_still.
  intros [t k] a q' Hq [= <- <-]. by split; [apply quiet_still|].
Qed.

Lemma send_respects p v :
  writable p → typed [p] = [] →
  keeps (calm no_text (forward_away (mine fd consoleFd)) v) (on_snd (send sock fuel others p)).
Proof.
  intros Hp Ht. apply (tunnels_send fd consoleFd connection client_ok (send sock fuel others)).
  eapply performs_mono; [by apply cl_send|]. intros u t Hs. by apply (mute_sends _ _ Hs).
Qed.

Lemma th_server_packet p :
  th (server_packet sock strerror fuel others p) (λ s t, mute t ∧ s = keys p).
Proof.
  unfold server_packet. destruct (is_forward_packet p) eqn:Hp.
  - assert (keys p = []) as Hk.
    { unfold keys. unfold is_forward_packet in Hp.
      destruct (header p =? TERMINAL_BUFFER) eqn:Ht; [|done]. b2p. by rewrite Ht in Hp. }
    apply performs_skip; [apply tc_snd, cl_touch|]. intros _.
    eapply (performs_bind _ _ _ _ _ _ (λ _, mute)); [|intros u t Ht; apply performs_ret; by rewrite nothing_joined].
    apply tunnels_perform. intros v.
    refine (away_handle_packet (client_sock sock) strerror (mine fd consoleFd) no_text tunnels_beside
      fuel v _ p _).
    intros r raw1 Hr. apply send_respects; [by apply (compact_writable _ r)|rewrite typed_one; by apply keys_other].
  - destruct (header p =? TERMINAL_BUFFER) eqn:Hb.
    + apply th_get. intros t (_ & _ & Hc). rewrite Hc. unfold keys. rewrite Hb.
      unfold stringToProto. destruct (parse (payload p)) as [tb|]; [|by intros q Hq a q'].
      apply performs_pure, performs_skip; [apply tc_snd, cl_touch|]. intros _. by apply performs_ret.
    + assert (keys p = []) as Hk by (unfold keys; by rewrite Hb).
      destruct (header p =? KEEP_ALIVE); [|by intros q Hq a q'].
      apply performs_skip; [by apply tc_snd, cl_modify|]. intros _. by apply performs_ret.
Qed.

(** A batch: no text is sent meanwhile, and what it returns is the text of its packets. *)
Lemma th_server_packets n acc :
  th (server_packets sock strerror fuel others n acc)
    (λ text t, typed (accepted t) = [] ∧ from_tty t = [] ∧ to_tty t = [] ∧
               text = acc ++ typed (delivered t)).
Proof.
  revert acc. induction n as [|n IH]; intros acc; cbn [server_packets];
    (apply performs_skip; [apply tc_snd, client_lift, does_hasData|]); intros [];
    try (apply performs_ret; by rewrite app_nil_r); [apply performs_stop|].
  eapply performs_bind; [by apply tc_snd, client_lift, does_read|].
  intros [p|] t (T1 & T2 & T3 & T4); cbn [option_list] in T2.
  - eapply performs_bind; [apply th_server_packet|]. intros s t1 [(M1 & M2 & M3 & M4) ->].
    eapply performs_mono; [apply IH|]. intros text t2 (U1 & U2 & U3 & ->).
    cbn [accepted delivered from_tty to_tty joined].
    rewrite !typed_app, T1, T2, T3, T4, M1, M2, M3, M4, U1, U2, U3.
    change (option_list (Some p)) with [p]. by rewrite typed_one, <-app_assoc.
  - apply performs_ret. rewrite nothing_joined, T1, T2, T3, T4. by rewrite app_nil_r.
Qed.

(** The text of the packets that were taken has been shown, and none was sent. *)
Definition shows_text (t : trace) : Prop :=
  typed (accepted t) = [] ∧ from_tty t = [] ∧ to_tty t = typed (delivered t).

Lemma th_read_server : th (read_server sock raw strerror fuel others) (λ _, shows_text).
Proof.
  unfold read_server. eapply performs_bind; [apply th_server_packets|].
  intros text t (T1 & T2 & T3 & ->). cbn [app]. apply th_get. intros tc (_ & _ & Hc). rewrite Hc.
  destruct (typed (delivered t)) as [|c s] eqn:Ht.
  { apply performs_ret. rewrite nothing_joined. unfold shows_text. by rewrite T1, T2, T3, Ht. }
  assert (cl (on_snd (console_write raw fuel (c :: s))) (λ _, shows (c :: s))) as Hw.
  { intros [t0 k] Hq [] [t' k'] [E Et]%on_snd_inv. cbn in E, Et. subst t'.
    unfold console_write in E. rewrite (M_bind_ok _ _ _ _ _ (con_getFd_fixed k)) in E.
    apply Raw.raw_writeAll_run in E as (s' & Hx & _ & Hall). rewrite Hall in Hx by done.
    destruct (showing_acts fd consoleFd (connection t0) (connection t0) k k' _ Hne eq_refl Hx) as (tr & Ha & Hs).
    by exists tr. }
  eapply performs_mono; [exact (tc_snd _ _ Hw)|]. intros u t1 (S1 & S2 & S3 & S4).
  unfold shows_text. cbn [accepted delivered from_tty to_tty joined].
  rewrite !typed_app, T1, T2, T3, S1, S2, S3, S4, Ht. cbn. by rewrite app_nil_r.
Qed.

Lemma tc_tunnels {A} (m : M (Forward.PortForwardHandler * (TerminalClient * W)) A) :
  (∀ v, keeps (calm no_text (forward_away (mine fd consoleFd)) v) m) → th m (λ _, mute).
Proof. apply tunnels_perform. Qed.

Lemma tc_forward_sockets : th (forward_sockets sock strerror order order' fuel others) (λ _, mute).
Proof.
  unfold forward_sockets. eapply performs_bind.
  - apply tc_tunnels. intros v.
    exact (away_update (client_sock sock) strerror (mine fd consoleFd) no_text tunnels_beside
      fd_not_minus_one order order' Horder fuel v).
  - intros r t Ht. eapply performs_bind; [by apply tc_snd, cl_send_all|]. intros u t1 Ht1.
    eapply performs_mono; [by apply tc_snd, cl_send_all|]. intros u2 t2 Ht2.
    apply mute_joined; [done|]. by apply mute_joined.
Qed.

(** ** One iteration *)

(** What was typed is sent, and what the server sent is shown. *)
Definition faithful (t : trace) : Prop :=
  typed (accepted t) = from_tty t ∧ to_tty t = typed (delivered t).

Lemma faithful_joined t t' : faithful t → faithful t' → faithful (t ⊕ t').
Proof.
  intros [A1 A2] [B1 B2]. split; cbn [accepted delivered from_tty to_tty joined];
    rewrite typed_app; congruence.
Qed.

Lemma mute_faithful t : mute t → faithful t.
Proof. intros (M1 & M2 & M3 & M4). unfold faithful. by rewrite M1, M2, M3, M4. Qed.

Lemma shows_faithful t : shows_text t → faithful t.
Proof. intros (S1 & S2 & S3). unfold faithful. by rewrite S1, S2, S3. Qed.

Lemma types_faithful t : types_text t → faithful t.
Proof. intros (S1 & S2 & S3). unfold faithful. by rewrite S1, S2, S3. Qed.

Lemma th_steps clientFd rfd :
  th (steps sock raw strerror order order' fuel others finish consoleFd clientFd rfd) (λ _, faithful).
Proof.
  unfold steps. apply th_get. intros tc (_ & _ & Hc). rewrite Hc. unfold then_.
  eapply performs_bind; [apply tc_snd, cl_read_console|]. intros st t Ht.
  assert (∀ st : stage, th (mret st) (λ _ t', faithful (t ⊕ t'))) as Hend.
  { intros st'. apply performs_ret. rewrite nothing_joined. by apply types_faithful. }
  destruct st; try apply Hend.
  eapply (performs_bind _ _ _ _ _ _ (λ _, faithful)).
  { destruct (_ && _); [|by apply performs_ret].
    eapply performs_mono; [apply th_read_server|]. intros ??. apply shows_faithful. }
  intros u1 t1 Ht1. eapply performs_bind; [apply tc_snd, cl_keep_alive|]. intros u2 t2 Ht2.
  eapply performs_bind; [apply tc_snd, cl_window_size|]. intros u3 t3 Ht3.
  eapply performs_bind; [apply tc_forward_sockets|]. intros u4 t4 Ht4.
  apply performs_ret. rewrite nothing_joined.
  repeat apply faithful_joined; auto using types_faithful, mute_faithful.
Qed.

Lemma on_snd_get (q : Forward.PortForwardHandler * (TerminalClient * W)) t q' :
  on_snd (on_fst get) q = (Ok t, q') → q.2.1 = t ∧ q = q'.
Proof. destruct q as [p [t0 k]]. by intros [= <- <-]. Qed.

(** An iteration that does not end in the handler of the [try], so that the client stays up. *)
Lemma th_iteration q st q' :
  iteration sock raw strerror order order' fuel others finish q = (Ok st, q') →
  down q'.2.1 = false → thread_ok fd consoleFd client_ok q →
  ∃ t, acts fd consoleFd (thread_view connection q) t (thread_view connection q') ∧
    thread_ok fd consoleFd client_ok q' ∧ faithful t.
Proof.
  intros E Hdown Hq. unfold iteration in E.
  apply M_bind_inv in E as (t & q1 & [<- <-]%on_snd_get & E). cbv zeta in E.
  destruct q as [p [t k]]. pose proof Hq as (_ & _ & _ & Hc). cbn [fst snd] in E, Hc. rewrite Hc in E.
  apply M_bind_inv in E as (cfd & q2 & E2 & E).
  assert (cfd = consoleFd ∧ q2 = (p, (t, k))) as [-> ->].
  { unfold on_snd, zoom in E2. cbn in E2. rewrite con_getFd_fixed in E2. by injection E2 as <- <-. }
  apply M_bind_inv in E as (fds & q3 & E3 & E). apply M_bind_inv in E as (rfd & q4 & E4 & E).
  destruct (tc_tunnels _ (λ v, away_forward_fds (client_sock sock) (mine fd consoleFd) no_text
    tunnels_beside v ∅) _ Hq _ _ E3) as (t3 & A3 & Hq3 & M3).
  destruct (tc_snd _ _ (cl_quiet _ (select_quiet _ _)) _ Hq3 _ _ E4) as (t4 & A4 & Hq4 & ->).
  unfold catch_runtime in E. destruct (steps _ _ _ _ _ _ _ _ _ _ _ q4) as [o q5] eqn:Es.
  assert (o = Ok st ∧ q5 = q') as [-> ->].
  { destruct o as [st'|[[[] why]| | |]]; try (by injection E as -> ->); try done.
    destruct q5 as [p5 [t5 k5]]. by injection E as <- <-. }
  destruct (th_steps _ _ q4 Hq4 _ _ Es) as (t5 & A5 & Hq5 & F5).
  exists (t3 ⊕ nothing ⊕ t5). split_and!; [|done|].
  - eapply acts_trans; [|exact A5]. eapply acts_trans; [exact A3|exact A4].
  - rewrite nothing_joined. apply faithful_joined; [by apply mute_faithful|done].
Qed.

(** ** The start of a session *)

Section Start.
Context `{!Proto InitialPayload, !Compact InitialPayload} `{!Proto InitialResponse}.
Variable between : nat → ClientConnection → ClientConnection.
Hypothesis Hbetween : ∀ n o, conn (between n o) = conn o.
Hypothesis con_setup_quiet : ∀ (k : W) o k', con_setup k = (o, k') → quiet k k'.

Lemma does_wait_response n : does (wait_response between n) (λ _, wordless).
Proof.
  induction n as [|n IH]; cbn [wait_response]; [by apply performs_ret|].
  apply performs_skip; [by apply does_modify|]. intros _.
  eapply performs_then; [|intros clientFd _].
  { unfold client_fd. apply performs_get. intros o k _. by apply (performs_ret _ _ _ _ _ (λ _ t, t = nothing ∧ True)). }
  destruct (clientFd <? 0).
  { apply performs_skip; [apply does_quiet; intros ???; apply kernel_sleep|]. intros _. exact IH. }
  apply performs_skip; [apply does_quiet, select_quiet|]. intros rfd.
  case_bool_decide; [|exact IH].
  eapply performs_bind; [by apply does_readPacket|]. intros [p|] t Ht.
  - destruct (header p =? INITIAL_RESPONSE) eqn:Hp; [|by intros q Hq a q']. cbn [negb]. b2p.
    unfold stringToProto. destruct (parse (payload p)) as [r|]; [|by intros q Hq a q'].
    apply performs_pure. assert (wordless t) as Hw by (apply (takes_wordless p); [done|unfold keys; by rewrite Hp]).
    destruct (ir_error r); apply performs_ret; by rewrite nothing_joined.
  - eapply performs_mono; [exact IH|]. intros r t' Ht'.
    apply wordless_joined; [by apply mute_wordless, takes_none|done].
Qed.

Lemma does_greet p : does (greet fuel others between p) (λ _, wordless).
Proof.
  unfold greet, protoToString. destruct (serialize p) as [s|] eqn:Hs; [|by intros q Hq a q'].
  apply performs_pure.
  eapply performs_bind; [apply does_writePacket; [done..|by apply (compact_writable _ p)]|]. intros b t Ht.
  eapply performs_mono; [apply does_wait_response|]. intros r t' Ht'. apply wordless_joined; [|done].
  apply mute_wordless, (mute_sends _ _ Ht). rewrite typed_one. by apply keys_other.
Qed.

(** The command that the user gave, as it is typed for him. *)
Definition given (command : str) (noexit : bool) : str :=
  match command with [] => [] | _ => command_text command noexit end.

(** The command is sent as text. *)
Definition says (s : str) (t : trace) : Prop :=
  typed (accepted t) = s ∧ typed (delivered t) = [] ∧ from_tty t = [] ∧ to_tty t = [].

Lemma th_start command noexit : th (start sock fuel others command noexit) (λ _, says (given command noexit)).
Proof.
  unfold start. apply th_get. intros tc _.
  apply performs_skip; [destruct (console tc); [apply tc_snd, cl_quiet, con_setup_quiet|by apply performs_ret]|].
  intros _. apply performs_skip; [apply tc_snd, cl_touch|]. intros _.
  apply performs_skip; [by apply tc_snd, cl_modify|]. intros _.
  assert (th (on_snd (on_fst (modify (set_info (mkTi None None None None None))))) (λ _ t, t = nothing)) as Hinfo
    by by apply tc_snd, cl_modify.
  eapply (performs_bind _ _ _ _ _ _ (λ _, says (given command noexit))).
  - destruct command as [|c command]; [by apply performs_ret|].
    eapply performs_mono; [apply tc_snd, (cl_send_proto TERMINAL_BUFFER (mkTb _))|].
    intros u t (raw1 & Hs & S1 & S2 & S3 & S4). unfold says, given. rewrite S1, S2, S3, S4.
    split_and!; [|done..]. rewrite typed_one. unfold keys. cbn. by rewrite (parse_serialize _ _ Hs).
  - intros u t Ht. eapply performs_mono; [exact Hinfo|]. intros u2 t2 ->. by rewrite nothing_joined.
Qed.
End Start.
End Client.
