(* ===== verification/ServerFlow.v ===== *)
(** * The flow of text through the server

    One iteration of a session's thread on the server ([TerminalServer]), as a trace: the
    text of the packets it gives to the client's connection is what the shell wrote in the
    meantime, and the bytes it puts on the terminal's pipe are messages whose text is that
    of the packets it has taken from the connection.  Ports may be forwarded beside it. *)

From S2P Require Import Prelude Sockets Crypto Packets Wire Backed WriterSpec ReaderSpec Connection.
From S2P Require Import Endpoint Apart ServerConnection UnixSockets TcpSockets SocketPromises Forwarding.
From S2P Require Import Router TerminalMessages Loops UserTerminal TerminalServer ServerSession.
From S2P Require Import Activity TunnelsApart TextFlow.
Import Conn ConnOps Term.

Section Server.
Context {W : Type} `{!Streams W} `{!Kernel W} `{!Poll W} `{!SecretBox} `{!TempFiles W}.
Context (sock : handler_kind → SocketHandler W) (term_sock : SocketHandler W).
Context `{!∀ kd, @StreamSocket W (sock kd) _} `{!@StreamSocket W term_sock _} `{!@CleanRetry W term_sock _}.
Context `{!KernelStreams W}.
Context `{!Proto PortForwardData, !Compact PortForwardData}.
Context `{!Proto PortForwardDestinationRequest, !Compact PortForwardDestinationRequest}.
Context `{!Proto PortForwardDestinationResponse, !Compact PortForwardDestinationResponse}.
Context `{!Proto TerminalBuffer, !ProtoLaws TerminalBuffer, !Compact TerminalBuffer}.
Context `{!Proto TerminalInfo, !ProtoLaws TerminalInfo}.
Variables (strerror : Z → str) (order : gmap Z Z → list (Z * Z))
  (order' : gmap Z Destination.ForwardDestinationHandler → list Z) (fuel : nat).
Variable others : list ((Connection → Connection) * (Connection → Connection)).
Variables (l : positive) (fd terminalFd : Z).

#[local] Instance server_network : SocketHandler W := sock Network.
#[local] Instance served_object : ConnectionObject W Connection := base_object.
#[local] Instance served_laws : ConnectionObjectLaws W Connection := base_object_laws.

(** The terminal's pipe and the connection have descriptors of their own; [select] leaves
    the streams alone; other threads do not touch the connection meanwhile. *)
Hypothesis (Hterm : 0 < terminalFd) (Hfd : 0 <= fd) (Hne : fd ≠ terminalFd).
Hypothesis select_quiet : ∀ r w (k : W) o k', poll_select r w k = (o, k') → quiet k k'.
Hypothesis Hothers : keep_conn others.
Hypothesis Horder : ∀ m p, p ∈ order m → m !! p.1 = Some p.2.
Hypothesis Hown : ∀ kd, OwnDescriptors (mine fd terminalFd) (sock kd).

(** The connection of the session, which is in order. *)
Definition client_at (t : TerminalServer) : Connection :=
  default (Conn.init [] []) (Server.objects (ts_server t) !! l).
Definition server_ok (t : TerminalServer) : Prop :=
  is_Some (Server.objects (ts_server t) !! l) ∧ apart terminalFd (client_at t) ∧
  shuttingDown (client_at t) = false.

Abbreviation does := (performs fd terminalFd (λ st : Connection * W, st) (in_order terminalFd)).
Abbreviation sv := (performs fd terminalFd (view_of client_at) (ok_of (W := W) server_ok)).
Abbreviation th := (performs fd terminalFd (thread_view client_at)
  (thread_ok (W := W) fd terminalFd server_ok)).
Abbreviation no_text := (without_text fd terminalFd client_at server_ok).

(** ** The parts of the loop *)

Lemma server_lift {A} (m : M (Connection * W) A) Q : does m Q → sv (on_client l m) Q.
Proof.
  intros Hm. eapply performs_lift; [exact Hm| |].
  - intros [t k] (_ & Ha & Hd). by split.
  - intros [t k] a [t' k'] ([c Hc] & _) E. unfold on_client, on_server, zoom, Server.on_object in E.
    unfold view_of, ok_of, server_ok, client_at in *. cbn [fst snd] in *. rewrite Hc in E |- *. cbn [default].
    destruct (m (c, k)) as [o [c1 k1]] eqn:Em. injection E as -> <- <-. cbn.
    rewrite lookup_insert_eq. cbn. split; [done|]. by intros [? ?].
Qed.

Lemma sv_quiet {A} (m : M W A) :
  (∀ k o k', m k = (o, k') → quiet k k') → sv (on_snd m) (λ _ t, t = nothing).
Proof.
  intros Hm. apply performs_still. intros [t k] a [t' k'] Hq [E Et]%on_snd_inv. cbn in Et, E. subst t'.
  apply Hm in E. split; [by apply quiet_still|done].
Qed.

Lemma sv_hasData : sv (on_client l hasData) (λ _ t, t = nothing).
Proof.
  apply server_lift. intros [c k] Hc a [c' k'] E. apply (does_hasData fd terminalFd (c, k) Hc a (c', k')).
  unfold on_conn. cbn [as_conn with_conn served_object base_object]. by rewrite E.
Qed.

Lemma sv_send p : writable p → sv (send_packet sock fuel others l p) (λ _, sends [p]).
Proof.
  intros Hp. unfold send_packet. eapply performs_bind; [by apply server_lift, does_writePacket|].
  intros b t Ht. apply performs_ret. by rewrite nothing_joined.
Qed.

Lemma sv_send_proto {X} `{!Proto X, !Compact X} type (x : X) :
  sv (send_proto sock fuel others l type x) (λ _, sends_proto type x).
Proof.
  unfold send_proto, protoToString. destruct (serialize x) as [s|] eqn:Hs; [|by intros q Hq a q'].
  apply performs_pure.
  eapply performs_mono; [by apply sv_send, (compact_writable _ x)|]. intros u t Ht. by exists s.
Qed.

Lemma th_snd {A} (m : M (TerminalServer * W) A) Q : sv m Q → th (on_snd m) Q.
Proof. apply thread_performs. Qed.

Lemma th_send_all {X} `{!Proto X, !Compact X} type (xs : list X) :
  to_u8 type ≠ TERMINAL_BUFFER → th (send_all sock fuel others l type xs) (λ _, mute).
Proof.
  intros Ht. induction xs as [|x xs IH]; cbn [send_all]; [by apply performs_ret|].
  eapply performs_bind; [apply th_snd, sv_send_proto|]. intros u t1 M1.
  eapply performs_mono; [exact IH|]. intros u2 t2 M2. apply mute_joined; [|done].
  exact (sends_proto_mute _ _ _ Ht M1).
Qed.

(** What the shell writes is sent. *)
Lemma th_read_terminal : th (read_terminal sock fuel others l terminalFd) (λ _, types_text).
Proof.
  unfold read_terminal. apply (performs_bind _ _ _ _ _ _
    (λ rc t, types (match rc with IoOk s => s | IoErr _ => [] end) t)).
  { apply th_snd. intros [t k] Hq rc [t' k'] [E Et]%on_snd_inv. cbn in E, Et. subst t'.
    apply kernel_read in E. destruct rc as [s|e]; cycle 1.
    - exists nothing. split_and!; [by apply still_acts, quiet_still|done..].
    - destruct E as [_ Hx].
      destruct (typing_acts fd terminalFd (client_at t) (client_at t) k k' s Hne eq_refl Hx) as (tr & Ha & Ht).
      by exists tr. }
  intros [[|c s]|e] t Ht.
  - apply performs_ret. rewrite nothing_joined. by apply types_nothing.
  - eapply performs_bind; [apply th_snd, (sv_send_proto TERMINAL_BUFFER (mkTb (Some (c :: s))))|].
    intros u t1 Hs. apply performs_ret. rewrite nothing_joined. by apply (types_then_sends c s).
  - apply types_nothing in Ht. destruct (would_block e).
    + eapply performs_bind; [apply th_snd, sv_quiet; intros ???; apply kernel_sleep|].
      intros u t1 ->. apply performs_ret. by rewrite !nothing_joined.
    + apply performs_ret. by rewrite nothing_joined.
Qed.

(** ** Beside the forwarded ports *)

#[local] Instance server_no_text_preorder : PreOrder no_text := without_text_preorder fd terminalFd _ _.

Lemma server_fd_not_minus_one : ¬ mine fd terminalFd (-1).
Proof. intros [?|?]; lia. Qed.

Lemma server_tunnels_beside kd :
  respects (mine fd terminalFd) no_text (thread_sock sock kd).
Proof. apply tunnels_respect; [apply _|apply Hown]. Qed.

Lemma th_tunnels {A} (m : M (Forward.PortForwardHandler * (TerminalServer * W)) A) :
  (∀ v, keeps (calm no_text (forward_away (mine fd terminalFd)) v) m) → th m (λ _, mute).
Proof. apply tunnels_perform. Qed.

Lemma th_forward_sockets :
  th (forward_sockets sock strerror order order' fuel others l) (λ _, mute).
Proof.
  unfold forward_sockets. eapply performs_bind.
  - apply th_tunnels. intros v.
    exact (away_update (thread_sock sock) strerror (mine fd terminalFd) no_text server_tunnels_beside
      server_fd_not_minus_one order order' Horder fuel v).
  - intros r t Ht. eapply performs_bind; [by apply th_send_all|]. intros u t1 Ht1.
    eapply performs_bind; [by apply th_send_all|]. intros u2 t2 Ht2. apply performs_ret.
    rewrite nothing_joined. apply mute_joined; [done|]. by apply mute_joined.
Qed.

(** ** The packets of the client *)

(** The bytes for the terminal are messages with the text of the packets that were taken. *)
Definition writes_text (t : trace) : Prop :=
  typed (accepted t) = [] ∧ from_tty t = [] ∧ router_text (to_tty t) (typed (delivered t)).

Lemma writes_text_joined t t' : writes_text t → writes_text t' → writes_text (t ⊕ t').
Proof.
  intros (A1 & A2 & A3) (B1 & B2 & B3). unfold writes_text.
  cbn [accepted delivered from_tty to_tty joined]. rewrite !typed_app, A1, A2, B1, B2.
  split_and!; [done..|by apply router_text_app].
Qed.

Lemma mute_writes t : mute t → writes_text t.
Proof. intros (M1 & M2 & M3 & M4). unfold writes_text. rewrite M1, M2, M3, M4. split_and!; [done..|apply text_none]. Qed.

(** What a packet that was taken before puts on the terminal's pipe. *)
Definition writes_keys (s : str) (t : trace) : Prop :=
  typed (accepted t) = [] ∧ delivered t = [] ∧ from_tty t = [] ∧ router_text (to_tty t) s.

Lemma th_to_terminal {X} `{!Proto X} type (x : X) s :
  (∀ r, serialize x = Some r → len r <= MAX_PROTO_LENGTH → router_text (byte type :: proto_frame r) s) →
  th (on_snd (on_snd (to_terminal term_sock fuel terminalFd type x))) (λ _, writes_keys s).
Proof.
  intros Htext. apply th_snd. intros [t k] Hq [] [t' k'] [E Et]%on_snd_inv. cbn in E, Et. subst t'.
  unfold to_terminal in E. apply M_bind_inv in E as ([] & k1 & E1 & E2).
  pose proof (writeAllOrThrow_ok _ _ _ _ _ _ E1) as Hx1.
  destruct (writeProto_ok _ _ _ _ _ _ E2) as (r & Hs & Hl & Hx2).
  pose proof (xfer_trans _ _ _ _ _ _ _ _ Hx1 Hx2) as Hx. cbn [app] in Hx.
  destruct (showing_acts fd terminalFd (client_at t) (client_at t) k k' _ Hne eq_refl Hx)
    as (tr & Ha & S1 & S2 & S3 & S4).
  exists tr. split_and!; [done|apply Hq..|]. unfold writes_keys. rewrite S1, S2, S3, S4.
  split_and!; [done..|]. by apply Htext.
Qed.

Lemma th_client_packet p :
  th (client_packet sock term_sock strerror fuel others l terminalFd p) (λ _, writes_keys (keys p)).
Proof.
  assert (∀ t, mute t → keys p = [] → writes_keys (keys p) t) as Hmute.
  { intros t (M1 & M2 & M3 & M4) ->. unfold writes_keys. rewrite M1, M2, M3, M4.
    split_and!; [done..|apply text_none]. }
  unfold client_packet. destruct (is_forward_packet p) eqn:Hp.
  - assert (keys p = []) as Hk.
    { unfold keys. unfold is_forward_packet in Hp.
      destruct (header p =? TERMINAL_BUFFER) eqn:Ht; [|done]. b2p. by rewrite Ht in Hp. }
    apply (performs_mono _ _ _ _ _ (λ _, mute)); [|intros u t Ht; by apply Hmute].
    apply th_tunnels. intros v.
    refine (away_handle_packet (thread_sock sock) strerror (mine fd terminalFd) no_text
      server_tunnels_beside fuel v _ p _).
    intros r raw Hr. apply (tunnels_send fd terminalFd client_at server_ok (send_packet sock fuel others l)).
    eapply performs_mono; [by apply sv_send, (compact_writable _ r)|].
    intros u t Hs. apply (mute_sends _ _ Hs). rewrite typed_one. by apply keys_other.
  - unfold keys at 1. destruct (header p =? TERMINAL_BUFFER) eqn:Hb.
    { unfold stringToProto. destruct (parse (payload p)) as [tb|] eqn:Hparse; [|by intros q Hq a q'].
      apply performs_pure, th_to_terminal. intros r. apply message_text. }
    destruct (header p =? KEEP_ALIVE).
    { eapply performs_mono; [apply th_snd, sv_send; vm_compute; split_and!; congruence|].
      intros u t Hs. apply (mute_sends _ _) in Hs as (M1 & M2 & M3 & M4);
        [|rewrite typed_one; by apply keys_other].
      unfold writes_keys. rewrite M1, M2, M3, M4. split_and!; [done..|apply text_none]. }
    destruct (header p =? TERMINAL_INFO); [|by intros q Hq a q'].
    unfold stringToProto. destruct (parse (payload p)) as [ti|]; [|by intros q Hq a q'].
    apply performs_pure, th_to_terminal. intros r. apply message_text.
Qed.

Lemma th_client_packets n :
  th (client_packets sock term_sock strerror fuel others n l terminalFd) (λ _, writes_text).
Proof.
  induction n as [|n IH]; cbn [client_packets]; (apply performs_skip; [apply th_snd, sv_hasData|]);
    intros []; try (apply performs_ret; apply mute_writes, mute_nothing); [apply performs_stop|].
  eapply performs_bind; [by apply th_snd, server_lift, does_readPacket|].
  intros [p|] t (T1 & T2 & T3 & T4); cbn [option_list] in T2.
  - eapply performs_bind; [apply th_client_packet|]. intros u t1 (M1 & M2 & M3 & M4).
    eapply performs_mono; [exact IH|]. intros u2 t2 Ht2.
    assert (writes_text (t ⊕ t1)) as Ht.
    { unfold writes_text. cbn [accepted delivered from_tty to_tty joined].
      rewrite typed_app, T1, T2, T3, T4, M1, M2, M3. cbn [app]. split_and!; [done..|].
      change (option_list (Some p) ++ []) with [p]. by rewrite typed_one. }
    pose proof (writes_text_joined _ _ Ht Ht2) as Hj. unfold writes_text in *.
    cbn [accepted delivered from_tty to_tty joined] in *. by rewrite <-!app_assoc in Hj.
  - apply performs_ret. rewrite nothing_joined. unfold writes_text. rewrite T1, T2, T3, T4.
    split_and!; [done..|apply text_none].
Qed.

(** ** One iteration *)

(** What the shell wrote is sent, and what the client typed is put on its pipe. *)
Definition relays (t : trace) : Prop :=
  typed (accepted t) = from_tty t ∧ router_text (to_tty t) (typed (delivered t)).

Lemma relays_joined t t' : relays t → relays t' → relays (t ⊕ t').
Proof.
  intros [A1 A2] [B1 B2]. split; cbn [accepted delivered from_tty to_tty joined]; rewrite typed_app;
    [congruence|by apply router_text_app].
Qed.

Lemma mute_relays t : mute t → relays t.
Proof. intros (M1 & M2 & M3 & M4). unfold relays. rewrite M1, M2, M3, M4. split; [done|apply text_none]. Qed.

Lemma types_relays t : types_text t → relays t.
Proof. intros (M1 & M2 & M3). unfold relays. rewrite M1, M2, M3. split; [done|apply text_none]. Qed.

Lemma writes_relays t : writes_text t → relays t.
Proof. intros (M1 & M2 & M3). unfold relays. by rewrite M1, M2. Qed.

Lemma th_then (m1 m2 : M (Forward.PortForwardHandler * (TerminalServer * W)) stage) :
  th m1 (λ _, relays) → th m2 (λ _, relays) → th (then_ m1 m2) (λ _, relays).
Proof.
  intros R1 R2. unfold then_. eapply performs_bind; [exact R1|]. intros st t Ht.
  destruct st; [eapply performs_mono; [exact R2|]; intros; by apply relays_joined
               |apply performs_ret; by rewrite nothing_joined..].
Qed.

Lemma th_terminal_steps serverClientFd rfd :
  th (terminal_steps sock term_sock strerror order order' fuel others l terminalFd serverClientFd rfd)
    (λ _, relays).
Proof.
  assert (∀ st : stage, th (mret st) (λ _, relays)) as Hret
    by (intros st; apply performs_ret, mute_relays, mute_nothing).
  unfold terminal_steps. apply th_then; [|apply th_then].
  - case_bool_decide; [|apply Hret]. eapply performs_mono; [apply th_read_terminal|]. intros ??. apply types_relays.
  - eapply performs_mono; [apply th_forward_sockets|]. intros ??. apply mute_relays.
  - destruct (_ && _); [|apply Hret]. eapply performs_bind; [apply th_client_packets|].
    intros u t Ht. apply performs_ret. rewrite nothing_joined. by apply writes_relays.
Qed.

Abbreviation Thread := (Forward.PortForwardHandler * (TerminalServer * W))%type.

(** An iteration as it is without the handler of its [try]. *)
Definition attempt : M Thread stage :=
  c ← on_snd (client_state l);
  pfFds ← Forward.getForwardFds (thread_sock sock) ∅;
  rfd ← on_snd (on_snd (poll_select (session_fds l terminalFd c ∪ pfFds) ∅));
  terminal_steps sock term_sock strerror order order' fuel others l terminalFd (socketFd c) rfd.

(** An iteration that ends in the handler: the terminal's pipe has failed, say. *)
Definition interrupted (q : Thread) : Prop :=
  ∃ why q', attempt q = (Stop (Throw (Exn RuntimeError why)), q').

Lemma iteration_attempt q st q' :
  terminal_iteration sock term_sock strerror order order' fuel others l terminalFd q = (Ok st, q') →
  ¬ interrupted q → attempt q = (Ok st, q').
Proof.
  unfold interrupted, attempt, terminal_iteration. intros E.
  apply M_bind_inv in E as (c & q1 & E1 & E). cbv zeta in E. rewrite (M_bind_ok _ _ _ _ _ E1).
  apply M_bind_inv in E as (fds & q2 & E2 & E). rewrite (M_bind_ok _ _ _ _ _ E2).
  apply M_bind_inv in E as (rfd & q3 & E3 & E). rewrite (M_bind_ok _ _ _ _ _ E3).
  intros Hi. unfold catch_runtime in E.
  destruct (terminal_steps _ _ _ _ _ _ _ _ _ _ _ q3) as [o q4]. destruct o as [st'|[[[] why]| | |]]; try done.
  by destruct Hi; exists why, q4.
Qed.

Lemma th_attempt : th attempt (λ _, relays).
Proof.
  unfold attempt. apply performs_skip.
  { apply th_snd, server_lift, performs_still. intros [c k] c' q' Hq [= _ <-].
    split; [by apply quiet_still|done]. }
  intros c. eapply performs_bind.
  { apply th_tunnels. intros v. exact (away_forward_fds (thread_sock sock) (mine fd terminalFd) no_text
      server_tunnels_beside v ∅). }
  intros fds t Ht. apply performs_skip; [apply th_snd, sv_quiet, select_quiet|]. intros rfd.
  eapply performs_mono; [apply th_terminal_steps|]. intros st t' Ht'.
  apply relays_joined; [by apply mute_relays|done].
Qed.

(** ** The start of a session *)

Section Setup.
Context `{!Proto InitialResponse, !Compact InitialResponse} `{!Proto TermInit}.
Hypothesis files_quiet :
  (∀ s (k : W) o k', tf_mkdtemp s k = (o, k') → quiet k k') ∧
  (∀ s (k : W) o k', tf_chmod s k = (o, k') → quiet k k') ∧
  (∀ s u g (k : W) o k', tf_chown s u g k = (o, k') → quiet k k').

(** The first packet is waited for; others do not touch the connection meanwhile. *)
Lemma sv_first_packet waits :
  Forall (λ f, ∀ t, Server.objects (ts_server (f t)) !! l = Server.objects (ts_server t) !! l) waits →
  sv (first_packet sock waits l) (λ p, takes [p]).
Proof.
  induction 1 as [|f waits Hf _ IH]; cbn [first_packet]; [apply performs_stop|].
  eapply performs_bind; [by apply server_lift, does_readPacket|]. intros [p|] t Ht.
  { apply performs_ret. by rewrite nothing_joined. }
  apply performs_skip; [apply sv_quiet; intros ???; apply kernel_sleep|]. intros _.
  apply performs_skip.
  { apply performs_still. intros [t0 k] [] q' Hq [= <-]. unfold view_of, ok_of, server_ok, client_at in *.
    cbn in *. rewrite Hf. split; [by apply quiet_still|done]. }
  intros _. eapply performs_mono; [exact IH|]. intros p t' (A1 & A2 & A3 & A4).
  destruct Ht as (B1 & B2 & B3 & B4). unfold takes. cbn. by rewrite A1, A2, A3, A4, B1, B2, B3, B4.
Qed.

#[local] Instance setup_files : TempFiles (TerminalServer * W) := files_beside _.

Lemma tunnel_files : files_respect no_text.
Proof.
  assert (∀ x (k k' : W), quiet k k' → no_text (x, k) (x, k')) as Hq.
  { intros x k k' Hq. apply without_text_still. intros z _. apply Hq. }
  destruct files_quiet as (Hm & Hc & Ho).
  split; [intros s [x k] o [x' k'] E|intros s [x k] o [x' k'] E|intros s u g [x k] o [x' k'] E];
    apply on_snd_inv in E as [E Ex]; cbn in E, Ex; subst x'; apply Hq;
    [by eapply Hm|by eapply Hc|by eapply Ho].
Qed.

Lemma response_type : to_u8 INITIAL_RESPONSE ≠ TERMINAL_BUFFER.
Proof. done. Qed.

Lemma th_open_tunnels uid gid tunnels env :
  th (open_tunnels sock fuel others l uid gid tunnels env) (λ _, mute).
Proof.
  revert env. induction tunnels as [|pfsr tunnels IH]; intros env; cbn [open_tunnels];
    [by apply performs_ret|].
  eapply performs_bind.
  { apply th_tunnels. intros v. apply always_keeps.
    exact (away_create_source (thread_sock sock) (mine fd terminalFd) no_text server_tunnels_beside
      tunnel_files v pfsr _ uid gid). }
  intros r t Ht. destruct (pfs_error r.1).
  - eapply performs_bind; [apply th_snd, sv_send_proto|]. intros u t1 Ht1. apply performs_ret.
    rewrite nothing_joined. apply mute_joined; [done|]. exact (sends_proto_mute INITIAL_RESPONSE _ t1 response_type Ht1).
  - eapply performs_mono; [apply IH|]. intros e t1 Ht1. by apply mute_joined.
Qed.

(** The set-up of a session sends no text; it writes the first packet for the terminal. *)
Definition sets_up (t : trace) : Prop :=
  typed (accepted t) = [] ∧ delivered t = [] ∧ from_tty t = [].

Lemma mute_sets_up t : mute t → sets_up t.
Proof. by intros (? & ? & ? & ?). Qed.

Lemma sets_up_joined t t' : sets_up t → sets_up t' → sets_up (t ⊕ t').
Proof.
  intros (A1 & A2 & A3) (B1 & B2 & B3). unfold sets_up. cbn [accepted delivered from_tty joined].
  by rewrite typed_app, A1, A2, A3, B1, B2, B3.
Qed.

Lemma th_session_setup p userInfo :
  default 0 (tui_fd userInfo) = terminalFd →
  th (session_setup sock term_sock fuel others l p userInfo) (λ _, sets_up).
Proof.
  intros Hi. unfold session_setup. eapply performs_bind; [apply th_open_tunnels|].
  intros [env|] t Ht; [|apply performs_ret; rewrite nothing_joined; by apply mute_sets_up].
  eapply performs_bind; [apply th_snd, sv_send_proto|]. intros u t1 Ht1. cbv zeta. rewrite Hi.
  unfold protoToString. destruct (serialize _) as [s|]; [|by intros q Hq a q']. apply performs_pure.
  assert (th (on_snd (on_snd (Packets.writePacket (H := term_sock) fuel terminalFd (Packet_new TERMINAL_INIT s))))
    (λ _, sets_up)) as Hw.
  { apply th_snd. intros [t0 k] Hq [] [t' k'] [E Et]%on_snd_inv. cbn in E, Et. subst t'.
    apply writePacket_ok in E as [_ Hx].
    destruct (showing_acts fd terminalFd (client_at t0) (client_at t0) k k' _ Hne eq_refl Hx)
      as (tr & Ha & S1 & S2 & S3 & S4).
    exists tr. split_and!; [done|apply Hq..|]. unfold sets_up. by rewrite S1, S2, S3. }
  eapply performs_bind; [exact Hw|]. intros u2 t2 Ht2. apply performs_ret. rewrite nothing_joined.
  apply sets_up_joined; [by apply mute_sets_up|]. apply sets_up_joined; [|done].
  apply mute_sets_up. exact (sends_proto_mute INITIAL_RESPONSE _ t1 response_type Ht1).
Qed.
End Setup.
End Server.
