(* ===== verification/Conversation.v ===== *)
(** * From the console to the shell and back

    The promise of the program, end to end: the client's loop ([TerminalClient]) and the
    session's thread on the server ([TerminalServer]), connected by any number of network
    connections, one after the other, each cut anywhere.  A [conversation] is a run of the
    two programs (their definitions, on the state of each and the world it lives in), with
    what was typed at the console, what was shown there, what the shell wrote and what was
    put on its pipe.  Every conversation is a [session] of the two connections, whose
    packets carry the text; so the text arrives as the packets do.

    A conversation consists of whole iterations of the two loops that end without an
    exception: on the server, an exception (of the terminal's pipe, say) ends an iteration
    that may have read text which is then lost.  The connection is replaced between two
    iterations, not during one; and the sockets are [steady]. *)

From S2P Require Import Prelude Sockets Crypto Packets Wire CxxText Backed WriterSpec ReaderSpec Connection.
From S2P Require Import Endpoint Apart Activity Session ClientConnection ServerConnection UnixSockets TcpSockets SocketPromises.
From S2P Require Import Forwarding TunnelsApart Router RawSockets TerminalMessages Loops TextFlow UserTerminal.
From S2P Require Import TerminalServer ServerSession ClientStart TerminalClient ClientFlow ServerFlow.
Import Conn ConnOps Client.

(** Sockets of each kind whose writes do not give up in the middle of a buffer. *)
Definition steadily {W} `{!Streams W} (sockets : handler_kind → SocketHandler W) (kd : handler_kind) :
  SocketHandler W := steady (sockets kd).

#[export] Instance steadily_streams {W} `{!Streams W} (sockets : handler_kind → SocketHandler W) kd :
  @StreamHandler W (sockets kd) _ → @StreamSocket W (steadily sockets kd) _.
Proof. intros. unfold steadily. apply steady_streams. exact _. Qed.

#[export] Instance steadily_clean {W} `{!Streams W} (sockets : handler_kind → SocketHandler W) kd :
  @StreamHandler W (sockets kd) _ → @CleanRetry W (steadily sockets kd) _.
Proof. intros. unfold steadily. apply steady_clean. exact _. Qed.

Section Conversation.
Context {W : Type} `{!Streams W} `{!Kernel W} `{!Poll W} `{!Console W} `{!SecretBox} `{!SecretBoxLaws} `{!TempFiles W}.
(** The sockets of the network and of named pipes, plain descriptors, and the pipes of the
    terminals. *)
Context (sockets : handler_kind → SocketHandler W) (descriptors pipes : SocketHandler W).
Context `{!∀ kd, @StreamHandler W (sockets kd) _} `{!@StreamHandler W descriptors _}.
Context `{!@StreamHandler W pipes _} `{!KernelStreams W}.
Context `{!Proto SequenceHeader, !ProtoLaws SequenceHeader} `{!Proto CatchupBuffer, !ProtoLaws CatchupBuffer}.
Context `{!Proto PortForwardData, !Compact PortForwardData}.
Context `{!Proto PortForwardDestinationRequest, !Compact PortForwardDestinationRequest}.
Context `{!Proto PortForwardDestinationResponse, !Compact PortForwardDestinationResponse}.
Context `{!Proto TerminalBuffer, !ProtoLaws TerminalBuffer, !Compact TerminalBuffer}.
Context `{!Proto TerminalInfo, !ProtoLaws TerminalInfo, !Compact TerminalInfo} `{!Proto TermInit}.
Context `{!Proto InitialPayload, !Compact InitialPayload} `{!Proto InitialResponse, !Compact InitialResponse}.
Variables (strerror : Z → str) (order : gmap Z Z → list (Z * Z))
  (order' : gmap Z Destination.ForwardDestinationHandler → list Z) (fuel : nat).
(** The client: what other threads do meanwhile, and the console. *)
Variable client_others : list ((ClientConnection → ClientConnection) * (ClientConnection → ClientConnection)).
Variables (finish : ClientConnection → option ClientConnection) (between : nat → ClientConnection → ClientConnection).
Variable consoleFd : Z.
(** The server: what other threads do meanwhile, the session's connection and its terminal. *)
Variable server_others : list ((Connection → Connection) * (Connection → Connection)).
Variables (l : positive) (terminalFd : Z).

(** The runs in which no write gives up in the middle of a buffer. *)
Abbreviation sock := (steadily sockets).
Abbreviation raw := (steady descriptors).
Abbreviation term_sock := (steady pipes).

#[local] Instance talk_network : SocketHandler W := sock Network.
#[local] Instance talk_client : ConnectionObject W ClientConnection := client_object.
#[local] Instance talk_client_laws : ConnectionObjectLaws W ClientConnection := client_laws.
#[local] Instance talk_server : ConnectionObject W Connection := base_object.
#[local] Instance talk_server_laws : ConnectionObjectLaws W Connection := base_object_laws.

Hypothesis (Hcon : 0 < consoleFd) (Hterm : 0 < terminalFd).
Hypothesis con_getFd_fixed : ∀ k : W, con_getFd k = (Ok consoleFd, k).
Hypothesis con_info_quiet : ∀ (k : W) o k', con_getTerminalInfo k = (o, k') → quiet k k'.
Hypothesis con_setup_quiet : ∀ (k : W) o k', con_setup k = (o, k') → quiet k k'.
Hypothesis select_quiet : ∀ r w (k : W) o k', poll_select r w k = (o, k') → quiet k k'.
Hypothesis files_quiet :
  (∀ s (k : W) o k', tf_mkdtemp s k = (o, k') → quiet k k') ∧
  (∀ s (k : W) o k', tf_chmod s k = (o, k') → quiet k k') ∧
  (∀ s u g (k : W) o k', tf_chown s u g k = (o, k') → quiet k k').
Hypothesis (Hclient_others : keep_conn client_others) (Hserver_others : keep_conn server_others).
Hypothesis Hfinish : ∀ o o', finish o = Some o' → conn o' = conn o.
Hypothesis Hbetween : ∀ n o, conn (between n o) = conn o.
Hypothesis Horder : ∀ m p, p ∈ order m → m !! p.1 = Some p.2.

(** The state of the two programs, each with its world. *)
Abbreviation ClientThread := (Forward.PortForwardHandler * (TermClient.TerminalClient * W))%type.
Abbreviation ServerThread := (Forward.PortForwardHandler * (Term.TerminalServer * W))%type.
Definition client_conn (q : ClientThread) : ClientConnection := TermClient.connection q.2.1.
Definition server_conn (q : ServerThread) : Connection := client_at l q.2.1.

(** A descriptor of a connection: the terminal has another one, and forwarded sockets get
    their own. *)
Definition its_own (fd tfd : Z) : Prop :=
  0 <= fd ∧ fd ≠ tfd ∧ ∀ kd, OwnDescriptors (mine fd tfd) (sock kd).

Abbreviation client_good fd := (thread_ok (W := W) fd consoleFd (client_ok consoleFd)).
Abbreviation server_good fd := (thread_ok (W := W) fd terminalFd (server_ok l terminalFd)).

(** ** Runs of the two programs on one connection *)

(** What other threads and the rest of the world do between two iterations, as far as it
    concerns this program. *)
Definition unconcerned (fd tfd : Z) (k k' : W) : Prop := untouched fd k k' ∧ untouched tfd k k'.

Inductive client_life (fd : Z) : ClientThread → ClientThread → Prop :=
| client_rests q : client_life fd q q
| client_iterates q st q1 q2 :
    TermClient.iteration sock raw strerror order order' fuel client_others finish q = (Ok st, q1) →
    TermClient.down q1.2.1 = false → client_life fd q1 q2 → client_life fd q q2
| client_waits p t k t1 k1 q2 :
    conn (TermClient.connection t1) = conn (TermClient.connection t) →
    TermClient.console t1 = TermClient.console t → unconcerned fd consoleFd k k1 →
    client_life fd (p, (t1, k1)) q2 → client_life fd (p, (t, k)) q2.

Inductive server_life (fd : Z) : ServerThread → ServerThread → Prop :=
| server_rests q : server_life fd q q
| server_iterates q st q1 q2 :
    Term.terminal_iteration sock term_sock strerror order order' fuel server_others l terminalFd q = (Ok st, q1) →
    ¬ interrupted sock term_sock strerror order order' fuel server_others l terminalFd q →
    server_life fd q1 q2 → server_life fd q q2
| server_waits p t k t1 k1 q2 :
    Server.objects (Term.ts_server t1) !! l = Server.objects (Term.ts_server t) !! l →
    unconcerned fd terminalFd k k1 → server_life fd (p, (t1, k1)) q2 → server_life fd (p, (t, k)) q2.

(** The text that went in and out at the terminal side. *)
Definition tty_text (tfd : Z) (k k' : W) (i o : str) : Prop :=
  incoming k tfd = i ++ incoming k' tfd ∧ outgoing k' tfd = outgoing k tfd ++ o.

Lemma acts_text {O} `{!ConnectionObject W O} fd tfd st t st' i o :
  acts (O := O) fd tfd st t st' → tty_text tfd st.2 st'.2 i o → i = from_tty t ∧ o = to_tty t.
Proof.
  intros (_ & _ & Hi & Ho) [Ti To]. rewrite Hi in Ti. rewrite Ho in To.
  by apply app_inv_tail in Ti as <-; apply app_inv_head in To as <-.
Qed.

Lemma client_life_acts fd q q' :
  client_life fd q q' → its_own fd consoleFd → client_good fd q →
  ∃ t, acts fd consoleFd (client_conn q, q.2.2) t (client_conn q', q'.2.2) ∧
    client_good fd q' ∧ faithful t.
Proof.
  intros Hrun (Hfd & Hne & Hown). induction Hrun as [q|q st q1 q2 E Hd _ IH|p t k t1 k1 q2 Ec Ek [Hu1 Hu2] _ IH];
    intros Hq.
  - exists nothing. split_and!; [by apply still_acts|done..].
  - destruct (th_iteration sock raw strerror order order' fuel client_others finish fd consoleFd Hcon Hfd Hne
      con_getFd_fixed con_info_quiet select_quiet Hclient_others Hfinish Horder Hown q st q1 E Hd Hq)
      as (t1 & A1 & Hq1 & F1).
    destruct (IH Hq1) as (t2 & A2 & Hq2 & F2). exists (t1 ⊕ t2).
    split_and!; [by eapply acts_trans|done|by apply faithful_joined].
  - assert (client_good fd (p, (t1, k1))) as Hq1.
    { destruct Hq as (Hp & Ha & Hs & Hc). unfold thread_ok, client_ok in *. cbn in *. by rewrite Ec, Ek. }
    destruct (IH Hq1) as (t2 & A2 & Hq2 & F2). exists (nothing ⊕ t2).
    split_and!; [|done|by rewrite joined_nothing].
    eapply acts_trans; [|exact A2]. by apply still_acts.
Qed.

Lemma server_life_acts fd q q' :
  server_life fd q q' → its_own fd terminalFd → server_good fd q →
  ∃ t, acts fd terminalFd (server_conn q, q.2.2) t (server_conn q', q'.2.2) ∧
    server_good fd q' ∧ relays t.
Proof.
  intros Hrun (Hfd & Hne & Hown). induction Hrun as [q|q st q1 q2 E Hi _ IH|p t k t1 k1 q2 Ec [Hu1 Hu2] _ IH];
    intros Hq.
  - exists nothing. split; [by apply still_acts|split; [done|split; [done|apply text_none]]].
  - apply iteration_attempt in E; [|done].
    destruct (th_attempt sock term_sock strerror order order' fuel server_others l fd terminalFd Hterm Hfd Hne
      select_quiet Hserver_others Horder Hown q Hq st q1 E) as (t1 & A1 & Hq1 & F1).
    destruct (IH Hq1) as (t2 & A2 & Hq2 & F2). exists (t1 ⊕ t2).
    split_and!; [by eapply acts_trans|done|by apply relays_joined].
  - assert (client_at l t1 = client_at l t) as Eat by (unfold client_at; by rewrite Ec).
    assert (server_good fd (p, (t1, k1))) as Hq1.
    { destruct Hq as (Hp & Hl & Ha & Hs). unfold thread_ok, server_ok in *. cbn in *. by rewrite Ec, Eat. }
    destruct (IH Hq1) as (t2 & A2 & Hq2 & F2). exists (nothing ⊕ t2).
    split_and!; [|done|by rewrite joined_nothing].
    eapply acts_trans; [|exact A2]. apply still_acts. by split_and!.
Qed.

(** ** The start of a session *)

(** The client, whose connection has been made on [fd]: it greets the server, and when it
    is accepted, [run] begins. *)
Definition client_opens (fd : Z) (cA cB : CryptoHandler) (o : ClientConnection) (k : W)
    (command : str) (noexit : bool) (q : ClientThread) : Prop :=
  its_own fd consoleFd ∧ opened fd cA cB o ∧ shuttingDown (conn o) = false ∧
  ∃ payload q0,
    greet fuel client_others between payload (o, k) = (Ok Accepted, (client_conn q0, q0.2.2)) ∧
    client_good fd q0 ∧ TermClient.start sock fuel client_others command noexit q0 = (Ok tt, q).

(** The thread of the session, whose connection has been made on [fd]: it reads the first
    packet of the client, and sets the session up. *)
Definition server_opens (fd : Z) (cA cB : CryptoHandler) (t : Term.TerminalServer) (k : W)
    (q : ServerThread) : Prop :=
  its_own fd terminalFd ∧ is_Some (Server.objects (Term.ts_server t) !! l) ∧
  opened fd cB cA (client_at l t) ∧ shuttingDown (client_at l t) = false ∧
  ∃ waits packet v payload userInfo,
    Forall (λ f, ∀ t, Server.objects (Term.ts_server (f t)) !! l = Server.objects (Term.ts_server t) !! l) waits ∧
    Term.first_packet sock waits l (t, k) = (Ok packet, v) ∧ header packet = INITIAL_PAYLOAD ∧
    default 0 (tui_fd userInfo) = terminalFd ∧
    Term.session_setup sock term_sock fuel server_others l payload userInfo (Forward.init, v) =
      (Ok (Some terminalFd), q).

Lemma opened_apart {O} `{!ConnectionObject W O} fd tfd c0 d0 (o : O) :
  opened fd c0 d0 o → fd ≠ tfd → apart tfd (as_conn o).
Proof. intros (_ & _ & Hr & Hw) Hne. split; [rewrite Hw|rewrite Hr]; by intros x [= <-]. Qed.

Lemma client_opens_acts fd cA cB o k command noexit q :
  client_opens fd cA cB o k command noexit q →
  ∃ t, acts fd consoleFd (o, k) t (client_conn q, q.2.2) ∧ client_good fd q ∧
    typed (accepted t) = given command noexit ∧ typed (delivered t) = [].
Proof.
  intros ((Hfd & Hne & Hown) & Ho & Hs & payload & q0 & Eg & Hq0 & Es).
  destruct (does_greet sock fuel client_others fd consoleFd Hcon Hne select_quiet Hclient_others between Hbetween
    payload (o, k) (conj (opened_apart _ _ _ _ _ Ho Hne) Hs) _ _ Eg) as (t1 & A1 & _ & (W1 & W2 & _)).
  destruct (th_start sock fuel client_others fd consoleFd Hcon Hne Hclient_others con_setup_quiet command noexit
    q0 Hq0 _ _ Es) as (t2 & A2 & Hq & (S1 & S2 & _)).
  exists (t1 ⊕ t2). split_and!; [by eapply acts_trans|done|..];
    cbn [accepted delivered joined]; rewrite typed_app; [by rewrite W1, S1|by rewrite W2, S2].
Qed.

Lemma server_opens_acts fd cA cB t k q :
  server_opens fd cA cB t k q →
  ∃ tr, acts fd terminalFd (client_at l t, k) tr (server_conn q, q.2.2) ∧ server_good fd q ∧
    typed (accepted tr) = [] ∧ typed (delivered tr) = [].
Proof.
  intros ((Hfd & Hne & Hown) & Hl & Ho & Hs & waits & packet & v & payload & userInfo & Hw & Ep & Hp & Hu & Es).
  destruct (sv_first_packet sock l fd terminalFd Hterm waits Hw (t, k)
    (conj Hl (conj (opened_apart _ _ _ _ _ Ho Hne) Hs)) _ _ Ep) as (t1 & A1 & Hv & (T1 & T2 & _)).
  destruct (th_session_setup sock term_sock fuel server_others l fd terminalFd Hterm Hne Hserver_others Hown
    files_quiet payload userInfo Hu (Forward.init, v)) with (a := Some terminalFd) (s' := q)
    as (t2 & A2 & Hq & (S1 & S2 & _)); [by split; [apply forward_away_init|]|exact Es|].
  exists (t1 ⊕ t2). split_and!; [by eapply acts_trans|done|..];
    cbn [accepted delivered joined]; rewrite typed_app.
  - by rewrite T1, S1.
  - rewrite T2, S2, typed_one. unfold keys. by rewrite Hp.
Qed.

(** ** Reconnecting *)

(** A disconnected connection recovers on [fd], or fails to; [r] is what it sends. *)
Definition reconnects {O} `{!ConnectionObject W O} (fd : Z) (o : O) (k : W) (r : str)
    (o1 : O) (k1 : W) : Prop :=
  socketFd (as_conn o) = -1 ∧ sent fd k k1 r ∧
  ∃ fuel' b, on_conn (recover fuel' fd) (o, k) = (Ok b, (o1, k1)).

(** The client: its reconnect thread has made a connection, which nobody else has. *)
Definition client_reconnects (fd : Z) (q : ClientThread) (k : W) (r : str) (q1 : ClientThread) : Prop :=
  its_own fd consoleFd ∧ reconnects fd (client_conn q) k r (client_conn q1) q1.2.2 ∧
  q1.1 = q.1 ∧ forward_away (mine fd consoleFd) q.1 ∧
  TermClient.console q1.2.1 = TermClient.console q.2.1.

(** The server: the thread of a new connection recovers the client's one. *)
Definition server_reconnects (fd : Z) (q : ServerThread) (k : W) (r : str) (q1 : ServerThread) : Prop :=
  its_own fd terminalFd ∧ reconnects fd (server_conn q) k r (server_conn q1) q1.2.2 ∧
  q1.1 = q.1 ∧ forward_away (mine fd terminalFd) q.1 ∧
  is_Some (Server.objects (Term.ts_server q1.2.1) !! l).

(** The new connection is in order as the old one was. *)
Lemma reconnects_in_order {O} `{!ConnectionObject W O} `{!ConnectionObjectLaws W O}
    fd tfd (o : O) (k : W) r (o1 : O) (k1 : W) :
  reconnects fd o k r o1 k1 → fd ≠ tfd → apart tfd (as_conn o) → shuttingDown (as_conn o) = false →
  apart tfd (as_conn o1) ∧ shuttingDown (as_conn o1) = false.
Proof.
  intros (_ & _ & fuel' & b & E) Hne Ha Hs.
  assert (∃ r0 w0, reader (as_conn o) = Some r0 ∧ writer (as_conn o) = Some w0) as (r0 & w0 & Hr & Hw).
  { unfold on_conn in E. destruct (recover fuel' fd (as_conn o, k)) as [res [c1 k2]] eqn:E1.
    injection E as -> _ _. by eapply recover_has. }
  apply (epoch_recovery _ _ _ _ _ _ _ _ Hr Hw) in E. cbn [fst snd] in E.
  assert (as_conn o1 = as_conn o ∨ ∃ cb, as_conn o1 = revived fd cb r0 w0 (as_conn o)) as [->|[cb ->]];
    [|done|].
  - destruct E as (hs & s & _ & _ & _ & [(_ & ? & _)|(rest & cs & _ & Hx)]); [by left|].
    destruct Hx as [(_ & ? & _)|(_ & _ & cb & x & _ & _ & ?)]; eauto.
  - split; [|done]. split; cbn; by intros x [= <-].
Qed.

(** A reconnect and what follows is an epoch of the connection. *)
Lemma reconnects_epoch {O} `{!ConnectionObject W O} fd tfd (o : O) (k : W) r (o1 : O) (k1 : W) t o2 k2 :
  0 <= fd → reconnects fd o k r o1 k1 → acts fd tfd (o1, k1) t (o2, k2) →
  ∃ b, epoch_run fd (o, k) b (accepted t) (delivered t) (r ++ on_wire t) (o2, k2).
Proof.
  intros Hfd (Hd & Hr & fuel' & b & E) (Hl & _). exists b. split; [done|split; [done|]].
  by exists fuel', (o1, k1), r, (on_wire t).
Qed.

(** ** Conversations *)

(** What each program does on its first connection: what it has sent there, what came from
    the terminal and what was written to it. *)
Definition client_begins (fd : Z) (cA cB : CryptoHandler) (o : ClientConnection) (k : W) (command : str)
    (noexit : bool) (s typed shown : str) (q' : ClientThread) : Prop :=
  ∃ q, client_opens fd cA cB o k command noexit q ∧ client_life fd q q' ∧
    tty_text consoleFd q.2.2 q'.2.2 typed shown ∧ sent fd k q'.2.2 s.

Definition server_begins (fd : Z) (cA cB : CryptoHandler) (t : Term.TerminalServer) (k : W)
    (s written put : str) (q' : ServerThread) : Prop :=
  ∃ q, server_opens fd cA cB t k q ∧ server_life fd q q' ∧
    tty_text terminalFd q.2.2 q'.2.2 written put ∧ sent fd k q'.2.2 s.

(** The same on a later connection. *)
Definition client_epoch (fd : Z) (q : ClientThread) (k : W) (s typed shown : str) (q' : ClientThread) : Prop :=
  ∃ q1 r s1, client_reconnects fd q k r q1 ∧ client_life fd q1 q' ∧
    tty_text consoleFd q1.2.2 q'.2.2 typed shown ∧ sent fd q1.2.2 q'.2.2 s1 ∧ s = r ++ s1.

Definition server_epoch (fd : Z) (q : ServerThread) (k : W) (s written put : str) (q' : ServerThread) : Prop :=
  ∃ q1 r s1, server_reconnects fd q k r q1 ∧ server_life fd q1 q' ∧
    tty_text terminalFd q1.2.2 q'.2.2 written put ∧ sent fd q1.2.2 q'.2.2 s1 ∧ s = r ++ s1.

(** A run of the two programs: the client with what has been typed and what has been shown
    at the console, the thread of the server with what the shell has written and what has
    been put on the terminal's pipe.  On each connection each end receives a prefix of
    what the other one has sent there. *)
Inductive conversation (cA cB : CryptoHandler) :
    ClientThread → str → str → ServerThread → str → str → Prop :=
| conversation_opens fdA fdB o ka command noexit qa sA typed shown t kb qb sB written put :
    client_begins fdA cA cB o ka command noexit sA typed shown qa →
    server_begins fdB cA cB t kb sB written put qb →
    honest fdA fdB ka sA kb sB →
    conversation cA cB qa (given command noexit ++ typed) shown qb written put
| conversation_epoch qa typed shown qb written put
    fdA fdB ka qa' sA typed' shown' kb qb' sB written' put' :
    conversation cA cB qa typed shown qb written put →
    client_epoch fdA qa ka sA typed' shown' qa' → server_epoch fdB qb kb sB written' put' qb' →
    honest fdA fdB ka sA kb sB →
    conversation cA cB qa' (typed ++ typed') (shown ++ shown') qb' (written ++ written') (put ++ put').

Lemma acts_sent {O} `{!ConnectionObject W O} fd tfd (st : O * W) t st' s :
  acts fd tfd st t st' → sent fd st.2 st'.2 s → on_wire t = s.
Proof. intros (_ & Hs & _) Hs'. unfold sent in *. rewrite Hs in Hs'. by apply app_inv_head in Hs'. Qed.

Lemma client_reconnects_good fd q k r q1 :
  client_reconnects fd q k r q1 → client_ok consoleFd q.2.1 → client_good fd q1.
Proof.
  intros ((Hfd & Hne & _) & Hr & Ep & Haway & Ec) (Ha & Hs & Hc).
  destruct (reconnects_in_order _ _ _ _ _ _ _ Hr Hne Ha Hs) as [? ?].
  unfold thread_ok. rewrite Ep. split; [done|]. split_and!; [done..|by rewrite Ec].
Qed.

Lemma server_reconnects_good fd q k r q1 :
  server_reconnects fd q k r q1 → server_ok l terminalFd q.2.1 → server_good fd q1.
Proof.
  intros ((Hfd & Hne & _) & Hr & Ep & Haway & Hl) (_ & Ha & Hs).
  destruct (reconnects_in_order _ _ _ _ _ _ _ Hr Hne Ha Hs) as [? ?].
  unfold thread_ok. rewrite Ep. split; [done|]. by split_and!.
Qed.

(** An epoch of each program is one of its connection, whose packets carry the text. *)
Lemma client_epoch_run fd q k s typed_now shown q' :
  client_epoch fd q k s typed_now shown q' → client_ok consoleFd q.2.1 →
  client_ok consoleFd q'.2.1 ∧ ∃ b acc del,
    epoch_run fd (client_conn q, k) b acc del s (client_conn q', q'.2.2) ∧
    typed acc = typed_now ∧ shown = typed del.
Proof.
  intros (q1 & r & s1 & Hr & Hl & Ht & Hs & ->) Hq. pose proof (client_reconnects_good _ _ _ _ _ Hr Hq) as Hg.
  destruct Hr as (Hi & Hr & _). destruct (client_life_acts _ _ _ Hl Hi Hg) as (t & A & Hg' & F1 & F2).
  destruct (acts_text _ _ _ _ _ _ _ A Ht) as [-> ->]. rewrite <-(acts_sent _ _ _ _ _ _ A Hs).
  destruct (reconnects_epoch _ _ _ _ _ _ _ _ _ _ (proj1 Hi) Hr A) as [b R].
  split; [apply Hg'|]. by exists b, (accepted t), (delivered t).
Qed.

Lemma server_epoch_run fd q k s written put q' :
  server_epoch fd q k s written put q' → server_ok l terminalFd q.2.1 →
  server_ok l terminalFd q'.2.1 ∧ ∃ b acc del,
    epoch_run fd (server_conn q, k) b acc del s (server_conn q', q'.2.2) ∧
    typed acc = written ∧ router_text put (typed del).
Proof.
  intros (q1 & r & s1 & Hr & Hl & Ht & Hs & ->) Hq. pose proof (server_reconnects_good _ _ _ _ _ Hr Hq) as Hg.
  destruct Hr as (Hi & Hr & _). destruct (server_life_acts _ _ _ Hl Hi Hg) as (t & A & Hg' & F1 & F2).
  destruct (acts_text _ _ _ _ _ _ _ A Ht) as [-> ->]. rewrite <-(acts_sent _ _ _ _ _ _ A Hs).
  destruct (reconnects_epoch _ _ _ _ _ _ _ _ _ _ (proj1 Hi) Hr A) as [b R].
  split; [apply Hg'|]. by exists b, (accepted t), (delivered t).
Qed.

(** The first connection in the same way. *)
Lemma client_begins_run fd cA cB o k command noexit s typed_now shown q' :
  client_begins fd cA cB o k command noexit s typed_now shown q' →
  opened fd cA cB o ∧ client_ok consoleFd q'.2.1 ∧ ∃ acc del,
    live_run fd (o, k) acc del s (client_conn q', q'.2.2) ∧
    typed acc = given command noexit ++ typed_now ∧ shown = typed del.
Proof.
  intros (q & Ho & Hl & Ht & Hs). destruct (client_opens_acts _ _ _ _ _ _ _ _ Ho) as (t & A & Hg & T1 & T2).
  destruct Ho as (Hi & Hop & _). destruct (client_life_acts _ _ _ Hl Hi Hg) as (t' & A' & Hg' & F1 & F2).
  destruct (acts_text _ _ _ _ _ _ _ A' Ht) as [-> ->].
  pose proof (acts_trans _ _ _ _ _ _ _ A A') as R. rewrite <-(acts_sent _ _ _ _ _ _ R Hs).
  split; [done|]. split; [apply Hg'|]. exists (accepted (t ⊕ t')), (delivered (t ⊕ t')).
  split; [apply R|]. cbn [accepted delivered joined]. rewrite !typed_app, T1, T2, F1, F2. done.
Qed.

Lemma server_begins_run fd cA cB t0 k s written put q' :
  server_begins fd cA cB t0 k s written put q' →
  opened fd cB cA (client_at l t0) ∧ server_ok l terminalFd q'.2.1 ∧ ∃ acc del,
    live_run fd (client_at l t0, k) acc del s (server_conn q', q'.2.2) ∧
    typed acc = written ∧ router_text put (typed del).
Proof.
  intros (q & Ho & Hl & Ht & Hs). destruct (server_opens_acts _ _ _ _ _ _ Ho) as (t & A & Hg & T1 & T2).
  destruct Ho as (Hi & _ & Hop & _). destruct (server_life_acts _ _ _ Hl Hi Hg) as (t' & A' & Hg' & F1 & F2).
  destruct (acts_text _ _ _ _ _ _ _ A' Ht) as [-> ->].
  pose proof (acts_trans _ _ _ _ _ _ _ A A') as R. rewrite <-(acts_sent _ _ _ _ _ _ R Hs).
  split; [done|]. split; [apply Hg'|]. exists (accepted (t ⊕ t')), (delivered (t ⊕ t')).
  split; [apply R|]. cbn [accepted delivered joined]. rewrite !typed_app, T1, T2, F1. done.
Qed.

(** Every conversation is a session of the two connections, and its text is that of their
    packets. *)
Lemma conversation_session cA cB qa i shown qb i' put :
  conversation cA cB qa i shown qb i' put →
  client_ok consoleFd qa.2.1 ∧ server_ok l terminalFd qb.2.1 ∧
  ∃ PA DA PB DB, session cA cB (client_conn qa) PA DA (server_conn qb) PB DB ∧
    typed PA = i ∧ shown = typed DA ∧ typed PB = i' ∧ router_text put (typed DB).
Proof.
  induction 1 as [fdA fdB o ka command noexit qa sA i shown t kb qb sB i' put
      (Hopa & Ga & PA & DA & RA & TA & UA)%client_begins_run (Hopb & Gb & PB & DB & RB & TB & UB)%server_begins_run Hh
    |qa i shown qb i' put fdA fdB ka qa' sA i1 shown1 kb qb' sB i1' put1
      _ (Hqa & Hqb & PA & DA & PB & DB & Hs & EA & FA & EB & FB) Hca Hcb Hh].
  - split; [done|split; [done|]]. exists PA, DA, PB, DB. split; [|done].
    eapply session_open; [exact Hopa|exact Hopb|exact RA|exact RB|exact Hh].
  - apply client_epoch_run in Hca as (Ga & ba & accA & delA & RA & TA & UA); [|done].
    apply server_epoch_run in Hcb as (Gb & bb & accB & delB & RB & TB & UB); [|done].
    split; [done|split; [done|]]. exists (PA ++ accA), (DA ++ delA), (PB ++ accB), (DB ++ delB).
    split; [by eapply session_epoch|].
    rewrite !typed_app, EA, TA, EB, TB, FA, UA. split_and!; [done..|by apply router_text_app].
Qed.

(** The packets that an end has written. *)
Definition packets_written (c : Connection) : Z := from_option Writer.sequenceNumber 0 (writer c).

Lemma packets_written_session cA cB qa PA DA qb PB DB :
  session cA cB (client_conn qa) PA DA (server_conn qb) PB DB →
  packets_written (conn (TermClient.connection qa.2.1)) = len PA ∧
  packets_written (client_at l qb.2.1) = len PB.
Proof.
  intros [(wa & Hwa & Ea) (wb & Hwb & Eb)]%session_written.
  unfold packets_written, client_conn, server_conn in *.
  cbn [as_conn talk_client talk_server client_object base_object] in *. by rewrite Hwa, Hwb.
Qed.

(** C1. The promise of the program, end to end.  Take any run of the client's loop and of the
    session's thread on the server, over any number of connections, one after the other; the
    network may lose what follows any byte of what was sent on a connection.  Then what has
    been shown at the console is a prefix of what the shell has written, and what has been put
    on the pipe of the terminal is messages whose text is a prefix of the command that was
    given and of what was typed, whatever goes through the tunnels.  The runs
    ([conversation]): the two states are taken between iterations of the loops; every
    iteration returns, without an exception that reaches the handler of its loop (the client
    is then going [down], the server has [interrupted] its iteration); no other thread touches
    the connection during an iteration, so it is replaced only between two of them
    ([client_epoch], [server_epoch]); no write asks to be retried after it has sent a part of
    its buffer ([steady]; [UnixSocketHandler::write] does so after a stall of five seconds, and
    the part is then sent twice, C38); and each end has written fewer than 2^31 packets.
    Of the environment: what other threads do during an iteration ([client_others],
    [server_others]) leaves the connection alone, forwarded sockets get descriptors other than
    those of the connection and the terminal ([its_own]), and messages are shorter than a
    frame can say ([Compact]). *)
Theorem console_to_shell cA cB qa i shown qb i' put :
  conversation cA cB qa i shown qb i' put →
  packets_written (conn (TermClient.connection qa.2.1)) < 2 ^ 31 →
  packets_written (client_at l qb.2.1) < 2 ^ 31 →
  shown `prefix_of` i' ∧ ∃ text, router_text put text ∧ text `prefix_of` i.
Proof.
  intros (_ & _ & PA & DA & PB & DB & Hs & <- & -> & <- & Hput)%conversation_session HA HB.
  destruct (packets_written_session _ _ _ _ _ _ _ _ Hs) as [Ea Eb]. rewrite Ea in HA. rewrite Eb in HB.
  destruct (session_invariant _ _ _ _ _ _ _ _ Hs HA HB)
    as [(? & ? & ? & QA & ? & _ & _ & _ & HpA) (? & ? & ? & QB & ? & _ & _ & _ & HpB)].
  split; [|exists (typed DB); split; [done|]]; apply typed_prefix; (etrans; [by apply prefix_app_r|eassumption]).
Qed.

(** C2. Nothing is lost.  Take any run as in C1, however its connections were cut, and a new
    connection on which both ends are alive.  Once the network has delivered all that was
    sent on that connection, and each end has read what it was sent, everything that the
    shell has written since the start of the session has been shown, and everything that
    was typed since then has been put on the pipe of the terminal.  The restrictions are those
    of C1, also for the new connection: iterations that return without an exception and during
    which no other thread touches the connection, no write that asks to be retried after it
    has sent a part of its buffer, and fewer than 2^31 packets written by each end before the
    new connection; and what C1 asks of the environment. *)
Theorem nothing_lost cA cB qa i shown qb i' put fdA fdB ka qa' sA i1 shown1 kb qb' sB i1' put1 :
  conversation cA cB qa i shown qb i' put →
  client_epoch fdA qa ka sA i1 shown1 qa' → server_epoch fdB qb kb sB i1' put1 qb' →
  incoming ka fdA = sB → incoming kb fdB = sA →
  packets_written (conn (TermClient.connection qa.2.1)) < 2 ^ 31 →
  packets_written (client_at l qb.2.1) < 2 ^ 31 →
  drained fdA (conn (TermClient.connection qa'.2.1)) qa'.2.2 →
  drained fdB (client_at l qb'.2.1) qb'.2.2 →
  shown ++ shown1 = i' ++ i1' ∧ router_text (put ++ put1) (i ++ i1).
Proof.
  intros (Hqa & Hqb & PA & DA & PB & DB & Hs & <- & -> & <- & Hput)%conversation_session Hca Hcb Ha Hb HA HB Hda Hdb.
  destruct (packets_written_session _ _ _ _ _ _ _ _ Hs) as [Ea Eb]. rewrite Ea in HA. rewrite Eb in HB.
  apply client_epoch_run in Hca as (_ & ba & accA & delA & RA & <- & ->); [|done].
  apply server_epoch_run in Hcb as (_ & bb & accB & delB & RB & <- & UB); [|done].
  destruct (session_invariant _ _ _ _ _ _ _ _ Hs HA HB) as [Ia Ib].
  destruct (end_idle _ _ _ _ _ _ Ia (proj1 (proj2 RA))) as (QA & Hia & HpA).
  destruct (end_idle _ _ _ _ _ _ Ib (proj1 (proj2 RB))) as (QB & Hib & HpB).
  assert (honest fdA fdB ka sA kb sB) as Hh by (by split; rewrite ?Ha, ?Hb).
  pose proof (epoch_complete _ _ _ _ _ _ _ _ _ _ _ _ _ _ _ _ _ _ _ _ _ _ _ _ _ _
    Hia Hib HpB HA RA RB Hh Hb (proj1 Hda) Hdb) as EB.
  pose proof (epoch_complete _ _ _ _ _ _ _ _ _ _ _ _ _ _ _ _ _ _ _ _ _ _ _ _ _ _
    Hib Hia HpA HB RB RA (honest_sym _ _ _ _ _ _ Hh) Ha (proj1 Hdb) Hda) as EA.
  split; [by rewrite <-!typed_app, EA|]. rewrite <-typed_app, <-EB, typed_app. by apply router_text_app.
Qed.
End Conversation.
