(* ===== verification/ConversationRun.v ===== *)
(** * A conversation on the wire

    The two programs of [Conversation] on the in-memory world: the user gives the command
    "w", is connected, types "x" and "y"; the network loses what follows the command, and
    both ends find their connection broken; on the next one they recover, and the shell
    says "bye". *)

From S2P Require Import Prelude Sockets Crypto Packets Wire CxxText Backed WriterSpec ReaderSpec Connection.
From S2P Require Import Endpoint Apart Activity Session ClientConnection ServerConnection UnixSockets TcpSockets SocketPromises.
From S2P Require Import Forwarding TunnelsApart Router RawSockets TerminalMessages Loops TextFlow UserTerminal.
From S2P Require Import TerminalServer ServerSession ClientStart TerminalClient ClientFlow ServerFlow Conversation.
Import Conn ConnOps Client.

(** Messages of bounded size. *)
Definition compact_proto {T} `{Countable T} (d : T) : Proto T := {|
  serialize t := s ← serialize (Proto := countable_proto d) t;
                 if len s <? 2 ^ 31 - 22 then Some s else None;
  parse := parse (Proto := countable_proto d);
  proto_default := d;
|}.

Lemma compact_proto_laws {T} `{Countable T} (d : T) : @ProtoLaws T (compact_proto d).
Proof.
  split; [|done]. intros t s. cbn [serialize compact_proto]. intros (s' & E & Hs)%bind_Some.
  destruct (len s' <? _); [|done]. injection Hs as <-.
  exact (parse_serialize (ProtoLaws := countable_proto_laws d) _ _ E).
Qed.

Lemma compact_proto_compact {T} `{Countable T} (d : T) : @Compact T (compact_proto d).
Proof.
  split. intros t s. cbn [serialize compact_proto]. intros (s' & E & Hs)%bind_Some.
  destruct (len s' <? _) eqn:Hl; [|done]. injection Hs as <-. b2p. exact Hl.
Qed.

(** Messages that the run does not look into. *)
Definition token_proto {T} (d : T) : Proto T := {|
  serialize t := Some (lit "m");
  parse s := Some d;
  proto_default := d;
|}.

Lemma token_proto_compact {T} (d : T) : @Compact T (token_proto d).
Proof. split. intros t s [= <-]. done. Qed.

(** Sockets that are connected or accepted get descriptors from 100. *)
Definition high (r : io_result Z) : io_result Z :=
  match r with IoOk z => IoOk (100 + Z.abs z) | IoErr e => IoErr e end.

Definition HighSocket : SocketHandler Wire := {|
  sh_hasData := sh_hasData (SocketHandler := WireSocket);
  sh_read := wire_read;
  sh_write := wire_write;
  sh_connect e := r ← wire_connect e; mret (high r);
  sh_listen := sh_listen (SocketHandler := WireSocket);
  sh_getEndpointFds := sh_getEndpointFds (SocketHandler := WireSocket);
  sh_accept fd := r ← wire_accept fd; mret (high r);
  sh_stopListening := sh_stopListening (SocketHandler := WireSocket);
  sh_close := sh_close (SocketHandler := WireSocket);
  sh_wait := wire_wait;
  sh_time := sh_time (SocketHandler := WireSocket);
  sh_sleep := sh_sleep (SocketHandler := WireSocket);
  sh_rand := wire_rand;
|}.

#[local] Instance HighStream : @StreamHandler Wire HighSocket WireStreams.
Proof.
  destruct WireStreamHandler as [Hr Hw Hwt Ht Hs Hc Hd]. by split.
Qed.

Lemma high_own fd tfd : fd < 100 → tfd < 100 → OwnDescriptors (mine fd tfd) (steady HighSocket).
Proof.
  intros Hfd Htfd.
  assert (∀ r z, high r = IoOk z → ¬ mine fd tfd z) as Hh.
  { intros [z'|e] z; [|done]. intros [= <-] [?|?]; lia. }
  split.
  - intros e k o k'. cbn [sh_connect steady HighSocket]. rewrite M_bind_stop_inv. unfold wire_connect.
    destruct (w_connects k) as [|r rs]; intros [= <- <-]; (split; [done|]); [done|].
    intros z [= E]. by apply (Hh r).
  - intros z k o k'. cbn [sh_accept steady HighSocket]. rewrite M_bind_stop_inv. unfold wire_accept.
    destruct (w_accepts k) as [|r rs]; intros [= <- <-]; (split; [done|]); [done|].
    intros y [= E]. by apply (Hh (IoOk r)); cbn; f_equal.
  - by intros e k o k' [= <- <-].
  - by intros e k o k' [= <- <-].
  - intros k o k'. cbn [sh_rand steady HighSocket]. unfold wire_rand. by destruct (w_rands k); intros [= <- <-].
Qed.

Section Run.
#[local] Existing Instance example_secretbox.
#[local] Existing Instance example_secretbox_laws.
#[local] Instance k_header : Proto SequenceHeader := countable_proto (mkSequenceHeader None).
#[local] Instance k_header_laws : ProtoLaws SequenceHeader := countable_proto_laws _.
#[local] Instance k_catchup : Proto CatchupBuffer := countable_proto (mkCatchupBuffer []).
#[local] Instance k_catchup_laws : ProtoLaws CatchupBuffer := countable_proto_laws _.
#[local] Instance k_data : Proto PortForwardData := token_proto (mkPwd None None None None None).
#[local] Instance k_data_compact : Compact PortForwardData := token_proto_compact _.
#[local] Instance k_request : Proto PortForwardDestinationRequest := token_proto (mkPfdr None None).
#[local] Instance k_request_compact : Compact PortForwardDestinationRequest := token_proto_compact _.
#[local] Instance k_reply : Proto PortForwardDestinationResponse := token_proto (mkPfdResponse None None None).
#[local] Instance k_reply_compact : Compact PortForwardDestinationResponse := token_proto_compact _.
#[local] Instance k_buffer : Proto TerminalBuffer := compact_proto (mkTb None).
#[local] Instance k_buffer_laws : ProtoLaws TerminalBuffer := compact_proto_laws _.
#[local] Instance k_buffer_compact : Compact TerminalBuffer := compact_proto_compact _.
#[local] Instance k_info : Proto TerminalInfo := compact_proto (mkTi None None None None None).
#[local] Instance k_info_laws : ProtoLaws TerminalInfo := compact_proto_laws _.
#[local] Instance k_info_compact : Compact TerminalInfo := compact_proto_compact _.
#[local] Instance k_init : Proto TermInit := token_proto (mkTermInit [] []).
#[local] Instance k_payload : Proto InitialPayload := token_proto (mkPayload None [] ∅).
#[local] Instance k_payload_compact : Compact InitialPayload := token_proto_compact _.
#[local] Instance k_response : Proto InitialResponse := token_proto (mkResponse None).
#[local] Instance k_response_compact : Compact InitialResponse := token_proto_compact _.
#[local] Instance k_files : TempFiles Wire := {|
  tf_GetTempDirectory := lit "/tmp/";
  tf_mkdtemp s := mret s;
  tf_chmod s := mret (IoOk tt);
  tf_chown s u g := mret (IoOk tt);
|}.
#[local] Instance k_console : Console Wire := {|
  con_setup := mret tt;
  con_teardown := mret tt;
  con_getFd := mret 1;
  con_getTerminalInfo := mret (mkTi None (Some 25) None None None);
|}.
#[local] Instance k_network : SocketHandler Wire := steady HighSocket.
#[local] Instance k_server_object : ConnectionObject Wire Connection := base_object.
#[local] Instance k_client_object : ConnectionObject Wire ClientConnection := client_object.

Definition k_sock : handler_kind → SocketHandler Wire := λ _, HighSocket.
Definition k_order : gmap Z Z → list (Z * Z) := map_to_list.
Definition k_order' : gmap Z Destination.ForwardDestinationHandler → list Z := λ m, (map_to_list m).*1.
Definition k_client_others : list ((ClientConnection → ClientConnection) * (ClientConnection → ClientConnection)) :=
  [(λ o, o, λ o, o)].
Definition k_server_others : list ((Connection → Connection) * (Connection → Connection)) :=
  [(λ o, o, λ o, o)].
Definition k_cA : CryptoHandler := mkCrypto (initial_nonce CLIENT_SERVER_NONCE_MSB) (lit "key").
Definition k_cB : CryptoHandler := mkCrypto (initial_nonce SERVER_CLIENT_NONCE_MSB) (lit "key").

Abbreviation k_life := (client_life k_sock WireSocket (λ _, []) k_order k_order' 2000 k_client_others Some 1).
Abbreviation k_serve := (server_life k_sock WireSocket (λ _, []) k_order k_order' 2000 k_server_others 1 9).
Definition k_iterate : M (Forward.PortForwardHandler * (TermClient.TerminalClient * Wire)) stage :=
  TermClient.iteration (steadily k_sock) (steady WireSocket) (λ _, []) k_order k_order' 2000 k_client_others Some.
Definition k_attend : M (Forward.PortForwardHandler * (Term.TerminalServer * Wire)) stage :=
  Term.terminal_iteration (steadily k_sock) (steady WireSocket) (λ _, []) k_order k_order' 2000 k_server_others 1 9.

(** The packets of the session, in the order in which each end writes them. *)
Definition k_text (s : str) : Packet := Packet_new TERMINAL_BUFFER (default [] (serialize (mkTb (Some s)))).
Definition k_from_client : list Packet :=
  [Packet_new INITIAL_PAYLOAD (lit "m"); k_text (TermClient.command_text (lit "w") false); k_text (lit "x");
   Packet_new TERMINAL_INFO (default [] (serialize (mkTi None (Some 25) None None None))); k_text (lit "y")].
Definition k_from_server : list Packet :=
  [Packet_new INITIAL_RESPONSE (lit "m"); k_text (lit "ok"); k_text (lit "b"); k_text (lit "ye")].

(** ** The first connection *)

Definition k_open (fd : Z) (c0 d0 : CryptoHandler) : Connection :=
  mkConnection (lit "id") (lit "key") fd false (Some (Reader.init d0 fd)) (Some (Writer.init c0 fd)).

(** The client, on descriptor 6: only the answer to its first packet arrives. *)
Definition k_client : ClientConnection :=
  mkClient (k_open 6 k_cA k_cB) (mkEndpoint (Some (lit "host")) (Some 2022)) None.
Definition k_wireA : Wire :=
  with_in (with_in wire0 6 (frames (seal_all k_cB (take 1 k_from_server)))) 1 (lit "xy").
Definition k_greeted : outcome reply * (ClientConnection * Wire) :=
  greet 2000 k_client_others (λ _ o, o) (mkPayload None [] ∅) (k_client, k_wireA).
Definition k_a0 : Forward.PortForwardHandler * (TermClient.TerminalClient * Wire) :=
  (Forward.init, (TermClient.mkTC k_greeted.2.1 true false 5 0 false (mkTi None None None None None), k_greeted.2.2)).
Definition k_a1 := (TermClient.start (steadily k_sock) 2000 k_client_others (lit "w") false k_a0).2.

(** Another world for a thread. *)
Definition k_with {X} (f : Wire → Wire) (q : Forward.PortForwardHandler * (X * Wire)) :
  Forward.PortForwardHandler * (X * Wire) := (q.1, (q.2.1, f q.2.2)).

Definition k_a2 := (k_iterate (k_with (λ w, with_plan w [1%nat]) k_a1)).2.
Definition k_a3 := (k_iterate (k_with (λ w, with_broken w [6]) k_a2)).2.

(** The server, on descriptor 7: the command arrives, and nothing after it. *)
Definition k_server : Term.TerminalServer :=
  Term.mkTS (Server.set_objects {[ 1%positive := k_open 7 k_cB k_cA ]} (Server.init (mkEndpoint None (Some 2022))))
    (Router.mkRouter 8 ∅) [] false.
Definition k_wireB : Wire :=
  with_in (with_in wire0 7 (frames (seal_all k_cA (take 2 k_from_client)))) 9 (lit "okb").
Definition k_first : outcome Packet * (Term.TerminalServer * Wire) :=
  Term.first_packet (steadily k_sock) [λ t, t] 1 (k_server, k_wireB).
Definition k_user : TerminalUserInfo := mkTui None None None None (Some 9).
Definition k_b1 := (Term.session_setup (steadily k_sock) (steady WireSocket) 2000 k_server_others 1
  (mkPayload None [] ∅) k_user (Forward.init, k_first.2)).2.
Definition k_b2 := (k_attend (k_with (λ w, with_plan w [2%nat]) k_b1)).2.
Definition k_b3 := (k_attend (k_with (λ w, with_broken w [7]) k_b2)).2.

(** ** The second connection *)

Definition k_hello (n : Z) : str := proto_frame (default [] (serialize (header_of n))).
Definition k_missing (c : CryptoHandler) (n : nat) (ps : list Packet) : str :=
  proto_frame (default [] (serialize (mkCatchupBuffer (drop n (seal_all c ps))))).
Definition k_sentA : str := k_hello 1 ++ k_missing k_cA 2 k_from_client.
Definition k_helloB : str := k_hello 2 ++ k_missing k_cB 1 (take 3 k_from_server).
Definition k_lastB : str := frames (drop 3 (seal_all k_cB k_from_server)).

(** The client recovers on descriptor 10, and shows what has arrived. *)
Definition k_wireA2 : Wire := with_in wire0 10 (k_helloB ++ k_lastB).
Definition k_recoveredA : outcome bool * (ClientConnection * Wire) :=
  on_conn (recover 2000 10) (client_conn k_a3, k_wireA2).
Definition k_a4 : Forward.PortForwardHandler * (TermClient.TerminalClient * Wire) :=
  (k_a3.1, (TermClient.set_connection k_recoveredA.2.1 k_a3.2.1, k_recoveredA.2.2)).
Definition k_a5 := (k_iterate (k_with (λ w, with_plan w [0%nat]) k_a4)).2.

(** The server recovers on descriptor 11. *)
Definition k_wireB2 : Wire := with_in (with_in wire0 11 k_sentA) 9 (lit "ye").
Definition k_recoveredB : outcome bool * (Connection * Wire) :=
  recover 2000 11 (server_conn 1 k_b3, k_wireB2).
Definition k_b4 : Forward.PortForwardHandler * (Term.TerminalServer * Wire) :=
  (k_b3.1, (Term.set_server (Server.set_objects {[ 1%positive := k_recoveredB.2.1 ]}
    (Term.ts_server k_b3.2.1)) k_b3.2.1, k_recoveredB.2.2)).
Definition k_b5 := (k_attend (k_with (λ w, with_plan w [2%nat]) k_b4)).2.

(** ** The run is a conversation *)

Lemma k_own fd tfd : 0 <= fd < 100 → tfd < 100 → fd ≠ tfd → its_own k_sock fd tfd.
Proof. intros ???. split_and!; [lia|done|]. intros kd. apply high_own; lia. Qed.

(** One iteration in a world that has changed elsewhere. *)
Lemma k_step_a fd q f q1 q' :
  q1 = (k_iterate (k_with f q)).2 →
  (∀ w z, wire_in (f w) z = wire_in w z ∧ wire_out (f w) z = wire_out w z) →
  (k_iterate (k_with f q)).1 = Ok Go → TermClient.down q1.2.1 = false →
  k_life fd q1 q' → k_life fd q q'.
Proof.
  intros -> Hf E Hd Hl. destruct q as [p [t k]]. unfold k_with in *. cbn [fst snd] in *.
  eapply (client_waits _ _ _ _ _ _ _ _ _ _ p t k t (f k)); [done|done|by split; apply Hf|].
  eapply (client_iterates _ _ _ _ _ _ _ _ _ _ _ Go); [exact (run_state k_iterate _ _ E)|exact Hd|exact Hl].
Qed.

Lemma attempt_returns {S} (m : M S stage) q :
  (m q).1 = Ok Go → ¬ ∃ why q', m q = (Stop (Throw (Exn RuntimeError why)), q').
Proof. intros E (why & q' & E'). by rewrite E' in E. Qed.

Definition k_attempt : M (Forward.PortForwardHandler * (Term.TerminalServer * Wire)) stage :=
  attempt (steadily k_sock) (steady WireSocket) (λ _, []) k_order k_order' 2000 k_server_others 1 9.

Lemma k_step_b fd q f q1 q' :
  q1 = (k_attend (k_with f q)).2 →
  (∀ w z, wire_in (f w) z = wire_in w z ∧ wire_out (f w) z = wire_out w z) →
  (k_attend (k_with f q)).1 = Ok Go → (k_attempt (k_with f q)).1 = Ok Go →
  k_serve fd q1 q' → k_serve fd q q'.
Proof.
  intros -> Hf E Ea Hl. destruct q as [p [t k]]. unfold k_with in *. cbn [fst snd] in *.
  eapply (server_waits _ _ _ _ _ _ _ _ _ _ p t k t (f k)); [done|by split; apply Hf|].
  eapply (server_iterates _ _ _ _ _ _ _ _ _ _ _ Go);
    [exact (run_state k_attend _ _ E)|exact (attempt_returns k_attempt _ Ea)|exact Hl].
Qed.

Lemma k_client_opens :
  client_opens k_sock 2000 k_client_others (λ _ o, o) 1 6 k_cA k_cB k_client k_wireA (lit "w") false k_a1.
Proof.
  split; [by apply k_own|]. split; [unfold opened; split_and!; done|]. split; [done|].
  exists (mkPayload None [] ∅), k_a0. split; [|split].
  - vm_compute. reflexivity.
  - split; [apply forward_away_init|]. split; [|by vm_compute].
    split; intros x; vm_compute; intros [= <-]; vm_compute; discriminate.
  - vm_compute. reflexivity.
Qed.

Lemma k_server_opens :
  server_opens k_sock WireSocket 2000 k_server_others 1 9 7 k_cA k_cB k_server k_wireB k_b1.
Proof.
  split; [by apply k_own|]. split; [eexists; reflexivity|]. split; [split; [done|split; [reflexivity|split; reflexivity]]|].
  split; [by vm_compute|].
  exists [λ t, t], (Packet_new INITIAL_PAYLOAD (lit "m")), k_first.2, (mkPayload None [] ∅), k_user.
  split; [by repeat constructor|]. split; [|split; [done|split; [done|]]].
  - vm_compute. reflexivity.
  - vm_compute. reflexivity.
Qed.

Lemma k_life_1 : k_life 6 k_a1 k_a3.
Proof.
  apply (k_step_a 6 k_a1 (λ w, with_plan w [1%nat]) k_a2); [by unfold k_a2|by split|by vm_compute..|].
  apply (k_step_a 6 k_a2 (λ w, with_broken w [6]) k_a3); [by unfold k_a3|by split|by vm_compute..|]. apply client_rests.
Qed.

Lemma k_serve_1 : k_serve 7 k_b1 k_b3.
Proof.
  apply (k_step_b 7 k_b1 (λ w, with_plan w [2%nat]) k_b2); [by unfold k_b2|by split|by vm_compute..|].
  apply (k_step_b 7 k_b2 (λ w, with_broken w [7]) k_b3); [by unfold k_b3|by split|by vm_compute..|]. apply server_rests.
Qed.

Lemma k_life_2 : k_life 10 k_a4 k_a5.
Proof.
  apply (k_step_a 10 k_a4 (λ w, with_plan w [0%nat]) k_a5); [by unfold k_a5|by split|by vm_compute..|]. apply client_rests.
Qed.

Lemma k_serve_2 : k_serve 11 k_b4 k_b5.
Proof.
  apply (k_step_b 11 k_b4 (λ w, with_plan w [2%nat]) k_b5); [by unfold k_b5|by split|by vm_compute..|]. apply server_rests.
Qed.

Lemma k_client_reconnects : client_reconnects k_sock 1 10 k_a3 k_wireA2 k_sentA k_a4.
Proof.
  split; [by apply k_own|]. split; [|split; [unfold k_a4; reflexivity|split; [|vm_compute; reflexivity]]].
  - split; [by vm_compute|]. split; [by vm_compute|]. exists 2000%nat, true.
    vm_compute. reflexivity.
  - replace k_a3.1 with Forward.init by (vm_compute; reflexivity). apply forward_away_init.
Qed.

Lemma k_server_reconnects : server_reconnects k_sock 1 9 11 k_b3 k_wireB2 k_helloB k_b4.
Proof.
  split; [by apply k_own|]. split; [|split; [done|split; [|eexists; vm_compute; reflexivity]]].
  - split; [by vm_compute|]. split; [by vm_compute|]. exists 2000%nat, true. vm_compute. reflexivity.
  - replace k_b3.1 with Forward.init by (vm_compute; reflexivity). apply forward_away_init.
Qed.

(** What has been put on the terminal's pipe. *)
Definition k_put1 : str := drop (length (wire_out k_b1.2.2 9)) (wire_out k_b3.2.2 9).
Definition k_put2 : str := wire_out k_b5.2.2 9.

Lemma k_client_begins :
  client_begins k_sock WireSocket (λ _, []) k_order k_order' 2000 k_client_others Some (λ _ o, o) 1
    6 k_cA k_cB k_client k_wireA (lit "w") false
    (frames (take 4 (seal_all k_cA k_from_client))) (lit "xy") [] k_a3.
Proof.
  exists k_a1. split; [exact k_client_opens|]. split; [exact k_life_1|].
  split; [split; vm_compute; reflexivity|vm_compute; reflexivity].
Qed.

Lemma k_server_begins :
  server_begins k_sock WireSocket (λ _, []) k_order k_order' 2000 k_server_others 1 9
    7 k_cA k_cB k_server k_wireB
    (frames (take 2 (seal_all k_cB k_from_server))) (lit "okb") k_put1 k_b3.
Proof.
  exists k_b1. split; [exact k_server_opens|]. split; [exact k_serve_1|].
  split; [split; vm_compute; reflexivity|vm_compute; reflexivity].
Qed.

(** Only the answer of the server, and the command, arrive. *)
Lemma k_opening :
  conversation k_sock WireSocket WireSocket (λ _, []) k_order k_order' 2000 k_client_others Some (λ _ o, o)
    1 k_server_others 1 9 k_cA k_cB k_a3 (given (lit "w") false ++ lit "xy") [] k_b3 (lit "okb") k_put1.
Proof.
  eapply conversation_opens; [exact k_client_begins|exact k_server_begins|].
  split; eexists; vm_compute; reflexivity.
Qed.

Lemma k_client_epoch :
  client_epoch k_sock WireSocket (λ _, []) k_order k_order' 2000 k_client_others Some 1
    10 k_a3 k_wireA2 k_sentA [] (lit "okbye") k_a5.
Proof.
  exists k_a4, k_sentA, []. split; [exact k_client_reconnects|]. split; [exact k_life_2|].
  split; [split; vm_compute; reflexivity|]. split; [vm_compute; reflexivity|by rewrite app_nil_r].
Qed.

Lemma k_server_epoch :
  server_epoch k_sock WireSocket (λ _, []) k_order k_order' 2000 k_server_others 1 9
    11 k_b3 k_wireB2 (k_helloB ++ k_lastB) (lit "ye") k_put2 k_b5.
Proof.
  exists k_b4, k_helloB, k_lastB. split; [exact k_server_reconnects|]. split; [exact k_serve_2|].
  split; [split; vm_compute; reflexivity|]. split; [vm_compute; reflexivity|done].
Qed.

Lemma k_conversation :
  conversation k_sock WireSocket WireSocket (λ _, []) k_order k_order' 2000 k_client_others Some (λ _ o, o)
    1 k_server_others 1 9 k_cA k_cB k_a5
    ((given (lit "w") false ++ lit "xy") ++ []) ([] ++ lit "okbye")
    k_b5 (lit "okb" ++ lit "ye") (k_put1 ++ k_put2).
Proof.
  eapply conversation_epoch; [exact k_opening|exact k_client_epoch|exact k_server_epoch|].
  split; exists []; vm_compute; reflexivity.
Qed.

(** What the two programs rely on. *)
Lemma k_order_lists m p : p ∈ k_order m → m !! p.1 = Some p.2.
Proof. destruct p as [a b]. intros Hp. by apply elem_of_map_to_list in Hp. Qed.

Lemma k_others_keep : keep_conn k_client_others ∧ keep_conn k_server_others.
Proof. split; (constructor; [|constructor]); split; intros o; reflexivity. Qed.

Lemma k_files_quiet :
  (∀ s (k : Wire) o k', tf_mkdtemp s k = (o, k') → quiet k k') ∧
  (∀ s (k : Wire) o k', tf_chmod s k = (o, k') → quiet k k') ∧
  (∀ s u g (k : Wire) o k', tf_chown s u g k = (o, k') → quiet k k').
Proof. split_and!; [intros s k o k' [= _ <-]|intros s k o k' [= _ <-]|intros s u g k o k' [= _ <-]]; done. Qed.

Lemma console_to_shell_witness :
  [] ++ lit "okbye" `prefix_of` lit "okb" ++ lit "ye" ∧
  ∃ text, router_text (k_put1 ++ k_put2) text ∧
    text `prefix_of` (given (lit "w") false ++ lit "xy") ++ [].
Proof.
  apply (console_to_shell k_sock WireSocket WireSocket (λ _, []) k_order k_order' 2000 k_client_others Some
    (λ _ o, o) 1 k_server_others 1 9) with (cA := k_cA) (cB := k_cB) (qa := k_a5) (qb := k_b5).
  - lia.
  - lia.
  - reflexivity.
  - by intros k o k' [= _ <-].
  - by intros k o k' [= _ <-].
  - by intros r w k o k' [= _ <-].
  - exact k_files_quiet.
  - apply k_others_keep.
  - apply k_others_keep.
  - by intros o o' [= <-].
  - by intros n o.
  - exact k_order_lists.
  - exact k_conversation.
  - vm_compute. reflexivity.
  - vm_compute. reflexivity.
Defined.

(** On the second connection everything arrives. *)
Lemma nothing_lost_witness :
  [] ++ lit "okbye" = lit "okb" ++ lit "ye" ∧
  router_text (k_put1 ++ k_put2) ((given (lit "w") false ++ lit "xy") ++ []).
Proof.
  apply (nothing_lost k_sock WireSocket WireSocket (λ _, []) k_order k_order' 2000 k_client_others Some
    (λ _ o, o) 1 k_server_others 1 9) with (cA := k_cA) (cB := k_cB) (qa := k_a3) (qb := k_b3)
      (qa' := k_a5) (qb' := k_b5) (fdA := 10) (fdB := 11) (ka := k_wireA2) (kb := k_wireB2)
      (sA := k_sentA) (sB := k_helloB ++ k_lastB).
  - lia.
  - lia.
  - reflexivity.
  - by intros k o k' [= _ <-].
  - by intros k o k' [= _ <-].
  - by intros r w k o k' [= _ <-].
  - exact k_files_quiet.
  - apply k_others_keep.
  - apply k_others_keep.
  - by intros o o' [= <-].
  - by intros n o.
  - exact k_order_lists.
  - exact k_opening.
  - exact k_client_epoch.
  - exact k_server_epoch.
  - vm_compute. reflexivity.
  - vm_compute. reflexivity.
  - vm_compute. reflexivity.
  - vm_compute. reflexivity.
  - split; [vm_compute; discriminate|]. split; [vm_compute; reflexivity|].
    intros r. vm_compute. by intros [= <-].
  - split; [vm_compute; discriminate|]. split; [vm_compute; reflexivity|].
    intros r. vm_compute. by intros [= <-].
Defined.
End Run.
