(* ===== verification/Jumphost.v ===== *)
(** * [terminal/UserJumphostHandler]: the proxy on a jump host

    The process that a jump host runs for a client: it registers with the router of the
    server there, connects to the destination as a client of its own, and passes the packets
    of one to the other. *)

From S2P Require Import Prelude Sockets Crypto Packets Wire CxxText Backed Connection ClientConnection.
From S2P Require Import UnixSockets TcpSockets SocketPromises Forwarding Router TerminalMessages FifoPath Loops ClientStart.
Import Conn ConnOps Client.

Definition SERVER_KEEP_ALIVE_DURATION : Z := 11.

Module JumpHost.

(** The members, and the variables of the loop. *)
Record UserJumphostHandler := mkJump {
  routerFd : Z;
  jumpclient : ClientConnection;
  down : bool;
  is_reconnecting : bool;
  keepaliveTime : Z;
}.

Definition set_jumpclient (o : ClientConnection) (j : UserJumphostHandler) : UserJumphostHandler :=
  mkJump (routerFd j) o (down j) (is_reconnecting j) (keepaliveTime j).
Definition shutdown (j : UserJumphostHandler) : UserJumphostHandler :=
  mkJump (routerFd j) (jumpclient j) true (is_reconnecting j) (keepaliveTime j).
Definition set_reconnecting (b : bool) (j : UserJumphostHandler) : UserJumphostHandler :=
  mkJump (routerFd j) (jumpclient j) (down j) b (keepaliveTime j).
Definition set_deadline (t : Z) (j : UserJumphostHandler) : UserJumphostHandler :=
  mkJump (routerFd j) (jumpclient j) (down j) (is_reconnecting j) t.

Section JumpHost.
Context {W : Type} `{!Kernel W} `{!Poll W} `{!SecretBox} `{!FifoOs W}.
(** The sockets to the destination, and the pipe of the router. *)
Context (sock router_sock : SocketHandler W).
Context `{!Proto SequenceHeader} `{!Proto CatchupBuffer}.
Context `{!Proto ConnectRequest} `{!Proto ConnectResponse} `{!Proto TerminalUserInfo}.
Context `{!Proto InitialPayload} `{!Proto InitialResponse}.
Variable fuel : nat.
(** What other threads do while [writePacket] waits, and while [join] waits. *)
Variable others : list ((ClientConnection → ClientConnection) * (ClientConnection → ClientConnection)).
Variable finish : ClientConnection → option ClientConnection.

#[local] Instance jump_network : SocketHandler W := sock.
#[local] Instance jump_object : ConnectionObject W ClientConnection := client_object.

Abbreviation T := (UserJumphostHandler * W)%type.

Definition on_jumpclient {A} (m : M (ClientConnection * W) A) : M T A :=
  zoom (λ p, (jumpclient p.1, p.2)) (λ q p, (set_jumpclient q.1 p.1, q.2)) m.

(** The constructor; the client is made by [run]. *)
Definition UserJumphostHandler_new (env : process_env) (routerEndpoint : option SocketEndpoint)
    : M W Z := Fifo.detectAndConnect (H := router_sock) env routerEndpoint.

(** Who the terminal is, as the server's router is told. *)
Definition register (uid gid : Z) (id passkey : str) (fd : Z) : M W unit :=
  catch_runtime
    (s ← protoToString (mkTui (Some id) (Some passkey) (Some uid) (Some gid) None);
     Packets.writePacket (H := router_sock) fuel fd (Packet_new TERMINAL_USER_INFO s))
    (λ _, fatal "Cannot send idpasskey to router").

(** [attempts]: how often [readPacket] may return [false]. *)
Fixpoint read_init (attempts : nat) (fd : Z) : M W InitialPayload :=
  match attempts with
  | O => stop OutOfFuel
  | S attempts' =>
    p ← Packets.readPacket (H := router_sock) fuel fd;
    match p with
    | None => read_init attempts' fd
    | Some initPacket =>
      if negb (header initPacket =? JUMPHOST_INIT) then fatal "Invalid jumphost init packet header"
      else
        payload ← stringToProto InitialPayload (payload initPacket);
        if jumphost_of payload
        then mret (mkPayload (Some false) (ip_reversetunnels payload) (ip_environmentvariables payload))
        else fatal "Jumphost should be set by the initial client"
    end
  end.

(** One round of the loop that connects; every failure is an exception of [run]. *)
Definition connect_round (between : nat → ClientConnection → ClientConnection)
    (payload : InitialPayload) (connectFailCount : Z) : M (ClientConnection * W) unit :=
  catch_runtime
    (r ← first_exchange fuel others between payload;
     match r with
     | Accepted => mret tt
     | Refused e => throw RuntimeError "Error initializing connection"
     | Silent => _ ← count_failure connectFailCount; mret tt
     end)
    (λ _, throw RuntimeError "Could not make initial connection").

(** [keepaliveTime = time(NULL) + SERVER_KEEP_ALIVE_DURATION] *)
Definition touch : M T unit :=
  now ← on_snd k_time;
  on_fst (modify (set_deadline (now + SERVER_KEEP_ALIVE_DURATION))).

(** From the router to the destination; a client that comes back makes a new connection. *)
Definition read_router (jumpClientFd : Z) (rfd : gset Z) : M T stage :=
  j ← on_fst get;
  if bool_decide (routerFd j ∈ rfd) then
    if jumpClientFd <? 0 then
      _ ← (if is_reconnecting j then
             _ ← on_jumpclient (join_reconnect finish);
             on_fst (modify (set_reconnecting false))
           else
             _ ← on_fst (modify (set_reconnecting true));
             on_jumpclient (close_and_reconnect finish));
      _ ← on_snd (k_sleep 3000000);
      mret Again
    else
      p ← on_snd (Packets.readPacket (H := router_sock) fuel (routerFd j));
      _ ← match p with
          | Some p => _ ← on_jumpclient (writePacket fuel others p); mret tt
          | None => mret tt
          end;
      _ ← touch;
      mret Go
  else mret Go.

(** From the destination to the router. *)
Definition read_destination (jumpClientFd : Z) (rfd : gset Z) : M T stage :=
  if (0 <? jumpClientFd) && bool_decide (jumpClientFd ∈ rfd) then
    ready ← on_jumpclient (on_conn hasData);
    _ ← (if ready : bool then
           p ← on_jumpclient ConnOps.readPacket;
           match p with
           | Some receivedMessage =>
             j ← on_fst get;
             on_snd (Packets.writePacket (H := router_sock) fuel (routerFd j) receivedMessage)
           | None => mret tt
           end
         else mret tt);
    _ ← touch;
    mret Go
  else mret Go.

Definition close_idle (jumpClientFd : Z) : M T stage :=
  j ← on_fst get;
  now ← on_snd k_time;
  if (0 <? jumpClientFd) && (keepaliveTime j <? now) then
    _ ← on_jumpclient (on_base closeSocket);
    _ ← on_fst (modify (set_reconnecting false));
    mret Go
  else mret Go.

Definition iteration : M T stage :=
  j ← on_fst get;
  let jumpClientFd := socketFd (conn (jumpclient j)) in
  rfd ← on_snd (poll_select ({[routerFd j]} ∪ (if 0 <? jumpClientFd then {[jumpClientFd]} else ∅)) ∅);
  catch_runtime
    (then_ (read_router jumpClientFd rfd)
       (then_ (read_destination jumpClientFd rfd) (close_idle jumpClientFd)))
    (λ _, mret Leave).

(** What other threads do between two iterations, also their number. *)
Fixpoint loop (env : list (UserJumphostHandler → UserJumphostHandler)) : M T unit :=
  match env with
  | [] => stop OutOfFuel
  | f :: env' =>
    _ ← on_fst (modify f);
    j ← on_fst get;
    if shuttingDown (conn (jumpclient j)) || down j then mret tt
    else
      st ← iteration;
      match st with
      | Leave => mret tt
      | _ => loop env'
      end
  end.

Definition run (attempts : nat) (env : list (UserJumphostHandler → UserJumphostHandler))
    (between : nat → ClientConnection → ClientConnection) (uid gid : Z)
    (idpasskey : str) (dstSocketEndpoint : SocketEndpoint) (fd : Z) : M W unit :=
  match split idpasskey "/"%char with
  | id :: passkey :: _ =>
    _ ← register uid gid id passkey fd;
    payload ← read_init attempts fd;
    _ ← scoped (mkJump fd (ClientConnection_new dstSocketEndpoint id passkey) false false 0)
          (_ ← on_jumpclient (connect_round between payload 0);
           _ ← touch;
           loop env);
    poll_close fd
  | _ => undefined "idpasskey_splited[1]"
  end.
End JumpHost.
End JumpHost.
Import JumpHost.

(** ** A connection that is closed as soon as it is made *)

Section Fresh.
Context {W : Type} `{!Kernel W} `{!Poll W} `{!SecretBox}.
Context (sock router_sock : SocketHandler W).
Variable fuel : nat.
Variable others : list ((ClientConnection → ClientConnection) * (ClientConnection → ClientConnection)).
Variable finish : ClientConnection → option ClientConnection.
Hypothesis k_sleep_returns : ∀ us k, ∃ k', k_sleep us k = (Ok tt, k').
Hypothesis close_returns : ∀ fd k, ∃ k', @sh_close W sock fd k = (Ok tt, k').

(** A connection that has just been made again is closed.  When the destination has
    broken the connection, its reconnect thread is already at work; if a packet of the
    client arrives before it is done, the handler, which does not know of it, waits for the
    thread, closes the connection that the thread has made, and starts another thread. *)
Theorem fresh_connection_closed j k rfd k1 o :
  socketFd (conn (jumpclient j)) = -1 → is_reconnecting j = false →
  reconnectThread (jumpclient j) = Some Running → finish (jumpclient j) = Some o →
  socketFd (conn o) ≠ -1 → shuttingDown (conn o) = false →
  poll_select {[routerFd j]} ∅ k = (Ok rfd, k1) → routerFd j ∈ rfd →
  ∃ j' k' k2, iteration sock router_sock fuel others finish (j, k) = (Ok Again, (j', k')) ∧
    (∃ k3, @sh_close W sock (socketFd (conn o)) k3 = (Ok tt, k2)) ∧
    socketFd (conn (jumpclient j')) = -1 ∧ reconnectThread (jumpclient j') = Some Running ∧
    is_reconnecting j' = true.
Proof.
  intros Hfd Hre Hth Hfin Ho Hdown Hsel Hin. unfold iteration. rewrite run_fst_get, Hfd.
  cbn [Z.ltb Z.compare]. rewrite (right_id_L ∅ (∪) {[routerFd j]}), run_snd, Hsel.
  unfold catch_runtime, then_. rewrite M_bind_stop_inv. unfold read_router.
  rewrite run_fst_get, bool_decide_true by done. cbn [Z.ltb Z.compare]. rewrite Hre.
  rewrite M_bind_stop_inv, run_fst_modify. unfold on_jumpclient, zoom. cbn [fst snd jumpclient set_reconnecting].
  unfold close_and_reconnect, join_reconnect. rewrite M_bind_stop_inv, run_fst_get, Hth, Hfin.
  cbn [on_fst zoom put fst snd]. destruct (close_returns (socketFd (conn o)) k1) as [k2 Hclose].
  assert (on_base (@closeSocket W sock) (set_thread None o, k1) =
          (Ok tt, (set_conn (invalidate (conn o)) (set_thread None o), k2))) as Hb.
  { rewrite on_base_run. unfold closeSocket. rewrite run_fst_get. cbn [conn set_thread].
    rewrite (proj2 (Z.eqb_neq _ _) Ho), run_fst_modify. unfold on_snd, zoom. cbn [fst snd].
    rewrite Hclose. done. }
  rewrite (M_bind_ok _ _ _ _ _ Hb), run_fst_get. cbn. rewrite Hdown. cbn.
  rewrite run_snd. destruct (k_sleep_returns 3000000 k2) as [k4 Hs]. rewrite Hs.
  do 3 eexists. split_and!; [done|by eexists|done..].
Qed.
End Fresh.

(** ** A concrete run *)

Section Witnesses.
#[local] Existing Instance example_secretbox.

Definition y_client : ClientConnection :=
  mkClient (Conn.init (lit "id") (lit "key")) (mkEndpoint (Some (lit "dst")) (Some 2022)) (Some Running).
(** The reconnect thread succeeds with descriptor 8. *)
Definition y_finish (o : ClientConnection) : option ClientConnection :=
  Some (set_thread (Some Finished) (set_conn (set_socketFd 8 (conn o)) o)).

Lemma fresh_connection_closed_witness :
  ∃ j' k' k2, iteration WireSocket WireSocket 10 [] y_finish
      (mkJump 5 y_client false false 0, wire0) = (Ok Again, (j', k')) ∧
    (∃ k3, @sh_close Wire WireSocket 8 k3 = (Ok tt, k2)) ∧
    socketFd (conn (jumpclient j')) = -1 ∧ reconnectThread (jumpclient j') = Some Running ∧
    is_reconnecting j' = true.
Proof.
  refine (fresh_connection_closed WireSocket WireSocket 10 [] y_finish _ _
    (mkJump 5 y_client false false 0) wire0 {[ 5 ]} wire0
    (set_thread (Some Finished) (set_conn (set_socketFd 8 (conn y_client)) y_client)) _ _ _ _ _ _ _ _).
  - intros us k. eexists. reflexivity.
  - intros fd k. eexists. reflexivity.
  - reflexivity.
  - reflexivity.
  - reflexivity.
  - reflexivity.
  - vm_compute. discriminate.
  - reflexivity.
  - reflexivity.
  - set_solver.
Defined.
End Witnesses.
