(* ===== verification/Scrollback.v ===== *)
(** * [htm/TerminalHandler]: a terminal and its scroll-back buffer

    [TerminalHandler.cpp]: a shell on a pseudo-terminal whose output is kept, cut into
    lines, for the clients that connect later.  What the operating system does for a
    pseudo-terminal is the class [Pty]; [absorb] is the part of [pollUserTerminal]
    that handles the bytes that were read. *)

From S2P Require Import Prelude Sockets CxxText RawSockets.

Class Pty (W : Type) := {
  pty_fork : M W (io_result (Z * Z));
  pty_select : Z → M W bool;
  pty_read : Z → nat → M W (io_result str);
  pty_waitid : Z → M W (io_result unit);
  pty_winsize : Z → Z → Z → M W unit;
  pty_kill : Z → M W unit;
}.

Definition ECHILD : Z := 10.
Definition MAX_BUFFER_LINES : nat := Z.to_nat 1024.
Definition MAX_BUFFER_CHARS : Z := 128 * 1024.
Definition BUF_SIZE : nat := Z.to_nat (16 * 1024).

Module Terminal.

Record TerminalHandler := mkTerminal {
  masterFd : Z;
  childPid : Z;
  run : bool;
  buffer : list str;
  bufferLength : Z;
}.

(** The constructor leaves the descriptors unset: they have the values [fd], [pid]. *)
Definition init (fd pid : Z) : TerminalHandler := mkTerminal fd pid true [] 0.

Definition set_child (fd pid : Z) (t : TerminalHandler) : TerminalHandler :=
  mkTerminal fd pid (run t) (buffer t) (bufferLength t).
Definition set_run (b : bool) (t : TerminalHandler) : TerminalHandler :=
  mkTerminal (masterFd t) (childPid t) b (buffer t) (bufferLength t).
Definition set_buffer (b : list str) (n : Z) (t : TerminalHandler) : TerminalHandler :=
  mkTerminal (masterFd t) (childPid t) (run t) b n.

Definition total (l : list str) : Z := len (concat l).

(** The tokens join the buffer: the first one continues its last line. *)
Definition append_tokens (buf tokens : list str) : outcome (list str) :=
  match list.last buf with
  | None => Ok (buf ++ tokens)
  | Some back =>
    match tokens with
    | [] => Stop (UB "front() of an empty vector")
    | t :: ts => Ok (removelast buf ++ [back ++ t] ++ ts)
    end
  end.

(** [while (bufferLength > MAX_BUFFER_CHARS)] *)
Fixpoint pop_lines (buf : list str) (n : Z) : outcome (list str * Z) :=
  if MAX_BUFFER_CHARS <? n then
    match buf with
    | [] => Stop (UB "begin() of an empty deque")
    | l :: buf' => pop_lines buf' (n - len l)
    end
  else Ok (buf, n).

Definition erase_lines (buf : list str) (n : Z) : list str * Z :=
  if (MAX_BUFFER_LINES <? length buf)%nat then
    let amountToErase := (length buf - MAX_BUFFER_LINES)%nat in
    (drop amountToErase buf, n - total (take amountToErase buf))
  else (buf, n).

Definition absorb (newChars : str) (t : TerminalHandler) : outcome TerminalHandler :=
  let tokens := split newChars LF in
  let n := bufferLength t + total tokens in
  match append_tokens (buffer t) tokens with
  | Stop f => Stop f
  | Ok buf =>
    let '(buf, n) := erase_lines buf n in
    match pop_lines buf n with
    | Stop f => Stop f
    | Ok (buf, n) => Ok (set_buffer buf n t)
    end
  end.

Section Terminal.
Context {W : Type} `{Pty W} `{SocketHandler W}.

(** The parent's side of [start]. *)
Definition start : M (TerminalHandler * W) unit :=
  r ← on_snd pty_fork;
  match r with
  | IoErr _ => fatal "Error"
  | IoOk (fd, pid) => on_fst (modify (set_child fd pid))
  end.

Definition pollUserTerminal : M (TerminalHandler * W) str :=
  t ← on_fst get;
  if negb (run t) then mret []
  else
    ready ← on_snd (pty_select (masterFd t));
    if negb ready then mret []
    else
      r ← on_snd (pty_read (masterFd t) BUF_SIZE);
      match r with
      | IoErr _ =>
        _ ← on_fst (put (set_run false t));
        mret []
      | IoOk [] =>
        w ← on_snd (pty_waitid (childPid t));
        match w with
        | IoErr e => if e =? ECHILD then _ ← on_fst (put (set_run false t)); mret [] else fatal "Error"
        | IoOk _ => _ ← on_fst (put (set_run false t)); mret []
        end
      | IoOk newChars =>
        t' ← lift (absorb newChars t);
        _ ← on_fst (put t');
        mret newChars
      end.

Definition appendData (fuel : nat) (data : str) : M (TerminalHandler * W) unit :=
  t ← on_fst get;
  on_snd (Raw.writeAll fuel (masterFd t) data).

Definition updateTerminalSize (col row : Z) : M (TerminalHandler * W) unit :=
  t ← on_fst get;
  on_snd (pty_winsize (masterFd t) col row).

Definition stop : M (TerminalHandler * W) unit :=
  t ← on_fst get;
  _ ← on_snd (pty_kill (childPid t));
  on_fst (modify (set_run false)).
End Terminal.

End Terminal.
Import Terminal.

(** ** The buffer *)

(** [bufferLength] counts the characters of the lines, and both limits hold. *)
Definition terminal_ok (t : TerminalHandler) : Prop :=
  bufferLength t = total (buffer t) ∧ (length (buffer t) ≤ MAX_BUFFER_LINES)%nat ∧
  bufferLength t <= MAX_BUFFER_CHARS.

Lemma total_app a b : total (a ++ b) = total a + total b.
Proof. unfold total. rewrite concat_app, length_app. lia. Qed.

Lemma total_cons a l : total (a :: l) = len a + total l.
Proof. unfold total. cbn [concat]. rewrite length_app. lia. Qed.

Lemma total_one a : total [a] = len a.
Proof. rewrite total_cons. unfold total. cbn. lia. Qed.

Lemma append_tokens_ok buf tokens :
  tokens ≠ [] → ∃ buf', append_tokens buf tokens = Ok buf' ∧
    concat buf' = concat buf ++ concat tokens ∧
    length buf' = match buf with [] => length tokens | _ => pred (length buf + length tokens) end.
Proof.
  intros Ht. unfold append_tokens.
  destruct (list.last buf) as [back|] eqn:El.
  - destruct tokens as [|t ts]; [done|]. eexists. split; [done|].
    apply last_Some in El as [init ->]. rewrite removelast_last.
    rewrite !concat_app, !length_app. cbn [concat length]. rewrite !app_nil_r, <-!app_assoc.
    split; [done|]. destruct init; cbn; lia.
  - apply last_None in El as ->. by exists tokens.
Qed.

Lemma erase_lines_spec buf n :
  n = total buf → ∃ k, (erase_lines buf n).1 = drop k buf ∧
    (erase_lines buf n).2 = total (drop k buf) ∧
    (length (drop k buf) ≤ MAX_BUFFER_LINES)%nat ∧ ((length buf ≤ MAX_BUFFER_LINES)%nat → k = O).
Proof.
  intros ->. unfold erase_lines. destruct (MAX_BUFFER_LINES <? length buf)%nat eqn:Hlt.
  - apply Nat.ltb_lt in Hlt. exists (length buf - MAX_BUFFER_LINES)%nat.
    set (k := (length buf - MAX_BUFFER_LINES)%nat).
    assert (total buf = total (take k buf) + total (drop k buf)) as ->
      by by rewrite <-total_app, take_drop.
    cbn. rewrite length_drop. subst k. split_and!; [done|lia|lia|lia].
  - apply Nat.ltb_ge in Hlt. by exists O.
Qed.

Lemma pop_lines_spec buf n :
  n = total buf → ∃ k, pop_lines buf n = Ok (drop k buf, total (drop k buf)) ∧
    total (drop k buf) <= MAX_BUFFER_CHARS ∧ (total buf <= MAX_BUFFER_CHARS → k = O).
Proof.
  revert n. induction buf as [|l buf IH]; intros n Hn; cbn [pop_lines].
  - exists O. rewrite Hn. done.
  - destruct (MAX_BUFFER_CHARS <? n) eqn:Hlt; b2p; [|exists O; subst n; by split_and!].
    destruct (IH (n - len l)) as (k & Hp & Hb & _); [rewrite Hn, total_cons; lia|].
    exists (S k). split_and!; [done|done|]. rewrite Hn in Hlt. lia.
Qed.

(** C33. The scroll-back buffer stays within 1024 lines and 128K characters, with an
    exact count, whatever the terminal prints: the code never reaches behind an empty
    buffer, keeps the most recent output (the text of its lines is a suffix of the old
    text followed by the new output without its line feeds), and drops nothing while
    the limits are not exceeded. *)
Theorem absorb_bounded newChars t :
  terminal_ok t → newChars ≠ [] →
  ∃ t', absorb newChars t = Ok t' ∧ terminal_ok t' ∧
    let text := concat (buffer t) ++ filter (λ c, c ≠ LF) newChars in
    concat (buffer t') `suffix_of` text ∧
    (len text <= MAX_BUFFER_CHARS →
     (length (buffer t) + length (split newChars LF) ≤ MAX_BUFFER_LINES)%nat →
     concat (buffer t') = text).
Proof.
  intros (Hn & _ & _) Hne. unfold absorb.
  destruct (append_tokens_ok (buffer t) (split newChars LF)) as (buf & -> & Hc & Hl); [by apply split_ne|].
  rewrite split_concat in Hc.
  destruct (erase_lines_spec buf (bufferLength t + total (split newChars LF))) as (k & He1 & He2 & Hk & Hk0).
  { rewrite Hn. unfold total. rewrite Hc, split_concat, length_app. lia. }
  destruct (erase_lines _ _) as [buf1 n1]. cbn [fst snd] in *. subst buf1 n1.
  destruct (pop_lines_spec (drop k buf) _ eq_refl) as (j & -> & Hj & Hj0).
  rewrite drop_drop in *. eexists. split; [done|]. cbn. split; [|split].
  - split_and!; [done| |done]. cbn [buffer set_buffer]. rewrite length_drop in Hk |- *. lia.
  - rewrite <-Hc. exists (concat (take (k + j) buf)). by rewrite <-concat_app, take_drop.
  - intros Htext Hlines. rewrite <-Hc in Htext |- *. rewrite Hk0.
    + rewrite Hj0; [done|]. by rewrite Hk0; [done|destruct (buffer t); cbn in *; lia].
    + destruct (buffer t); cbn in *; lia.
Qed.

(** While the limits hold nothing is dropped. *)
Lemma absorb_fits newChars t buf :
  bufferLength t = total (buffer t) → newChars ≠ [] →
  append_tokens (buffer t) (split newChars LF) = Ok buf →
  total buf <= MAX_BUFFER_CHARS → (length buf ≤ MAX_BUFFER_LINES)%nat →
  absorb newChars t = Ok (set_buffer buf (total buf) t).
Proof.
  intros Hn Hne Ha Hc Hl. unfold absorb. rewrite Ha.
  destruct (append_tokens_ok (buffer t) (split newChars LF)) as (buf' & Ha' & Hcat & _); [by apply split_ne|].
  rewrite Ha in Ha'. injection Ha' as <-.
  assert (bufferLength t + total (split newChars LF) = total buf) as ->
    by (rewrite Hn; unfold total; rewrite Hcat, length_app; lia).
  destruct (erase_lines_spec buf _ eq_refl) as (k & H1 & H2 & _ & Hk).
  destruct (erase_lines _ _) as [buf1 n1]. cbn [fst snd] in *. rewrite (Hk Hl) in *. subst buf1 n1.
  rewrite drop_0. destruct (pop_lines_spec buf _ eq_refl) as (j & -> & _ & Hj).
  by rewrite (Hj Hc), drop_0.
Qed.

(** The cut into lines depends on how the output happens to be divided into
    reads: when one read ends with a line feed, the line feed is lost and the next
    output continues the same line, although the same bytes in one read are two
    lines. *)
Theorem line_feed_lost fd pid a b :
  LF ∉ a → LF ∉ b → a ≠ [] → b ≠ [] → len a + len b <= MAX_BUFFER_CHARS →
  (∃ t1 t2, absorb (a ++ [LF]) (init fd pid) = Ok t1 ∧ absorb b t1 = Ok t2 ∧ buffer t2 = [a ++ b]) ∧
  (∃ t, absorb (a ++ LF :: b) (init fd pid) = Ok t ∧ buffer t = [a; b]).
Proof.
  intros Ha Hb Ha0 Hb0 Hlen.
  assert (2 ≤ MAX_BUFFER_LINES)%nat as Hml by (unfold MAX_BUFFER_LINES; lia).
  assert (∀ c l, a ++ c :: l ≠ []) as Hne by by destruct a.
  split.
  - eexists _, _. split_and!.
    + apply (absorb_fits _ _ [a]); [done|apply Hne|by rewrite split_cons|rewrite total_one; lia|cbn [length]; lia].
    + apply (absorb_fits _ _ [a ++ b]); [done|done|by rewrite split_one| |cbn [length]; lia].
      rewrite total_one, length_app. lia.
    + done.
  - eexists. split.
    + apply (absorb_fits _ _ [a; b]); [done|apply Hne|by rewrite split_cons, split_one| |cbn [length]; lia].
      rewrite total_cons, total_one. lia.
    + done.
Qed.

(** ** Witnesses *)

Definition t_shell : TerminalHandler := mkTerminal 9 100 true [lit "$ "] 2.

Lemma absorb_bounded_witness :
  ∃ t', absorb (lit "ls" ++ LF :: lit "a b") t_shell = Ok t' ∧
    buffer t' = [lit "$ ls"; lit "a b"] ∧ bufferLength t' = 7.
Proof.
  destruct (absorb_bounded (lit "ls" ++ LF :: lit "a b") t_shell) as (t' & Ha & _ & _).
  - split_and!; vm_compute; congruence || lia.
  - discriminate.
  - exists t'. split; [exact Ha|]. vm_compute in Ha. injection Ha as <-. split; reflexivity.
Defined.

Lemma line_feed_lost_witness :
  ∃ t1 t2, absorb (lit "one" ++ [LF]) (init 9 100) = Ok t1 ∧ absorb (lit "two") t1 = Ok t2 ∧
    buffer t2 = [lit "onetwo"].
Proof.
  refine (proj1 (line_feed_lost 9 100 (lit "one") (lit "two") _ _ _ _ _));
    try discriminate; try (vm_compute; congruence);
    intros Hin; repeat (apply elem_of_cons in Hin as [Hin|Hin]; [discriminate Hin|]);
    by apply not_elem_of_nil in Hin.
Defined.
