(* ===== verification/Multiplexer.v ===== *)
(** * [htm/MultiplexerState]: tabs, splits and panes

    [MultiplexerState.cpp], with [writeB64]/[readB64] of [SocketHandler.cpp].  The maps
    hold shared objects that are reached only through them, so they hold the values.
    Sizes of panes are IEEE single-precision numbers ([SpecFloat]); unique ids and the
    base-64 coder come from third-party code. *)

From Stdlib Require Import SpecFloat.
From stdpp Require Import sorting.
From S2P Require Import Prelude Sockets CxxText RawSockets Scrollback.

(** ** Third-party code *)

Class Uuids (W : Type) := { uuid4 : M W str }.

Class Base64 := {
  b64_EncodedLength : nat → nat;
  b64_Encode : str → option str;
  b64_Decode : str → option str;
}.

Section B64.
Context {W : Type} `{SocketHandler W} `{Base64}.

Definition writeB64 (fuel : nat) (fd : Z) (buf : str) : M W unit :=
  match b64_Encode buf with
  | None => throw RuntimeError "b64 decode failed"
  | Some s => writeAllOrThrow fuel fd s false
  end.

(** The decoded bytes must fill the [count] bytes of the buffer. *)
Definition readB64 (fuel : nat) (fd : Z) (count : nat) : M W str :=
  s ← readAll fuel fd (b64_EncodedLength count) false;
  match b64_Decode s with
  | Some out => if decide (length out = count) then mret out else throw RuntimeError "b64 decode failed"
  | None => throw RuntimeError "b64 decode failed"
  end.

Definition readB64EncodedLength (fuel : nat) (fd : Z) (encodedLength : nat) : M W str :=
  s ← readAll fuel fd encodedLength false;
  match b64_Decode s with
  | Some out => mret out
  | None => throw RuntimeError "b64 decode failed"
  end.
End B64.

(** ** Single-precision sizes *)

Definition float32 := spec_float.
Definition f_of_int (n : Z) : float32 := binary_normalize 24 128 n 0 false.
Definition f_mul : float32 → float32 → float32 := SFmul 24 128.
Definition f_div : float32 → float32 → float32 := SFdiv 24 128.
Definition f_half : float32 := f_div (f_of_int 1) (f_of_int 2).

(** ** The state *)

Record Pane := mkPane { pane_id : str; pane_parentId : str; terminal : Terminal.TerminalHandler }.
Record Split := mkSplit {
  split_id : str;
  split_parentId : str;
  vertical : bool;
  panes_or_splits : list str;
  sizes : list float32;
}.
Record Tab := mkTab { tab_id : str; pane_or_split_id : str; order : Z }.

Definition set_pane_parent (p : str) (x : Pane) : Pane := mkPane (pane_id x) p (terminal x).
Definition set_terminal (t : Terminal.TerminalHandler) (x : Pane) : Pane :=
  mkPane (pane_id x) (pane_parentId x) t.
Definition set_children (l : list str) (z : list float32) (x : Split) : Split :=
  mkSplit (split_id x) (split_parentId x) (vertical x) l z.
Definition set_tab_child (c : str) (x : Tab) : Tab := mkTab (tab_id x) c (order x).
Definition set_order (o : Z) (x : Tab) : Tab := mkTab (tab_id x) (pane_or_split_id x) o.

(** [std::map] is walked in the order of its keys (as unsigned bytes). *)
Fixpoint str_leb (a b : str) : bool :=
  match a, b with
  | [], _ => true
  | _, [] => false
  | x :: a', y :: b' =>
    if bval x <? bval y then true else if bval y <? bval x then false else str_leb a' b'
  end.

Definition in_order {A} (m : gmap str A) : list (str * A) :=
  merge_sort (λ p q, Is_true (str_leb p.1 q.1)) (map_to_list m).

Module Mux.

Record MultiplexerState := mkMux {
  tabs : gmap str Tab;
  panes : gmap str Pane;
  splits : gmap str Split;
  closed : gset str;
}.

Definition set_tabs (f : gmap str Tab → gmap str Tab) (m : MultiplexerState) : MultiplexerState :=
  mkMux (f (tabs m)) (panes m) (splits m) (closed m).
Definition set_panes (f : gmap str Pane → gmap str Pane) (m : MultiplexerState) : MultiplexerState :=
  mkMux (tabs m) (f (panes m)) (splits m) (closed m).
Definition set_splits (f : gmap str Split → gmap str Split) (m : MultiplexerState) : MultiplexerState :=
  mkMux (tabs m) (panes m) (f (splits m)) (closed m).
Definition add_closed (i : str) (m : MultiplexerState) : MultiplexerState :=
  mkMux (tabs m) (panes m) (splits m) ({[i]} ∪ closed m).

Definition numPanes (m : MultiplexerState) : Z := to_i32 (Z.of_nat (size (panes m))).

Definition getTab (i : str) (m : MultiplexerState) : outcome Tab :=
  match tabs m !! i with Some x => Ok x | None => Stop (Fatal "Tried to get a pane that doesn't exist") end.
Definition getPane (i : str) (m : MultiplexerState) : outcome Pane :=
  match panes m !! i with Some x => Ok x | None => Stop (Fatal "Tried to get a pane that doesn't exist") end.
Definition getSplit (i : str) (m : MultiplexerState) : outcome Split :=
  match splits m !! i with Some x => Ok x | None => Stop (Fatal "Tried to get a pane that doesn't exist") end.

Definition fatalIfFound (i : str) (m : MultiplexerState) : outcome unit :=
  match panes m !! i, splits m !! i, tabs m !! i with
  | Some _, _, _ => Stop (Fatal "Found unexpected id in panes")
  | None, Some _, _ => Stop (Fatal "Found unexpected id in splits")
  | None, None, Some _ => Stop (Fatal "Found unexpected id in tabs")
  | None, None, None => Ok tt
  end.

(** The loops that look a child up: its position; nothing in an empty vector, and an
    abort after the last child. *)
Fixpoint find_child (x : str) (l : list str) (a : nat) : outcome (option nat) :=
  match l with
  | [] => Ok None
  | c :: l' =>
    if decide (c = x) then Ok (Some a)
    else match l' with
    | [] => Stop (Fatal "child missing from parent")
    | _ => find_child x l' (S a)
    end
  end.

(** [newSplit] for a source whose parent is a split of the same orientation. *)
Definition continue_split (splitId paneId : str) (s : Split) (m : MultiplexerState) : MultiplexerState :=
  let s' := set_children (panes_or_splits s ++ [paneId])
              (((λ x, f_div x (f_of_int 2)) <$> sizes s) ++ [f_half]) s in
  set_panes (alter (set_pane_parent (split_id s)) paneId) (set_splits (<[splitId := s']>) m).

(** A new split [uuid] of [sourceId] and [paneId] below [parent]. *)
Definition add_split (uuid parent sourceId paneId : str) (v : bool) (m : MultiplexerState)
    : MultiplexerState :=
  set_panes (λ p, alter (set_pane_parent uuid) sourceId (alter (set_pane_parent uuid) paneId p))
    (set_splits (<[uuid := mkSplit uuid parent v [sourceId; paneId] [f_half; f_half]]>) m).

(** The parent split's child [old] becomes [new]. *)
Definition replace_child (splitId old new : str) (m : MultiplexerState) : outcome MultiplexerState :=
  match splits m !! splitId with
  | None => Stop (Fatal "Tried to get a pane that doesn't exist")
  | Some s =>
    match find_child old (panes_or_splits s) 0 with
    | Stop f => Stop f
    | Ok None => Ok m
    | Ok (Some a) => Ok (set_splits (<[splitId := set_children (<[a := new]> (panes_or_splits s)) (sizes s) s]>) m)
    end
  end.

(** The layout part of [newSplit], when [paneId] has been inserted; [uuid] is drawn only
    for a new split. *)
Definition continues (sourcePane : Pane) (v : bool) (m : MultiplexerState) : option Split :=
  match splits m !! pane_parentId sourcePane with
  | Some s => if bool_decide (vertical s = v) then Some s else None
  | None => None
  end.

Definition divide (uuid sourceId paneId : str) (v : bool) (sourcePane : Pane) (m : MultiplexerState)
    : outcome MultiplexerState :=
  let parent := pane_parentId sourcePane in
  match splits m !! parent with
  | Some parentSplit =>
    replace_child parent sourceId uuid (add_split uuid (split_id parentSplit) sourceId paneId v m)
  | None =>
    match getTab parent m with
    | Stop f => Stop f
    | Ok tab =>
      Ok (set_tabs (alter (set_tab_child uuid) parent) (add_split uuid (tab_id tab) sourceId paneId v m))
    end
  end.

(** The rest of [closePane] for a pane (already removed) whose parent is a tab. *)
Definition shift_order (o : Z) (t : Tab) : Tab := if o <? order t then set_order (order t - 1) t else t.

Definition close_tab (paneId : str) (tab : Tab) (m : MultiplexerState) : outcome MultiplexerState :=
  let m := set_tabs (fmap (shift_order (order tab))) m in
  match list_find (λ p, pane_or_split_id p.2 = paneId) (in_order (tabs m)) with
  | Some (_, (i, _)) => Ok (set_tabs (delete i) m)
  | None => Stop (Fatal "Could not find tab")
  end.

(** "Normalize the sizes array" *)
Definition normalize (l : list float32) : list float32 :=
  let newSize := len l in
  (λ x, f_div (f_mul x (f_of_int (newSize + 1))) (f_of_int newSize)) <$> l.

(** The split collapses into its last child, which must be a pane. *)
Definition collapse (s : Split) (m : MultiplexerState) : outcome MultiplexerState :=
  match panes_or_splits s with
  | [] => Stop (UB "panes_or_splits[0] of an empty vector")
  | c :: _ =>
    match getPane c m with
    | Stop f => Stop f
    | Ok pane =>
      let parent := split_parentId s in
      let m := set_panes (alter (set_pane_parent parent) c) m in
      let m' :=
        match tabs m !! parent with
        | Some _ => Ok (set_tabs (alter (set_tab_child (pane_id pane)) parent) m)
        | None => replace_child parent (split_id s) (pane_id pane) m
        end in
      match m' with
      | Stop f => Stop f
      | Ok m' => Ok (set_splits (delete (split_id s)) m')
      end
    end
  end.

(** ... and for a pane below a split. *)
Definition close_below_split (pane : Pane) (m : MultiplexerState) : outcome MultiplexerState :=
  match getSplit (pane_parentId pane) m with
  | Stop f => Stop f
  | Ok s =>
    match find_child (pane_id pane) (panes_or_splits s) 0 with
    | Stop f => Stop f
    | Ok a =>
      let removed :=
        match a with
        | None => Ok s
        | Some a =>
          if decide (a < length (sizes s))%nat
          then Ok (set_children (delete a (panes_or_splits s)) (delete a (sizes s)) s)
          else Stop (UB "erase past the end of sizes")
        end in
      match removed with
      | Stop f => Stop f
      | Ok s =>
        if (1 <? length (panes_or_splits s))%nat then
          let s := set_children (panes_or_splits s) (normalize (sizes s)) s in
          Ok (set_splits (<[pane_parentId pane := s]>) m)
        else collapse s (set_splits (<[pane_parentId pane := s]>) m)
      end
    end
  end.

Definition close_layout (pane : Pane) (m : MultiplexerState) : outcome MultiplexerState :=
  match tabs m !! pane_parentId pane with
  | Some tab => close_tab (pane_id pane) tab m
  | None => close_below_split pane m
  end.

(** ** The operations *)

(** Keep the outcome's failure, or take its state. *)
Definition settle {W} (f : MultiplexerState → outcome MultiplexerState) : M (MultiplexerState * W) unit :=
  m ← on_fst get;
  m' ← lift (f m);
  on_fst (put m').

(** Header codes of [HtmHeaderCodes.hpp]. *)
Definition APPEND_TO_PANE : ascii := "4"%char.
Definition SERVER_CLOSE_PANE : ascii := "8"%char.

Section Mux.
Context {W : Type} `{Pty W} `{SocketHandler W} `{Uuids W} `{Base64}.

Definition new_terminal : M W Terminal.TerminalHandler := λ k,
  match Terminal.start (Terminal.init 0 0, k) with
  | (Ok _, (t, k')) => (Ok t, k')
  | (Stop f, (_, k')) => (Stop f, k')
  end.

Definition on_terminal {A} (paneId : str) (m : M (Terminal.TerminalHandler * W) A)
    : M (MultiplexerState * W) A := λ '(s, k),
  match panes s !! paneId with
  | None => (Stop (UB "terminal"), (s, k))
  | Some p =>
    let '(r, (t, k')) := m (terminal p, k) in
    (r, (set_panes (<[paneId := set_terminal t p]>) s, k'))
  end.

Definition MultiplexerState_new : M W MultiplexerState :=
  tabId ← uuid4;
  paneId ← uuid4;
  t ← new_terminal;
  mret (mkMux {[ tabId := mkTab tabId paneId 0 ]} {[ paneId := mkPane paneId tabId t ]} ∅ ∅).

Definition appendData (fuel : nat) (uid data : str) : M (MultiplexerState * W) unit :=
  m ← on_fst get;
  match panes m !! uid with
  | None => fatal "Tried to write to non-existent terminal"
  | Some _ => on_terminal uid (Terminal.appendData fuel data)
  end.

Definition newTab (tabId paneId : str) : M (MultiplexerState * W) unit :=
  m ← on_fst get;
  _ ← lift (fatalIfFound tabId m);
  _ ← lift (fatalIfFound paneId m);
  let tab := mkTab tabId paneId (Z.of_nat (size (tabs m))) in
  _ ← on_fst (modify (set_tabs (<[tabId := tab]>)));
  t ← on_snd new_terminal;
  on_fst (modify (set_panes (<[paneId := mkPane paneId tabId t]>))).

Definition newSplit (sourceId paneId : str) (v : bool) : M (MultiplexerState * W) unit :=
  m ← on_fst get;
  _ ← lift (fatalIfFound paneId m);
  t ← on_snd new_terminal;
  _ ← on_fst (modify (set_panes (<[paneId := mkPane paneId [] t]>)));
  m ← on_fst get;
  sourcePane ← lift (getPane sourceId m);
  match continues sourcePane v m with
  | Some s => on_fst (modify (continue_split (pane_parentId sourcePane) paneId s))
  | None =>
    _ ← match splits m !! pane_parentId sourcePane with
        | Some _ => mret tt
        | None => _ ← lift (getTab (pane_parentId sourcePane) m); mret tt
        end;
    uuid ← on_snd uuid4;
    settle (divide uuid sourceId paneId v sourcePane)
  end.

Definition closePane (paneId : str) : M (MultiplexerState * W) unit :=
  m ← on_fst get;
  if decide (paneId ∈ closed m) then mret tt
  else
    match panes m !! paneId with
    | None => fatal "Tried to close a pane that doesn't exist"
    | Some pane =>
      _ ← on_fst (modify (add_closed paneId ∘ set_panes (delete paneId)));
      _ ← on_snd (pty_kill (Terminal.childPid (terminal pane)));
      settle (close_layout pane)
    end.

Definition resizePane (paneId : str) (cols rows : Z) : M (MultiplexerState * W) unit :=
  m ← on_fst get;
  _ ← lift (getPane paneId m);
  on_terminal paneId (Terminal.updateTerminalSize cols rows).

(** A header, the length of what follows, and the id of the pane. *)
Definition write_header (fuel : nat) (fd : Z) (header : ascii) (length : Z) (paneId : str) : M W unit :=
  _ ← writeAllOrThrow fuel fd [header] false;
  _ ← writeB64 fuel fd (le_encode 4 (to_u32 length));
  writeAllOrThrow fuel fd paneId false.

Definition append_to_pane (fuel : nat) (fd : Z) (paneId data : str) : M W unit :=
  _ ← write_header fuel fd APPEND_TO_PANE
        (Z.of_nat (b64_EncodedLength (length data)) + len paneId) paneId;
  writeB64 fuel fd data.

(** [update] over the panes of the map: it ends after the first pane that is closed. *)
Fixpoint update_loop (fuel : nat) (endpointFd : Z) (ids : list str) : M (MultiplexerState * W) unit :=
  match ids with
  | [] => mret tt
  | paneId :: ids' =>
    terminalData ← on_terminal paneId Terminal.pollUserTerminal;
    _ ← (match terminalData with
         | [] => mret tt
         | _ => on_snd (append_to_pane fuel endpointFd paneId terminalData)
         end);
    m ← on_fst get;
    p ← lift (getPane paneId m);
    if Terminal.run (terminal p) then update_loop fuel endpointFd ids'
    else
      _ ← closePane paneId;
      on_snd (write_header fuel endpointFd SERVER_CLOSE_PANE (len paneId) paneId)
  end.

Definition update (fuel : nat) (endpointFd : Z) : M (MultiplexerState * W) unit :=
  m ← on_fst get;
  update_loop fuel endpointFd (in_order (panes m)).*1.

(** The lines of a terminal, as they are sent again (no line feed is put after
    lines that are empty so far). *)
Definition replay (buffer : list str) : str :=
  foldl (λ acc it, (if decide (acc = []) then [] else acc ++ [LF]) ++ it) [] buffer.

Fixpoint send_loop (fuel : nat) (endpointFd : Z) (l : list (str * Pane)) : M (MultiplexerState * W) unit :=
  match l with
  | [] => mret tt
  | (paneId, p) :: l' =>
    let buffer := Terminal.buffer (terminal p) in
    _ ← (if decide (buffer = []) then mret tt
         else on_snd (append_to_pane fuel endpointFd paneId (replay buffer)));
    send_loop fuel endpointFd l'
  end.

Definition sendTerminalBuffers (fuel : nat) (endpointFd : Z) : M (MultiplexerState * W) unit :=
  m ← on_fst get;
  send_loop fuel endpointFd (in_order (panes m)).
End Mux.

End Mux.
Import Mux.
