(* ===== verification/MultiplexerSpec.v ===== *)
(** * The layout of the multiplexer is a forest

    Tabs are the roots, splits the inner nodes and panes the leaves.  [mux_ok] says
    that the links in both directions agree and that the other fields are in order;
    every operation preserves it. *)

From stdpp Require Import sorting.
From S2P Require Import Prelude Sockets Packets Wire CxxText RawSockets Scrollback Multiplexer.
Import Mux.

(** ** Forests of ids *)

(** The parent of a node, and the children of a tab or a split. *)
Definition parent_of (m : MultiplexerState) (c : str) : option str :=
  match panes m !! c with
  | Some p => Some (pane_parentId p)
  | None => split_parentId <$> (splits m !! c)
  end.

Definition children (m : MultiplexerState) (p : str) : list str :=
  match splits m !! p with
  | Some s => panes_or_splits s
  | None => match tabs m !! p with Some t => [pane_or_split_id t] | None => [] end
  end.

(** Both directions of the links agree, and no child is listed twice. *)
Definition forest (par : str → option str) (ch : str → list str) : Prop :=
  (∀ p c, c ∈ ch p ↔ par c = Some p) ∧ (∀ p, NoDup (ch p)).

Lemma forest_ext par par' ch ch' :
  (∀ c, par c = par' c) → (∀ p, ch p = ch' p) → forest par ch → forest par' ch'.
Proof. intros Hp Hc [Ha Hb]. split; intros; rewrite <-?Hp, <-Hc; auto. Qed.

Definition upd {A} (k : str) (a : A) (f : str → A) : str → A := λ x, if decide (x = k) then a else f x.

Lemma upd_eq {A} k (a : A) f : upd k a f k = a.
Proof. unfold upd. by rewrite decide_True. Qed.
Lemma upd_ne {A} k (a : A) f x : x ≠ k → upd k a f x = f x.
Proof. intros. unfold upd. by rewrite decide_False. Qed.

(** A new child at the end of a node. *)
Lemma forest_append par ch p c :
  forest par ch → par c = None → forest (upd c (Some p) par) (upd p (ch p ++ [c]) ch).
Proof.
  intros [Ha Hb] Hc.
  assert (∀ q, c ∉ ch q) as Hno by (intros q Hin%Ha; congruence).
  split.
  - intros q d. unfold upd. destruct (decide (q = p)) as [->|Hq], (decide (d = c)) as [->|Hd].
    + rewrite elem_of_app, list_elem_of_singleton. naive_solver.
    + rewrite elem_of_app, list_elem_of_singleton, Ha. naive_solver.
    + split; [intros ?; by edestruct Hno|congruence].
    + apply Ha.
  - intros q. unfold upd. case_decide; [|done]. apply list.NoDup_app. split_and!; [done| |apply list.NoDup_singleton].
    intros d Hd ->%list_elem_of_singleton. by edestruct Hno.
Qed.

(** A child is taken out. *)
Lemma forest_remove par ch p c l :
  forest par ch → par c = Some p → NoDup l → (∀ d, d ∈ l ↔ d ∈ ch p ∧ d ≠ c) →
  forest (upd c None par) (upd p l ch).
Proof.
  intros [Ha Hb] Hc Hl Hin. split.
  - intros q d. unfold upd. destruct (decide (q = p)) as [->|Hq].
    + rewrite Hin, Ha. case_decide; naive_solver.
    + rewrite Ha. case_decide; naive_solver.
  - intros q. unfold upd. by case_decide.
Qed.

(** One child is replaced by a node that was nowhere. *)
Lemma forest_replace par ch p c d l1 l2 :
  forest par ch → ch p = l1 ++ c :: l2 → par d = None → c ≠ d →
  forest (upd d (Some p) (upd c None par)) (upd p (l1 ++ d :: l2) ch).
Proof.
  intros Hf Hp Hd Hcd. pose proof Hf as [Ha Hb].
  assert (par c = Some p) as Hc by (apply Ha; rewrite Hp; set_solver).
  pose proof (Hb p) as Hnd. rewrite Hp in Hnd.
  apply list.NoDup_app in Hnd as (Hn1 & Hn12 & [Hn2 Hn3]%list.NoDup_cons).
  assert (d ∉ ch p) as Hdp by (intros Hin%Ha; congruence). rewrite Hp in Hdp.
  split.
  - intros q x. unfold upd. destruct (decide (q = p)) as [->|Hq].
    + assert (x ∈ l1 ++ d :: l2 ↔ x = d ∨ (x ∈ ch p ∧ x ≠ c)) as ->.
      { rewrite Hp. split; [|set_solver]. rewrite elem_of_app, elem_of_cons.
        intros [Hx|[->|Hx]]; [right|by left|right]; (split; [set_solver|]); intros ->; [|done].
        apply (Hn12 c); set_solver. }
      rewrite Ha. repeat case_decide; naive_solver.
    + rewrite Ha. repeat case_decide; naive_solver.
  - intros q. unfold upd. case_decide; [|done]. apply list.NoDup_app. split_and!; [done| |].
    + intros x Hx Hx'. apply (Hn12 x Hx). set_solver.
    + constructor; [set_solver|done].
Qed.

(** A node without children gets its only child. *)
Lemma forest_root par ch t c :
  forest par ch → par c = None → ch t = [] → forest (upd c (Some t) par) (upd t [c] ch).
Proof. intros Hf Hc Ht. pose proof (forest_append par ch t c Hf Hc) as H. by rewrite Ht in H. Qed.

(** The parent and the orientation of a split. *)
Definition shape (m : MultiplexerState) (i : str) : option (str * bool) :=
  (λ s, (split_parentId s, vertical s)) <$> (splits m !! i).

(** ** The invariant *)

(** The tabs are numbered from 0, without gaps or repetitions. *)
Record tabs_ok (t : gmap str Tab) : Prop := {
  tab_ids : ∀ i x, t !! i = Some x → tab_id x = i;
  tab_order_range : ∀ i x, t !! i = Some x → 0 <= order x < Z.of_nat (size t);
  tab_order_inj : ∀ i j x y, t !! i = Some x → t !! j = Some y → order x = order y → i = j;
}.

Lemma tabs_ok_insert i c t :
  tabs_ok t → t !! i = None → tabs_ok (<[i := mkTab i c (Z.of_nat (size t))]> t).
Proof.
  intros [Hid Hr Hinj] Hi. split.
  - intros j x Hj. apply lookup_insert_Some in Hj as [[<- <-]|[_ Hj]]; [done|eauto].
  - intros j x Hj. rewrite map_size_insert_None by done.
    apply lookup_insert_Some in Hj as [[_ <-]|[_ Hj]]; [cbn; lia|]. specialize (Hr j x Hj). lia.
  - intros j l x y Hj Hl Ho.
    apply lookup_insert_Some in Hj as [[<- <-]|[Hj0 Hj]], Hl as [[<- <-]|[Hl0 Hl]]; [done| | |eauto].
    + specialize (Hr l y Hl). cbn in Ho. lia.
    + specialize (Hr j x Hj). cbn in Ho. lia.
Qed.

Lemma size_alter (f : Tab → Tab) (i : str) (m : gmap str Tab) : size (alter f i m) = size m.
Proof. by rewrite <-!(size_dom (D := gset str)), dom_alter_L. Qed.

Lemma lookup_tab_child (c p : str) (t : gmap str Tab) (i : str) x :
  alter (set_tab_child c) p t !! i = Some x → ∃ y, t !! i = Some y ∧ order x = order y ∧ tab_id x = tab_id y.
Proof.
  destruct (decide (i = p)) as [->|]; [|rewrite lookup_alter_ne by done; eauto].
  rewrite lookup_alter_eq. intros (y & Hy & ->)%fmap_Some. by exists y.
Qed.

Lemma tabs_ok_child (c p : str) t : tabs_ok t → tabs_ok (alter (set_tab_child c) p t).
Proof.
  intros [Hid Hr Hinj]. split.
  - intros i x (y & Hy & _ & ->)%lookup_tab_child. eauto.
  - intros i x (y & Hy & -> & _)%lookup_tab_child. rewrite size_alter. eauto.
  - intros i j x y (x' & Hx & -> & _)%lookup_tab_child (y' & Hy & -> & _)%lookup_tab_child. eauto.
Qed.

(** The tabs behind a tab that is closed move forward. *)
Lemma tabs_ok_close i x t :
  tabs_ok t → t !! i = Some x → tabs_ok (delete i (shift_order (order x) <$> t)).
Proof.
  intros [Hid Hr Hinj] Hi.
  assert (∀ j y, delete i (shift_order (order x) <$> t) !! j = Some y →
    ∃ z, t !! j = Some z ∧ tab_id y = tab_id z ∧ order z ≠ order x ∧
      order y = if order x <? order z then order z - 1 else order z) as Hlk.
  { intros j y (Hj & (z & <- & Hz)%lookup_fmap_Some)%lookup_delete_Some. exists z.
    unfold shift_order. split_and!; [done|by case_match| |by case_match].
    intros Ho. by apply Hj, (Hinj i j x z). }
  assert (Z.of_nat (size (delete i (shift_order (order x) <$> t))) = Z.of_nat (size t) - 1) as Hs.
  { rewrite map_size_delete_Some; [|rewrite lookup_fmap, Hi; by eexists]. rewrite map_size_fmap.
    assert (size t ≠ O) by (intros ->%map_size_empty_inv; done). lia. }
  split.
  - intros j y (z & Hz & -> & _)%Hlk. eauto.
  - intros j y (z & Hz & _ & Ho & ->)%Hlk. rewrite Hs.
    pose proof (Hr j z Hz). pose proof (Hr i x Hi). case_match; b2p; lia.
  - intros j l y y' (z & Hz & _ & Ho & Ey)%Hlk (z' & Hz' & _ & Ho' & Ey')%Hlk Heq.
    apply (Hinj j l z z' Hz Hz'). rewrite Ey, Ey' in Heq. repeat case_match; b2p; lia.
Qed.

Record mux_ok (m : MultiplexerState) : Prop := {
  ok_forest : forest (parent_of m) (children m);
  ok_pane_ids : ∀ i p, panes m !! i = Some p → pane_id p = i;
  ok_split_ids : ∀ i s, splits m !! i = Some s → split_id s = i;
  ok_tab_split : ∀ i, is_Some (tabs m !! i) → splits m !! i = None;
  ok_pane_split : ∀ i, is_Some (panes m !! i) → splits m !! i = None;
  (** a split has at least two children, and as many sizes *)
  ok_split_children : ∀ i s, splits m !! i = Some s →
    (2 ≤ length (panes_or_splits s))%nat ∧ length (sizes s) = length (panes_or_splits s);
  (** a split below a split has the other orientation *)
  ok_alternate : ∀ i p v q w, shape m i = Some (p, v) → shape m p = Some (q, w) → v = negb w;
  ok_closed : ∀ i, i ∈ closed m → panes m !! i = None;
  ok_tabs : tabs_ok (tabs m);
}.

Lemma children_nil m p : splits m !! p = None → tabs m !! p = None → children m p = [].
Proof. unfold children. by intros -> ->. Qed.

Lemma mux_ok_child m p c :
  mux_ok m → parent_of m c = Some p → is_Some (tabs m !! p) ∨ is_Some (splits m !! p).
Proof.
  intros Hok Hc. apply (proj1 (ok_forest m Hok)) in Hc. unfold children in Hc.
  destruct (splits m !! p); [by right|]. destruct (tabs m !! p); [by left|]. by apply not_elem_of_nil in Hc.
Qed.

Lemma find_child_spec x l n :
  match find_child x l n with
  | Ok (Some a) => (n ≤ a)%nat ∧ l !! (a - n)%nat = Some x
  | Ok None => l = []
  | Stop _ => x ∉ l
  end.
Proof.
  revert n. induction l as [|c l IH]; intros n; cbn [find_child]; [done|].
  destruct (decide (c = x)) as [->|Hc]; [by rewrite Nat.sub_diag|].
  destruct l as [|d l]; [set_solver|]. specialize (IH (S n)).
  destruct (find_child x (d :: l) (S n)) as [[a|]|]; [|done|set_solver].
  destruct IH as [Hle IH]. split; [lia|]. by replace (a - n)%nat with (S (a - S n)) by lia.
Qed.

Lemma find_child_in x l :
  x ∈ l → ∃ a, find_child x l 0 = Ok (Some a) ∧ l !! a = Some x.
Proof.
  intros Hx. pose proof (find_child_spec x l 0) as H.
  destruct (find_child x l 0) as [[a|]|]; [|subst; by apply not_elem_of_nil in Hx|done].
  exists a. rewrite Nat.sub_0_r in H. naive_solver.
Qed.

(** ** New tabs *)

(** An id that no node has. *)
Definition unused (m : MultiplexerState) (i : str) : Prop :=
  panes m !! i = None ∧ splits m !! i = None ∧ tabs m !! i = None.

Lemma fatalIfFound_Ok i m : fatalIfFound i m = Ok tt ↔ unused m i.
Proof.
  unfold fatalIfFound, unused. destruct (panes m !! i), (splits m !! i), (tabs m !! i); naive_solver.
Qed.

Lemma unused_parent m i : unused m i → parent_of m i = None.
Proof. intros (Hp & Hs & _). unfold parent_of. by rewrite Hp, Hs. Qed.

Lemma unused_children m i : unused m i → children m i = [].
Proof. intros (_ & Hs & Ht). by apply children_nil. Qed.

Definition add_tab (tabId paneId : str) (t : Terminal.TerminalHandler) (m : MultiplexerState)
    : MultiplexerState :=
  set_panes (<[paneId := mkPane paneId tabId t]>)
    (set_tabs (<[tabId := mkTab tabId paneId (Z.of_nat (size (tabs m)))]>) m).

Lemma add_tab_ok tabId paneId t m :
  mux_ok m → unused m tabId → unused m paneId → paneId ∉ closed m → mux_ok (add_tab tabId paneId t m).
Proof.
  intros Hok Ht Hp Hc. pose proof Ht as (Ht1 & Ht2 & Ht3). pose proof Hp as (Hp1 & Hp2 & Hp3).
  split; cbn [tabs panes splits closed add_tab set_panes set_tabs].
  - eapply forest_ext; [| |apply (forest_root _ _ tabId paneId (ok_forest m Hok));
      [by apply unused_parent|by apply unused_children]].
    + intros c. unfold upd, parent_of. cbn. case_decide; subst; by simplify_map_eq.
    + intros q. unfold upd, children. cbn. case_decide; subst; by simplify_map_eq.
  - intros i x Hi. apply lookup_insert_Some in Hi as [[<- <-]|[_ Hi]]; [done|by eapply ok_pane_ids].
  - apply ok_split_ids, Hok.
  - intros i [x Hi]. apply lookup_insert_Some in Hi as [[<- _]|[_ Hi]]; [done|by eapply ok_tab_split; eauto].
  - intros i [x Hi]. apply lookup_insert_Some in Hi as [[<- _]|[_ Hi]]; [done|by eapply ok_pane_split; eauto].
  - apply ok_split_children, Hok.
  - apply (ok_alternate m Hok).
  - intros i Hi. rewrite lookup_insert_ne by (intros ->; done). by apply ok_closed.
  - apply tabs_ok_insert; [apply (ok_tabs m Hok)|done].
Qed.

(** ** New splits *)

Definition add_pane (paneId : str) (t : Terminal.TerminalHandler) (m : MultiplexerState) : MultiplexerState :=
  set_panes (<[paneId := mkPane paneId [] t]>) m.

Lemma continue_split_ok q paneId t s m :
  mux_ok m → unused m paneId → paneId ∉ closed m → splits m !! q = Some s →
  mux_ok (continue_split q paneId s (add_pane paneId t m)).
Proof.
  intros Hok Hp Hc Hq. pose proof Hp as (Hp1 & Hp2 & Hp3).
  pose proof (ok_split_ids m Hok q s Hq) as Hid.
  assert (∀ i, shape (continue_split q paneId s (add_pane paneId t m)) i = shape m i) as Hshape.
  { intros i. unfold shape. cbn. destruct (decide (i = q)) as [->|]; by simplify_map_eq. }
  assert (∀ i, panes (continue_split q paneId s (add_pane paneId t m)) !! i =
    if decide (i = paneId) then Some (mkPane paneId q t) else panes m !! i) as Hpanes.
  { intros i. cbn. rewrite Hid. case_decide; subst; by simplify_map_eq. }
  split.
  - eapply forest_ext; [| |apply (forest_append _ _ q paneId (ok_forest m Hok)); by apply unused_parent].
    + intros c. unfold upd, parent_of. rewrite Hpanes. case_decide; [done|]. cbn.
      destruct (decide (c = q)) as [->|]; simplify_map_eq; done.
    + intros c. unfold upd, children. cbn. case_decide; subst; simplify_map_eq; done.
  - intros i x Hi. rewrite Hpanes in Hi. case_decide; [by simplify_eq|by eapply ok_pane_ids].
  - intros i x Hi. cbn in Hi. apply lookup_insert_Some in Hi as [[<- <-]|[_ Hi]]; [done|by eapply ok_split_ids].
  - intros i Hi. cbn. rewrite lookup_insert_ne; [by apply ok_tab_split|].
    intros <-. pose proof (ok_tab_split m Hok _ Hi). congruence.
  - intros i Hi. rewrite Hpanes in Hi. cbn. case_decide; subst.
    + rewrite lookup_insert_ne by congruence. done.
    + rewrite lookup_insert_ne; [by apply ok_pane_split|].
      intros <-. pose proof (ok_pane_split m Hok _ Hi). congruence.
  - intros i x Hi. cbn in Hi. apply lookup_insert_Some in Hi as [[<- <-]|[_ Hi]];
      [|by eapply ok_split_children].
    pose proof (ok_split_children m Hok q s Hq). cbn. rewrite !length_app, length_fmap. cbn. lia.
  - intros i p v p' w. rewrite !Hshape. apply (ok_alternate m Hok).
  - intros i Hi. rewrite Hpanes. case_decide; [by subst|by apply ok_closed].
  - apply (ok_tabs m Hok).
Qed.

(** What a division does to the links: [sourceId] and [paneId] hang below [u], which
    takes the place of [sourceId]. *)
Lemma divided_forest m q l1 l2 sourceId paneId u par ch :
  mux_ok m → unused m paneId → unused m u → u ≠ paneId → children m q = l1 ++ sourceId :: l2 →
  (∀ c, par c = upd sourceId (Some u) (upd paneId (Some u) (upd u (Some q) (parent_of m))) c) →
  (∀ p, ch p = upd u [sourceId; paneId] (upd q (l1 ++ u :: l2) (children m)) p) →
  forest par ch.
Proof.
  intros Hok Hp Hu Hup Hq Hpar Hch. pose proof (ok_forest m Hok) as Hf.
  pose proof (unused_parent _ _ Hp) as Hpp. pose proof (unused_parent _ _ Hu) as Hup'.
  pose proof (unused_children _ _ Hu) as Huc.
  assert (parent_of m sourceId = Some q) as Hs by (apply Hf; rewrite Hq; set_solver).
  assert (sourceId ≠ u) as Hsu by congruence. assert (sourceId ≠ paneId) as Hsp by congruence.
  assert (q ≠ u) as Hqu by (intros ->; rewrite Huc in Hq; by destruct l1).
  pose proof (forest_replace _ _ q sourceId u l1 l2 Hf Hq Hup' Hsu) as Hf1.
  pose proof (forest_root _ _ u sourceId Hf1 ltac:(by rewrite upd_ne, upd_eq)
    ltac:(by rewrite upd_ne)) as Hf2.
  pose proof (forest_append _ _ u paneId Hf2 ltac:(by rewrite !upd_ne by congruence)) as Hf3.
  eapply forest_ext; [| |exact Hf3].
  - intros c. rewrite Hpar. unfold upd. repeat case_decide; congruence.
  - intros c. rewrite Hch. unfold upd. repeat case_decide; try congruence; subst; done.
Qed.

(** The maps after a division. *)
Record divided (m m' : MultiplexerState) (u q sourceId paneId : str) (l1 l2 : list str) (v : bool)
    (sp : Pane) (t : Terminal.TerminalHandler) : Prop := {
  div_panes : ∀ i, panes m' !! i =
    if decide (i = sourceId) then Some (set_pane_parent u sp)
    else if decide (i = paneId) then Some (mkPane paneId u t) else panes m !! i;
  div_splits : ∀ i, splits m' !! i =
    if decide (i = u) then Some (mkSplit u q v [sourceId; paneId] [f_half; f_half])
    else if decide (i = q) then (λ s, set_children (l1 ++ u :: l2) (sizes s) s) <$> (splits m !! i)
    else splits m !! i;
  div_tabs : tabs m' = alter (set_tab_child u) q (tabs m);
  div_closed : closed m' = closed m;
}.

Lemma divided_ok m m' u q sourceId paneId l1 l2 v sp t :
  mux_ok m → unused m paneId → paneId ∉ closed m → unused m u → u ≠ paneId →
  panes m !! sourceId = Some sp → pane_parentId sp = q → children m q = l1 ++ sourceId :: l2 →
  (∀ ps, splits m !! q = Some ps → vertical ps ≠ v) →
  divided m m' u q sourceId paneId l1 l2 v sp t → mux_ok m'.
Proof.
  intros Hok Hp Hc Hu Hup Hsp Hq Hch Hv [Dp Ds Dt Dc].
  pose proof Hp as (Hp1 & Hp2 & Hp3). pose proof Hu as (Hu1 & Hu2 & Hu3).
  assert (sourceId ≠ paneId) as Hsn by congruence. assert (sourceId ≠ u) as Hsu by congruence.
  assert (parent_of m sourceId = Some q) as Hpar by (unfold parent_of; by rewrite Hsp, Hq).
  pose proof (mux_ok_child m q sourceId Hok Hpar) as Hqn.
  assert (q ≠ u) as Hqu by (intros ->; rewrite Hu2, Hu3 in Hqn; by destruct Hqn as [[? ?]|[? ?]]).
  assert (∀ i, shape m' i = if decide (i = u) then Some (q, v) else shape m i) as Hshape.
  { intros i. unfold shape. rewrite Ds. case_decide; [done|]. case_decide; [|done].
    by destruct (splits m !! i). }
  split.
  - apply (divided_forest m q l1 l2 sourceId paneId u _ _ Hok Hp Hu Hup Hch).
    + intros c. unfold upd, parent_of. rewrite Dp, Ds.
      repeat (case_decide; subst; try congruence; try done); [by rewrite Hu1|].
      destruct (panes m !! pane_parentId sp), (splits m !! pane_parentId sp); done.
    + intros c. unfold upd, children. rewrite Ds, Dt. case_decide; [done|].
      destruct (decide (c = q)) as [->|Hcq]; [|by rewrite lookup_alter_ne].
      rewrite lookup_alter_eq. unfold children in Hch.
      destruct (splits m !! q); [done|]. destruct (tabs m !! q) as [tb|]; cbn; [|by destruct l1].
      by destruct l1 as [|? [|]]; simplify_eq/=.
  - intros i x Hi. rewrite Dp in Hi. repeat case_decide; simplify_eq; [|done|by eapply ok_pane_ids].
    exact (ok_pane_ids m Hok _ sp Hsp).
  - intros i x Hi. rewrite Ds in Hi. repeat case_decide; simplify_eq; [done| |by eapply ok_split_ids].
    apply fmap_Some in Hi as (s & Hs & ->). exact (ok_split_ids m Hok _ s Hs).
  - intros i Hi. assert (is_Some (tabs m !! i)) as Hi'.
    { rewrite Dt in Hi. destruct (decide (i = q)) as [->|]; [|by rewrite lookup_alter_ne in Hi].
      rewrite lookup_alter_eq in Hi. by apply fmap_is_Some in Hi. }
    pose proof (ok_tab_split m Hok i Hi') as Hn. rewrite Ds, Hn. rewrite decide_False by (intros ->; by rewrite Hu3 in Hi'; destruct Hi').
    by case_decide.
  - intros i Hi. rewrite Ds. rewrite Dp in Hi.
    assert (splits m !! i = None) as Hn.
    { repeat case_decide; subst; [by eapply (ok_pane_split m Hok); eexists|done|by apply ok_pane_split]. }
    rewrite Hn. rewrite decide_False; [by destruct (decide (i = q))|]. intros ->. repeat case_decide; try congruence.
    rewrite Hu1 in Hi. by destruct Hi.
  - intros i x Hi. rewrite Ds in Hi. repeat case_decide; simplify_eq; [cbn; lia| |by eapply (ok_split_children m Hok)].
    apply fmap_Some in Hi as (s & Hs & ->). pose proof (ok_split_children m Hok _ s Hs) as [H1 H2].
    unfold children in Hch. rewrite Hs in Hch. cbn. rewrite H2, Hch, !length_app. rewrite Hch, length_app in H1. cbn in *. lia.
  - intros i p b p' w. rewrite !Hshape. repeat case_decide; subst; intros H1 H2.
    + congruence.
    + injection H1 as <- <-. unfold shape in H2.
      destruct (splits m !! pane_parentId sp) as [ps|] eqn:E; [|done]. injection H2 as <- <-.
      specialize (Hv ps eq_refl). by destruct v, (vertical ps).
    + exfalso. assert (parent_of m i = Some u) as Hi.
      { unfold shape in H1. destruct (splits m !! i) as [s|] eqn:E; [|done]. injection H1 as <- <-.
        unfold parent_of. destruct (panes m !! i) eqn:E2; [|by rewrite E].
        pose proof (ok_pane_split m Hok i ltac:(eauto)). congruence. }
      pose proof (mux_ok_child m u i Hok Hi) as [[? ?]|[? ?]]; congruence.
    + by eapply (ok_alternate m Hok).
  - intros i Hi. rewrite Dc in Hi. pose proof (ok_closed m Hok i Hi) as Hn. rewrite Dp.
    rewrite decide_False by congruence. by rewrite decide_False by (intros ->; done).
  - rewrite Dt. apply tabs_ok_child, Hok.
Qed.

Section Operations.
Context {W : Type} `{Pty W} `{Uuids W}.

(** [newTab] with two unused ids (not those of closed panes) adds a tab with one
    pane after the other tabs, and the layout stays well formed; an id in use aborts. *)
Theorem newTab_ok tabId paneId m k :
  mux_ok m → paneId ∉ closed m →
  (¬ (unused m tabId ∧ unused m paneId) → ∃ why, (newTab tabId paneId (m, k)).1 = Stop (Fatal why)) ∧
  (unused m tabId → unused m paneId → ∀ t k', new_terminal k = (Ok t, k') →
    newTab tabId paneId (m, k) = (Ok tt, (add_tab tabId paneId t m, k')) ∧ mux_ok (add_tab tabId paneId t m)).
Proof.
  intros Hok Hc. unfold newTab. rewrite run_fst_get. split.
  - intros Hno. destruct (fatalIfFound tabId m) as [[]|f] eqn:E1.
    + rewrite run_lift_ok. destruct (fatalIfFound paneId m) as [[]|f] eqn:E2.
      * apply fatalIfFound_Ok in E1, E2. naive_solver.
      * rewrite run_lift_stop. unfold fatalIfFound in E2. repeat case_match; simplify_eq; by eexists.
    + rewrite run_lift_stop. unfold fatalIfFound in E1. repeat case_match; simplify_eq; by eexists.
  - intros Ht Hp t k' Hk. rewrite !(proj2 (fatalIfFound_Ok _ _)) by done. rewrite !run_lift_ok.
    run. rewrite run_snd, Hk. split; [done|by apply add_tab_ok].
Qed.

(** The layout after a split of [sourceId]: source and new pane are children of a
    split of orientation [v]. *)
Definition split_into (m : MultiplexerState) (sourceId paneId : str) (v : bool) : Prop :=
  ∃ i s, splits m !! i = Some s ∧ vertical s = v ∧
    sourceId ∈ panes_or_splits s ∧ paneId ∈ panes_or_splits s.

(** [l] with the child at position [a] replaced. *)
Lemma child_split (l : list str) a x y :
  l !! a = Some x → l = take a l ++ x :: drop (S a) l ∧ <[a := y]> l = take a l ++ y :: drop (S a) l.
Proof.
  intros Ha. split; [by rewrite take_drop_middle|].
  apply insert_take_drop. by eapply lookup_lt_Some.
Qed.

Lemma divide_split_ok u sourceId paneId v sp ps t m :
  mux_ok m → unused m paneId → paneId ∉ closed m → unused m u → u ≠ paneId →
  panes m !! sourceId = Some sp → splits m !! pane_parentId sp = Some ps → vertical ps ≠ v →
  ∃ m', divide u sourceId paneId v sp (add_pane paneId t m) = Ok m' ∧ mux_ok m' ∧
    split_into m' sourceId paneId v.
Proof.
  intros Hok Hp Hc Hu Hup Hsp Hps Hv. pose proof Hp as (Hp1 & Hp2 & Hp3).
  pose proof (ok_split_ids m Hok _ ps Hps) as Hid.
  set (q := pane_parentId sp) in *.
  assert (q ≠ u) as Hqu by (intros Hqu; destruct Hu as (_ & Hu & _); congruence).
  assert (sourceId ≠ paneId) as Hsn by congruence.
  assert (sourceId ∈ children m q) as Hin by (apply (ok_forest m Hok); unfold parent_of; by rewrite Hsp).
  unfold children in Hin. rewrite Hps in Hin.
  destruct (find_child_in _ _ Hin) as (a & Hf & Ha).
  destruct (child_split _ _ _ u Ha) as [Hl Hl'].
  unfold divide. cbn [splits add_pane set_panes]. fold q. rewrite Hps. unfold replace_child.
  cbn [splits add_split add_pane set_panes set_splits]. rewrite lookup_insert_ne, Hps, Hf by congruence.
  eexists. split; [done|]. split.
  - apply (divided_ok m _ u q sourceId paneId (take a (panes_or_splits ps)) (drop (S a) (panes_or_splits ps))
      v sp t); try done.
    + unfold children. by rewrite Hps.
    + intros ps' Hps'. by replace ps' with ps by congruence.
    + assert (tabs m !! q = None) as Htq.
      { apply eq_None_not_Some. intros Ht. pose proof (ok_tab_split m Hok q Ht). congruence. }
      split; cbn.
      * intros i. destruct (decide (i = sourceId)) as [->|]; [by simplify_map_eq|].
        rewrite lookup_alter_ne by done. case_decide; subst; by simplify_map_eq.
      * intros i. rewrite Hid. destruct (decide (i = u)) as [->|]; [by simplify_map_eq|].
        case_decide; subst; simplify_map_eq; [|done]. by rewrite Hl'.
      * symmetry. apply map_eq. intros i. destruct (decide (i = q)) as [->|]; [|by rewrite lookup_alter_ne].
        by rewrite lookup_alter_eq, Htq.
      * done.
  - exists u, (mkSplit u (split_id ps) v [sourceId; paneId] [f_half; f_half]). cbn.
    rewrite lookup_insert_ne, lookup_insert_eq by done. split_and!; [done|done|set_solver|set_solver].
Qed.

Lemma divide_tab_ok u sourceId paneId v sp tb t m :
  mux_ok m → unused m paneId → paneId ∉ closed m → unused m u → u ≠ paneId →
  panes m !! sourceId = Some sp → tabs m !! pane_parentId sp = Some tb →
  ∃ m', divide u sourceId paneId v sp (add_pane paneId t m) = Ok m' ∧ mux_ok m' ∧
    split_into m' sourceId paneId v.
Proof.
  intros Hok Hp Hc Hu Hup Hsp Htb. pose proof Hp as (Hp1 & Hp2 & Hp3).
  pose proof (tab_ids _ (ok_tabs m Hok) _ tb Htb) as Hid.
  set (q := pane_parentId sp) in *.
  assert (splits m !! q = None) as Hsq by (apply (ok_tab_split m Hok); eauto).
  assert (q ≠ u) as Hqu by (intros Hqu; destruct Hu as (_ & _ & Hu); congruence).
  assert (sourceId ≠ paneId) as Hsn by congruence.
  assert (sourceId ∈ children m q) as Hin by (apply (ok_forest m Hok); unfold parent_of; by rewrite Hsp).
  unfold children in Hin. rewrite Hsq, Htb in Hin. apply list_elem_of_singleton in Hin.
  unfold divide, getTab. cbn [splits tabs add_pane set_panes]. fold q. rewrite Hsq, Htb.
  eexists. split; [done|]. split.
  - apply (divided_ok m _ u q sourceId paneId [] [] v sp t); try done.
    + unfold children. by rewrite Hsq, Htb, Hin.
    + intros ps Hps. congruence.
    + split; cbn.
      * intros i. destruct (decide (i = sourceId)) as [->|]; [by simplify_map_eq|].
        rewrite lookup_alter_ne by done. case_decide; subst; by simplify_map_eq.
      * intros i. rewrite Hid. destruct (decide (i = u)) as [->|]; [by simplify_map_eq|].
        rewrite lookup_insert_ne by done. case_decide; subst; [by rewrite Hsq|done].
      * done.
      * done.
  - exists u, (mkSplit u (tab_id tb) v [sourceId; paneId] [f_half; f_half]). cbn.
    rewrite lookup_insert_eq. split_and!; [done|done|set_solver|set_solver].
Qed.

Lemma newSplit_run sourceId paneId v m k t k1 u k2 :
  mux_ok m → is_Some (panes m !! sourceId) → unused m paneId → paneId ∉ closed m →
  new_terminal k = (Ok t, k1) → uuid4 k1 = (Ok u, k2) → unused m u → u ≠ paneId →
  ∃ m' k', newSplit sourceId paneId v (m, k) = (Ok tt, (m', k')) ∧ mux_ok m' ∧
    split_into m' sourceId paneId v.
Proof.
  intros Hok [sp Hsp] Hp Hc Hk Hu1 Hu Hup. unfold newSplit.
  rewrite run_fst_get, (proj2 (fatalIfFound_Ok _ _)), run_lift_ok, run_snd, Hk by done. run.
  fold (add_pane paneId t m). unfold getPane. cbn [panes add_pane set_panes].
  rewrite lookup_insert_ne, Hsp, run_lift_ok by (destruct Hp as (? & _); congruence).
  assert (parent_of m sourceId = Some (pane_parentId sp)) as Hpar by (unfold parent_of; by rewrite Hsp).
  pose proof (mux_ok_child m _ _ Hok Hpar) as Hnode. unfold continues. cbn [splits add_pane set_panes].
  assert (sourceId ∈ children m (pane_parentId sp)) as Hin by by apply (ok_forest m Hok).
  unfold children in Hin.
  destruct (splits m !! pane_parentId sp) as [ps|] eqn:Hps.
  - case_bool_decide as Hv.
    + eexists _, k1. split; [done|]. split; [by apply (continue_split_ok _ paneId t ps m)|].
      exists (pane_parentId sp). eexists. cbn. rewrite lookup_insert_eq. split_and!; [done|done|set_solver|set_solver].
    + destruct (divide_split_ok u sourceId paneId v sp ps t m) as (m' & Hd & Hok' & Hin'); try done.
      exists m', k2. split; [|done]. rewrite run_ret, run_snd, Hu1. unfold settle.
      by rewrite run_fst_get, Hd.
  - destruct Hnode as [[tb Htb]|[? ?]]; [|done].
    destruct (divide_tab_ok u sourceId paneId v sp tb t m) as (m' & Hd & Hok' & Hin'); try done.
    exists m', k2. split; [|done]. unfold getTab. cbn [tabs add_pane set_panes]. rewrite Htb.
    erewrite M_bind_ok by done. rewrite run_snd, Hu1. unfold settle. by rewrite run_fst_get, Hd.
Qed.

(** C28. A pane can always be split: [newSplit] of a pane that exists, with an unused
    id, succeeds (when a terminal can be forked, and the id it draws for a new split is
    unused too), puts both panes below one split of the requested orientation, and the
    layout stays a well-formed forest, in each of its three cases. *)
Theorem newSplit_ok sourceId paneId v m k t k1 u k2 :
  mux_ok m → is_Some (panes m !! sourceId) → unused m paneId → paneId ∉ closed m →
  new_terminal k = (Ok t, k1) → uuid4 k1 = (Ok u, k2) → unused m u → u ≠ paneId →
  ∃ m' k', newSplit sourceId paneId v (m, k) = (Ok tt, (m', k')) ∧ mux_ok m' ∧
    split_into m' sourceId paneId v.
Proof. apply newSplit_run. Qed.

(** ** Closing panes *)

Definition removed (paneId : str) (m : MultiplexerState) : MultiplexerState :=
  add_closed paneId (set_panes (delete paneId) m).

Lemma in_order_perm {A} (x : gmap str A) : in_order x ≡ₚ map_to_list x.
Proof. apply merge_sort_Permutation. Qed.

Lemma close_tab_ok paneId p tb m :
  mux_ok m → panes m !! paneId = Some p → tabs m !! pane_parentId p = Some tb →
  ∃ m', close_layout p (removed paneId m) = Ok m' ∧ mux_ok m' ∧
    m' = mkMux (delete (pane_parentId p) (shift_order (order tb) <$> tabs m))
           (delete paneId (panes m)) (splits m) ({[paneId]} ∪ closed m).
Proof.
  intros Hok Hp Htb. pose proof (ok_pane_ids m Hok _ p Hp) as Hid.
  set (q := pane_parentId p) in *.
  assert (splits m !! q = None) as Hsq by (apply (ok_tab_split m Hok); eauto).
  assert (parent_of m paneId = Some q) as Hpar by (unfold parent_of; by rewrite Hp).
  assert (∀ i x, tabs m !! i = Some x → pane_or_split_id x = paneId → i = q) as Huniq.
  { intros i x Hi Hx. assert (paneId ∈ children m i) as Hin.
    { unfold children. rewrite (ok_tab_split m Hok) by eauto. rewrite Hi, Hx. set_solver. }
    apply (ok_forest m Hok) in Hin. congruence. }
  assert (pane_or_split_id tb = paneId) as Hch.
  { apply (ok_forest m Hok) in Hpar. unfold children in Hpar. rewrite Hsq, Htb in Hpar.
    by apply list_elem_of_singleton in Hpar. }
  assert (∀ o x, pane_or_split_id (shift_order o x) = pane_or_split_id x) as Hshift
    by (intros o x; unfold shift_order; by case_match).
  unfold close_layout. cbn [tabs removed add_closed set_panes]. fold q. rewrite Htb, Hid. unfold close_tab.
  cbn [tabs set_tabs removed add_closed set_panes].
  set (l := in_order _). destruct (list_find _ l) as [[n [i x]]|] eqn:Ef.
  - apply list_find_Some in Ef as (Hn & Hx & _). cbn [snd] in Hx.
    assert ((i, x) ∈ map_to_list (shift_order (order tb) <$> tabs m)) as Hin
      by (rewrite <-in_order_perm; by eapply list_elem_of_lookup_2).
    apply elem_of_map_to_list, lookup_fmap_Some in Hin as (y & <- & Hy). rewrite Hshift in Hx.
    rewrite (Huniq i y Hy Hx). eexists. split; [done|]. split; [|done].
    split; cbn.
    + eapply forest_ext; [| |apply (forest_remove _ _ q paneId [] (ok_forest m Hok) Hpar); [constructor|]].
      * intros c. unfold upd, parent_of. cbn. case_decide; subst; simplify_map_eq; [|done].
        by rewrite (ok_pane_split m Hok) by eauto.
      * intros c. unfold upd, children. cbn. case_decide as Hc; subst; [by rewrite Hsq, lookup_delete_eq|].
        rewrite lookup_delete_ne, lookup_fmap by done. destruct (splits m !! c), (tabs m !! c); cbn; try done.
        by rewrite Hshift.
      * intros d. unfold children. rewrite Hsq, Htb, Hch. set_solver.
    + intros j y' [_ Hj]%lookup_delete_Some. by eapply ok_pane_ids.
    + apply (ok_split_ids m Hok).
    + intros j [z [_ (z' & _ & Hj)%lookup_fmap_Some]%lookup_delete_Some]. apply (ok_tab_split m Hok); eauto.
    + intros j [z [_ Hj]%lookup_delete_Some]. apply (ok_pane_split m Hok); eauto.
    + apply (ok_split_children m Hok).
    + apply (ok_alternate m Hok).
    + intros j [->%elem_of_singleton|Hj]%elem_of_union; [by simplify_map_eq|].
      apply lookup_delete_None. right. by apply (ok_closed m Hok).
    + by apply tabs_ok_close, Htb; apply (ok_tabs m Hok).
  - exfalso. apply list_find_None in Ef. rewrite list.Forall_forall in Ef.
    apply (Ef (q, shift_order (order tb) tb)); [|cbn; by rewrite Hshift].
    unfold l. rewrite in_order_perm. apply elem_of_map_to_list. by rewrite lookup_fmap, Htb.
Qed.

(** What [closePane] finds below a split. *)
Lemma below_split m paneId p s :
  mux_ok m → panes m !! paneId = Some p → splits m !! pane_parentId p = Some s →
  ∃ a, find_child (pane_id p) (panes_or_splits s) 0 = Ok (Some a) ∧
    panes_or_splits s !! a = Some paneId ∧ (a < length (sizes s))%nat ∧
    parent_of m paneId = Some (pane_parentId p) ∧ tabs m !! pane_parentId p = None.
Proof.
  intros Hok Hp Hs. rewrite (ok_pane_ids m Hok _ p Hp).
  assert (parent_of m paneId = Some (pane_parentId p)) as Hpar by (unfold parent_of; by rewrite Hp).
  pose proof Hpar as Hin. apply (ok_forest m Hok) in Hin. unfold children in Hin. rewrite Hs in Hin.
  destruct (find_child_in _ _ Hin) as (a & Hf & Ha). exists a. split_and!; [done|done| |done|].
  - pose proof (ok_split_children m Hok _ s Hs) as [_ ->]. by eapply lookup_lt_Some.
  - apply eq_None_not_Some. intros Ht. pose proof (ok_tab_split m Hok _ Ht). congruence.
Qed.

Lemma delete_in (l : list str) a x d :
  NoDup l → l !! a = Some x → (d ∈ delete a l ↔ d ∈ l ∧ d ≠ x) ∧ NoDup (delete a l).
Proof.
  intros Hnd Ha. rewrite delete_take_drop. pose proof (take_drop_middle l a x Ha) as E.
  revert Hnd E. generalize (take a l) (drop (S a) l). intros l1 l2 Hnd <-.
  apply list.NoDup_app in Hnd as (H1 & H2 & [H3 H4]%list.NoDup_cons). split.
  - rewrite !elem_of_app, elem_of_cons. split; [|naive_solver].
    intros [Hd|Hd]; (split; [naive_solver|]); intros ->; [|done].
    apply (H2 x); [done|set_solver].
  - apply list.NoDup_app. split_and!; [done| |done]. intros y Hy Hy'. apply (H2 y); [done|set_solver].
Qed.

Lemma close_shrinks m paneId p s :
  mux_ok m → panes m !! paneId = Some p → splits m !! pane_parentId p = Some s →
  (2 < length (panes_or_splits s))%nat →
  ∃ m', close_layout p (removed paneId m) = Ok m' ∧ mux_ok m' ∧ panes m' = delete paneId (panes m) ∧
    closed m' = {[paneId]} ∪ closed m.
Proof.
  intros Hok Hp Hs Hlen. destruct (below_split m paneId p s Hok Hp Hs) as (a & Hf & Ha & Hsz & Hpar & Ht).
  set (q := pane_parentId p) in *. pose proof (ok_forest m Hok) as [Hlink Hnd].
  specialize (Hnd q) as Hndq. unfold children in Hndq. rewrite Hs in Hndq.
  pose proof (ok_split_children m Hok q s Hs) as [_ Hsizes].
  assert (length (delete a (panes_or_splits s)) = length (panes_or_splits s) - 1)%nat as Hdel
    by (apply length_delete; eauto).
  unfold close_layout, close_below_split, getSplit. cbn [tabs splits removed add_closed set_panes].
  fold q. rewrite Ht, Hs, Hf, decide_True by done. cbn [panes_or_splits set_children sizes].
  rewrite (proj2 (Nat.ltb_lt _ _)) by lia. eexists. split; [done|]. split; [|done].
  assert (∀ i, shape (set_splits (<[q := set_children (delete a (panes_or_splits s))
    (normalize (delete a (sizes s))) (set_children (delete a (panes_or_splits s)) (delete a (sizes s)) s)]>)
    (removed paneId m)) i = shape m i) as Hshape.
  { intros i. unfold shape. cbn. destruct (decide (i = q)) as [->|]; by simplify_map_eq. }
  split.
  - eapply forest_ext; [| |apply (forest_remove _ _ q paneId (delete a (panes_or_splits s)) (ok_forest m Hok) Hpar)].
    + intros c. unfold upd, parent_of. cbn. case_decide; subst; simplify_map_eq.
      * rewrite lookup_insert_ne; [by rewrite (ok_pane_split m Hok) by eauto|].
        intros Hq. pose proof (ok_pane_split m Hok paneId ltac:(eauto)). congruence.
      * destruct (decide (c = q)) as [->|]; by simplify_map_eq.
    + intros c. unfold upd, children. cbn. case_decide; subst; by simplify_map_eq.
    + by apply (delete_in _ a paneId paneId).
    + intros d. unfold children. rewrite Hs. by apply delete_in.
  - intros i x Hi. cbn in Hi. apply lookup_delete_Some in Hi as [_ Hi]. by eapply ok_pane_ids.
  - intros i x Hi. cbn in Hi. apply lookup_insert_Some in Hi as [[<- <-]|[_ Hi]]; [|by eapply ok_split_ids].
    exact (ok_split_ids m Hok q s Hs).
  - intros i Hi. cbn in *. rewrite lookup_insert_ne; [by apply ok_tab_split|]. intros <-.
    rewrite Ht in Hi. by destruct Hi.
  - intros i [x Hi]. cbn in Hi |- *. apply lookup_delete_Some in Hi as [_ Hi]. pose proof (ok_pane_split m Hok i ltac:(eauto)).
    rewrite lookup_insert_ne; [done|congruence].
  - intros i x Hi. cbn in Hi. apply lookup_insert_Some in Hi as [[<- <-]|[_ Hi]];
      [|by eapply (ok_split_children m Hok)]. cbn. unfold normalize. rewrite length_fmap, Hdel, length_delete, Hsizes by (by apply lookup_lt_is_Some_2).
    lia.
  - intros i x v y w. rewrite !Hshape. apply (ok_alternate m Hok).
  - intros i Hi. cbn in Hi |- *. apply lookup_delete_None. apply elem_of_union in Hi as [Hi%elem_of_singleton|Hi]; [by left|].
    right. by apply (ok_closed m Hok).
  - apply (ok_tabs m Hok).
Qed.

(** The maps after a split [q] below [pq] collapsed into its pane [c]. *)
Record collapsed (m m' : MultiplexerState) (q pq paneId c : str) (l1 l2 : list str) (pc : Pane) : Prop := {
  col_panes : ∀ i, panes m' !! i =
    if decide (i = paneId) then None
    else if decide (i = c) then Some (set_pane_parent pq pc) else panes m !! i;
  col_splits : ∀ i, splits m' !! i =
    if decide (i = q) then None
    else if decide (i = pq) then (λ s, set_children (l1 ++ c :: l2) (sizes s) s) <$> (splits m !! i)
    else splits m !! i;
  col_tabs : tabs m' = alter (set_tab_child c) pq (tabs m);
  col_closed : closed m' = {[paneId]} ∪ closed m;
}.

Lemma collapsed_forest m m' q pq paneId c l1 l2 pc :
  mux_ok m → parent_of m paneId = Some q → panes m !! c = Some pc → pane_parentId pc = q →
  paneId ≠ c → parent_of m q = Some pq → children m pq = l1 ++ q :: l2 →
  (∀ d, d ∈ children m q → d = paneId ∨ d = c) → is_Some (splits m !! q) → pq ≠ q →
  is_Some (panes m !! paneId) →
  collapsed m m' q pq paneId c l1 l2 pc → forest (parent_of m') (children m').
Proof.
  intros Hok Hp Hc Hcq Hne Hq Hpq Hch Hsq Hpqq Hpn [Cp Cs Ct Cc].
  assert (parent_of m c = Some q) as Hcpar by (unfold parent_of; by rewrite Hc, Hcq).
  assert (splits m !! c = None) as Hcs by (apply (ok_pane_split m Hok); eauto).
  assert (splits m !! paneId = None) as Hps by (by apply (ok_pane_split m Hok)).
  assert (q ≠ c ∧ q ≠ paneId) as [Hqc Hqp] by (split; intros <-; destruct Hsq; congruence).
  assert (panes m !! q = None) as Hqpn.
  { apply eq_None_not_Some. intros Hn. rewrite (ok_pane_split m Hok q Hn) in Hsq. by destruct Hsq. }
  assert (tabs m !! q = None) as Hqt.
  { apply eq_None_not_Some. intros Hn. rewrite (ok_tab_split m Hok q Hn) in Hsq. by destruct Hsq. }
  pose proof (ok_forest m Hok) as Hf.
  assert (forest (upd paneId None (parent_of m)) (upd q [c] (children m))) as Hf2.
  { apply forest_remove; [done|done|apply list.NoDup_singleton|]. intros d.
    rewrite list_elem_of_singleton. split; [intros ->; split; [by apply Hf|done]|].
    intros [Hd Hd']. by destruct (Hch d Hd). }
  pose proof (forest_remove _ _ q c [] Hf2 ltac:(by rewrite upd_ne) ltac:(constructor)
    ltac:(intros d; rewrite upd_eq; set_solver)) as Hf3.
  pose proof (forest_replace _ _ pq q c l1 l2 Hf3 ltac:(by rewrite !upd_ne) ltac:(by rewrite upd_eq) Hqc) as Hf4.
  eapply forest_ext; [| |exact Hf4].
  - intros d. unfold upd, parent_of. rewrite Cp, Cs.
    destruct (decide (d = c)) as [->|Hdc]; [by rewrite decide_False by done|].
    destruct (decide (d = q)) as [->|Hdq]; [rewrite decide_False by done; by rewrite Hqpn|].
    destruct (decide (d = paneId)) as [->|Hdp]; [rewrite Hps; by case_decide|].
    case_decide; [|done]. destruct (panes m !! d); [done|]. by destruct (splits m !! d).
  - intros d. unfold upd, children. rewrite Cs, Ct.
    destruct (decide (d = pq)) as [->|Hd].
    + rewrite decide_False, lookup_alter_eq by done. unfold children in Hpq.
      destruct (splits m !! pq); [done|]. destruct (tabs m !! pq) as [tb|]; cbn; [|by destruct l1].
      by destruct l1 as [|? [|]]; simplify_eq/=.
    + rewrite lookup_alter_ne by done. case_decide; [|done]. subst d. by rewrite Hqt.
Qed.

Lemma collapsed_ok m m' q pq paneId c l1 l2 pc :
  mux_ok m → panes m !! c = Some pc → splits m !! pq = None ∨ children m pq = l1 ++ q :: l2 →
  collapsed m m' q pq paneId c l1 l2 pc → forest (parent_of m') (children m') → mux_ok m'.
Proof.
  intros Hok Hc Hpq [Cp Cs Ct Cc] Hf. split.
  - done.
  - intros i x Hi. rewrite Cp in Hi. repeat case_decide; simplify_eq; [|by eapply ok_pane_ids].
    exact (ok_pane_ids m Hok _ pc Hc).
  - intros i x Hi. rewrite Cs in Hi. repeat case_decide; simplify_eq; [|by eapply ok_split_ids].
    apply fmap_Some in Hi as (s & Hs & ->). exact (ok_split_ids m Hok _ s Hs).
  - intros i [x Hi]. rewrite Ct in Hi. apply lookup_tab_child in Hi as (y & Hy & _).
    rewrite Cs, (ok_tab_split m Hok i) by eauto. by repeat case_decide.
  - intros i Hi. assert (is_Some (panes m !! i)) as Hi'.
    { rewrite Cp in Hi. repeat case_decide; subst; [by destruct Hi|by eauto|done]. }
    rewrite Cs, (ok_pane_split m Hok i Hi'). destruct (decide (i = q)); [done|]. by case_decide.
  - intros i x Hi. rewrite Cs in Hi. repeat case_decide; simplify_eq; [|by eapply ok_split_children].
    apply fmap_Some in Hi as (s & Hs & ->). destruct Hpq as [?|Hpq]; [congruence|].
    unfold children in Hpq. rewrite Hs in Hpq. pose proof (ok_split_children m Hok _ s Hs) as [Hn1 Hn2].
    rewrite Hpq, length_app in Hn1, Hn2. cbn in *. rewrite length_app. cbn. lia.
  - assert (∀ i p v, shape m' i = Some (p, v) → shape m i = Some (p, v)) as Hshape.
    { intros i p v. unfold shape. rewrite Cs. case_decide; [done|]. case_decide; [|done].
      by destruct (splits m !! i). }
    intros i p v p' w Hi%Hshape Hp%Hshape. by eapply (ok_alternate m Hok).
  - intros i Hi. rewrite Cc in Hi. rewrite Cp. case_decide as Hip; [done|].
    apply elem_of_union in Hi as [Hi%elem_of_singleton|Hi]; [done|].
    pose proof (ok_closed m Hok i Hi). by rewrite decide_False by congruence.
  - rewrite Ct. apply tabs_ok_child, Hok.
Qed.

(** The two children of a split that is about to collapse. *)
Definition sibling (s : Split) (paneId c : str) : Prop :=
  panes_or_splits s = [paneId; c] ∨ panes_or_splits s = [c; paneId].

Lemma delete_sibling s paneId c a :
  sibling s paneId c → paneId ≠ c → panes_or_splits s !! a = Some paneId →
  delete a (panes_or_splits s) = [c].
Proof. intros [E|E] Hne Ha; rewrite E in *; by destruct a as [|[|[|]]]; simplify_eq/=. Qed.

Lemma collapse_run m paneId p s c pc a pq :
  mux_ok m → panes m !! paneId = Some p → splits m !! pane_parentId p = Some s → panes m !! c = Some pc →
  find_child (pane_id p) (panes_or_splits s) 0 = Ok (Some a) → (a < length (sizes s))%nat →
  delete a (panes_or_splits s) = [c] → paneId ≠ c → tabs m !! pane_parentId p = None →
  pq = split_parentId s → pq ≠ pane_parentId p → parent_of m (pane_parentId p) = Some pq →
  ∃ l1 l2 m', close_layout p (removed paneId m) = Ok m' ∧ children m pq = l1 ++ pane_parentId p :: l2 ∧
    collapsed m m' (pane_parentId p) pq paneId c l1 l2 pc.
Proof.
  intros Hok Hp Hs Hc Hf Hsz Hdel Hne Ht Epq Hpqq Hqpar. set (q := pane_parentId p) in *.
  pose proof (ok_split_ids m Hok q s Hs) as Hsid. pose proof (ok_pane_ids m Hok c pc Hc) as Hcid.
  pose proof Hqpar as Hin. apply (ok_forest m Hok) in Hin. unfold children in Hin.
  unfold close_layout, close_below_split, getSplit. cbn [tabs splits removed add_closed set_panes].
  fold q. rewrite Ht, Hs, Hf, decide_True by done. cbn [panes_or_splits set_children sizes].
  rewrite Hdel. cbn [length Nat.ltb Nat.leb]. unfold collapse, getPane.
  cbn [panes_or_splits panes splits set_splits set_panes tabs removed add_closed set_children split_parentId split_id].
  rewrite lookup_delete_ne, Hc, <-Epq, Hsid, Hcid by done.
  destruct (tabs m !! pq) as [tb|] eqn:Htb.
  - assert (splits m !! pq = None) as Hspq by (apply (ok_tab_split m Hok); eauto).
    rewrite Hspq in Hin. apply list_elem_of_singleton in Hin. exists [], [].
    eexists. split; [done|]. split; [unfold children; by rewrite Hspq, Htb, Hin|].
    split; cbn; [| |done|done].
    + intros i. destruct (decide (i = c)) as [->|]; [by simplify_map_eq|].
      rewrite lookup_alter_ne by done. case_decide; subst; by simplify_map_eq.
    + intros i. destruct (decide (i = q)) as [->|]; [by simplify_map_eq|].
      rewrite lookup_delete_ne, lookup_insert_ne by done. case_decide; subst; [by rewrite Hspq|done].
  - destruct (splits m !! pq) as [ps|] eqn:Hps; [|by apply not_elem_of_nil in Hin].
    destruct (find_child_in _ _ Hin) as (b & Hb & Hbl). destruct (child_split _ _ _ c Hbl) as [Hl Hl'].
    unfold replace_child. cbn [splits set_panes set_splits removed add_closed]. rewrite lookup_insert_ne, Hps, Hb by done.
    exists (take b (panes_or_splits ps)), (drop (S b) (panes_or_splits ps)).
    eexists. split; [done|]. split; [unfold children; rewrite Hps; exact Hl|].
    split; cbn; [| | |done].
    + intros i. destruct (decide (i = c)) as [->|]; [by simplify_map_eq|].
      rewrite lookup_alter_ne by done. case_decide; subst; by simplify_map_eq.
    + intros i. destruct (decide (i = q)) as [->|]; [by simplify_map_eq|].
      rewrite lookup_delete_ne by done. case_decide; subst; simplify_map_eq; [|done]. by rewrite Hl'.
    + symmetry. apply map_eq. intros i. destruct (decide (i = pq)) as [->|]; [|by rewrite lookup_alter_ne].
      by rewrite lookup_alter_eq, Htb.
Qed.

Lemma close_collapses m paneId p s c pc :
  mux_ok m → panes m !! paneId = Some p → splits m !! pane_parentId p = Some s →
  sibling s paneId c → panes m !! c = Some pc →
  ∃ m', close_layout p (removed paneId m) = Ok m' ∧ mux_ok m' ∧
    (∀ i, is_Some (panes m' !! i) ↔ is_Some (panes m !! i) ∧ i ≠ paneId) ∧
    closed m' = {[paneId]} ∪ closed m.
Proof.
  intros Hok Hp Hs Hsib Hc. destruct (below_split m paneId p s Hok Hp Hs) as (a & Hf & Ha & Hsz & Hpar & Ht).
  set (q := pane_parentId p) in *. pose proof (ok_forest m Hok) as [Hlink Hnd].
  assert (paneId ≠ c ∧ c ∈ panes_or_splits s) as [Hne Hcin].
  { pose proof (Hnd q) as Hn. unfold children in Hn. rewrite Hs in Hn.
    destruct Hsib as [E|E]; rewrite E in *; apply list.NoDup_cons in Hn as [Hn _]; set_solver. }
  assert (parent_of m c = Some q) as Hcpar by (apply Hlink; unfold children; by rewrite Hs).
  assert (pane_parentId pc = q) as Hcq by (unfold parent_of in Hcpar; rewrite Hc in Hcpar; congruence).
  pose proof (ok_split_ids m Hok q s Hs) as Hsid. pose proof (ok_pane_ids m Hok c pc Hc) as Hcid.
  assert (panes m !! q = None) as Hqpn.
  { apply eq_None_not_Some. intros Hn. rewrite (ok_pane_split m Hok q Hn) in Hs. done. }
  set (pq := split_parentId s).
  assert (parent_of m q = Some pq) as Hqpar by (unfold parent_of; by rewrite Hqpn, Hs).
  assert (pq ≠ q) as Hpqq.
  { intros E. assert (shape m q = Some (q, vertical s)) as Hsh by (unfold shape; rewrite Hs; cbn; by rewrite <-E).
    pose proof (ok_alternate m Hok q q _ q _ Hsh Hsh). by destruct (vertical s). }
  assert (∃ l1 l2 m', close_layout p (removed paneId m) = Ok m' ∧ children m pq = l1 ++ q :: l2 ∧
    collapsed m m' q pq paneId c l1 l2 pc) as (l1 & l2 & m' & Hrun & Hch & Hcol).
  { apply (collapse_run m paneId p s c pc a pq Hok Hp Hs Hc); try done. by apply (delete_sibling s paneId). }
  exists m'. split; [done|].
  assert (mux_ok m') as Hok'.
  { eapply collapsed_ok; [done|done|by right|done|].
    eapply (collapsed_forest m m' q pq paneId c); try done.
    intros d Hd. unfold children in Hd. rewrite Hs in Hd. destruct Hsib as [E|E]; rewrite E in Hd; set_solver. }
  split; [done|]. destruct Hcol as [Cp _ _ Cc]. split; [|done]. intros i. rewrite Cp.
  repeat case_decide; subst; naive_solver.
Qed.

(** The pane's only sibling is a split. *)
Definition blocked (m : MultiplexerState) (p : Pane) : Prop :=
  ∃ s c, splits m !! pane_parentId p = Some s ∧ sibling s (pane_id p) c ∧ is_Some (splits m !! c).

Lemma close_layout_ok m paneId p :
  mux_ok m → panes m !! paneId = Some p → ¬ blocked m p →
  ∃ m', close_layout p (removed paneId m) = Ok m' ∧ mux_ok m' ∧
    (∀ i, is_Some (panes m' !! i) ↔ is_Some (panes m !! i) ∧ i ≠ paneId) ∧
    closed m' = {[paneId]} ∪ closed m.
Proof.
  intros Hok Hp Hb.
  assert (∀ i, is_Some (delete paneId (panes m) !! i) ↔ is_Some (panes m !! i) ∧ i ≠ paneId) as Hdel.
  { intros i. destruct (decide (i = paneId)) as [->|]; simplify_map_eq; [|naive_solver].
    split; [by intros [? ?]|naive_solver]. }
  assert (parent_of m paneId = Some (pane_parentId p)) as Hpar by (unfold parent_of; by rewrite Hp).
  destruct (mux_ok_child m _ _ Hok Hpar) as [[tb Htb]|[s Hs]].
  { destruct (close_tab_ok paneId p tb m Hok Hp Htb) as (m' & Hrun & Hok' & ->). eexists.
    split; [exact Hrun|]. split; [done|]. by split. }
  pose proof (ok_split_children m Hok _ s Hs) as [Hlen _].
  destruct (decide (2 < length (panes_or_splits s))%nat) as [Hlt|Hge].
  { destruct (close_shrinks m paneId p s Hok Hp Hs Hlt) as (m' & Hrun & Hok' & Hpanes & Hcl).
    exists m'. split; [done|]. split; [done|]. rewrite Hpanes. by split. }
  apply (ok_forest m Hok) in Hpar. unfold children in Hpar. rewrite Hs in Hpar.
  assert (∃ c, sibling s paneId c) as [c Hsib].
  { unfold sibling. destruct (panes_or_splits s) as [|x [|y [|? ?]]]; cbn in *; try lia.
    apply elem_of_cons in Hpar as [-> | ->%list_elem_of_singleton]; eauto. }
  assert (parent_of m c = Some (pane_parentId p)) as Hc.
  { apply (ok_forest m Hok). unfold children. rewrite Hs. destruct Hsib as [->| ->]; set_solver. }
  unfold parent_of in Hc. destruct (panes m !! c) as [pc|] eqn:Hpc.
  - exact (close_collapses m paneId p s c pc Hok Hp Hs Hsib Hpc).
  - destruct Hb. exists s, c. split_and!; [done| |destruct (splits m !! c); [by eexists|done]].
    by rewrite (ok_pane_ids m Hok _ p Hp).
Qed.

(** C27. Closing a pane removes exactly that pane and leaves a well-formed layout (the
    tab goes, the split shrinks, or the split collapses into the other pane), unless
    the pane's only sibling is itself a split. *)
Theorem closePane_ok paneId p m k k1 :
  mux_ok m → panes m !! paneId = Some p → ¬ blocked m p →
  pty_kill (Terminal.childPid (terminal p)) k = (Ok tt, k1) →
  ∃ m', closePane paneId (m, k) = (Ok tt, (m', k1)) ∧ mux_ok m' ∧
    (∀ i, is_Some (panes m' !! i) ↔ is_Some (panes m !! i) ∧ i ≠ paneId) ∧
    closed m' = {[paneId]} ∪ closed m.
Proof.
  intros Hok Hp Hb Hk. destruct (close_layout_ok m paneId p Hok Hp Hb) as (m' & Hrun & Hrest).
  exists m'. split; [|done]. unfold closePane. rewrite run_fst_get.
  rewrite decide_False by (intros Hc%(ok_closed m Hok); congruence). rewrite Hp. run.
  rewrite run_snd, Hk. unfold settle. rewrite run_fst_get. cbn [Basics.compose] in *.
  change (add_closed paneId (set_panes (delete paneId) m)) with (removed paneId m). by rewrite Hrun.
Qed.

(** ... and in that case the whole server aborts: the code expects the last child
    of a split that collapses to be a pane. *)
Theorem closePane_aborts paneId p m k k1 :
  mux_ok m → panes m !! paneId = Some p → blocked m p →
  pty_kill (Terminal.childPid (terminal p)) k = (Ok tt, k1) →
  ∃ why, (closePane paneId (m, k)).1 = Stop (Fatal why).
Proof.
  intros Hok Hp (s & c & Hs & Hsib & Hc) Hk. rewrite (ok_pane_ids m Hok _ p Hp) in Hsib.
  destruct (below_split m paneId p s Hok Hp Hs) as (a & Hf & Ha & Hsz & Hpar & Ht).
  assert (paneId ≠ c) as Hne by (intros <-; rewrite (ok_pane_split m Hok paneId) in Hc by eauto; by destruct Hc).
  assert (panes m !! c = None) as Hpc.
  { apply eq_None_not_Some. intros Hn. rewrite (ok_pane_split m Hok c Hn) in Hc. by destruct Hc. }
  unfold closePane. rewrite run_fst_get.
  rewrite decide_False by (intros Hcl%(ok_closed m Hok); congruence). rewrite Hp. run.
  rewrite run_snd, Hk. unfold settle. rewrite run_fst_get. cbn [Basics.compose].
  change (add_closed paneId (set_panes (delete paneId) m)) with (removed paneId m).
  unfold close_layout, close_below_split, getSplit. cbn [tabs splits removed add_closed set_panes].
  rewrite Ht, Hs, Hf, decide_True by done. cbn [panes_or_splits set_children sizes].
  rewrite (delete_sibling s paneId c a Hsib Hne Ha). cbn [length Nat.ltb Nat.leb]. unfold collapse, getPane.
  cbn [panes_or_splits panes splits set_splits set_panes removed add_closed set_children].
  rewrite lookup_delete_ne, Hpc by done. by eexists.
Qed.
End Operations.

(** ** The first layout *)

Lemma empty_ok : mux_ok (mkMux ∅ ∅ ∅ ∅).
Proof.
  split; try (by intros * ?%lookup_empty_Some); try done.
  - split; [|intros p; constructor]. intros p c. unfold children, parent_of. cbn.
    rewrite !lookup_empty. cbn. rewrite elem_of_nil. done.
Qed.

Lemma new_mux_ok tabId paneId t :
  mux_ok (mkMux {[ tabId := mkTab tabId paneId 0 ]} {[ paneId := mkPane paneId tabId t ]} ∅ ∅).
Proof.
  pose proof (add_tab_ok tabId paneId t (mkMux ∅ ∅ ∅ ∅) empty_ok) as Hok.
  unfold add_tab, set_panes, set_tabs in Hok. cbn [tabs panes splits closed] in Hok.
  rewrite map_size_empty in Hok. apply Hok; [done|done|set_solver].
Qed.

(** The multiplexer starts with a well-formed layout: one tab, numbered 0, with one
    pane. *)
Theorem MultiplexerState_new_ok {W : Type} `{Pty W} `{Uuids W} k m k' :
  MultiplexerState_new k = (Ok m, k') →
  mux_ok m ∧ size (tabs m) = 1%nat ∧ size (panes m) = 1%nat ∧ splits m = ∅ ∧ closed m = ∅.
Proof.
  unfold MultiplexerState_new. rewrite !M_bind_stop_inv.
  destruct (uuid4 k) as [[tabId|f] k1]; [|done]. rewrite M_bind_stop_inv.
  destruct (uuid4 k1) as [[paneId|f] k2]; [|done]. rewrite M_bind_stop_inv.
  destruct (new_terminal k2) as [[t|f] k3]; [|done]. intros [= <- <-].
  split; [apply new_mux_ok|]. cbn. by rewrite !map_size_singleton.
Qed.

(** ** Sizes *)

(** "Normalize the sizes array" does not: when the last of three panes with the
    sizes 0.25, 0.25 and 0.5 is closed, the sizes of the other two become 0.375, which
    is three quarters of the split together. *)
Theorem normalize_does_not :
  let quarter := f_div f_half (f_of_int 2) in
  let three_eighths := f_div (f_of_int 3) (f_of_int 8) in
  normalize [quarter; quarter] = [three_eighths; three_eighths] ∧ three_eighths ≠ f_half.
Proof. vm_compute. split; [reflexivity|discriminate]. Qed.

(** ** Witnesses *)

Section Witnesses.
#[local] Instance x_pty : Pty Wire := {|
  pty_fork := mret (IoOk (50, 100));
  pty_select _ := mret true;
  pty_read fd n := mret (IoErr EAGAIN);
  pty_waitid _ := mret (IoOk tt);
  pty_winsize _ _ _ := mret tt;
  pty_kill _ := mret tt;
|}.
#[local] Instance x_uuids : Uuids Wire := {|
  uuid4 := (r ← sh_rand; mret (lit "u" ++ dec r))
|}.

Definition x_wire : Wire := with_rands wire0 [1; 2; 3; 4; 5].
Definition mux_of (o : outcome MultiplexerState) : MultiplexerState :=
  match o with Ok m => m | Stop _ => mkMux ∅ ∅ ∅ ∅ end.

(** The first layout, a split of its pane "u2", and a split of the new pane. *)
Definition x_mux1 : MultiplexerState := mux_of (MultiplexerState_new x_wire).1.
Definition x_run2 := newSplit (lit "u2") (lit "b") true (x_mux1, with_rands wire0 [3]).
Definition x_mux2 : MultiplexerState := x_run2.2.1.
Definition x_run3 := newSplit (lit "b") (lit "c") false (x_mux2, with_rands wire0 [4]).
Definition x_mux3 : MultiplexerState := x_run3.2.1.
Definition x_terminal : Terminal.TerminalHandler := Terminal.init 50 100.

Lemma MultiplexerState_new_ok_witness : mux_ok x_mux1 ∧ size (panes x_mux1) = 1%nat.
Proof.
  destruct (MultiplexerState_new_ok x_wire x_mux1 (MultiplexerState_new x_wire).2) as (Hok & _ & Hs & _);
    [vm_compute; reflexivity|split; [exact Hok|exact Hs]].
Defined.

Lemma x_mux1_ok : mux_ok x_mux1.
Proof.
  assert (x_mux1 = mkMux {[ lit "u1" := mkTab (lit "u1") (lit "u2") 0 ]}
    {[ lit "u2" := mkPane (lit "u2") (lit "u1") x_terminal ]} ∅ ∅) as -> by (vm_compute; reflexivity).
  apply new_mux_ok.
Qed.

Lemma newTab_ok_witness : mux_ok (add_tab (lit "t") (lit "p") x_terminal x_mux1).
Proof.
  destruct (newTab_ok (lit "t") (lit "p") x_mux1 wire0 x_mux1_ok) as [_ Hok]; [intros Hin; vm_compute in Hin; discriminate Hin|].
  refine (proj2 (Hok _ _ x_terminal wire0 _)); vm_compute; repeat split; reflexivity.
Defined.

Lemma newSplit_ok_witness :
  ∃ m' k', newSplit (lit "u2") (lit "b") true (x_mux1, with_rands wire0 [3]) = (Ok tt, (m', k')) ∧
    mux_ok m' ∧ split_into m' (lit "u2") (lit "b") true.
Proof.
  refine (newSplit_ok (lit "u2") (lit "b") true x_mux1 (with_rands wire0 [3]) x_terminal
    (with_rands wire0 [3]) (lit "u3") wire0 x_mux1_ok _ _ _ _ _ _ _);
    [vm_compute; by eexists|vm_compute; repeat split; reflexivity|intros Hin; vm_compute in Hin; discriminate Hin|vm_compute; reflexivity
    |vm_compute; reflexivity|vm_compute; repeat split; reflexivity|vm_compute; discriminate].
Defined.

Lemma x_mux2_ok : mux_ok x_mux2.
Proof.
  destruct (newSplit_run (lit "u2") (lit "b") true x_mux1 (with_rands wire0 [3]) x_terminal
    (with_rands wire0 [3]) (lit "u3") wire0 x_mux1_ok) as (m' & k' & Hrun & Hok & _);
    [vm_compute; by eexists|vm_compute; repeat split; reflexivity|intros Hin; vm_compute in Hin; discriminate Hin|vm_compute; reflexivity
    |vm_compute; reflexivity|vm_compute; repeat split; reflexivity|vm_compute; discriminate|].
  unfold x_mux2, x_run2. by rewrite Hrun.
Qed.

Lemma x_mux3_ok : mux_ok x_mux3.
Proof.
  destruct (newSplit_run (lit "b") (lit "c") false x_mux2 (with_rands wire0 [4]) x_terminal
    (with_rands wire0 [4]) (lit "u4") wire0 x_mux2_ok) as (m' & k' & Hrun & Hok & _);
    [vm_compute; by eexists|vm_compute; repeat split; reflexivity|intros Hin; vm_compute in Hin; discriminate Hin|vm_compute; reflexivity
    |vm_compute; reflexivity|vm_compute; repeat split; reflexivity|vm_compute; discriminate|].
  unfold x_mux3, x_run3. by rewrite Hrun.
Qed.

Lemma closePane_ok_witness :
  ∃ m', closePane (lit "c") (x_mux3, wire0) = (Ok tt, (m', wire0)) ∧ mux_ok m'.
Proof.
  destruct (closePane_ok (lit "c") (mkPane (lit "c") (lit "u4") x_terminal) x_mux3 wire0 wire0 x_mux3_ok)
    as (m' & Hrun & Hok & _); [vm_compute; reflexivity| |vm_compute; reflexivity|exists m'; split; assumption].
  intros (s & c & Hs & Hsib & Hc). vm_compute in Hs. injection Hs as <-.
  destruct Hsib as [E|E]; vm_compute in E; [discriminate E|].
  injection E as <-. vm_compute in Hc. destruct Hc as [x Hx]. discriminate Hx.
Defined.

(** Closing the first pane, next to the split of the other two. *)
Lemma closePane_aborts_witness :
  ∃ why, (closePane (lit "u2") (x_mux3, wire0)).1 = Stop (Fatal why).
Proof.
  refine (closePane_aborts (lit "u2") (mkPane (lit "u2") (lit "u3") x_terminal) x_mux3 wire0 wire0 x_mux3_ok
    _ _ _); [vm_compute; reflexivity| |vm_compute; reflexivity].
  eexists _, (lit "u4"). split; [vm_compute; reflexivity|]. split; [left; vm_compute; reflexivity|].
  vm_compute. eexists. reflexivity.
Defined.
End Witnesses.
