(* ===== verification/HtmJson.v ===== *)
(** * The layout as JSON

    [toJson] and [toJsonString] of [htm/MultiplexerState.cpp]: the value that a client of
    the multiplexer is sent when it connects.  The text of a value ([dump]) is made by a
    third-party library and is the class [JsonDump].  Shown: the value holds the whole
    layout. *)

From stdpp Require Import sorting.
From S2P Require Import Prelude Sockets CxxText RawSockets Scrollback Multiplexer.
Import Mux.

(** The values of [nlohmann::json] that the code builds; an object lists its members in the
    order of their keys. *)
Inductive json :=
| JBool (b : bool)
| JInt (z : Z)
| JFloat (f : float32)
| JString (s : str)
| JArray (l : list json)
| JObject (l : list (str * json)).

(** [None] is an exception (text that is not UTF-8). *)
Class JsonDump := { dump : json → option str }.

Definition pane_json (p : Pane) : json := JObject [(lit "id", JString (pane_id p))].

Definition split_json (s : Split) : json :=
  JObject [(lit "id", JString (split_id s));
           (lit "panesOrSplits", JArray (JString <$> panes_or_splits s));
           (lit "sizes", JArray (JFloat <$> sizes s));
           (lit "vertical", JBool (vertical s))].

Definition tab_json (t : Tab) : json :=
  JObject [(lit "id", JString (tab_id t)); (lit "order", JInt (order t));
           (lit "paneOrSplit", JString (pane_or_split_id t))].

(** A member that only exists when something was put into it. *)
Definition map_member {A} (name : str) (f : A → json) (m : gmap str A) : list (str * json) :=
  match in_order m with
  | [] => []
  | l => [(name, JObject ((λ p, (p.1, f p.2)) <$> l))]
  end.

Definition state_json (shell : str) (m : MultiplexerState) : json :=
  JObject (map_member (lit "panes") pane_json (panes m)
           ++ [(lit "shell", JString shell)]
           ++ map_member (lit "splits") split_json (splits m)
           ++ map_member (lit "tabs") tab_json (tabs m)).

(** [string(::getenv("SHELL"))] of an unset variable is undefined. *)
Definition toJsonString `{!JsonDump} (getenv : str → option str) (m : MultiplexerState) : outcome str :=
  match getenv (lit "SHELL") with
  | None => Stop (UB "string(NULL)")
  | Some shell =>
    match dump (state_json shell m) with
    | Some s => Ok s
    | None => Stop (Throw (Exn LogicError "json: invalid UTF-8"))
    end
  end.

(** ** What a client reads from it *)

Definition member (name : str) (l : list (str * json)) : option json :=
  (λ r, r.2.2) <$> list_find (λ p, p.1 = name) l.
Definition field {A} (f : json → option A) (name : str) (l : list (str * json)) : option A :=
  member name l ≫= f.

Definition as_members (j : json) := match j with JObject l => Some l | _ => None end.
Definition as_string (j : json) := match j with JString s => Some s | _ => None end.
Definition as_bool (j : json) := match j with JBool b => Some b | _ => None end.
Definition as_int (j : json) := match j with JInt z => Some z | _ => None end.
Definition as_float (j : json) := match j with JFloat f => Some f | _ => None end.
Definition as_array {A} (f : json → option A) (j : json) : option (list A) :=
  match j with JArray l => mapM f l | _ => None end.

Definition read_pane (j : json) : option str := as_members j ≫= field as_string (lit "id").
Definition read_split (j : json) : option (str * bool * list str * list float32) :=
  l ← as_members j;
  i ← field as_string (lit "id") l;
  v ← field as_bool (lit "vertical") l;
  c ← field (as_array as_string) (lit "panesOrSplits") l;
  z ← field (as_array as_float) (lit "sizes") l;
  Some (i, v, c, z).
Definition read_tab (j : json) : option (str * str * Z) :=
  l ← as_members j;
  i ← field as_string (lit "id") l;
  c ← field as_string (lit "paneOrSplit") l;
  o ← field as_int (lit "order") l;
  Some (i, c, o).

(** The members of an object that need not be there. *)
Definition read_map {A} (f : json → option A) (name : str) (l : list (str * json)) : option (gmap str A) :=
  match member name l with
  | None => Some ∅
  | Some j =>
    l ← as_members j;
    list_to_map <$> mapM (λ p, x ← f p.2; Some (p.1, x)) l
  end.

(** The layout: panes, splits and tabs by their ids. *)
Record layout := mkLayout {
  l_panes : gmap str str;
  l_splits : gmap str (str * bool * list str * list float32);
  l_tabs : gmap str (str * str * Z);
}.

Definition read_layout (j : json) : option layout :=
  l ← as_members j;
  p ← read_map read_pane (lit "panes") l;
  s ← read_map read_split (lit "splits") l;
  t ← read_map read_tab (lit "tabs") l;
  Some (mkLayout p s t).

Definition layout_of (m : MultiplexerState) : layout :=
  mkLayout (pane_id <$> panes m)
    ((λ s, (split_id s, vertical s, panes_or_splits s, sizes s)) <$> splits m)
    ((λ t, (tab_id t, pane_or_split_id t, order t)) <$> tabs m).

(** ** The whole layout is there *)

Lemma in_order_map {A} (m : gmap str A) : list_to_map (in_order m) = m.
Proof.
  rewrite <-(list_to_map_to_list m) at 2. symmetry. apply list_to_map_proper.
  - apply NoDup_fst_map_to_list.
  - unfold in_order. by rewrite merge_sort_Permutation.
Qed.

Lemma mapM_members {A B} (f : A → json) (r : json → option B) (g : A → B) (l : list (str * A)) :
  (∀ x, r (f x) = Some (g x)) →
  mapM (λ p, x ← r p.2; Some (p.1, x)) ((λ p, (p.1, f p.2)) <$> l) = Some (prod_map id g <$> l).
Proof.
  intros Hr. induction l as [|[i x] l IH]; [done|]. cbn. rewrite Hr. cbn. by rewrite IH.
Qed.

Lemma member_app name l1 l2 : member name l1 = None → member name (l1 ++ l2) = member name l2.
Proof.
  unfold member. intros Hl%fmap_None. rewrite list_find_app_r by done.
  by destruct (list_find _ l2) as [[]|].
Qed.

Lemma member_cons (name : str) j l : member name ((name, j) :: l) = Some j.
Proof. unfold member. cbn [list_find]. by rewrite decide_True. Qed.

Lemma member_map_member {A} (n name : str) (f : A → json) m :
  n ≠ name → member n (map_member name f m) = None.
Proof.
  intros Hn. unfold map_member. destruct (in_order m); [done|].
  unfold member. cbn [list_find]. by rewrite decide_False.
Qed.

Lemma read_map_member {A B} (f : A → json) (r : json → option B) (g : A → B) (name : str) (m : gmap str A)
    (before after : list (str * json)) :
  (∀ x, r (f x) = Some (g x)) → member name before = None → member name after = None →
  read_map r name (before ++ map_member name f m ++ after) = Some (g <$> m).
Proof.
  intros Hr Hbefore Hafter. unfold read_map. rewrite member_app by done.
  rewrite <-(in_order_map m) at 2. unfold map_member. destruct (in_order m) as [|p l] eqn:El.
  - cbn [app]. rewrite Hafter. cbn. by rewrite fmap_empty.
  - rewrite <-El. cbn [app]. rewrite member_cons. cbn [as_members mbind option_bind].
    rewrite (mapM_members f r g) by done. cbn. by rewrite list_to_map_fmap.
Qed.

Lemma as_array_fmap {A} (f : A → json) (r : json → option A) (l : list A) :
  (∀ x, r (f x) = Some x) → as_array r (JArray (f <$> l)) = Some l.
Proof. intros Hr. cbn. induction l as [|x l IH]; [done|]. cbn. rewrite Hr. cbn. by rewrite IH. Qed.

(** C39. The value that a new client is sent holds the whole layout: the panes, splits and
    tabs, with their ids, children, sizes and order, can be read back from it. *)
Theorem state_json_complete shell m : read_layout (state_json shell m) = Some (layout_of m).
Proof.
  unfold read_layout, state_json. cbn [as_members mbind option_bind].
  set (P := map_member (lit "panes") pane_json (panes m)).
  set (S := map_member (lit "splits") split_json (splits m)).
  set (T := map_member (lit "tabs") tab_json (tabs m)).
  set (l := P ++ _).
  assert (read_map read_pane (lit "panes") l = Some (pane_id <$> panes m)) as ->.
  { apply (read_map_member pane_json read_pane pane_id _ _ []); [done..|].
    rewrite (member_app _ [_]) by done. rewrite member_app; by apply member_map_member. }
  assert (read_map read_split (lit "splits") l =
    Some ((λ s, (split_id s, vertical s, panes_or_splits s, sizes s)) <$> splits m)) as ->.
  { subst l. rewrite app_assoc. apply read_map_member.
    - intros s. unfold read_split, field, split_json. cbn [as_members mbind option_bind].
      change (member (lit "panesOrSplits") _) with (Some (JArray (JString <$> panes_or_splits s))).
      change (member (lit "sizes") _) with (Some (JArray (JFloat <$> sizes s))).
      cbn -[as_array]. by rewrite !as_array_fmap.
    - rewrite member_app; [done|by apply member_map_member].
    - by apply member_map_member. }
  assert (read_map read_tab (lit "tabs") l =
    Some ((λ t, (tab_id t, pane_or_split_id t, order t)) <$> tabs m)) as ->; [|done].
  subst l. rewrite (app_assoc P), (app_assoc (P ++ _)), <-(app_nil_r T).
  apply read_map_member; [done| |done].
  rewrite <-app_assoc, member_app by by apply member_map_member.
  rewrite member_app by done. by apply member_map_member.
Qed.
