(* ===== verification/HtmServer.v ===== *)
(** * [htm/HtmServer], [htm/HtmClient] and the pipe between them

    The daemon of the terminal multiplexer: it serves one client at a time over a pipe
    ([IpcPairServer]), reads its commands ([Htm]) and sends what the panes print.  The
    client ([HtmPipe]) only copies bytes. *)

From S2P Require Import Prelude Sockets Packets Wire CxxText UnixSockets Forwarding RawSockets Loops Scrollback Multiplexer HtmJson.
Import Mux.

(** [HtmHeaderCodes.hpp] *)
Definition INSERT_KEYS : ascii := "1"%char.
Definition INIT_STATE : ascii := "2"%char.
Definition CLIENT_CLOSE_PANE : ascii := "3"%char.
Definition NEW_TAB : ascii := "5"%char.
Definition NEW_SPLIT : ascii := "9"%char.
Definition RESIZE_PANE : ascii := "A"%char.
Definition DEBUG_LOG : ascii := "B"%char.
Definition INSERT_DEBUG_KEYS : ascii := "C"%char.
Definition SESSION_END : ascii := "D"%char.

Definition UUID_LENGTH : nat := 36.
Definition ESC : ascii := "027"%char.

Module Htm.

(** [IpcPairEndpoint], [IpcPairServer] and [HtmServer] are one object. *)
Record HtmServer := mkHtm {
  serverFd : Z;
  endpointFd : Z;
  state : MultiplexerState;
  running : bool;
}.

Definition set_endpointFd (fd : Z) (h : HtmServer) : HtmServer :=
  mkHtm (serverFd h) fd (state h) (running h).
Definition set_state (m : MultiplexerState) (h : HtmServer) : HtmServer :=
  mkHtm (serverFd h) (endpointFd h) m (running h).
Definition stop_running (h : HtmServer) : HtmServer :=
  mkHtm (serverFd h) (endpointFd h) (state h) false.

Section Htm.
Context {W : Type} `{!Kernel W} `{!Poll W} `{!Pty W} `{!SocketHandler W} `{!Uuids W}.
Context `{!Base64} `{!JsonDump}.
Variable getenv : str → option str.
Variable fuel : nat.

Definition on_state {A} (m : M (MultiplexerState * W) A) : M (HtmServer * W) A :=
  zoom (λ p, (state p.1, p.2)) (λ q p, (set_state q.1 p.1, q.2)) m.

(** ** The pipe *)

Definition closeEndpoint : M (HtmServer * W) unit :=
  h ← on_fst get;
  _ ← on_snd (writeAllOrThrow fuel (endpointFd h) [SESSION_END] false);
  _ ← on_snd (sh_close (endpointFd h));
  on_fst (modify (set_endpointFd (-1))).

(** The constructors: the first descriptor that listens. *)
Definition HtmServer_new (endpoint : SocketEndpoint) : M W HtmServer :=
  _ ← sh_listen endpoint;
  fds ← sh_getEndpointFds endpoint;
  match fds with
  | [] => undefined "*begin() of an empty set"
  | fd :: _ =>
    m ← MultiplexerState_new;
    mret (mkHtm fd (-1) m true)
  end.

(** The destructors. *)
Definition HtmServer_destroy : M (HtmServer * W) unit :=
  h ← on_fst get;
  _ ← on_snd (poll_close (serverFd h));
  if 0 <=? endpointFd h then closeEndpoint else mret tt.

(** ** What the client is sent *)

(** The length is that of the text when it is encoded. *)
Definition sendDebug (msg : str) : M (HtmServer * W) unit :=
  h ← on_fst get;
  let length := Z.of_nat (b64_EncodedLength (length msg)) in
  _ ← on_snd (writeAllOrThrow fuel (endpointFd h) [DEBUG_LOG] false);
  _ ← on_snd (writeB64 fuel (endpointFd h) (le_encode 4 (to_u32 length)));
  on_snd (writeB64 fuel (endpointFd h) msg).

Definition LINE : str := lit "HTM initialized." ++ [LF; "013"%char]
  ++ lit "Press escape in this terminal to disconnect." ++ [LF; "013"%char]
  ++ lit "Press x in this terminal to shut down HTM" ++ [LF; "013"%char].

Definition recover : M (HtmServer * W) unit :=
  h ← on_fst get;
  _ ← on_snd (writeAllOrThrow fuel (endpointFd h) (ESC :: lit "[###q") false);
  _ ← on_snd (k_sleep 10000);
  _ ← sendDebug (lit "Initializing HTM, please wait..." ++ [LF; "013"%char]);
  jsonString ← lift (toJsonString getenv (state h));
  _ ← on_snd (writeAllOrThrow fuel (endpointFd h) [INIT_STATE] false);
  _ ← on_snd (writeB64 fuel (endpointFd h) (le_encode 4 (to_u32 (len jsonString))));
  _ ← on_snd (writeAllOrThrow fuel (endpointFd h) jsonString false);
  _ ← on_state (sendTerminalBuffers fuel (endpointFd h));
  sendDebug LINE.

(** A new client replaces the one that is there. *)
Definition pollAccept : M (HtmServer * W) unit :=
  h ← on_fst get;
  r ← on_snd (sh_accept (serverFd h));
  match r with
  | IoErr _ => mret tt
  | IoOk fd =>
    if fd <? 0 then mret tt
    else
      _ ← (if 0 <=? endpointFd h then closeEndpoint else mret tt);
      _ ← on_fst (modify (set_endpointFd fd));
      recover
  end.

(** ** The commands of the client *)

Definition read_uid (fd : Z) : M (HtmServer * W) str := on_snd (readAll fuel fd UUID_LENGTH false).

(** [int32_t] in base 64 *)
Definition read_int (fd : Z) : M (HtmServer * W) Z :=
  s ← on_snd (readB64 fuel fd 4);
  mret (to_i32 (le_decode s)).

(** [string(n, '\0')] for a number that is converted to [size_t]. *)
Definition sized (n : Z) : M (HtmServer * W) nat :=
  if n <? 0 then throw LogicError "basic_string::_M_create" else mret (Z.to_nat n).

Definition insert_keys (fd length : Z) : M (HtmServer * W) unit :=
  uid ← read_uid fd;
  n ← sized (to_i32 (length - len uid));
  data ← on_snd (readB64EncodedLength fuel fd n);
  on_state (appendData fuel uid data).

(** [data[0]] of an empty string is the terminator. *)
Definition debug_keys (fd length : Z) : M (HtmServer * W) unit :=
  n ← sized length;
  data ← on_snd (readAll fuel fd n false);
  let c := match data with c :: _ => c | [] => NUL end in
  _ ← (if decide (c = "x"%char) then on_fst (modify stop_running) else mret tt);
  _ ← (if decide (c = ESC) then closeEndpoint else mret tt);
  if decide (c = "d"%char) then
    h ← on_fst get;
    _ ← lift (toJsonString getenv (state h));
    mret tt
  else mret tt.

Definition command (fd : Z) (header : ascii) (length : Z) : M (HtmServer * W) unit :=
  if decide (header = INSERT_KEYS) then insert_keys fd length
  else if decide (header = INSERT_DEBUG_KEYS) then debug_keys fd length
  else if decide (header = NEW_TAB) then
    tabId ← read_uid fd;
    paneId ← read_uid fd;
    on_state (newTab tabId paneId)
  else if decide (header = NEW_SPLIT) then
    sourceId ← read_uid fd;
    paneId ← read_uid fd;
    vertical ← on_snd (readAll fuel fd 1 false);
    on_state (newSplit sourceId paneId (bool_decide (vertical = lit "1")))
  else if decide (header = RESIZE_PANE) then
    cols ← read_int fd;
    rows ← read_int fd;
    paneId ← read_uid fd;
    on_state (resizePane paneId cols rows)
  else if decide (header = CLIENT_CLOSE_PANE) then
    paneId ← read_uid fd;
    _ ← on_state (closePane paneId);
    h ← on_fst get;
    if numPanes (state h) =? 0 then on_fst (modify stop_running) else mret tt
  else fatal "Got unknown packet header".

Definition read_command (fd : Z) : M (HtmServer * W) unit :=
  header ← on_snd (readAll fuel fd 1 false);
  length ← read_int fd;
  match header with
  | c :: _ => command fd c length
  | [] => undefined "header"
  end.

Definition iteration : M (HtmServer * W) unit :=
  h ← on_fst get;
  if endpointFd h <? 0 then
    _ ← on_snd (k_sleep 1000000);
    pollAccept
  else
    catch_runtime
      (rfd ← on_snd (poll_select {[endpointFd h]} ∅);
       _ ← (if bool_decide (endpointFd h ∈ rfd) then read_command (endpointFd h) else mret tt);
       h ← on_fst get;
       if 0 <? endpointFd h then on_state (update fuel (endpointFd h)) else mret tt)
      (λ _, closeEndpoint).

(** [rounds] bounds the number of iterations. *)
Fixpoint loop (rounds : nat) : M (HtmServer * W) unit :=
  h ← on_fst get;
  if running h then
    match rounds with
    | O => stop OutOfFuel
    | S rounds' => _ ← iteration; loop rounds'
    end
  else mret tt.

Definition run (rounds : nat) : M (HtmServer * W) unit :=
  _ ← loop rounds;
  closeEndpoint.
End Htm.

(** [to_string(myuid)] of an unsigned number *)
Definition getPipeName `{TempFiles W} (myuid : Z) : str :=
  tf_GetTempDirectory (W := W) ++ lit "htm." ++ dec myuid ++ lit ".ipc".
End Htm.

(** ** The client *)
Module HtmPipe.
Section HtmPipe.
Context {W : Type} `{!Kernel W} `{!Poll W} (raw : SocketHandler W) `{!SocketHandler W}.
Variable fuel : nat.

(** Five attempts, a second apart: the descriptor. *)
Fixpoint connect_loop (retries : nat) (endpoint : SocketEndpoint) : M W Z :=
  match retries with
  | O => throw RuntimeError "Connect to IPC failed"
  | S retries' =>
    r ← sh_connect endpoint;
    match r with
    | IoOk fd => mret fd
    | IoErr _ => _ ← k_sleep 1000000; connect_loop retries' endpoint
    end
  end.

Definition IpcPairClient_new (endpoint : SocketEndpoint) : M W Z := connect_loop 5 endpoint.

(** The destructor. *)
Definition IpcPairClient_destroy (endpointFd : Z) : M W unit :=
  if 0 <=? endpointFd then
    _ ← writeAllOrThrow fuel endpointFd [SESSION_END] false;
    sh_close endpointFd
  else mret tt.

Definition BUF_SIZE : nat := Z.to_nat 1024.
Definition STDIN_FILENO : Z := 0.
Definition STDOUT_FILENO : Z := 1.

Definition copy_in (endpointFd : Z) : M W unit :=
  rc ← k_read STDIN_FILENO BUF_SIZE;
  match rc with
  | IoErr _ => throw RuntimeError "Cannot read from raw socket"
  | IoOk [] => throw RuntimeError "stdin has closed abruptly."
  | IoOk s => writeAllOrThrow fuel endpointFd s false
  end.

(** [Leave]: the daemon has closed. *)
Definition copy_out (endpointFd : Z) : M W stage :=
  rc ← sh_read endpointFd BUF_SIZE;
  match rc with
  | IoErr _ => throw RuntimeError "Cannot read from raw socket"
  | IoOk [] => mret Leave
  | IoOk s =>
    if decide (s = [SESSION_END]) then mret Leave
    else _ ← @Raw.writeAll W raw fuel STDOUT_FILENO s; mret Go
  end.

Definition iteration (endpointFd : Z) : M W stage :=
  rfd ← poll_select ({[endpointFd]} ∪ {[STDIN_FILENO]}) ∅;
  _ ← (if bool_decide (STDIN_FILENO ∈ rfd) then copy_in endpointFd else mret tt);
  if bool_decide (endpointFd ∈ rfd) then copy_out endpointFd else mret Go.

(** [rounds] bounds the number of iterations.  The result is [endpointFd]. *)
Fixpoint run (rounds : nat) (endpointFd : Z) : M W Z :=
  match rounds with
  | O => stop OutOfFuel
  | S rounds' =>
    st ← iteration endpointFd;
    match st with
    | Leave => mret (-1)
    | _ => run rounds' endpointFd
    end
  end.
End HtmPipe.
End HtmPipe.
