(* ===== verification/HtmSpec.v ===== *)
(** * The protocol of the terminal multiplexer

    The commands of a client, as bytes, and what the daemon does with them; and what a
    client that goes away does to the daemon. *)

From S2P Require Import Prelude Sockets Packets Wire CxxText UnixSockets SocketPromises TcpSockets Forwarding RawSockets Loops Scrollback Multiplexer HtmJson HtmServer.
Import Mux Htm.

Class Base64Laws `{!Base64} := {
  b64_round s t : b64_Encode s = Some t → b64_Decode t = Some s;
  b64_length s t : b64_Encode s = Some t → length t = b64_EncodedLength (length s);
}.

(** ** Commands *)

Inductive htm_command :=
| InsertKeys (uid data : str)
| NewTab (tabId paneId : str)
| NewSplit (sourceId paneId : str) (v : bool)
| ResizePane (cols rows : Z) (paneId : str)
| ClosePane (paneId : str).

Definition uuid_sized (i : str) : Prop := length i = UUID_LENGTH.

Section Encoding.
Context `{!Base64}.

(** A 32-bit number in base 64. *)
Definition int_text (z : Z) (t : str) : Prop :=
  - 2 ^ 31 <= z < 2 ^ 31 ∧ b64_Encode (le_encode 4 z) = Some t.

(** The bytes [s] are the body of the command [c], in a message of the length [n]. *)
Inductive body : htm_command → Z → str → Prop :=
| body_keys uid data e n : uuid_sized uid → b64_Encode data = Some e →
    n = len uid + len e → body (InsertKeys uid data) n (uid ++ e)
| body_tab t p n : uuid_sized t → uuid_sized p → body (NewTab t p) n (t ++ p)
| body_split i p v n : uuid_sized i → uuid_sized p →
    body (NewSplit i p v) n (i ++ p ++ (if v then lit "1" else lit "0"))
| body_resize c r p n tc tr : int_text c tc → int_text r tr → uuid_sized p →
    body (ResizePane c r p) n (tc ++ tr ++ p)
| body_close p n : uuid_sized p → body (ClosePane p) n p.

Definition code (c : htm_command) : ascii :=
  match c with
  | InsertKeys _ _ => INSERT_KEYS
  | NewTab _ _ => NEW_TAB
  | NewSplit _ _ _ => NEW_SPLIT
  | ResizePane _ _ _ => RESIZE_PANE
  | ClosePane _ => CLIENT_CLOSE_PANE
  end.

(** A message: its type, its length and its body. *)
Definition message (c : htm_command) (s : str) : Prop :=
  ∃ n l b, int_text n l ∧ body c n b ∧ s = code c :: l ++ b.
End Encoding.

(** What a command asks for. *)
Definition execute {W} `{!Pty W} `{!SocketHandler W} `{!Uuids W} (fuel : nat) (c : htm_command)
    : M (HtmServer * W) unit :=
  match c with
  | InsertKeys uid data => on_state (appendData fuel uid data)
  | NewTab t p => on_state (newTab t p)
  | NewSplit i p v => on_state (newSplit i p v)
  | ResizePane c r p => on_state (resizePane p c r)
  | ClosePane p =>
    _ ← on_state (closePane p);
    h ← on_fst get;
    if numPanes (state h) =? 0 then on_fst (modify stop_running) else mret tt
  end.

Section Commands.
Context {W : Type} `{!Kernel W} `{!Pty W} `{!Uuids W} `{StreamSocket W}.
Context `{!Base64} `{!Base64Laws} `{!JsonDump}.
Variables (getenv : str → option str) (fuel : nat) (fd : Z).

(** [a] has been read from [fd]. *)
Abbreviation took a k k' := (xfer fd a [] k k').

Lemma readAll_takes n a rest k s k' :
  readAll fuel fd n false k = (Ok s, k') → incoming k fd = a ++ rest → length a = n →
  s = a ∧ took a k k' ∧ incoming k' fd = rest.
Proof.
  intros [Hl Hx]%readAll_ok Hin Ha. pose proof Hx as (Hi & _). rewrite Hin in Hi.
  apply app_inj_1 in Hi as [<- <-]; [done|congruence].
Qed.

Lemma took_trans a b k k1 k2 : took a k k1 → took b k1 k2 → took (a ++ b) k k2.
Proof. intros E1 E2. by apply (xfer_trans _ _ _ _ _ _ _ _ E1 E2). Qed.

Lemma read_int_takes z t rest h k z' h' k' :
  read_int fuel fd (h, k) = (Ok z', (h', k')) → incoming k fd = t ++ rest → int_text z t →
  z' = z ∧ h' = h ∧ took t k k' ∧ incoming k' fd = rest.
Proof.
  unfold read_int, readB64. rewrite run_snd, M_bind_stop_inv. intros Hrun Hin [Hz Ht].
  pose proof (b64_length _ _ Ht) as Hl. rewrite length_le_encode in Hl.
  destruct (readAll fuel fd _ false k) as [[s|e] k1] eqn:E; [|done].
  destruct (readAll_takes _ _ _ _ _ _ E Hin Hl) as (-> & Hx & Hin').
  assert (to_i32 (le_decode (le_encode 4 z)) = z) as Hv.
  { rewrite le_decode_encode. change (256 ^ Z.of_nat 4) with (2 ^ 32).
    rewrite to_i32_mod. by apply to_i32_small. }
  rewrite (b64_round _ _ Ht), length_le_encode in Hrun. rewrite decide_True in Hrun by done.
  injection Hrun as <- <- <-. split_and!; [exact Hv|done..].
Qed.

Lemma read_uid_takes i rest h k s h' k' :
  read_uid fuel fd (h, k) = (Ok s, (h', k')) → incoming k fd = i ++ rest → uuid_sized i →
  s = i ∧ h' = h ∧ took i k k' ∧ incoming k' fd = rest.
Proof.
  intros [E Hh]%on_snd_inv Hin Hi. cbn in *. destruct (readAll_takes _ _ _ _ _ _ E Hin Hi) as (?&?&?). auto.
Qed.

(** A read of a command, and what follows it. *)
Ltac take_bytes law H Hin :=
  rewrite M_bind_stop_inv in H;
  match type of H with
  | (match ?r with _ => _ end) = _ =>
    let x := fresh "x" in let e := fresh "e" in let h1 := fresh "h" in let k1 := fresh "k" in
    let E := fresh "E" in let Hx := fresh "Hx" in let Hn := fresh "Hn" in
    let Es := fresh "Es" in let Eh := fresh "Eh" in
    destruct r as [[x|e] [h1 k1]] eqn:E; [|done];
    rewrite <-?app_assoc in Hin;
    edestruct law as (Es & Eh & Hx & Hn); [exact E|exact Hin|done|];
    subst x h1; clear E Hin; rename Hn into Hin
  end.

Ltac which_command := repeat first [rewrite decide_True by done|rewrite decide_False by done].

Lemma command_executes c n b rest h k h' k' :
  body c n b → - 2 ^ 31 <= n < 2 ^ 31 → incoming k fd = b ++ rest →
  command getenv fuel fd (code c) n (h, k) = (Ok tt, (h', k')) →
  ∃ k1, took b k k1 ∧ incoming k1 fd = rest ∧ execute fuel c (h, k1) = (Ok tt, (h', k')).
Proof.
  intros Hb Hn Hin. destruct Hb; unfold command; cbn [code execute]; which_command; intros Hrun.
  - unfold insert_keys in Hrun. take_bytes read_uid_takes Hrun Hin.
    subst n. replace (len uid + len e - len uid) with (len e) in Hrun by lia.
    rewrite to_i32_small in Hrun by lia. unfold sized in Hrun.
    destruct (Z.ltb_spec (len e) 0); [lia|]. rewrite run_ret, Nat2Z.id, run_snd in Hrun.
    unfold readB64EncodedLength in Hrun. rewrite M_bind_stop_inv in Hrun.
    destruct (readAll fuel fd (length e) false _) as [[s|f] k2] eqn:E2; [|done].
    destruct (readAll_takes _ _ _ _ _ _ E2 Hin eq_refl) as (-> & Hx2 & Hin2).
    erewrite b64_round in Hrun by done. eexists. split_and!; [by eapply took_trans|done|exact Hrun].
  - do 2 take_bytes read_uid_takes Hrun Hin. eexists. split_and!; [by eapply took_trans|done|exact Hrun].
  - do 2 take_bytes read_uid_takes Hrun Hin. rewrite run_snd in Hrun.
    match type of Hrun with context [readAll fuel fd 1 false ?k] =>
      destruct (readAll fuel fd 1 false k) as [[s|f] k2] eqn:E2; [|done] end.
    destruct (readAll_takes _ _ _ _ _ _ E2 Hin) as (-> & Hx2 & Hin2); [by destruct v|].
    eexists. split_and!; [by do 2 (eapply took_trans; [done|])|done|].
    by destruct v.
  - do 2 take_bytes read_int_takes Hrun Hin. take_bytes read_uid_takes Hrun Hin.
    eexists. split_and!; [by do 2 (eapply took_trans; [done|])|done|exact Hrun].
  - take_bytes read_uid_takes Hrun Hin. eexists. by split_and!.
Qed.

(** C16. The daemon does what the commands say.  When it returns from reading a command, and
    the bytes on the pipe began with the message of the command [c], it has taken exactly
    that message off the pipe, and what it did besides is to execute [c] on its layout. *)
Theorem htm_commands_executed c s rest h k h' k' :
  message c s → incoming k fd = s ++ rest →
  read_command getenv fuel fd (h, k) = (Ok tt, (h', k')) →
  ∃ k1, xfer fd s [] k k1 ∧ incoming k1 fd = rest ∧ execute fuel c (h, k1) = (Ok tt, (h', k')).
Proof.
  intros (n & l & b & Hl & Hb & ->) Hin. unfold read_command. rewrite run_snd. intros Hrun.
  destruct (readAll fuel fd 1 false k) as [[c0|e] k1] eqn:E1; [|done].
  destruct (readAll_takes _ [code c] (l ++ b ++ rest) _ _ _ E1) as (-> & Hx1 & Hin1);
    [rewrite Hin; cbn; by rewrite <-app_assoc|done|].
  take_bytes read_int_takes Hrun Hin1.
  destruct (command_executes _ _ _ _ _ _ _ _ Hb (proj1 Hl) Hin1 Hrun) as (k2 & Hx2 & Hin2 & He).
  exists k2. split_and!; [|done|done]. change (code c :: l ++ b) with ([code c] ++ l ++ b).
  by do 2 (eapply took_trans; [done|]).
Qed.
End Commands.

(** ** A client that goes away *)

Section Gone.
Context {W : Type} `{!Kernel W} `{!Poll W} `{!Pty W} `{!SocketHandler W} `{!Uuids W}.
Context `{!Base64} `{!JsonDump}.
Variables (getenv : str → option str) (fuel : nat).

(** C40. A client that goes away takes the daemon with it.  When the client of the
    multiplexer has closed its end of the pipe without the command to disconnect, so that
    the daemon can neither read the next command nor send the message that ends the
    session, the exception of the second failure ends the daemon: it leaves [run], with the
    shells of all its panes. *)
Theorem client_gone_ends_daemon rounds h k k1 w1 k2 w2 k3 :
  running h = true → 0 <= endpointFd h →
  poll_select {[endpointFd h]} ∅ k = (Ok {[endpointFd h]}, k1) →
  readAll fuel (endpointFd h) 1 false k1 = (Stop (Throw (Exn RuntimeError w1)), k2) →
  writeAllOrThrow fuel (endpointFd h) [SESSION_END] false k2 = (Stop (Throw (Exn RuntimeError w2)), k3) →
  run getenv fuel (S rounds) (h, k) = (Stop (Throw (Exn RuntimeError w2)), (h, k3)).
Proof.
  intros Hrun Hfd Hsel Hread Hthrow.
  assert (iteration getenv fuel (h, k) = (Stop (Throw (Exn RuntimeError w2)), (h, k3))) as Hit.
  { unfold iteration. rewrite run_fst_get. rewrite (proj2 (Z.ltb_ge _ _) Hfd).
    unfold catch_runtime. rewrite run_snd, Hsel, bool_decide_true by set_solver.
    unfold read_command. rewrite M_bind_stop_inv, run_snd, Hread.
    unfold closeEndpoint. by rewrite run_fst_get, run_snd, Hthrow. }
  unfold run. rewrite M_bind_stop_inv. cbn [loop]. rewrite run_fst_get, Hrun.
  by rewrite (M_bind_stop _ _ _ _ _ Hit).
Qed.
End Gone.

(** ** The client copies bytes *)

Section Copy.
Context {W : Type} `{!Kernel W} `{!Poll W} (raw : SocketHandler W) `{!SocketHandler W} `{!Streams W}.
Context `{!KernelStreams W} `{!StreamSocket W} `{!CleanRetry W}.
Context `{!@StreamSocket W raw _} `{!@CleanRetry W raw _}.
Hypothesis select_quiet : ∀ r w k o k', poll_select r w k = (o, k') → quiet k k'.
Variables (fuel : nat) (fd : Z).
Hypothesis Hfd : 1 < fd.
Import HtmPipe.

(** What passed in an iteration: [i] from standard input to the daemon, [o] from the daemon,
    of which [shown] went to standard output. *)
Record copied (i o shown : str) (k k' : W) : Prop := {
  copied_stdin : incoming k STDIN_FILENO = i ++ incoming k' STDIN_FILENO;
  copied_to : outgoing k' fd = outgoing k fd ++ i;
  copied_from : incoming k fd = o ++ incoming k' fd;
  copied_shown : outgoing k' STDOUT_FILENO = outgoing k STDOUT_FILENO ++ shown;
}.

Lemma copied_quiet k k' : quiet k k' → copied [] [] [] k k'.
Proof.
  intros Hq. split; rewrite ?app_nil_r; [symmetry|..|symmetry|]; apply Hq.
Qed.

Lemma copied_trans i1 o1 s1 i2 o2 s2 k1 k2 k3 :
  copied i1 o1 s1 k1 k2 → copied i2 o2 s2 k2 k3 → copied (i1 ++ i2) (o1 ++ o2) (s1 ++ s2) k1 k3.
Proof.
  intros [A1 B1 C1 D1] [A2 B2 C2 D2]. split; rewrite <-?app_assoc.
  - by rewrite A1, A2.
  - by rewrite B2, B1, <-app_assoc.
  - by rewrite C1, C2.
  - by rewrite D2, D1, <-app_assoc.
Qed.

Lemma copy_in_copies k k' :
  copy_in fuel fd k = (Ok tt, k') → ∃ i, copied i [] [] k k'.
Proof.
  unfold copy_in. rewrite M_bind_stop_inv. destruct (k_read _ _ k) as [[[s|e]|f] k1] eqn:E; try done.
  apply kernel_read in E as [_ (A & B & C)]. destruct s as [|c s]; [done|].
  intros (A' & B' & C')%writeAllOrThrow_ok. exists (c :: s). unfold STDIN_FILENO, STDOUT_FILENO in *.
  split; unfold STDIN_FILENO, STDOUT_FILENO; rewrite ?app_nil_r.
  - rewrite A. f_equal. symmetry. apply C'. lia.
  - rewrite B'. f_equal. apply C. lia.
  - destruct (C fd ltac:(lia)) as [<- _]. by rewrite A'.
  - destruct (C' 1 ltac:(lia)) as [_ ->]. apply C. lia.
Qed.

Lemma copy_out_copies k st k' :
  copy_out raw fuel fd k = (Ok st, k') →
  ∃ o, copied [] o (match st with Leave => [] | _ => o end) k k' ∧
       (st = Leave ↔ o = [] ∨ o = [SESSION_END]).
Proof.
  unfold copy_out. rewrite M_bind_stop_inv. destruct (sh_read _ _ k) as [[[s|e]|f] k1] eqn:E; try done.
  apply stream_read in E as [_ (A & B & C)]. rewrite app_nil_r in B.
  assert (∀ k2 sh, xfer STDOUT_FILENO [] sh k1 k2 → copied [] s sh k k2) as Hall.
  { intros k2 sh (A' & B' & C'). unfold STDIN_FILENO, STDOUT_FILENO in *.
    split; unfold STDIN_FILENO, STDOUT_FILENO; rewrite ?app_nil_r; cbn [app].
    - destruct (C' 0 ltac:(lia)) as [-> _]. symmetry. apply C. lia.
    - destruct (C' fd ltac:(lia)) as [_ ->]. done.
    - rewrite A. f_equal. symmetry. apply C'. lia.
    - rewrite B'. f_equal. apply C. lia. }
  assert (xfer STDOUT_FILENO [] [] k1 k1) as Hnone by by apply quiet_xfer.
  destruct s as [|c s].
  { intros [= <- <-]. exists []. split; [by apply Hall|]. by split; [left|]. }
  case_decide as Hs.
  { intros [= <- <-]. rewrite Hs in *. exists [SESSION_END]. split; [by apply Hall|]. by split; [right|]. }
  rewrite M_bind_stop_inv. destruct (Raw.writeAll _ _ _ k1) as [[[]|f] k2] eqn:E2; [|done].
  intros [= <- <-]. apply Raw.raw_writeAll_run in E2 as (s' & Hx & _ & Hd).
  rewrite (Hd eq_refl) in Hx. exists (c :: s). split; [by apply Hall|]. by split; [|intros [|]].
Qed.

(** The client of the multiplexer copies.  In an iteration that returns, what it took
    from the standard input is what it sent to the daemon, and what it received from the
    daemon is what it showed; it leaves, showing nothing, exactly when it received nothing
    or the single character D, whether that character was the end of the session or just
    the only byte of the output that had arrived.  (For a pipe whose writes ask to be retried
    only when they have sent nothing.) *)
Theorem htm_client_copies k st k' :
  HtmPipe.iteration raw fuel fd k = (Ok st, k') →
  ∃ i o, copied i o (match st with Leave => [] | _ => o end) k k' ∧
         (st = Leave → o = [] ∨ o = [SESSION_END]) ∧ (o = [SESSION_END] → st = Leave).
Proof.
  unfold HtmPipe.iteration. rewrite M_bind_stop_inv.
  destruct (poll_select _ ∅ k) as [[rfd|f] k1] eqn:E; [|done].
  apply select_quiet in E. pose proof (copied_quiet _ _ E) as Hq. rewrite M_bind_stop_inv.
  destruct ((if bool_decide _ then copy_in fuel fd else mret tt) k1) as [[[]|f] k2] eqn:E1; [|done].
  assert (∃ i, copied i [] [] k1 k2) as [i Hi].
  { case_bool_decide; [by apply copy_in_copies|]. injection E1 as <-. exists []. by apply copied_quiet. }
  pose proof (copied_trans _ _ _ _ _ _ _ _ _ Hq Hi) as H12. cbn [app] in H12.
  destruct (bool_decide (fd ∈ rfd)).
  - intros (o & Ho & Hiff)%copy_out_copies. exists i, o. split; [|naive_solver].
    pose proof (copied_trans _ _ _ _ _ _ _ _ _ H12 Ho) as H13. by rewrite app_nil_r in H13.
  - intros [= <- <-]. exists i, []. split; [done|]. by split.
Qed.
End Copy.

(** ** Witnesses *)

Section Witnesses.
#[local] Instance y_pty : Pty Wire := {|
  pty_fork := mret (IoOk (50, 100));
  pty_select _ := mret true;
  pty_read fd n := mret (IoErr EAGAIN);
  pty_waitid _ := mret (IoOk tt);
  pty_winsize _ _ _ := mret tt;
  pty_kill _ := mret tt;
|}.
#[local] Instance y_uuids : Uuids Wire := {|
  uuid4 := (r ← sh_rand; mret (lit "u" ++ dec r))
|}.

(** Each byte as two digits of the base 16. *)
Definition digits (c : ascii) : str :=
  let n := Ascii.nat_of_ascii c in [Ascii.ascii_of_nat (65 + n / 16); Ascii.ascii_of_nat (65 + n mod 16)].
Fixpoint undigits (s : str) : option str :=
  match s with
  | a :: b :: s' =>
    cons (Ascii.ascii_of_nat (16 * (Ascii.nat_of_ascii a - 65) + (Ascii.nat_of_ascii b - 65))) <$> undigits s'
  | [] => Some []
  | _ => None
  end.
#[local] Instance y_base64 : Base64 := {|
  b64_EncodedLength n := (2 * n)%nat;
  b64_Encode s := Some (s ≫= digits);
  b64_Decode := undigits;
|}.
#[local] Instance y_base64_laws : Base64Laws.
Proof.
  split; intros s t [= <-].
  - induction s as [|c s IH]; [done|]. cbn [mbind list_bind digits app undigits b64_Decode y_base64] in *.
    rewrite IH. cbn [fmap option_fmap option_map]. do 2 f_equal.
    destruct c as [[] [] [] [] [] [] [] []]; reflexivity.
  - induction s as [|c s IH]; [done|]. cbn [mbind list_bind digits app length b64_EncodedLength y_base64] in *.
    rewrite IH. lia.
Qed.
#[local] Instance y_json : JsonDump := {| dump _ := Some (lit "{}") |}.

Definition y_tab : str := lit "00000000-0000-4000-8000-000000000001".
Definition y_pane : str := lit "00000000-0000-4000-8000-000000000002".
Definition y_length : str := le_encode 4 72 ≫= digits.
Definition y_message : str := NEW_TAB :: y_length ++ y_tab ++ y_pane.
Definition y_server : HtmServer := mkHtm 3 7 (mkMux ∅ ∅ ∅ ∅) true.
Definition y_wire : Wire := with_in wire0 7 (y_message ++ lit "rest").
Definition y_run := read_command (λ _, None) 100 7 (y_server, y_wire).

Lemma htm_commands_executed_witness :
  size (panes (state y_run.2.1)) = 1%nat ∧
  ∃ k1, xfer 7 y_message [] y_wire k1 ∧ incoming k1 7 = lit "rest" ∧
        execute 100 (NewTab y_tab y_pane) (y_server, k1) = (Ok tt, (y_run.2.1, y_run.2.2)).
Proof.
  split; [vm_compute; reflexivity|].
  refine (htm_commands_executed (λ _, None) 100 7 (NewTab y_tab y_pane) y_message (lit "rest")
    y_server y_wire y_run.2.1 y_run.2.2 _ _ _).
  - exists 72, y_length, (y_tab ++ y_pane). split; [split; [lia|reflexivity]|].
    split; [|reflexivity]. constructor; reflexivity.
  - vm_compute. reflexivity.
  - vm_compute. reflexivity.
Defined.

(** The descriptor 7 is broken. *)
Lemma client_gone_ends_daemon_witness :
  ∃ w2, run (λ _, None) 100 5 (y_server, with_broken wire0 [7])
        = (Stop (Throw (Exn RuntimeError w2)), (y_server, with_broken wire0 [7])).
Proof.
  eexists. eapply (client_gone_ends_daemon (λ _, None) 100 4 y_server (with_broken wire0 [7])
    (with_broken wire0 [7]) _ (with_broken wire0 [7])).
  - reflexivity.
  - cbn. lia.
  - reflexivity.
  - reflexivity.
  - reflexivity.
Defined.

(** A key, and the start of what the panes show. *)
Definition y_copy : Wire := with_in (with_in wire0 0 (lit "x")) 7 [INIT_STATE].
Definition y_copied := HtmPipe.iteration WireSocket 100 7 y_copy.

Lemma htm_client_copies_witness :
  wire_out y_copied.2 7 = lit "x" ∧ wire_out y_copied.2 1 = [INIT_STATE] ∧
  ∃ i o, copied 7 i o (match Go with Leave => [] | _ => o end) y_copy y_copied.2 ∧
         (Go = Leave → o = [] ∨ o = [SESSION_END]) ∧ (o = [SESSION_END] → Go = Leave).
Proof.
  split; [vm_compute; reflexivity|]. split; [vm_compute; reflexivity|].
  refine (htm_client_copies WireSocket _ 100 7 _ y_copy Go y_copied.2 _).
  - intros r w k o k' [= <- <-]. done.
  - lia.
  - vm_compute. reflexivity.
Defined.
End Witnesses.
