(* ===== verification/Processes.v ===== *)
(** * Processes: [base/SubprocessUtils], [base/DaemonCreator], [terminal/PseudoUserTerminal]

    The calls that make processes are the class [Process].  [fork] gives each of the two
    processes its result; what a child does up to [exec] is a definition of its own. *)

From S2P Require Import Prelude Sockets Wire CxxText UnixSockets SocketPromises Scrollback Loops UserTerminal.

(** A call that gives -1 when it fails. *)
Class Process (W : Type) := {
  ps_fork : M W Z;
  ps_setsid : M W Z;
  ps_ignore_sighup : M W unit;
  ps_open_pidfile : str → M W Z;
  ps_getpid : M W Z;
  ps_write : Z → str → M W Z;
  ps_close : Z → M W Z;
  ps_chdir : str → M W Z;
  (** the standard streams become [/dev/null] *)
  ps_null_streams : M W unit;
  (** the two ends of a pipe, the one to read from first *)
  ps_pipe : M W (io_result (Z * Z));
  ps_dup2 : Z → Z → M W unit;
  (** [execvp], [execl]: only failures return *)
  ps_exec : str → list str → M W unit;
  (** until one child has ended *)
  ps_wait : M W unit;
  ps_default_sigchld : M W unit;
  (** the home directory of this user; [None] without an entry *)
  ps_home : M W (option str);
  (** [ioctl] with [TIOCSWINSZ] *)
  ps_winsize : Z → winsize → M W unit;
}.

Definition fatal_fail {W} (m : M W Z) : M W Z :=
  r ← m;
  if r =? -1 then fatal "Error" else mret r.

(** ** Daemons *)

Module Daemon.
Definition PARENT : Z := 1.
Definition CHILD : Z := 2.

Section Daemon.
Context {W : Type} `{!Process W}.

Definition write_pidfile (childPidFile : str) : M W unit :=
  match childPidFile with
  | [] => mret tt
  | _ =>
    pidFilehandle ← ps_open_pidfile (c_str childPidFile);
    if pidFilehandle =? -1 then fatal "Error opening pidfile for writing"
    else
      pid ← ps_getpid;
      let pid_str := dec pid ++ [LF] in
      bytesWritten ← fatal_fail (ps_write pidFilehandle pid_str);
      if negb (bytesWritten =? len pid_str) then fatal "Error writing pidfile"
      else _ ← fatal_fail (ps_close pidFilehandle); mret tt
  end.

(** In one of the processes that the forks make; [None] is [exit]. *)
Definition create (parentExit : bool) (childPidFile : str) : M W (option Z) :=
  pid ← ps_fork;
  if pid <? 0 then mret None
  else if 0 <? pid then mret (if parentExit then None else Some PARENT)
  else
    sid ← ps_setsid;
    if sid <? 0 then mret None
    else
      _ ← ps_ignore_sighup;
      pid ← ps_fork;
      if pid <? 0 then mret None
      else if 0 <? pid then mret None
      else
        _ ← write_pidfile childPidFile;
        _ ← fatal_fail (ps_chdir (lit "/"));
        _ ← ps_null_streams;
        mret (Some CHILD).
End Daemon.
End Daemon.

(** ** [SubprocessUtils] *)

Module Subproc.
Definition BUF_SIZE : nat := Z.to_nat 4096.
Definition STDOUT_FILENO : Z := 1.

Section Subproc.
Context {W : Type} `{!Process W} `{!Kernel W}.

(** The child; it ends when [execvp] fails. *)
Definition child (link_client : Z * Z) (command : str) (args : list str) : M W unit :=
  _ ← ps_dup2 link_client.2 STDOUT_FILENO;
  _ ← ps_close link_client.1;
  _ ← ps_close link_client.2;
  ps_exec (c_str command) (c_str command :: (c_str <$> args)).

(** Until nothing is left, or a read fails. *)
Fixpoint read_all (fuel : nat) (fd : Z) : M W str :=
  match fuel with
  | O => stop OutOfFuel
  | S fuel' =>
    nbytes ← k_read fd BUF_SIZE;
    match nbytes with
    | IoErr _ | IoOk [] => mret []
    | IoOk buf => sshBuffer ← read_all fuel' fd; mret (buf ++ sshBuffer)
    end
  end.

(** In the parent, which waits for the end of the child before it reads; [None] is
    [exit(1)]. *)
Definition SubprocessToStringInteractive (fuel : nat) (command : str) (args : list str) : M W (option str) :=
  link_client ← ps_pipe;
  match link_client with
  | IoErr _ => fatal "pipe"
  | IoOk link_client =>
    pid ← ps_fork;
    if pid =? 0 then _ ← child link_client command args; mret None
    else if 0 <? pid then
      _ ← ps_close link_client.2;
      _ ← ps_wait;
      sshBuffer ← read_all fuel link_client.1;
      mret (Some sshBuffer)
    else mret None
  end.
End Subproc.
End Subproc.

(** ** [PseudoUserTerminal] *)

Module PseudoTerm.

(** A member that has not been assigned is [None]. *)
Record PseudoUserTerminal := mkPseudo { pid : option Z; masterFd : option Z }.
Definition init : PseudoUserTerminal := mkPseudo None None.

Section PseudoTerm.
Context {W : Type} `{!Process W} `{!Kernel W} `{!Pty W} `{!Poll W}.
Variable getenv : str → option str.
Variable ET_VERSION : str.

(** In the child: the login shell. *)
Definition runTerminal : M W unit :=
  pwd ← ps_home;
  match pwd, getenv (lit "SHELL") with
  | Some dir, Some terminal =>
    _ ← ps_chdir dir;
    _ ← poll_setenv (lit "ET_VERSION") ET_VERSION;
    _ ← ps_default_sigchld;
    _ ← ps_exec (c_str terminal) [c_str terminal; lit "-l"];
    fatal "Error"
  | None, _ => undefined "pwd->pw_dir"
  | _, None => undefined "string(::getenv(SHELL))"
  end.

(** In the child of [setup]. *)
Definition child (routerFd : Z) : M W unit :=
  _ ← ps_close routerFd;
  runTerminal.

(** In the parent.  The process id of the shell is a local variable that hides the member. *)
Definition setup (routerFd : Z) : M (PseudoUserTerminal * W) Z :=
  r ← on_snd pty_fork;
  match r with
  | IoErr _ => fatal "Error"
  | IoOk (fd, pid) =>
    _ ← on_fst (modify (λ t, mkPseudo (PseudoTerm.pid t) (Some fd)));
    flags ← on_snd (k_getfl fd);
    _ ← match flags with
        | IoErr _ => mret tt
        | IoOk flags => _ ← on_snd (k_setfl fd (Z.lor flags O_NONBLOCK)); mret tt
        end;
    mret fd
  end.

Definition getPid : M (PseudoUserTerminal * W) Z :=
  t ← on_fst get;
  match pid t with
  | None => undefined "pid"
  | Some p => mret p
  end.

Definition handleSessionEnd : M (PseudoUserTerminal * W) unit :=
  p ← getPid;
  if 0 <? p then _ ← on_snd (pty_waitid p); mret tt else mret tt.

Definition cleanup : M (PseudoUserTerminal * W) unit := mret tt.

Definition setInfo (tmpwin : winsize) : M (PseudoUserTerminal * W) unit :=
  t ← on_fst get;
  match masterFd t with
  | None => undefined "masterFd"
  | Some fd => on_snd (ps_winsize fd tmpwin)
  end.

#[export] Instance pseudo_terminal : UserTerminal (PseudoUserTerminal * W) := {|
  term_setup := setup;
  term_handleSessionEnd := handleSessionEnd;
  term_cleanup := cleanup;
  term_setInfo := setInfo;
|}.
End PseudoTerm.
End PseudoTerm.

(** ** What they do *)

(** What [read_all] gives back is what came through the pipe. *)
Lemma read_all_takes {W} `{Kernel W} `{Streams W} `{!KernelStreams W} fuel fd (k : W) s k' :
  Subproc.read_all fuel fd k = (Ok s, k') → xfer fd s [] k k'.
Proof.
  revert k s. induction fuel as [|fuel IH]; intros k s; cbn [Subproc.read_all]; [done|].
  rewrite M_bind_stop_inv. destruct (k_read fd Subproc.BUF_SIZE k) as [[[r|e]|f] k1] eqn:E; [| |done];
    apply kernel_read in E; cbn in E.
  - destruct E as [_ Hx]. destruct r as [|c r]; [by intros [= <- <-]|].
    rewrite M_bind_stop_inv. destruct (Subproc.read_all fuel fd k1) as [[t|f] k2] eqn:E2; [|done].
    intros [= <- <-]. apply IH in E2. apply (xfer_trans _ (c :: r) [] t [] _ _ _ Hx E2).
  - intros [= <- <-]. by apply quiet_xfer.
Qed.

(** The end of a session reads the process id of the shell, which [setup] has not stored. *)
Lemma session_end_undefined {W} `{!Process W} `{!Kernel W} `{!Pty W} routerFd (k : W) fd t k' :
  PseudoTerm.setup routerFd (PseudoTerm.init, k) = (Ok fd, (t, k')) →
  PseudoTerm.masterFd t = Some fd ∧ PseudoTerm.handleSessionEnd (t, k') = (Stop (UB "pid"), (t, k')).
Proof.
  unfold PseudoTerm.setup. rewrite run_snd. destruct (pty_fork k) as [[[[m p]|e]|f] k1]; try done.
  rewrite run_fst_modify, run_snd. destruct (k_getfl m k1) as [[fl|f] k2]; [|done].
  rewrite M_bind_stop_inv. destruct fl as [fl|e].
  - rewrite run_snd. destruct (k_setfl m _ k2) as [[[]|f] k3]; try done; by intros [= <- <- <-].
  - by intros [= <- <- <-].
Qed.
