(* ===== verification/ConsoleModes.v ===== *)
(** * [terminal/PseudoTerminalConsole]: the user's terminal in raw mode

    The console of [et] as an instance of [Console].  The modes of the terminal and its size
    are the class [Termios].  Shown: the modes are restored. *)

From S2P Require Import Prelude Sockets Crypto Packets Wire CxxText UnixSockets TcpSockets SocketPromises Forwarding.
From S2P Require Import RawSockets TerminalMessages Loops UserTerminal TerminalClient.

(** [tcgetattr] and [tcsetattr] of the standard input, [cfmakeraw], and [TIOCGWINSZ] of the
    standard output. *)
Class Termios (W : Type) := {
  termios : Type;
  cfmakeraw : termios → termios;
  tcgetattr : M W termios;
  tcsetattr : termios → M W unit;
  get_winsize : M W winsize;
}.

Module PseudoConsole.
Section PseudoConsole.
Context {W : Type} `{!Termios W}.

(** The member [terminal_backup]. *)
Definition PseudoTerminalConsole : Type := termios.

Definition PseudoTerminalConsole_new : M W PseudoTerminalConsole := tcgetattr.

Definition setup : M (PseudoTerminalConsole * W) unit :=
  terminal_local ← on_snd tcgetattr;
  _ ← on_fst (put terminal_local);
  on_snd (tcsetattr (cfmakeraw terminal_local)).

Definition teardown : M (PseudoTerminalConsole * W) unit :=
  terminal_backup ← on_fst get;
  on_snd (tcsetattr terminal_backup).

Definition getTerminalInfo : M (PseudoTerminalConsole * W) TerminalInfo :=
  win ← on_snd get_winsize;
  mret (mkTi None (Some (ws_row win)) (Some (ws_col win)) (Some (ws_xpixel win)) (Some (ws_ypixel win))).

Definition getFd : M (PseudoTerminalConsole * W) Z := mret 1.

#[export] Instance pseudo_console : Console (PseudoTerminalConsole * W) := {|
  con_setup := setup;
  con_teardown := teardown;
  con_getFd := getFd;
  con_getTerminalInfo := getTerminalInfo;
|}.
End PseudoConsole.
End PseudoConsole.

(** The modes of the terminal in a world. *)
Class TermiosLaws (W : Type) `{!Termios W} := {
  modes : W → termios;
  tcgetattr_modes k o k' : tcgetattr k = (o, k') → o = Ok (modes k) ∧ modes k' = modes k;
  tcsetattr_modes t k o k' : tcsetattr t k = (o, k') → o = Ok tt → modes k' = t;
}.

(** After [setup], whatever runs in between, [teardown] brings back the modes that were
    there. *)
Lemma console_restores {W} `{!Termios W} `{!TermiosLaws W} c (k : W) p1 k2 p3 :
  PseudoConsole.setup (c, k) = (Ok tt, p1) →
  PseudoConsole.teardown (p1.1, k2) = (Ok tt, p3) → modes p3.2 = modes k.
Proof.
  unfold PseudoConsole.setup, PseudoConsole.teardown. rewrite run_snd.
  destruct (tcgetattr k) as [[t|f] k1] eqn:E; [|done]. apply tcgetattr_modes in E as [[= ->] H1].
  rewrite run_fst_put. intros [Ht Hb]%on_snd_inv. rewrite run_fst_get. intros [Ht2 _]%on_snd_inv.
  cbn [fst snd] in *. rewrite Hb in Ht2. by apply tcsetattr_modes in Ht2.
Qed.
