(* ===== verification/Telemetry.v ===== *)
(** * [terminal/TelemetryService]: the log that is sent away

    The buffer of log messages and the thread that posts them.  HTTP, the clock and the
    Sentry library are the class [Telemetry]; a build is with Sentry or without.  What other
    threads do between the two locks of an iteration is a parameter.
    Shown: the buffer is bounded, and a shutdown posts all that was logged before it. *)

From S2P Require Import Prelude Sockets CxxText UnixSockets RawSockets Scrollback Multiplexer HtmJson.

Inductive Level := Global | Trace | Debug | FatalLevel | ErrorLevel | WarningLevel | Verbose | InfoLevel | Unknown.
Inductive sentry_level_e := SENTRY_LEVEL_INFO | SENTRY_LEVEL_WARNING | SENTRY_LEVEL_ERROR | SENTRY_LEVEL_FATAL | SENTRY_LEVEL_DEBUG.

Class Telemetry (W : Type) := {
  (** in microseconds *)
  tl_now : M W Z;
  (** the value, written with an indentation of four, is posted *)
  tl_post : json → M W unit;
  (** [sentry_init], with the path of its database, the environment and the id of the user *)
  tl_sentry_init : str → str → str → M W unit;
  (** an event from the logger ["stderr"] *)
  tl_sentry_capture_event : sentry_level_e → str → M W unit;
  tl_sentry_shutdown : M W unit;
}.

Definition logLevelToSentry (l : Level) : sentry_level_e :=
  match l with
  | InfoLevel => SENTRY_LEVEL_INFO
  | WarningLevel => SENTRY_LEVEL_WARNING
  | ErrorLevel => SENTRY_LEVEL_ERROR
  | FatalLevel => SENTRY_LEVEL_FATAL
  | _ => SENTRY_LEVEL_DEBUG
  end.

Definition logLevelToString (l : Level) : str :=
  match l with
  | Global => lit "Global"
  | Trace => lit "Trace"
  | Debug => lit "Debug"
  | FatalLevel => lit "Fatal"
  | ErrorLevel => lit "Error"
  | WarningLevel => lit "Warning"
  | Verbose => lit "Verbose"
  | InfoLevel => lit "Info"
  | Unknown => lit "Unknown"
  end.

Module Tele.

Record TelemetryService := mkTele {
  allowed : bool;
  environment : str;
  telemetryId : str;
  logBuffer : list json;
  shuttingDown : bool;
  (** [logSendingThread]: its [nextDumpTime] *)
  thread : option Z;
}.

Definition set_logBuffer (l : list json) (t : TelemetryService) : TelemetryService :=
  mkTele (allowed t) (environment t) (telemetryId t) l (shuttingDown t) (thread t).
Definition set_thread (n : option Z) (t : TelemetryService) : TelemetryService :=
  mkTele (allowed t) (environment t) (telemetryId t) (logBuffer t) (shuttingDown t) n.
Definition shut (t : TelemetryService) : TelemetryService :=
  mkTele (allowed t) (environment t) (telemetryId t) (logBuffer t) true (thread t).

Definition MAX_BUFFER : nat := Z.to_nat (16 * 1024).
Definition DUMP_INTERVAL : Z := 30 * 1000000.

Section Tele.
Context {W : Type} `{!Telemetry W} `{!Kernel W}.
Variables (ET_VERSION : str) (USE_SENTRY : bool).

(** A [map<string, string>] lists its keys in order. *)
Definition message_json (t : TelemetryService) (logText : str) (logLevel : Level) (filename : str) (line : Z) : json :=
  JObject [(lit "Application", JString (lit "Eternal Terminal"));
           (lit "Environment", JString (environment t));
           (lit "File", JString filename);
           (lit "Line", JString (dec line));
           (lit "TelemetryId", JString (telemetryId t));
           (lit "Version", JString ET_VERSION);
           (lit "level", JString (logLevelToString logLevel));
           (lit "message", JString logText)].

Definition logToDatadog (logText : str) (logLevel : Level) (filename : str) (line : Z) (t : TelemetryService)
    : TelemetryService :=
  if (MAX_BUFFER <? length (logBuffer t))%nat then t
  else set_logBuffer (logBuffer t ++ [message_json t logText logLevel filename line]) t.

Definition logToSentry (t : TelemetryService) (level : Level) (message : str) : M W unit :=
  if allowed t && USE_SENTRY then tl_sentry_capture_event (logLevelToSentry level) (c_str message) else mret tt.

(** The second lock, and the post. *)
Definition dump_buffer (between : TelemetryService → TelemetryService) : M (TelemetryService * W) unit :=
  now ← on_snd tl_now;
  _ ← on_fst (modify (set_thread (Some (now + DUMP_INTERVAL))));
  _ ← on_fst (modify between);
  t ← on_fst get;
  _ ← on_fst (modify (set_logBuffer []));
  on_snd (tl_post (JArray (logBuffer t))).

(** One round of the thread; the result is [lastRun]. *)
Definition send_round (between : TelemetryService → TelemetryService) : M (TelemetryService * W) bool :=
  t ← on_fst get;
  let lastRun := shuttingDown t in
  let logBufferSize := length (logBuffer t) in
  _ ← (if (0 <? logBufferSize)%nat then
         due ← (if (1024 <=? logBufferSize)%nat then mret true
                else now ← on_snd tl_now; mret ((default 0 (thread t) <? now) || lastRun));
         if due : bool then dump_buffer between else mret tt
       else mret tt);
  _ ← on_snd (k_sleep 100000);
  _ ← (if lastRun then on_snd (k_sleep 400000) else mret tt);
  mret lastRun.

(** Each pair of [env] is what other threads do before a round and within it. *)
Fixpoint send_loop (env : list ((TelemetryService → TelemetryService) * (TelemetryService → TelemetryService)))
    : M (TelemetryService * W) unit :=
  match env with
  | [] => stop OutOfFuel
  | (before, between) :: env' =>
    _ ← on_fst (modify before);
    lastRun ← send_round between;
    if lastRun : bool then mret tt else send_loop env'
  end.

(** [join] waits for the thread, whose rounds are those of [env]. *)
Definition shutdown (env : list ((TelemetryService → TelemetryService) * (TelemetryService → TelemetryService)))
    : M (TelemetryService * W) unit :=
  t ← on_fst get;
  if shuttingDown t then mret tt
  else
    _ ← on_fst (modify shut);
    _ ← (if USE_SENTRY then on_snd tl_sentry_shutdown else mret tt);
    match thread t with
    | None => mret tt
    | Some _ => _ ← send_loop env; on_fst (modify (set_thread None))
    end.
End Tele.
End Tele.
Import Tele.

(** ** The bound *)

Lemma logToDatadog_bounded version text level file line t :
  (length (logBuffer t) ≤ S MAX_BUFFER)%nat →
  (length (logBuffer (logToDatadog version text level file line t)) ≤ S MAX_BUFFER)%nat.
Proof.
  intros Hl. unfold logToDatadog. destruct (Nat.ltb_spec MAX_BUFFER (length (logBuffer t))); [done|].
  cbn [logBuffer set_logBuffer]. rewrite length_app. cbn [length]. lia.
Qed.

(** ** The last round *)

(** What has been posted; the calls return. *)
Class TelemetryLog (W : Type) `{!Telemetry W} `{!Kernel W} := {
  posted : W → list json;
  tl_now_returns k : ∃ z k', tl_now k = (Ok z, k') ∧ posted k' = posted k;
  tl_post_returns j k : ∃ k', tl_post j k = (Ok tt, k') ∧ posted k' = posted k ++ [j];
  tl_sentry_shutdown_returns k : ∃ k', tl_sentry_shutdown k = (Ok tt, k') ∧ posted k' = posted k;
  tl_sleep_returns us k : ∃ k', k_sleep us k = (Ok tt, k') ∧ posted k' = posted k;
}.

Section Flush.
Context {W : Type} `{!Telemetry W} `{!Kernel W} `{!TelemetryLog W}.

(** Other threads log, and do not take [shutdown] back. *)
Definition only_logs (f : TelemetryService → TelemetryService) : Prop :=
  ∀ t, (∃ l, logBuffer (f t) = logBuffer t ++ l) ∧ shuttingDown (f t) = shuttingDown t.

Lemma dump_posts between t k :
  only_logs between →
  ∃ t' k' l, dump_buffer between (t, k) = (Ok tt, (t', k')) ∧
    posted k' = posted k ++ [JArray (logBuffer t ++ l)] ∧ logBuffer t' = [].
Proof.
  intros Hb. unfold dump_buffer. rewrite run_snd. destruct (tl_now_returns k) as (z & k1 & -> & H1).
  do 2 rewrite run_fst_modify. rewrite run_fst_get, run_fst_modify.
  destruct (Hb (set_thread (Some (z + DUMP_INTERVAL)) t)) as [[l ->] _].
  destruct (tl_post_returns (JArray (logBuffer t ++ l)) k1) as (k2 & Hp & H2).
  unfold on_snd, zoom. cbn [fst snd logBuffer set_thread]. rewrite Hp.
  eexists _, k2, l. split; [reflexivity|]. split; [by rewrite H2, H1|done].
Qed.

Lemma last_round_posts between t k :
  only_logs between → shuttingDown t = true →
  ∃ t' k' b, send_round between (t, k) = (Ok true, (t', k')) ∧ posted k' = posted k ++ b ∧
    ∀ m, m ∈ logBuffer t → ∃ l, JArray l ∈ b ∧ m ∈ l.
Proof.
  intros Hb Hs. unfold send_round. rewrite run_fst_get, Hs.
  assert (∃ t' k' b, ((if (0 <? length (logBuffer t))%nat then
      due ← (if (1024 <=? length (logBuffer t))%nat then mret true
             else now ← on_snd tl_now; mret ((default 0 (thread t) <? now) || true));
      if due : bool then dump_buffer between else mret tt
    else mret tt) : M (TelemetryService * W) unit) (t, k) = (Ok tt, (t', k')) ∧ posted k' = posted k ++ b ∧
    ∀ m, m ∈ logBuffer t → ∃ l, JArray l ∈ b ∧ m ∈ l) as (t1 & k1 & b & Hd & Hp & Hm).
  { destruct (Nat.ltb_spec 0 (length (logBuffer t))) as [Hne|He].
    - assert (∃ k1, ((if (1024 <=? length (logBuffer t))%nat then mret true
             else now ← on_snd tl_now; mret ((default 0 (thread t) <? now) || true)) : M (TelemetryService * W) bool)
        (t, k) = (Ok true, (t, k1)) ∧ posted k1 = posted k) as (k1 & Hdue & H1).
      { destruct (1024 <=? _)%nat; [by exists k|]. rewrite run_snd.
        destruct (tl_now_returns k) as (z & k1 & -> & H1). rewrite orb_true_r. by exists k1. }
      rewrite (M_bind_ok _ _ _ _ _ Hdue). destruct (dump_posts between t k1 Hb) as (t' & k' & l & Hd & Hp & _).
      exists t', k', [JArray (logBuffer t ++ l)]. split_and!; [done|by rewrite Hp, H1|].
      intros m Hm. exists (logBuffer t ++ l). split; [by apply list_elem_of_singleton|].
      apply elem_of_app. by left.
    - exists t, k, []. rewrite app_nil_r. split_and!; [done..|]. intros m Hm.
      destruct (logBuffer t); [by apply not_elem_of_nil in Hm|cbn in He; lia]. }
  rewrite (M_bind_ok _ _ _ _ _ Hd), run_snd.
  destruct (tl_sleep_returns 100000 k1) as (k2 & -> & H2). rewrite run_snd.
  destruct (tl_sleep_returns 400000 k2) as (k3 & -> & H3).
  exists t1, k3, b. split; [done|]. split; [congruence|done].
Qed.

(** A shutdown loses nothing.  When [shutdown] is called while the sending thread is
    between two of its rounds, it returns, the thread has ended, and every message that was
    in the log is in one of the posts made since. *)
Theorem shutdown_flushes sentry before between env t k n :
  thread t = Some n → shuttingDown t = false → only_logs before → only_logs between →
  ∃ t' k' b, shutdown sentry ((before, between) :: env) (t, k) = (Ok tt, (t', k')) ∧
    thread t' = None ∧ posted k' = posted k ++ b ∧ ∀ m, m ∈ logBuffer t → ∃ l, JArray l ∈ b ∧ m ∈ l.
Proof.
  intros Hth Hs Hb Hw. unfold shutdown. rewrite run_fst_get, Hs, run_fst_modify, Hth.
  assert (∃ k1, ((if sentry then on_snd tl_sentry_shutdown else mret tt) : M (TelemetryService * W) unit)
    (shut t, k) = (Ok tt, (shut t, k1)) ∧ posted k1 = posted k) as (k1 & He & <-).
  { destruct sentry; [|by exists k]. destruct (tl_sentry_shutdown_returns k) as (k1 & E & H1).
    exists k1. split; [|done]. unfold on_snd, zoom. cbn [fst snd]. by rewrite E. }
  rewrite (M_bind_ok _ _ _ _ _ He). clear He.
  cbn [send_loop]. rewrite M_bind_stop_inv, run_fst_modify.
  destruct (Hb (shut t)) as [[l Hl] Hs']. cbn [logBuffer shut shuttingDown] in *.
  destruct (last_round_posts between (before (shut t)) k1 Hw Hs') as (t' & k' & b & Hr & Hp & Hm).
  rewrite (M_bind_ok _ _ _ _ _ Hr). eexists _, k', b. split; [reflexivity|]. split; [done|]. split; [done|].
  intros m Hin. apply Hm. rewrite Hl. apply elem_of_app. by left.
Qed.
End Flush.
