(* ===== verification/LogFiles.v ===== *)
(** * [base/LogHandler]: the files of the log

    The names of the log files, how they are created, and the settings that easylogging is
    given.  The clock, the process id and the file system are the class [LogOs]; the
    settings that easylogging starts from are a parameter.  Shown: a log never goes into a
    file that was there before, and nobody else can read it. *)

From stdpp Require Import gmap.
From S2P Require Import Prelude Sockets Wire CxxText.

(** [el::Configurations]: the settings of all levels, and the format of verbose messages. *)
Record Configurations := mkConf {
  global : gmap str str;
  verbose_format : str;
}.

Class LogOs (W : Type) := {
  (** the local time as ["%Y-%m-%d_%H-%M-%S"], and the microseconds since that second *)
  lo_now : M W (str * Z);
  lo_getpid : M W Z;
  (** [fs::create_directories]; an error is a [filesystem_error] *)
  lo_create_directories : str → M W (io_result unit);
  (** [open(path, O_NOFOLLOW | O_EXCL | O_CREAT, mode)] *)
  lo_open : str → Z → M W (io_result Z);
  (** [freopen(path, "w", stderr)]: whether there is a stream *)
  lo_freopen : str → M W bool;
  lo_remove : str → M W unit;
  (** [el::Loggers::reconfigureLogger] *)
  lo_reconfigure : str → Configurations → M W unit;
}.

Module Logs.

Definition setGlobally (key value : str) (c : Configurations) : Configurations :=
  mkConf (<[key := value]> (global c)) (verbose_format c).
Definition set_verbose_format (f : str) (c : Configurations) : Configurations := mkConf (global c) f.

(** What easylogging starts from. *)
Definition setupLogHandler (setToDefault : Configurations) : Configurations :=
  let c := setGlobally (lit "Format") (lit "[%level %datetime %thread %fbase:%line] %msg") setToDefault in
  let c := setGlobally (lit "Enabled") (lit "true") c in
  let c := setGlobally (lit "SubsecondPrecision") (lit "3") c in
  let c := setGlobally (lit "PerformanceTracking") (lit "false") c in
  let c := setGlobally (lit "LogFlushThreshold") (lit "1") c in
  set_verbose_format (lit "[%levshort%vlevel %datetime %thread %fbase:%line] %msg") c.

(** [setw(n)] and [setfill('0')] *)
Definition zero_filled (n : nat) (s : str) : str := replicate (n - length s) "0"%char ++ s.

(** 20 MB, where a program does not say otherwise. *)
Definition MAX_LOG_SIZE : str := lit "20971520".

(** [rw-------] *)
Definition PRIVATE : Z := 384.

Section Logs.
Context {W : Type} `{!LogOs W}.

Definition setupStdoutLogger (setToDefault : Configurations) : M W unit :=
  let c := setGlobally (lit "Format") (lit "%msg") setToDefault in
  let c := setGlobally (lit "ToStandardOutput") (lit "true") c in
  lo_reconfigure (lit "stdout") (setGlobally (lit "ToFile") (lit "false") c).

Definition createLogFile (path filename : str) : M W str :=
  let fullFname := path ++ lit "/" ++ filename in
  r ← lo_create_directories path;
  match r with
  | IoErr _ => throw RuntimeError "Cannot create logfile directory: "
  | IoOk _ =>
    fd ← lo_open (c_str fullFname) PRIVATE;
    match fd with
    | IoErr _ => fatal "Error"
    | IoOk _ => mret fullFname
    end
  end.

Definition stderrToFile (path stderrFilename : str) : M W unit :=
  fullFname ← createLogFile path stderrFilename;
  stream ← lo_freopen (c_str fullFname);
  if stream : bool then mret tt else fatal "Invalid filename ".

(** The end of the two names. *)
Definition name_suffix (appendPid : bool) : M W str :=
  now ← lo_now;
  let current_time := now.1 ++ lit "." ++ zero_filled 6 (dec now.2) in
  pid ← (if appendPid then p ← lo_getpid; mret (lit "_" ++ dec p) else mret []);
  mret (current_time ++ pid ++ lit ".log").

Definition setupLogFiles (path filenamePrefix : str) (logToStdout redirectStderrToFile appendPid : bool)
    (maxlogsize : str) (defaultConf : Configurations) : M W Configurations :=
  suffix ← name_suffix appendPid;
  let logFilename := filenamePrefix ++ lit "-" ++ suffix in
  let stderrFilename := filenamePrefix ++ lit "-stderr-" ++ suffix in
  fullFname ← createLogFile path logFilename;
  let c := setGlobally (lit "Filename") fullFname defaultConf in
  let c := setGlobally (lit "ToFile") (lit "true") c in
  let c := setGlobally (lit "MaxLogFileSize") maxlogsize c in
  let c := setGlobally (lit "ToStandardOutput") (if logToStdout then lit "true" else lit "false") c in
  _ ← (if redirectStderrToFile then stderrToFile path stderrFilename else mret tt);
  mret c.

(** What each program does with the settings. *)
Definition log_to_files (path filenamePrefix : str) (logToStdout redirectStderrToFile appendPid : bool)
    (maxlogsize : str) (defaultConf : Configurations) : M W unit :=
  conf ← setupLogFiles path filenamePrefix logToStdout redirectStderrToFile appendPid maxlogsize defaultConf;
  lo_reconfigure (lit "default") conf.

(** Log rotation: the file is full and closed. *)
Definition rolloutHandler (filename : str) : M W unit := lo_remove filename.
End Logs.
End Logs.
Import Logs.

(** ** What the files are *)

(** The file system: the mode of each file, and the descriptors of the process.  [open]
    makes a new file, without the bits of the mode mask, or fails. *)
Class LogFilesOs (W : Type) `{!LogOs W} := {
  lo_files : W → gmap str Z;
  lo_open_fds : W → gset Z;
  now_keeps k o k' : lo_now k = (o, k') → lo_files k' = lo_files k ∧ lo_open_fds k' = lo_open_fds k;
  pid_keeps k o k' : lo_getpid k = (o, k') → lo_files k' = lo_files k ∧ lo_open_fds k' = lo_open_fds k;
  directories_keep p k o k' : lo_create_directories p k = (o, k') →
    lo_files k' = lo_files k ∧ lo_open_fds k' = lo_open_fds k;
  open_creates p m k o k' : lo_open p m k = (o, k') →
    match o with
    | Ok (IoOk fd) => lo_files k !! p = None ∧
        (∃ mask, lo_files k' = <[p := Z.land m (Z.lnot mask)]> (lo_files k)) ∧
        (fd ∉ lo_open_fds k) ∧ lo_open_fds k' = ({[ fd ]} ∪ lo_open_fds k)
    | _ => lo_files k' = lo_files k ∧ lo_open_fds k' = lo_open_fds k
    end;
  freopen_keeps p k k' : lo_freopen p k = (Ok true, k') → is_Some (lo_files k !! p) →
    lo_files k' = lo_files k ∧ lo_open_fds k' = lo_open_fds k;
}.

Section Files.
Context {W : Type} `{!LogOs W, !LogFilesOs W}.

Definition same (k k' : W) : Prop := lo_files k' = lo_files k ∧ lo_open_fds k' = lo_open_fds k.

#[local] Instance same_preorder : PreOrder same.
Proof. split; [done|]. intros k1 k2 k3 [A1 A2] [B1 B2]. split; congruence. Qed.

(** One new file, which its owner alone can use, and a descriptor for it. *)
Definition created (f : str) (fds : gset Z) (k k' : W) : Prop :=
  lo_files k !! f = None ∧ (∃ mask, lo_files k' = <[f := Z.land PRIVATE (Z.lnot mask)]> (lo_files k)) ∧
  (fds ## lo_open_fds k) ∧ size fds = 1%nat ∧ lo_open_fds k' = fds ∪ lo_open_fds k.

Lemma created_after f fds k k1 k' : same k k1 → created f fds k1 k' → created f fds k k'.
Proof. intros [E1 E2]. unfold created. by rewrite E1, E2. Qed.

Lemma created_then f fds k k1 k' : created f fds k k1 → same k1 k' → created f fds k k'.
Proof. intros Hc [E1 E2]. unfold created. by rewrite E1, E2. Qed.

Lemma private_bits mask i : 0 <= i < 6 → Z.testbit (Z.land PRIVATE (Z.lnot mask)) i = false.
Proof.
  intros Hi. rewrite Z.land_spec. assert (i = 0 ∨ i = 1 ∨ i = 2 ∨ i = 3 ∨ i = 4 ∨ i = 5) as Hc by lia.
  by destruct Hc as [->|[->|[->|[->|[->| ->]]]]].
Qed.

Lemma createLogFile_creates path filename k :
  finishes (createLogFile path filename)
    (λ f k', f = path ++ lit "/" ++ filename ∧ ∃ fds, created (c_str f) fds k k') k.
Proof.
  unfold createLogFile. cbv zeta. apply finishes_bind. intros r k1 Hk1%directories_keep.
  destruct r; [|apply finishes_stop]. apply finishes_bind. intros fd k2 Hk2%open_creates.
  destruct fd as [fd|e]; [|apply finishes_stop]. apply finishes_ret. split; [done|]. exists {[ fd ]}.
  destruct Hk2 as (Hn & Hf & Hfd & Ho). apply (created_after _ _ _ k1); [exact Hk1|].
  split; [done|]. split; [done|]. split; [|split; [apply size_singleton|done]].
  intros x ->%elem_of_singleton. done.
Qed.

Lemma stderrToFile_creates path filename k :
  finishes (stderrToFile path filename)
    (λ _ k', ∃ fds, created (c_str (path ++ lit "/" ++ filename)) fds k k') k.
Proof.
  unfold stderrToFile. apply finishes_bind. intros f k1 E.
  destruct (createLogFile_creates path filename k f k1 E) as (-> & fds & Hc).
  apply finishes_bind. intros stream k2 Hk2. destruct stream; [|apply finishes_stop]. apply finishes_ret.
  exists fds. apply (created_then _ _ _ k1); [done|]. apply (freopen_keeps _ _ _ Hk2).
  destruct Hc as (_ & [mask ->] & _). rewrite lookup_insert_eq. by eexists.
Qed.

Lemma suffix_same b k : finishes (name_suffix b) (λ _ k', same k k') k.
Proof.
  unfold name_suffix. apply finishes_bind. intros [now us] k1 H1%now_keeps. cbv zeta.
  apply finishes_bind, (finishes_mono _ (λ _ k2, same k1 k2)).
  - destruct b; [|by apply finishes_ret]. apply finishes_bind. intros p k2 H2%pid_keeps. by apply finishes_ret.
  - intros pid k2 H2. apply finishes_ret. by trans k1.
Qed.

(** The two names. *)
Definition log_name (path prefix suffix : str) : str := path ++ lit "/" ++ prefix ++ lit "-" ++ suffix.
Definition stderr_name (path prefix suffix : str) : str := path ++ lit "/" ++ prefix ++ lit "-stderr-" ++ suffix.

(** When [setupLogFiles] returns, the log goes into a file that did not exist before and
    that neither the group nor others can read or write, and every other file is as it was:
    a log never overwrites a file, nor goes where a link leads.  But [createLogFile] drops
    the descriptor that [open] has returned, so each file leaves one open that nobody will
    close. *)
Theorem log_files_fresh path prefix out err pid size_ conf k conf' k' :
  setupLogFiles path prefix out err pid size_ conf k = (Ok conf', k') →
  ∃ suffix, let f := log_name path prefix suffix in
    global conf' !! lit "Filename" = Some f ∧ lo_files k !! c_str f = None ∧
    (∃ m, lo_files k' !! c_str f = Some m ∧ ∀ i, 0 <= i < 6 → Z.testbit m i = false) ∧
    lo_files k ⊆ lo_files k' ∧
    ∃ fds, size fds = (if err then 2 else 1)%nat ∧ (fds ## lo_open_fds k) ∧
           lo_open_fds k' = fds ∪ lo_open_fds k.
Proof.
  revert conf' k'. unfold setupLogFiles. apply finishes_bind. intros suffix k1 E1.
  pose proof (suffix_same pid k suffix k1 E1) as H1. cbv zeta.
  apply finishes_bind. intros f k2 E2.
  destruct (createLogFile_creates _ _ k1 f k2 E2) as (-> & fds & Hc). apply (created_after _ _ k) in Hc; [|done].
  change (path ++ lit "/" ++ prefix ++ lit "-" ++ suffix) with (log_name path prefix suffix) in *.
  apply finishes_bind. intros u k3 E3. apply finishes_ret. exists suffix.
  destruct Hc as (Hn & [mask Hf] & Hd & Hs & Ho).
  assert (∃ fds', lo_files k2 ⊆ lo_files k3 ∧ fds' ## lo_open_fds k2 ∧ size fds' = (if err then 1 else 0)%nat ∧
    lo_open_fds k3 = fds' ∪ lo_open_fds k2) as (fds' & Hk & Hd' & Hs' & Ho').
  { destruct err.
    - destruct (stderrToFile_creates _ _ k2 u k3 E3) as (fds' & Hn' & [mask' Hf'] & Hd' & Hs' & Ho').
      exists fds'. rewrite Hf'. split; [by apply insert_subseteq|done].
    - injection E3 as _ <-. exists ∅. rewrite size_empty, (left_id_L ∅ (∪)).
      split; [done|]. split; [by apply disjoint_empty_l|done]. }
  split; [cbn [global setGlobally]; by rewrite !lookup_insert_ne, lookup_insert_eq by done|].
  split; [done|]. split; [|split; [|exists (fds' ∪ fds)]].
  - exists (Z.land PRIVATE (Z.lnot mask)). split; [|apply private_bits].
    eapply lookup_weaken; [|exact Hk]. by rewrite Hf, lookup_insert_eq.
  - etrans; [|exact Hk]. rewrite Hf. by apply insert_subseteq.
  - rewrite Ho in Hd', Ho'. apply disjoint_union_r in Hd' as [Hd1 Hd2].
    rewrite size_union, Hs, Hs' by done. split; [by destruct err|]. split; [|by rewrite Ho', (assoc_L (∪))].
    by apply disjoint_union_l.
Qed.
End Files.

(** ** A concrete file system *)

Section Witness.
Record Disk := mkDisk { d_files : gmap str Z; d_fds : gset Z }.

#[local] Instance disk_os : LogOs Disk := {|
  lo_now := mret (lit "2024-02-29_12-00-00", 1234);
  lo_getpid := mret 77;
  lo_create_directories p := mret (IoOk tt);
  lo_open p m := λ k,
    match d_files k !! p with
    | Some _ => (Ok (IoErr 17), k)
    | None => (Ok (IoOk (fresh (d_fds k))), mkDisk (<[p := Z.land m (Z.lnot 18)]> (d_files k)) ({[ fresh (d_fds k) ]} ∪ d_fds k))
    end;
  lo_freopen p := mret true;
  lo_remove p := modify (λ k, mkDisk (delete p (d_files k)) (d_fds k));
  lo_reconfigure l c := mret tt;
|}.

#[local] Instance disk_files : LogFilesOs Disk.
Proof.
  refine {| lo_files := d_files; lo_open_fds := d_fds |}; try by intros *; intros [= <- <-]. 2: by intros * [= <-].
  intros p m k o k'. cbn. destruct (d_files k !! p) as [z|] eqn:E; intros [= <- <-]; [done|].
  split; [done|]. split; [by exists 18|]. split; [apply is_fresh|done].
Defined.

Definition x_disk : Disk := mkDisk {[ lit "/etc/passwd" := 420 ]} {[ 0; 1; 2 ]}.
Definition x_logs : outcome Configurations * Disk :=
  setupLogFiles (lit "/tmp") (lit "etserver") false true true (lit "20971520") (setupLogHandler (mkConf ∅ [])) x_disk.

Lemma log_files_fresh_witness :
  x_logs.1 = Ok (default (mkConf ∅ []) (match x_logs.1 with Ok c => Some c | _ => None end)) ∧
  d_files x_logs.2 !! lit "/etc/passwd" = Some 420 ∧
  size (d_fds x_logs.2) = 5%nat ∧
  (∃ suffix, lo_files x_disk !! c_str (log_name (lit "/tmp") (lit "etserver") suffix) = None).
Proof.
  split; [vm_compute; reflexivity|]. split; [vm_compute; reflexivity|]. split; [vm_compute; reflexivity|].
  destruct (log_files_fresh (lit "/tmp") (lit "etserver") false true true (lit "20971520")
    (setupLogHandler (mkConf ∅ [])) x_disk
    (default (mkConf ∅ []) (match x_logs.1 with Ok c => Some c | _ => None end)) x_logs.2)
    as (suffix & _ & Hn & _); [vm_compute; reflexivity|].
  by exists suffix.
Defined.
End Witness.
