(* ===== verification/TelemetryStart.v ===== *)
(** * [terminal/TelemetryService]: its start and its end

    Whether there is telemetry, the id under which it is sent, the one service of the
    process, which messages of the log it gets, and what it does about signals.  SimpleIni
    is [IniFiles] and the writing of a file with one value; [sole::uuid4] and
    [sole::rebuild] are parameters.  Shown: the id stays the same from one start to the
    next; a signal to terminate loses no message; a fault does not end the process. *)

From S2P Require Import Prelude Sockets Wire CxxText UnixSockets RawSockets Scrollback Multiplexer HtmJson.
From S2P Require Import Telemetry.
Import Tele.

(** [GetValue(section, key, NULL)] and [GetBoolValue(section, key, default)] of SimpleIni *)
Record Ini := mkIni {
  GetValue : str → str → option str;
  GetBoolValue : str → str → bool → bool;
}.

Class IniFiles (W : Type) := {
  (** [LoadFile]; [None] when it fails *)
  ini_LoadFile : str → M W (option Ini);
}.

Class TelemetryOs (W : Type) := {
  (** [sole::uuid4().str()] *)
  to_uuid4 : M W str;
  to_exists : str → M W bool;
  to_create_directories : str → M W (io_result unit);
  (** [SetValue(section, key, value)] and [SaveFile(path)]; its result is not looked at *)
  to_save : str → str → str → str → M W unit;
  (** the notice for the user *)
  to_notice : M W unit;
}.

Module TeleStart.

Section TeleStart.
Context {W : Type} `{!TelemetryOs W} `{!IniFiles W} `{!Telemetry W} `{!Kernel W}.
Variables (getenv : str → option str) (configHome : str) (rebuild : str → str) (ET_VERSION : str) (USE_SENTRY : bool).

Definition telemetryConfigPath : str := configHome ++ lit "/et/telemetry.ini".

Definition load_id : M W str :=
  ini ← ini_LoadFile (c_str telemetryConfigPath);
  match ini with
  | None => fatal "Invalid config file: "
  | Some ini =>
    match GetValue ini (lit "Sentry") (lit "Id") with
    | Some telemetryIdString => mret (rebuild telemetryIdString)
    | None => fatal "Invalid telemetry config"
    end
  end.

Definition save_id (id : str) : M W unit :=
  r ← to_create_directories (configHome ++ lit "/et");
  match r with
  | IoErr _ => throw RuntimeError "filesystem error"
  | IoOk _ =>
    _ ← to_save (c_str telemetryConfigPath) (lit "Sentry") (lit "Id") (c_str id);
    to_notice
  end.

(** The constructor; the thread looks at the clock when it begins. *)
Definition TelemetryService_new (_allow : bool) (databasePath _environment : str) : M W TelemetryService :=
  let allowed := _allow && negb (bool_decide (is_Some (getenv (lit "ET_NO_TELEMETRY")))) in
  if allowed then
    fresh ← to_uuid4;
    there ← to_exists telemetryConfigPath;
    telemetryId ← (if there : bool then load_id else _ ← save_id fresh; mret fresh);
    _ ← (if USE_SENTRY then tl_sentry_init (c_str databasePath) (c_str _environment) (c_str telemetryId) else mret tt);
    nextDumpTime ← tl_now;
    mret (mkTele allowed _environment telemetryId [] false (Some nextDumpTime))
  else mret (mkTele allowed _environment [] [] false None).

(** ** The service of the process *)

Definition create (_allow : bool) (databasePath _environment : str) : M (option TelemetryService * W) unit :=
  t ← on_snd (TelemetryService_new _allow databasePath _environment);
  on_fst (put (Some t)).

Definition destroy : M (option TelemetryService * W) unit := on_fst (put None).

Definition get_service : M (option TelemetryService * W) TelemetryService :=
  inst ← on_fst get;
  match inst with
  | Some t => mret t
  | None => fatal "Tried to get a singleton before it was created!"
  end.

(** [env] as for [Tele.shutdown] *)
Definition shutdownTelemetry (env : list ((TelemetryService → TelemetryService) * (TelemetryService → TelemetryService)))
    : M (option TelemetryService * W) unit :=
  inst ← on_fst get;
  match inst with
  | None => mret tt
  | Some t => _ ← destroy; on_snd (_ ← with_new t (Tele.shutdown USE_SENTRY env); mret tt)
  end.

(** What easylogging tells its callbacks of a message. *)
Record LogDispatchData := mkDispatch {
  normal_log : bool;
  logger_id : str;
  message : str;
  built : str;
  level : Level;
  file : str;
  line : Z;
}.

(** [TelemetryDispatcher::handle], which is installed with the service. *)
Definition handle (data : LogDispatchData) : M (option TelemetryService * W) unit :=
  inst ← on_fst get;
  match inst with
  | None => mret tt
  | Some t =>
    if normal_log data && negb (bool_decide (logger_id data = lit "stdout")) then
      let logText := message data ++ [LF] ++ built data in
      _ ← (match level data with
           | FatalLevel => on_snd (logToSentry USE_SENTRY t (level data) logText)
           | _ => mret tt
           end);
      match level data with
      | FatalLevel | ErrorLevel =>
        on_fst (put (Some (logToDatadog ET_VERSION logText (level data) (file data) (line data) t)))
      | _ => mret tt
      end
    else mret tt
  end.

(** ** Signals *)

(** [exit] runs the handler of [atexit]; the result is the status of the process.  So do
    [InterruptSignalHandler] and [TerminateSignalHandler] of [base/Headers.hpp]. *)
Definition exit_with (env : list ((TelemetryService → TelemetryService) * (TelemetryService → TelemetryService)))
    (signum : Z) : M (option TelemetryService * W) Z :=
  _ ← shutdownTelemetry env;
  mret signum.

(** With Sentry, the handler of [SIGTERM] and that of [SIGINT]. *)
Definition terminate_handler (env env' : list ((TelemetryService → TelemetryService) * (TelemetryService → TelemetryService)))
    (i : Z) : M (option TelemetryService * W) Z :=
  _ ← shutdownTelemetry env;
  exit_with env' i.

(** With Sentry, the handler of [SIGILL], [SIGABRT], [SIGFPE] and [SIGSEGV]: it returns to
    the instruction that has faulted. *)
Definition sentryShutdownHandler (env : list ((TelemetryService → TelemetryService) * (TelemetryService → TelemetryService)))
    (i : Z) : M (option TelemetryService * W) unit :=
  shutdownTelemetry env.
End TeleStart.
End TeleStart.
Import TeleStart.

(** ** The id *)

(** What is in the files: nothing, or what [LoadFile] makes of it; the other calls leave
    the files alone. *)
Class TelemetryFiles (W : Type) `{!TelemetryOs W, !IniFiles W, !Telemetry W} := {
  ini_file : W → str → option (option Ini);
  uuid_files k o k' : to_uuid4 k = (o, k') → ini_file k' = ini_file k;
  exists_files p k o k' : to_exists p k = (o, k') →
    ini_file k' = ini_file k ∧ ∀ b, o = Ok b → b = bool_decide (is_Some (ini_file k p));
  load_files p k o k' : ini_LoadFile p k = (o, k') →
    ini_file k' = ini_file k ∧ ∀ i, o = Ok i → i = (x ← ini_file k p; x);
  directories_files p k o k' : to_create_directories p k = (o, k') → ini_file k' = ini_file k;
  save_files p s key v k o k' : to_save p s key v k = (o, k') →
    ini_file k' p = None ∨ ∃ i, ini_file k' p = Some (Some i) ∧ GetValue i s key = Some v;
  notice_files k o k' : to_notice k = (o, k') → ini_file k' = ini_file k;
  sentry_files d e i k o k' : tl_sentry_init d e i k = (o, k') → ini_file k' = ini_file k;
  now_files k o k' : tl_now k = (o, k') → ini_file k' = ini_file k;
}.

Section Persistence.
Context {W : Type} `{!TelemetryOs W, !IniFiles W, !Telemetry W, !TelemetryFiles W}.
Variables (getenv : str → option str) (configHome : str) (rebuild : str → str) (USE_SENTRY : bool).
Let path : str := telemetryConfigPath configHome.

(** The path and the ids have no NUL, and a new id survives being read back. *)
Hypothesis path_text : c_str path = path.
Hypothesis uuid_text : ∀ (k : W) id k', to_uuid4 k = (Ok id, k') → c_str id = id ∧ rebuild id = id.
Hypothesis enabled : getenv (lit "ET_NO_TELEMETRY") = None.

(** The file that is there says the id. *)
Definition says (k : W) (id : str) : Prop :=
  ∃ i v, ini_file k path = Some (Some i) ∧ GetValue i (lit "Sentry") (lit "Id") = Some v ∧ rebuild v = id.

Lemma load_says k : finishes (load_id configHome rebuild) (λ id k', ini_file k' = ini_file k ∧ says k id) k.
Proof.
  unfold load_id. fold path. rewrite path_text. apply finishes_bind.
  intros ini k1 [H1 Hini]%load_files. specialize (Hini ini eq_refl).
  destruct ini as [i|]; [|apply finishes_stop]. destruct (GetValue i _ _) as [v|] eqn:Hv; [|apply finishes_stop].
  apply finishes_ret. split; [done|]. exists i, v.
  split; [|split; done]. destruct (ini_file k path) as [x|] eqn:Hx; cbn in Hini; congruence.
Qed.

Lemma save_says id k :
  c_str id = id → rebuild id = id →
  finishes (save_id configHome id) (λ _ k', is_Some (ini_file k' path) → says k' id) k.
Proof.
  intros Ht Hr. unfold save_id. fold path. rewrite path_text, Ht. apply finishes_bind.
  intros r k1 _. destruct r; [|apply finishes_stop]. apply finishes_bind. intros u k2 H2%save_files.
  intros u' k3 H3%notice_files. rewrite H3. intros [x Hx].
  destruct H2 as [H2|(i & Hi & Hv)]; [by rewrite H2 in Hx|].
  exists i, id. unfold says. rewrite H3. done.
Qed.

Lemma new_says d e k :
  finishes (TelemetryService_new getenv configHome rebuild USE_SENTRY true d e)
    (λ t k', (is_Some (ini_file k' path) → says k' (telemetryId t)) ∧
             (is_Some (ini_file k path) → says k (telemetryId t))) k.
Proof.
  unfold TelemetryService_new. rewrite enabled, bool_decide_false by (by intros [? [=]]). cbn [negb andb].
  apply finishes_bind. intros new k1 E1. pose proof (uuid_files _ _ _ E1) as H1.
  destruct (uuid_text _ _ _ E1) as [Ht Hr].
  apply finishes_bind. intros there k2 E2. destruct (exists_files _ _ _ _ E2) as [H2 Hb].
  specialize (Hb there eq_refl). rewrite H1 in H2, Hb.
  apply finishes_bind. intros id k3 E3. apply finishes_bind. intros [] k5 E5.
  assert (ini_file k5 = ini_file k3) as H5 by (destruct USE_SENTRY; [by eapply sentry_files|by injection E5 as <-]).
  apply finishes_bind. intros now k4 H4%now_files. apply finishes_ret. rewrite H5 in H4.
  cbn [telemetryId]. unfold says. rewrite H4. fold path in Hb. destruct there.
  - destruct (load_says k2 id k3 E3) as [H3 Hs]. unfold says in Hs. rewrite H2 in Hs. rewrite H3, H2. by split; intros _.
  - symmetry in Hb. apply bool_decide_eq_false in Hb. split; [|by intros ?].
    assert (finishes (_ ← save_id configHome new; mret new)
      (λ i k', i = new ∧ (is_Some (ini_file k' path) → says k' new)) k2) as Hf.
    { apply finishes_bind. intros u k6 E6. apply finishes_ret.
      split; [done|]. exact (save_says new k2 Ht Hr u k6 E6). }
    destruct (Hf id k3 E3) as [-> Hs]. exact Hs.
Qed.

(** The id of a user stays the same: when the first start has left its file (it could be
    written, or was there), any later start that finds the file as it was left goes by the
    same id. *)
Theorem telemetry_id_persists d e d' e' k t k1 k2 t' k3 :
  TelemetryService_new getenv configHome rebuild USE_SENTRY true d e k = (Ok t, k1) →
  is_Some (ini_file k1 path) → ini_file k2 path = ini_file k1 path →
  TelemetryService_new getenv configHome rebuild USE_SENTRY true d' e' k2 = (Ok t', k3) →
  telemetryId t' = telemetryId t.
Proof.
  intros E1 Hfile Hsame E2. destruct (new_says d e k t k1 E1) as [Hs _]. specialize (Hs Hfile).
  destruct (new_says d' e' k2 t' k3 E2) as [_ Hs']. rewrite Hsame in Hs'. specialize (Hs' Hfile).
  destruct Hs as (i & v & Hi & Hv & <-). destruct Hs' as (i' & v' & Hi' & Hv' & <-).
  rewrite Hsame in Hi'. congruence.
Qed.
End Persistence.

(** ** Signals *)

Section Signals.
Context {W : Type} `{!Telemetry W, !Kernel W, !TelemetryLog W}.
Variable USE_SENTRY : bool.

(** Every message of the log [t] is in one of the posts between [k] and [k']. *)
Definition flushed (t : TelemetryService) (k k' : W) : Prop :=
  ∃ b, posted k' = posted k ++ b ∧ ∀ m, m ∈ logBuffer t → ∃ l, JArray l ∈ b ∧ m ∈ l.

Lemma shutdownTelemetry_flushes before between env t k n :
  thread t = Some n → shuttingDown t = false → only_logs before → only_logs between →
  ∃ k', shutdownTelemetry USE_SENTRY ((before, between) :: env) (Some t, k) = (Ok tt, (None, k')) ∧ flushed t k k'.
Proof.
  intros Hth Hs Hb Hw. destruct (shutdown_flushes USE_SENTRY before between env t k n Hth Hs Hb Hw)
    as (t' & k' & b & E & _ & Hp). exists k'. split; [|by exists b].
  unfold shutdownTelemetry, destroy. rewrite run_fst_get. unfold put. rewrite M_bind_stop_inv. cbn.
  unfold on_snd, zoom. cbn. rewrite M_bind_stop_inv. unfold with_new. by rewrite E.
Qed.

(** A process that is told to terminate sends what is in its log, once, and ends with the
    number of the signal. *)
Theorem terminate_flushes before between env env' i t k n :
  thread t = Some n → shuttingDown t = false → only_logs before → only_logs between →
  ∃ k', terminate_handler USE_SENTRY ((before, between) :: env) env' i (Some t, k) = (Ok i, (None, k')) ∧
    flushed t k k'.
Proof.
  intros Hth Hs Hb Hw.
  destruct (shutdownTelemetry_flushes before between env t k n Hth Hs Hb Hw) as (k' & E & Hf).
  exists k'. split; [|done]. unfold terminate_handler. by rewrite (M_bind_ok _ _ _ _ _ E).
Qed.

(** After a fault the handler sends what is in the log and returns, and so it does, without
    any effect, each time that the instruction it returns to faults again: the process
    neither goes on nor ends. *)
Theorem fault_returns before between env env' i t k n :
  thread t = Some n → shuttingDown t = false → only_logs before → only_logs between →
  ∃ k', sentryShutdownHandler USE_SENTRY ((before, between) :: env) i (Some t, k) = (Ok tt, (None, k')) ∧
    flushed t k k' ∧ sentryShutdownHandler USE_SENTRY env' i (None, k') = (Ok tt, (None, k')).
Proof.
  intros Hth Hs Hb Hw.
  destruct (shutdownTelemetry_flushes before between env t k n Hth Hs Hb Hw) as (k' & E & Hf). by exists k'.
Qed.
End Signals.

(** ** A concrete user *)

Section Witness.
Record Home := mkHome { h_ini : option (str * str * str); h_now : Z }.

Definition one_value (v : str * str * str) : Ini :=
  mkIni (λ s k, if bool_decide (s = v.1.1 ∧ k = v.1.2) then Some v.2 else None) (λ _ _ d, d).

#[local] Instance home_ini : IniFiles Home := {| ini_LoadFile p := λ k, (Ok (one_value <$> h_ini k), k) |}.
#[local] Instance home_os : TelemetryOs Home := {|
  to_uuid4 := λ k, (Ok (if h_now k =? 123 then lit "u1" else lit "u2"), mkHome (h_ini k) (h_now k + 1));
  to_exists p := λ k, (Ok (bool_decide (is_Some (h_ini k))), k);
  to_create_directories p := mret (IoOk tt);
  to_save p s key v := λ k, (Ok tt, mkHome (Some (s, key, v)) (h_now k));
  to_notice := mret tt;
|}.
#[local] Instance home_telemetry : Telemetry Home := {|
  tl_now := λ k, (Ok (h_now k), k); tl_post j := mret tt; tl_sentry_init d e i := mret tt;
  tl_sentry_capture_event l m := mret tt; tl_sentry_shutdown := mret tt |}.

#[local] Instance home_files : TelemetryFiles Home.
Proof.
  refine {| ini_file k p := Some <$> (one_value <$> h_ini k) |}; try by intros * [= <- <-].
  - intros p k o k' [= <- <-]. split; [done|]. intros b [= <-]. by destruct (h_ini k).
  - intros p k o k' [= <- <-]. split; [done|]. intros i [= <-]. by destruct (h_ini k).
  - intros p s key v k o k' [= <- <-]. right. eexists. split; [reflexivity|]. cbn. by rewrite bool_decide_true.
Defined.

Definition x_home : Home := mkHome None 123.
Definition x_start (k : Home) : outcome TelemetryService * Home :=
  TelemetryService_new (λ _, None) (lit "/home/me/.config") id true true (lit "/tmp/.sentry-native-et") (lit "Client") k.
Definition x_id (k : Home) : str := match (x_start k).1 with Ok t => telemetryId t | Stop _ => [] end.

Lemma home_uuid (k : Home) i k' : to_uuid4 k = (Ok i, k') → c_str i = i ∧ id i = i.
Proof. intros [= <- _]. by destruct (_ =? _). Qed.

(** The second start makes a new id, as the first, and goes by the old one. *)
Lemma telemetry_id_persists_witness :
  x_id x_home = lit "u1" ∧ h_now (x_start (x_start x_home).2).2 = 125 ∧
  x_id (x_start x_home).2 = x_id x_home.
Proof.
  split; [vm_compute; reflexivity|]. split; [vm_compute; reflexivity|].
  apply (telemetry_id_persists (λ _, None) (lit "/home/me/.config") id true eq_refl
    home_uuid eq_refl
    (lit "/tmp/.sentry-native-et") (lit "Client") (lit "/tmp/.sentry-native-et") (lit "Client")
    x_home (mkTele true (lit "Client") (x_id x_home) [] false (Some 124)) (x_start x_home).2 (x_start x_home).2
    (mkTele true (lit "Client") (x_id (x_start x_home).2) [] false (Some 125)) (x_start (x_start x_home).2).2);
  vm_compute; try reflexivity.
  by eexists.
Defined.
End Witness.
