(* ===== verification/HtmPrograms.v ===== *)
(** * The programs [htmd] and [htm]

    [htm/HtmServerMain.cpp] and [htm/HtmClientMain.cpp]: the daemon, and the client that
    starts it when it is not there. *)

From S2P Require Import Prelude Sockets Packets Wire CxxText UnixSockets SocketPromises TcpSockets Forwarding RawSockets Loops Scrollback Multiplexer HtmJson HtmServer.
From S2P Require Import UserTerminal Processes ConsoleModes LogFiles.

(** [system] and [popen]. *)
Class Shell (W : Type) := {
  sh_system : str → M W Z;
  (** what the calls of [fgets] give until the end; [None] when [popen] fails *)
  sh_popen : str → M W (option (list str));
}.

(** [SystemToStr] of [base/SubprocessUtils.hpp] *)
Definition SystemToStr {W} `{!Shell W} (cmd : str) : M W str :=
  pipe ← sh_popen (c_str cmd);
  match pipe with
  | None => throw RuntimeError "popen() failed!"
  | Some buffers => mret (concat (c_str <$> buffers))
  end.

Module HtmMain.
Section HtmMain.
Context {W : Type} `{!Kernel W} `{!Poll W} `{!Pty W} `{!Uuids W} `{!TempFiles W}.
Context `{!Base64} `{!JsonDump} `{!Process W} `{!Shell W} `{!Termios W} `{!LogOs W}.
(** Plain descriptors, and the pipe. *)
Context (raw : SocketHandler W) `{!SocketHandler W}.
Variables (getenv : str → option str) (fuel rounds : nat) (myuid : Z).
(** The directory for temporary files, and the settings that easylogging starts from. *)
Variables (tmp : str) (setToDefault : Configurations).

Definition endpoint : SocketEndpoint := mkEndpoint (Some (Htm.getPipeName (W := W) myuid)) None.

Definition start_log (filenamePrefix : str) : M W unit :=
  Logs.log_to_files tmp filenamePrefix false true false Logs.MAX_LOG_SIZE (Logs.setupLogHandler setToDefault).

(** [htmd].  The daemon lives as long as its loop. *)
Definition server : M W unit :=
  _ ← start_log (lit "htmd");
  htm ← Htm.HtmServer_new endpoint;
  scoped htm (_ ← Htm.run getenv fuel rounds; Htm.HtmServer_destroy fuel).

(** The sequence that ends the mode of the user's terminal. *)
Definition END_MODE : str := ESC :: lit "[$$$q".

(** The handler of [SIGTERM], up to [exit(1)]. *)
Definition term (terminal_backup : termios) : M W unit :=
  _ ← @Raw.writeAll W raw fuel 1 END_MODE;
  tcsetattr terminal_backup.

Definition pkill_command : str := lit "pkill -x -U " ++ dec myuid ++ lit " htmd".
Definition pgrep_command : str := lit "pgrep -x -U " ++ dec myuid ++ lit " htmd".

(** Whether this process goes on as the client. *)
Definition start_daemon : M W bool :=
  pgrepOutput ← SystemToStr pgrep_command;
  match pgrepOutput with
  | [] =>
    r ← Daemon.create false [];
    match r with
    | None => mret false
    | Some r => if r =? Daemon.CHILD then _ ← sh_system (lit "htmd"); mret false else mret true
    end
  | _ => mret true
  end.

(** [htm]; [false] is [exit]. *)
Definition client (kill_other_sessions : bool) : M W bool :=
  terminal_backup ← tcgetattr;
  _ ← tcsetattr (cfmakeraw terminal_backup);
  _ ← start_log (lit "htm");
  _ ← (if kill_other_sessions then _ ← sh_system (c_str pkill_command); mret tt else mret tt);
  here ← start_daemon;
  if here : bool then
    _ ← k_sleep 10000;
    fd ← HtmPipe.IpcPairClient_new endpoint;
    fd ← HtmPipe.run raw fuel rounds fd;
    _ ← @Raw.writeAll W raw fuel 1 END_MODE;
    _ ← tcsetattr terminal_backup;
    _ ← HtmPipe.IpcPairClient_destroy fuel fd;
    mret true
  else mret false.
End HtmMain.
End HtmMain.
