(* ===== verification/SshPattern.v ===== *)
(** * Host patterns of the ssh configuration ([terminal/ParseConfigFile.hpp])

    [match_pattern], the wildcard matcher with its two scanning loops, and
    [match_pattern_list], the comma-separated lists with negation.  The matcher is
    compared with the declarative meaning of a wildcard pattern ([glob]), the lists with
    the meaning of their items. *)

From S2P Require Import Prelude CxxText.

(** ** Definitions *)

(** Both scanning loops look for a suffix of [s] that the rest of the pattern accepts:
    the first tries only after an occurrence of the next character of the pattern, the
    second at every position but the end. *)
Fixpoint match_pattern (pattern s : str) : bool :=
  match pattern with
  | [] => match s with [] => true | _ => false end
  | p :: pattern' =>
    if bool_decide (p = "*"%char) then
      match pattern' with
      | [] => true
      | q :: pattern'' =>
        if negb (bool_decide (q = "?"%char)) && negb (bool_decide (q = "*"%char)) then
          (fix scan (s : str) : bool :=
             match s with
             | [] => false
             | c :: s' => (bool_decide (c = q) && match_pattern pattern'' s') || scan s'
             end) s
        else
          (fix scan (s : str) : bool :=
             match s with
             | [] => false
             | _ :: s' => match_pattern pattern' s || scan s'
             end) s
      end
    else
      match s with
      | [] => false
      | c :: s' =>
        if negb (bool_decide (p = "?"%char)) && negb (bool_decide (p = c)) then false
        else match_pattern pattern' s'
      end
  end.

(** A string argument may be [NULL], which matches nothing. *)
Definition match_pattern_ptr (s : option str) (pattern : str) : bool :=
  match s with None => false | Some s => match_pattern pattern s end.

Definition SUB_SIZE : nat := 1024.

(** The extraction of a subpattern into [sub]: what goes into it, and the rest of the
    pattern (from the comma, the end, or where [sub] is full). *)
Fixpoint take_sub (room : nat) (dolower : bool) (pattern : str) : str * str :=
  match room, pattern with
  | S room', c :: pattern' =>
    if bool_decide (c = ","%char) then ([], pattern)
    else
      let r := take_sub room' dolower pattern' in
      ((if dolower && isupper c then tolower c else c) :: r.1, r.2)
  | _, _ => ([], pattern)
  end.

(** The loop over the subpatterns: [pattern] is the argument from [i] on. *)
Fixpoint pattern_list_loop (fuel : nat) (string : option str) (pattern : str) (dolower : bool)
    (got_positive : Z) : Z :=
  match fuel, pattern with
  | S fuel', c :: pattern' =>
    let negated := bool_decide (c = "!"%char) in
    let r := take_sub (SUB_SIZE - 1) dolower (if negated then pattern' else pattern) in
    let sub := r.1 in
    if decide (SUB_SIZE - 1 <= length sub)%nat then 0
    else
      let rest := match r.2 with
                  | d :: rest' => if bool_decide (d = ","%char) then rest' else r.2
                  | [] => []
                  end in
      if match_pattern_ptr string sub then
        if negated then -1 else pattern_list_loop fuel' string rest dolower 1
      else pattern_list_loop fuel' string rest dolower got_positive
  | _, _ => got_positive
  end.

(** Every round consumes a character: the length of the pattern is fuel enough. *)
Definition match_pattern_list (string : option str) (pattern : str) (dolower : bool) : Z :=
  pattern_list_loop (length pattern) string pattern dolower 0.

Definition match_hostname (host : option str) (pattern : str) : Z :=
  match_pattern_list host pattern true.

(** ** The meaning of a wildcard pattern *)

Inductive glob : str → str → Prop :=
| glob_nil : glob [] []
| glob_star p s s' : s' `suffix_of` s → glob p s' → glob ("*"%char :: p) s
| glob_any p c s : glob p s → glob ("?"%char :: p) (c :: s)
| glob_char p c s : c ≠ "*"%char → c ≠ "?"%char → glob p s → glob (c :: p) (c :: s).

(** ** Lemmas *)

(** The two scanning loops, as searches for a suffix. *)
Lemma scan_char_spec q (f : str → bool) s :
  (fix scan (s : str) : bool :=
     match s with
     | [] => false
     | c :: s' => (bool_decide (c = q) && f s') || scan s'
     end) s = true ↔ ∃ s', (q :: s') `suffix_of` s ∧ f s' = true.
Proof.
  induction s as [|c s IH]; [split; [done|]; intros (s' & [k Hk] & _); by destruct k|].
  rewrite orb_true_iff, andb_true_iff, bool_decide_eq_true, IH. split.
  - intros [[-> Hf]|(s' & Hs & Hf)]; eexists; (split; [|done]); [done|by apply suffix_cons_r].
  - intros (s' & Hs & Hf). apply suffix_cons_inv in Hs as [[= -> ->]|Hs]; [by left|right; eauto].
Qed.

Lemma scan_any_spec (f : str → bool) s :
  (fix scan (s : str) : bool :=
     match s with
     | [] => false
     | _ :: s' => f s || scan s'
     end) s = true ↔ ∃ s', s' `suffix_of` s ∧ s' ≠ [] ∧ f s' = true.
Proof.
  induction s as [|c s IH]; [split; [done|]; by intros (s' & Hs%suffix_nil_inv & Hne & _)|].
  rewrite orb_true_iff, IH. split.
  - intros [Hf|(s' & Hs & Hf)]; [by exists (c :: s)|]. exists s'. split; [by apply suffix_cons_r|done].
  - intros ([|d s'] & Hs & Hne & Hf); [done|].
    apply suffix_cons_inv in Hs as [[= -> ->]|Hs]; [by left|right; eauto].
Qed.

Lemma glob_star_inv p s : glob ("*"%char :: p) s ↔ ∃ s', s' `suffix_of` s ∧ glob p s'.
Proof.
  split; [|intros (s' & ? & ?); by eapply glob_star]. intros H. inversion H; subst; [eauto|done].
Qed.

Lemma glob_one_inv p q s :
  q ≠ "*"%char → glob (q :: p) s ↔ ∃ c s', s = c :: s' ∧ (q = "?"%char ∨ q = c) ∧ glob p s'.
Proof.
  intros Hq. split.
  - intros H. inversion H; subst; [done|eauto..]; naive_solver.
  - intros (c & s' & -> & Hc & Hg). destruct (decide (q = "?"%char)) as [->|]; [by apply glob_any|].
    destruct Hc as [|<-]; [done|by apply glob_char].
Qed.

(** Only asterisks match the empty string. *)
Lemma glob_empty p : glob p [] → p = replicate (length p) "*"%char.
Proof.
  induction p as [|q p IH]; [done|]. intros Hg. destruct (decide (q = "*"%char)) as [->|Hq].
  - apply glob_star_inv in Hg as (s' & ->%suffix_nil_inv & Hg). cbn. f_equal. by apply IH.
  - by apply (glob_one_inv p q []) in Hg as (c & s' & ? & _).
Qed.

Definition stars : str := ["*"%char; "*"%char].

Lemma stars_suffix n : stars `suffix_of` replicate (2 + n) "*"%char.
Proof. exists (replicate n "*"%char). rewrite Nat.add_comm, replicate_add. done. Qed.

Lemma match_pattern_star q p s :
  match_pattern ("*"%char :: q :: p) s = true ↔
  if negb (bool_decide (q = "?"%char)) && negb (bool_decide (q = "*"%char))
  then ∃ s', (q :: s') `suffix_of` s ∧ match_pattern p s' = true
  else ∃ s', s' `suffix_of` s ∧ s' ≠ [] ∧ match_pattern (q :: p) s' = true.
Proof.
  cbn [match_pattern]. rewrite bool_decide_true by done.
  destruct (negb _ && negb _); [apply scan_char_spec|apply scan_any_spec].
Qed.

Lemma match_pattern_one q p s :
  q ≠ "*"%char → match_pattern (q :: p) s = true ↔
  ∃ c s', s = c :: s' ∧ (q = "?"%char ∨ q = c) ∧ match_pattern p s' = true.
Proof.
  intros Hq. cbn [match_pattern]. rewrite bool_decide_false by done.
  destruct s as [|c s]; [naive_solver|].
  do 2 case_bool_decide; cbn; naive_solver.
Qed.

(** A pattern that does not end in two asterisks matches what it means; any other matches
    no more than that. *)
Lemma match_pattern_iff p s :
  (match_pattern p s = true → glob p s) ∧
  (¬ stars `suffix_of` p → glob p s → match_pattern p s = true).
Proof.
  remember (length p) as n eqn:Hn. revert p s Hn. induction n as [n IH] using lt_wf_ind.
  intros [|q p] s ->; [split; [destruct s; [constructor|done]|intros _ H; by inversion H]|].
  destruct (decide (q = "*"%char)) as [->|Hq].
  - destruct p as [|q p].
    { split; [intros _; eapply glob_star; [apply suffix_nil|constructor]|done]. }
    rewrite match_pattern_star, glob_star_inv.
    destruct (IH (length p) ltac:(cbn; lia) p) with (s := s) as [_ _]; [done|].
    destruct (negb _ && negb _) eqn:Hord; b2p.
    + split.
      * intros (s' & Hs & Hm). exists (q :: s'). split; [done|].
        apply glob_one_inv; [done|]. apply (IH (length p) ltac:(cbn; lia) p) in Hm; [eauto 10|done].
      * intros Hns (s' & Hs & Hg). apply (glob_one_inv p q) in Hg as (c & t & -> & Hc & Hg); [|done].
        destruct Hc as [|<-]; [done|]. exists t. split; [done|].
        apply (IH (length p) ltac:(cbn; lia) p); [done| |done].
        intros Hst. destruct Hns. by do 2 apply suffix_cons_r.
    + split.
      * intros (s' & Hs & _ & Hm). exists s'. split; [done|].
        apply (IH (length (q :: p)) ltac:(cbn; lia) (q :: p)) in Hm; done.
      * intros Hns (s' & Hs & Hg). exists s'. split; [done|]. split.
        -- intros ->. apply glob_empty in Hg. destruct Hns. rewrite Hg. apply stars_suffix.
        -- apply (IH (length (q :: p)) ltac:(cbn; lia) (q :: p)); [done| |done].
           intros Hst. destruct Hns. by apply suffix_cons_r.
  - rewrite match_pattern_one, glob_one_inv by done. split.
    + intros (c & t & -> & Hc & Hm). apply (IH (length p) ltac:(cbn; lia) p) in Hm; naive_solver.
    + intros Hns (c & t & -> & Hc & Hg). exists c, t. split; [done|]. split; [done|].
      apply (IH (length p) ltac:(cbn; lia) p); [done| |done].
      intros Hst. destruct Hns. by apply suffix_cons_r.
Qed.

(** *** Lists *)

Record pattern_item := mkItem { negated : bool; text : str }.

Definition render_item (i : pattern_item) : str :=
  (if negated i then ["!"%char] else []) ++ text i.

Definition item_ok (i : pattern_item) : Prop :=
  text i ≠ [] ∧ (","%char ∉ text i) ∧ (length (text i) < SUB_SIZE - 1)%nat ∧
  (negated i = false → head (text i) ≠ Some "!"%char).

Definition lowered (dolower : bool) (t : str) : str :=
  if dolower then tolower <$> t else t.

Definition item_matches (s : option str) (dolower : bool) (i : pattern_item) : bool :=
  match_pattern_ptr s (lowered dolower (text i)).

(** The meaning of a list: a matching negated item rules everything out. *)
Definition list_result (s : option str) (dolower : bool) (items : list pattern_item) : Z :=
  if existsb (λ i, negated i && item_matches s dolower i) items then -1
  else if existsb (λ i, negb (negated i) && item_matches s dolower i) items then 1 else 0.

Lemma take_sub_item room dolower t rest :
  (","%char ∉ t) → (length t < room)%nat → (rest = [] ∨ head rest = Some ","%char) →
  take_sub room dolower (t ++ rest) = (lowered dolower t, rest).
Proof.
  intros Hc Hl Hr. revert room Hl. induction t as [|c t IH]; intros room Hl.
  - destruct room as [|room]; [cbn in Hl; lia|]. destruct rest as [|d rest]; [by destruct dolower|].
    destruct Hr as [?|[= ->]]; [done|]. by destruct dolower.
  - destruct room as [|room]; [cbn in Hl; lia|]. apply not_elem_of_cons in Hc as [Hc Ht].
    cbn [take_sub app]. rewrite bool_decide_false by done. rewrite IH by (done || cbn in Hl; lia).
    cbn. destruct dolower; cbn; [|done]. unfold tolower. by destruct (isupper c).
Qed.

(** One round of the loop consumes one item and its comma. *)
Lemma pattern_list_item fuel s dolower i rest got :
  item_ok i → (rest = [] ∨ head rest = Some ","%char) →
  pattern_list_loop (S fuel) s (render_item i ++ rest) dolower got =
  let got' := if item_matches s dolower i then 1 else got in
  if negated i && item_matches s dolower i then -1
  else pattern_list_loop fuel s (drop 1 rest) dolower got'.
Proof.
  intros (Hne & Hc & Hl & Hbang) Hr.
  assert (∃ c l, render_item i ++ rest = c :: l ∧ bool_decide (c = "!"%char) = negated i ∧
            (if negated i then l else c :: l) = text i ++ rest) as (c & l & -> & Hneg & Hl').
  { unfold render_item. destruct (negated i); [by eexists _, _|].
    destruct (text i) as [|c t] eqn:Ht; [done|]. eexists c, _. split; [done|].
    split; [|done]. apply bool_decide_eq_false. intros ->. by destruct (Hbang eq_refl). }
  cbn [pattern_list_loop]. rewrite Hneg, Hl', take_sub_item by done. cbn [fst snd].
  assert (length (lowered dolower (text i)) = length (text i)) as Hlen
    by (destruct dolower; [apply length_fmap|done]).
  rewrite decide_False by (rewrite Hlen; lia).
  change (match_pattern_ptr s (lowered dolower (text i))) with (item_matches s dolower i).
  assert (match rest with
          | d :: rest' => if bool_decide (d = ","%char) then rest' else rest
          | [] => []
          end = drop 1 rest) as -> by (destruct rest; [done|destruct Hr as [?|[= ->]]; done]).
  by destruct (item_matches s dolower i), (negated i).
Qed.

Lemma join_items i items :
  ∃ rest, join ","%char (render_item <$> i :: items) = render_item i ++ rest ∧
    (rest = [] ∨ head rest = Some ","%char) ∧
    drop 1 rest = join ","%char (render_item <$> items).
Proof.
  destruct items as [|j items].
  - exists []. rewrite app_nil_r. split; [done|]. by split; [left|].
  - eexists (","%char :: _). split; [cbn; reflexivity|]. by split; [right|].
Qed.

Lemma render_item_length i : item_ok i → (1 <= length (render_item i))%nat.
Proof.
  intros (Hne & _). unfold render_item. rewrite length_app. destruct (text i); [done|cbn; lia].
Qed.

Lemma pattern_list_items s dolower items got fuel :
  Forall item_ok items →
  (length (join ","%char (render_item <$> items)) <= fuel)%nat →
  pattern_list_loop fuel s (join ","%char (render_item <$> items)) dolower got =
  if existsb (λ i, negated i && item_matches s dolower i) items then -1
  else if existsb (λ i, negb (negated i) && item_matches s dolower i) items then 1 else got.
Proof.
  revert got fuel. induction items as [|i items IH]; intros got fuel Hok Hf; [by destruct fuel|].
  apply Forall_cons_1 in Hok as [Hi Hok].
  destruct (join_items i items) as (rest & Heq & Hr & Hrest).
  rewrite Heq, length_app in Hf. rewrite Heq. pose proof (render_item_length i Hi) as Hlen.
  destruct fuel as [|fuel]; [lia|]. rewrite pattern_list_item by done.
  cbv zeta. rewrite Hrest, IH by (done || (rewrite <-Hrest, length_drop; lia)). cbn [existsb].
  destruct (negated i), (item_matches s dolower i); cbn; try done.
  repeat destruct (existsb _ items); done.
Qed.

(** ** Properties *)

(** C30. [match_pattern] decides what its pattern means ([?] one character, [*] any
    number) for every pattern that does not end in two asterisks, and never accepts more
    than that; a pattern that does end in two asterisks wants one more character, so the
    two asterisks alone do not match the empty string. *)
Theorem match_pattern_glob p s :
  (match_pattern p s = true → glob p s) ∧
  (¬ stars `suffix_of` p → (match_pattern p s = true ↔ glob p s)) ∧
  match_pattern stars [] = false.
Proof. pose proof (match_pattern_iff p s). naive_solver. Qed.

Lemma match_pattern_glob_witness :
  glob (lit "*.ex?mple.com") (lit "www.example.com") ∧ ¬ glob (lit "a*") (lit "b").
Proof.
  split.
  - apply (proj1 (match_pattern_glob _ _)). vm_compute. reflexivity.
  - assert (¬ stars `suffix_of` lit "a*") as Hns
      by (apply (bool_decide_eq_false_1 (stars `suffix_of` lit "a*")); vm_compute; reflexivity).
    intros Hg. apply (proj1 (proj2 (match_pattern_glob (lit "a*") (lit "b"))) Hns) in Hg.
    vm_compute in Hg. discriminate Hg.
Defined.

(** [match_hostname] reads a comma-separated list of patterns as it is meant: -1 when
    any negated pattern matches the host (wherever it is in the list), else 1 when some
    other pattern does, else 0; the patterns are compared in lower case.  This holds for
    items of fewer than 1023 characters; a longer one makes the whole list fail to match,
    also its negated items behind it. *)
Theorem match_hostname_list host items :
  Forall item_ok items →
  match_hostname host (join ","%char (render_item <$> items)) = list_result host true items.
Proof. intros Hok. by apply pattern_list_items. Qed.

Lemma match_hostname_list_witness :
  match_hostname (Some (lit "dev.example.com")) (lit "*.Example.com,!dev.*") = -1.
Proof.
  refine (match_hostname_list (Some (lit "dev.example.com"))
    [mkItem false (lit "*.Example.com"); mkItem true (lit "dev.*")] _).
  repeat apply Forall_cons_2; [| |apply Forall_nil_2]; (split; [discriminate|split]);
    try (apply (bool_decide_eq_false_1 (","%char ∈ _)); vm_compute; reflexivity);
    (split; [vm_compute; lia|discriminate]).
Defined.
