(* ===== verification/SshTokens.v ===== *)
(** * Words of an ssh configuration line ([terminal/ParseConfigFile.hpp])

    The keyword table and the functions that cut the next word out of a line.  The code
    cuts by writing terminators into its copy of the line and moving a pointer past them;
    as it never looks back, a call is modelled by the word it returns and the text from
    the new position on. *)

From S2P Require Import Prelude CxxText.

(** ** Keywords *)

Inductive ssh_config_opcode_e :=
| SOC_UNSUPPORTED | SOC_HOST | SOC_HOSTNAME | SOC_MATCH | SOC_PORT | SOC_USERNAME
| SOC_TIMEOUT | SOC_PROTOCOL | SOC_STRICTHOSTKEYCHECK | SOC_KNOWNHOSTS | SOC_PROXYCOMMAND
| SOC_GSSAPISERVERIDENTITY | SOC_GSSAPICLIENTIDENTITY | SOC_GSSAPIDELEGATECREDENTIALS
| SOC_INCLUDE | SOC_PROXYJUMP | SOC_FORWARDAGENT | SOC_IDENTITYAGENT | SOC_LOCALFORWARD
| SOC_SETENV.

#[global] Instance opcode_eq_dec : EqDecision ssh_config_opcode_e.
Proof. solve_decision. Defined.

Definition ssh_config_keyword_table : list (str * ssh_config_opcode_e) :=
  [(lit "host", SOC_HOST); (lit "hostname", SOC_HOSTNAME); (lit "match", SOC_MATCH);
   (lit "port", SOC_PORT); (lit "user", SOC_USERNAME); (lit "connecttimeout", SOC_TIMEOUT);
   (lit "protocol", SOC_PROTOCOL); (lit "stricthostkeychecking", SOC_STRICTHOSTKEYCHECK);
   (lit "userknownhostsfile", SOC_KNOWNHOSTS); (lit "proxycommand", SOC_PROXYCOMMAND);
   (lit "gssapiserveridentity", SOC_GSSAPISERVERIDENTITY);
   (lit "gssapiclientidentity", SOC_GSSAPICLIENTIDENTITY);
   (lit "gssapidelegatecredentials", SOC_GSSAPIDELEGATECREDENTIALS);
   (lit "include", SOC_INCLUDE); (lit "proxyjump", SOC_PROXYJUMP);
   (lit "forwardagent", SOC_FORWARDAGENT); (lit "identityagent", SOC_IDENTITYAGENT);
   (lit "localforward", SOC_LOCALFORWARD); (lit "setenv", SOC_SETENV)].

Definition ssh_lowercase (s : str) : str := tolower <$> s.

(** [strcasecmp(a, b) == 0], and [strncasecmp(a, b, n) == 0] for a [b] of length [n]. *)
Definition strcaseeq (a b : str) : bool := bool_decide (ssh_lowercase a = ssh_lowercase b).
Definition strncaseeq (a b : str) : bool := strcaseeq (take (length b) a) b.

Fixpoint get_opcode_loop (table : list (str * ssh_config_opcode_e)) (keyword : str)
    : ssh_config_opcode_e :=
  match table with
  | [] => SOC_UNSUPPORTED
  | (name, opcode) :: table' =>
    if strcaseeq keyword name then opcode else get_opcode_loop table' keyword
  end.

Definition ssh_config_get_opcode (keyword : str) : ssh_config_opcode_e :=
  get_opcode_loop ssh_config_keyword_table keyword.

(** ** Words *)

Definition QUOTE : ascii := "034"%char.

(** "Ignore leading spaces" *)
Fixpoint skip_blanks (s : str) : str :=
  match s with
  | c :: s' => if isblank c then skip_blanks s' else s
  | [] => []
  end.

(** The text before the first character that is a [stop], that character, and what
    follows it. *)
Fixpoint span_until (is_stop : ascii → bool) (s : str) : str * option ascii * str :=
  match s with
  | [] => ([], None, [])
  | c :: s' =>
    if is_stop c then ([], Some c, s')
    else let '(t, d, rest) := span_until is_stop s' in (c :: t, d, rest)
  end.

(** "Skip any other remaining whitespace", and one equals sign. *)
Fixpoint skip_rest (had_equal : bool) (s : str) : str :=
  match s with
  | c :: s' =>
    if isblank c || bool_decide (c = LF) || (negb had_equal && bool_decide (c = "="%char))
    then skip_rest (had_equal || bool_decide (c = "="%char)) s'
    else s
  | [] => []
  end.

Definition ssh_config_get_token (s : str) : str * str :=
  match skip_blanks s with
  | c :: c' =>
    if bool_decide (c = QUOTE) then
      let '(r, _, rest) := span_until (λ c, bool_decide (c = QUOTE) || bool_decide (c = LF)) c' in
      (r, skip_rest false rest)
    else
      let '(r, d, rest) :=
        span_until (λ c, isblank c || bool_decide (c = "="%char) || bool_decide (c = LF)) (c :: c') in
      (r, skip_rest (bool_decide (d = Some "="%char)) rest)
  | [] => ([], [])
  end.

(** The rest of the line as one word (the position after it is not used).  When a quote is
    not closed, the second loop starts at the end of the line and finds nothing. *)
Definition ssh_config_get_cmd (s : str) : str :=
  match skip_blanks s with
  | c :: c' =>
    if bool_decide (c = QUOTE) then
      match span_until (λ c, bool_decide (c = QUOTE)) c' with
      | (r, Some _, _) => r
      | (_, None, _) => []
      end
    else (span_until (λ c, bool_decide (c = LF)) (c :: c')).1.1
  | [] => []
  end.

(** The value, and the rest of the line. *)
Definition ssh_config_get_int (s : str) (notfound : Z) : Z * str :=
  let '(p, rest) := ssh_config_get_token s in
  (match p with
   | [] => notfound
   | _ => match strtol p with Some i => to_i32 i | None => notfound end
   end, rest).

Definition ssh_config_get_str_tok (s : str) (def : option str) : option str * str :=
  let '(p, rest) := ssh_config_get_token s in
  (match p with [] => def | _ => Some p end, rest).

Definition ssh_config_get_yesno (s : str) (notfound : Z) : Z * str :=
  let '(p, rest) := ssh_config_get_str_tok s None in
  (match p with
   | None => notfound
   | Some p =>
     if strncaseeq p (lit "yes") then 1 else if strncaseeq p (lit "no") then 0 else notfound
   end, rest).

(** ** Lemmas *)

Definition plain_char (c : ascii) : Prop :=
  isblank c = false ∧ c ≠ "="%char ∧ c ≠ LF.

#[global] Instance plain_char_dec c : Decision (plain_char c).
Proof. unfold plain_char. apply _. Defined.

(** A word as a line may hold it: as it is, or in quotes. *)
Inductive word := Bare (w : str) | Quoted (w : str).

Definition word_text (w : word) : str := match w with Bare w | Quoted w => w end.

Definition render_word (w : word) : str :=
  match w with Bare w => w | Quoted w => QUOTE :: w ++ [QUOTE] end.

Definition word_ok (w : word) : Prop :=
  word_text w ≠ [] ∧
  match w with
  | Bare w => Forall plain_char w ∧ head w ≠ Some QUOTE
  | Quoted w => (QUOTE ∉ w) ∧ (LF ∉ w)
  end.

(** What may follow a separator without being taken for a part of it. *)
Definition starts_word (s : str) : Prop :=
  match s with [] => True | c :: _ => plain_char c end.

Lemma span_until_stop is_stop t d s :
  Forall (λ c, is_stop c = false) t → is_stop d = true →
  span_until is_stop (t ++ d :: s) = (t, Some d, s).
Proof.
  intros Ht Hd. induction Ht as [|c t Hc Ht IH]; cbn; [by rewrite Hd|]. by rewrite Hc, IH.
Qed.

Lemma span_until_end is_stop t :
  Forall (λ c, is_stop c = false) t → span_until is_stop t = (t, None, []).
Proof. induction 1 as [|c t Hc Ht IH]; cbn; [done|]. by rewrite Hc, IH. Qed.

Lemma skip_rest_word b s : starts_word s → skip_rest b s = s.
Proof.
  destruct s as [|c s]; [done|]. intros (Hb & He & Hl). cbn.
  rewrite Hb, !bool_decide_false by done. by destruct b.
Qed.

Lemma skip_blanks_word s : starts_word s → skip_blanks s = s.
Proof. destruct s as [|c s]; [done|]. intros (Hb & _). cbn. by rewrite Hb. Qed.

Lemma starts_render w s : word_ok w → starts_word (render_word w ++ s).
Proof.
  intros [Hne Hok]. destruct w as [[|c w]|w]; [done| |done].
  by destruct Hok as [[? _]%Forall_cons_1 _].
Qed.

(** Blanks, with at most one equals sign among them. *)
Inductive separator : bool → str → Prop :=
| sep_nil b : separator b []
| sep_blank b c s : isblank c = true → separator b s → separator b (c :: s)
| sep_equal s : separator true s → separator false ("="%char :: s).

Lemma skip_rest_separator b sep s :
  separator b sep → starts_word s → skip_rest b (sep ++ s) = s.
Proof.
  intros Hsep Hs. induction Hsep as [b|b c sep Hc Hsep IH|sep Hsep IH]; cbn;
    [by apply skip_rest_word| |done].
  rewrite Hc. assert (bool_decide (c = "="%char) = false) as ->
    by (apply bool_decide_eq_false; by intros ->). by rewrite orb_false_r.
Qed.

Lemma plain_not_stop c :
  plain_char c → isblank c || bool_decide (c = "="%char) || bool_decide (c = LF) = false.
Proof. intros (-> & He & Hl). by rewrite !bool_decide_false. Qed.

(** A word is cut out exactly, and what separates it from the next one is skipped. *)
Lemma get_token_word w sep s :
  word_ok w → separator false sep → starts_word s → (sep = [] → s = []) →
  ssh_config_get_token (render_word w ++ sep ++ s) = (word_text w, s).
Proof.
  intros Hok Hsep Hs Hlast. unfold ssh_config_get_token.
  rewrite skip_blanks_word by by apply starts_render.
  destruct Hok as [Hne Hok]. destruct w as [[|c w]|w]; cbn [render_word word_text app] in *; [done| |].
  - destruct Hok as [Hp Hq]. rewrite bool_decide_false by (by intros ->).
    change (c :: w ++ sep ++ s) with ((c :: w) ++ sep ++ s).
    apply (Forall_impl _ plain_not_stop) in Hp.
    inversion Hsep as [b|b d sep' Hd Hsep'|sep' Hsep']; subst.
    + rewrite Hlast, app_nil_r by done. by rewrite span_until_end.
    + rewrite <-(app_comm_cons sep' s d), span_until_stop by (done || by rewrite Hd). f_equal.
      rewrite bool_decide_false by (intros [= ->]; done). by apply skip_rest_separator.
    + rewrite <-(app_comm_cons sep' s "="%char), span_until_stop by done. f_equal. by apply skip_rest_separator.
  - rewrite <-app_assoc. cbn [app]. destruct Hok as [Hq Hl].
    rewrite span_until_stop; [by rewrite skip_rest_separator| |done].
    apply list.Forall_forall. intros d Hd. rewrite !bool_decide_false; [done|by intros ->..].
Qed.

(** Reading a word moves forward, whatever the line is. *)
Lemma skip_blanks_length s : (length (skip_blanks s) <= length s)%nat.
Proof. induction s as [|c s IH]; cbn; [lia|]. destruct (isblank c); cbn; lia. Qed.

Lemma skip_rest_length b s : (length (skip_rest b s) <= length s)%nat.
Proof. revert b. induction s as [|c s IH]; intros b; cbn; [lia|]. destruct (_ || _ || _); cbn; [etrans; [apply IH|]|]; lia. Qed.

Lemma span_until_length f s : (length (span_until f s).2 <= length s)%nat.
Proof.
  induction s as [|c s IH]; cbn; [lia|]. destruct (f c); cbn; [lia|].
  destruct (span_until f s) as [[t d] rest]. cbn in *. lia.
Qed.

Lemma get_token_progress s :
  (length (ssh_config_get_token s).2 <= length s)%nat ∧
  (s ≠ [] → (length (ssh_config_get_token s).2 < length s)%nat).
Proof.
  unfold ssh_config_get_token. pose proof (skip_blanks_length s) as Hb.
  destruct (skip_blanks s) as [|c l] eqn:Hsb; [destruct s; cbn in *; split; [lia|done|lia|]; intros; lia|].
  cbn in Hb. destruct (bool_decide _).
  - pose proof (span_until_length (λ c, bool_decide (c = QUOTE) || bool_decide (c = LF)) l) as Hl.
    destruct (span_until _ l) as [[t d] rest]. cbn in *.
    pose proof (skip_rest_length false rest). split; lia.
  - set (f := λ c, isblank c || bool_decide (c = "="%char) || bool_decide (c = LF)).
    assert (length (span_until f (c :: l)).2 <= length l)%nat as Hl.
    { cbn. destruct (f c); cbn; [lia|]. pose proof (span_until_length f l).
      destruct (span_until f l) as [[t d] rest]. cbn in *. lia. }
    destruct (span_until f (c :: l)) as [[t d] rest]. cbn in *.
    pose proof (skip_rest_length (bool_decide (d = Some "="%char)) rest). split; lia.
Qed.
