(* ===== verification/SshOptions.v ===== *)
(** * Options of the ssh configuration ([terminal/ParseConfigFile.hpp])

    The record the parser fills, [ssh_options_set], and the expansion of [~] and of the
    escapes [%d], [%h], ... in paths.  Pointers that may be [NULL] are options; what the
    operating system answers is a record [Env].  Failing allocations are not modelled. *)

From S2P Require Import Prelude CxxText SshTokens.

(** ** The environment *)

(** [getpwuid_r]: an error, no entry (0 with an unset [pwd]), or the entry's [pw_dir] and
    [pw_name]. *)
Inductive passwd_result := PwError | PwMissing | PwEntry (pw_dir pw_name : str).

Record Env := mkEnv {
  env_getpwuid : passwd_result;
  env_HOME : option str;
  (** [pw_dir] of a user *)
  env_getpwnam : str → option str;
  (** Does [gethostname] with a buffer of size 0 fail?  (POSIX leaves it open.) *)
  env_gethostname_fails : bool;
  (** The lines of a file that can be opened, as [std::getline] gives them. *)
  env_file : str → option (list str);
  (** The names in a directory, in the order of [directory_iterator]; [None] throws. *)
  env_directory : str → option (list str);
  (** [std::regex(pattern)] and what it matches; [None] throws. *)
  env_regex : str → option (str → bool);
}.

(** ** Options *)

Record Options := mkOptions {
  username : option str;
  host : option str;
  sshdir : option str;
  knownhosts : option str;
  ProxyCommand : option str;
  ProxyJump : option str;
  timeout : Z;
  port : Z;
  StrictHostKeyChecking : Z;
  ssh2 : Z;
  ssh1 : Z;
  gss_server_identity : option str;
  gss_client_identity : option str;
  gss_delegate_creds : Z;
  forward_agent : Z;
  identity_agent : option str;
  local_forwards : list (Z * Z);
  env_vars : list (str * str);
}.

Definition set_username (v : option str) (o : Options) : Options :=
  mkOptions v (host o) (sshdir o) (knownhosts o) (ProxyCommand o) (ProxyJump o) (timeout o)
    (port o) (StrictHostKeyChecking o) (ssh2 o) (ssh1 o) (gss_server_identity o)
    (gss_client_identity o) (gss_delegate_creds o) (forward_agent o) (identity_agent o)
    (local_forwards o) (env_vars o).
Definition set_host (v : option str) (o : Options) : Options :=
  mkOptions (username o) v (sshdir o) (knownhosts o) (ProxyCommand o) (ProxyJump o)
    (timeout o) (port o) (StrictHostKeyChecking o) (ssh2 o) (ssh1 o) (gss_server_identity o)
    (gss_client_identity o) (gss_delegate_creds o) (forward_agent o) (identity_agent o)
    (local_forwards o) (env_vars o).
Definition set_sshdir (v : option str) (o : Options) : Options :=
  mkOptions (username o) (host o) v (knownhosts o) (ProxyCommand o) (ProxyJump o)
    (timeout o) (port o) (StrictHostKeyChecking o) (ssh2 o) (ssh1 o) (gss_server_identity o)
    (gss_client_identity o) (gss_delegate_creds o) (forward_agent o) (identity_agent o)
    (local_forwards o) (env_vars o).
Definition set_knownhosts (v : option str) (o : Options) : Options :=
  mkOptions (username o) (host o) (sshdir o) v (ProxyCommand o) (ProxyJump o) (timeout o)
    (port o) (StrictHostKeyChecking o) (ssh2 o) (ssh1 o) (gss_server_identity o)
    (gss_client_identity o) (gss_delegate_creds o) (forward_agent o) (identity_agent o)
    (local_forwards o) (env_vars o).
Definition set_ProxyCommand (v : option str) (o : Options) : Options :=
  mkOptions (username o) (host o) (sshdir o) (knownhosts o) v (ProxyJump o) (timeout o)
    (port o) (StrictHostKeyChecking o) (ssh2 o) (ssh1 o) (gss_server_identity o)
    (gss_client_identity o) (gss_delegate_creds o) (forward_agent o) (identity_agent o)
    (local_forwards o) (env_vars o).
Definition set_ProxyJump (v : option str) (o : Options) : Options :=
  mkOptions (username o) (host o) (sshdir o) (knownhosts o) (ProxyCommand o) v (timeout o)
    (port o) (StrictHostKeyChecking o) (ssh2 o) (ssh1 o) (gss_server_identity o)
    (gss_client_identity o) (gss_delegate_creds o) (forward_agent o) (identity_agent o)
    (local_forwards o) (env_vars o).
Definition set_timeout (v : Z) (o : Options) : Options :=
  mkOptions (username o) (host o) (sshdir o) (knownhosts o) (ProxyCommand o) (ProxyJump o) v
    (port o) (StrictHostKeyChecking o) (ssh2 o) (ssh1 o) (gss_server_identity o)
    (gss_client_identity o) (gss_delegate_creds o) (forward_agent o) (identity_agent o)
    (local_forwards o) (env_vars o).
Definition set_port (v : Z) (o : Options) : Options :=
  mkOptions (username o) (host o) (sshdir o) (knownhosts o) (ProxyCommand o) (ProxyJump o)
    (timeout o) v (StrictHostKeyChecking o) (ssh2 o) (ssh1 o) (gss_server_identity o)
    (gss_client_identity o) (gss_delegate_creds o) (forward_agent o) (identity_agent o)
    (local_forwards o) (env_vars o).
Definition set_StrictHostKeyChecking (v : Z) (o : Options) : Options :=
  mkOptions (username o) (host o) (sshdir o) (knownhosts o) (ProxyCommand o) (ProxyJump o)
    (timeout o) (port o) v (ssh2 o) (ssh1 o) (gss_server_identity o) (gss_client_identity o)
    (gss_delegate_creds o) (forward_agent o) (identity_agent o) (local_forwards o)
    (env_vars o).
Definition set_ssh2 (v : Z) (o : Options) : Options :=
  mkOptions (username o) (host o) (sshdir o) (knownhosts o) (ProxyCommand o) (ProxyJump o)
    (timeout o) (port o) (StrictHostKeyChecking o) v (ssh1 o) (gss_server_identity o)
    (gss_client_identity o) (gss_delegate_creds o) (forward_agent o) (identity_agent o)
    (local_forwards o) (env_vars o).
Definition set_ssh1 (v : Z) (o : Options) : Options :=
  mkOptions (username o) (host o) (sshdir o) (knownhosts o) (ProxyCommand o) (ProxyJump o)
    (timeout o) (port o) (StrictHostKeyChecking o) (ssh2 o) v (gss_server_identity o)
    (gss_client_identity o) (gss_delegate_creds o) (forward_agent o) (identity_agent o)
    (local_forwards o) (env_vars o).
Definition set_gss_server_identity (v : option str) (o : Options) : Options :=
  mkOptions (username o) (host o) (sshdir o) (knownhosts o) (ProxyCommand o) (ProxyJump o)
    (timeout o) (port o) (StrictHostKeyChecking o) (ssh2 o) (ssh1 o) v
    (gss_client_identity o) (gss_delegate_creds o) (forward_agent o) (identity_agent o)
    (local_forwards o) (env_vars o).
Definition set_gss_client_identity (v : option str) (o : Options) : Options :=
  mkOptions (username o) (host o) (sshdir o) (knownhosts o) (ProxyCommand o) (ProxyJump o)
    (timeout o) (port o) (StrictHostKeyChecking o) (ssh2 o) (ssh1 o) (gss_server_identity o)
    v (gss_delegate_creds o) (forward_agent o) (identity_agent o) (local_forwards o)
    (env_vars o).
Definition set_gss_delegate_creds (v : Z) (o : Options) : Options :=
  mkOptions (username o) (host o) (sshdir o) (knownhosts o) (ProxyCommand o) (ProxyJump o)
    (timeout o) (port o) (StrictHostKeyChecking o) (ssh2 o) (ssh1 o) (gss_server_identity o)
    (gss_client_identity o) v (forward_agent o) (identity_agent o) (local_forwards o)
    (env_vars o).
Definition set_forward_agent (v : Z) (o : Options) : Options :=
  mkOptions (username o) (host o) (sshdir o) (knownhosts o) (ProxyCommand o) (ProxyJump o)
    (timeout o) (port o) (StrictHostKeyChecking o) (ssh2 o) (ssh1 o) (gss_server_identity o)
    (gss_client_identity o) (gss_delegate_creds o) v (identity_agent o) (local_forwards o)
    (env_vars o).
Definition set_identity_agent (v : option str) (o : Options) : Options :=
  mkOptions (username o) (host o) (sshdir o) (knownhosts o) (ProxyCommand o) (ProxyJump o)
    (timeout o) (port o) (StrictHostKeyChecking o) (ssh2 o) (ssh1 o) (gss_server_identity o)
    (gss_client_identity o) (gss_delegate_creds o) (forward_agent o) v (local_forwards o)
    (env_vars o).
Definition set_local_forwards (v : list (Z * Z)) (o : Options) : Options :=
  mkOptions (username o) (host o) (sshdir o) (knownhosts o) (ProxyCommand o) (ProxyJump o)
    (timeout o) (port o) (StrictHostKeyChecking o) (ssh2 o) (ssh1 o) (gss_server_identity o)
    (gss_client_identity o) (gss_delegate_creds o) (forward_agent o) (identity_agent o) v
    (env_vars o).
Definition set_env_vars (v : list (str * str)) (o : Options) : Options :=
  mkOptions (username o) (host o) (sshdir o) (knownhosts o) (ProxyCommand o) (ProxyJump o)
    (timeout o) (port o) (StrictHostKeyChecking o) (ssh2 o) (ssh1 o) (gss_server_identity o)
    (gss_client_identity o) (gss_delegate_creds o) (forward_agent o) (identity_agent o)
    (local_forwards o) v.

(** [Options] as the program starts with them, and as [freeOptionsFields] leaves them. *)
Definition empty_options : Options :=
  mkOptions None None None None None None 0 0 0 0 0 None None 0 0 None [] [].

Definition freeOptionsFields (o : Options) : Options :=
  set_username None (set_host None (set_sshdir None (set_knownhosts None (set_ProxyCommand None
    (set_ProxyJump None (set_gss_server_identity None (set_gss_client_identity None
      (set_identity_agent None o)))))))).

Inductive ssh_options_e :=
| SSH_OPTIONS_HOST | SSH_OPTIONS_PORT | SSH_OPTIONS_PORT_STR | SSH_OPTIONS_FD | SSH_OPTIONS_USER
| SSH_OPTIONS_SSH_DIR | SSH_OPTIONS_IDENTITY | SSH_OPTIONS_ADD_IDENTITY | SSH_OPTIONS_KNOWNHOSTS
| SSH_OPTIONS_TIMEOUT | SSH_OPTIONS_TIMEOUT_USEC | SSH_OPTIONS_SSH1 | SSH_OPTIONS_SSH2
| SSH_OPTIONS_LOG_VERBOSITY | SSH_OPTIONS_LOG_VERBOSITY_STR | SSH_OPTIONS_CIPHERS_C_S
| SSH_OPTIONS_CIPHERS_S_C | SSH_OPTIONS_COMPRESSION_C_S | SSH_OPTIONS_COMPRESSION_S_C
| SSH_OPTIONS_PROXYCOMMAND | SSH_OPTIONS_BINDADDR | SSH_OPTIONS_STRICTHOSTKEYCHECK
| SSH_OPTIONS_COMPRESSION | SSH_OPTIONS_COMPRESSION_LEVEL | SSH_OPTIONS_KEY_EXCHANGE
| SSH_OPTIONS_HOSTKEYS | SSH_OPTIONS_GSSAPI_SERVER_IDENTITY | SSH_OPTIONS_GSSAPI_CLIENT_IDENTITY
| SSH_OPTIONS_GSSAPI_DELEGATE_CREDENTIALS | SSH_OPTIONS_HMAC_C_S | SSH_OPTIONS_HMAC_S_C
| SSH_OPTIONS_PROXYJUMP | SSH_OPTIONS_FORWARDAGENT | SSH_OPTIONS_IDENTITYAGENT
| SSH_OPTIONS_LOCALFORWARD | SSH_OPTIONS_SETENV.

(** ** Paths *)

Definition PASSWD_BUFFER : nat := 4096.
Definition MAX_BUF_SIZE : Z := 4096.

(** [None] is [NULL]. *)
Definition ssh_get_user_home_dir (e : Env) : outcome (option str) :=
  match env_getpwuid e with
  | PwError => Ok (take (PASSWD_BUFFER - 1) <$> env_HOME e)
  | PwMissing => Stop (UB "pw_dir of an unset struct passwd")
  | PwEntry dir _ => Ok (Some dir)
  end.

Definition ssh_get_local_username (e : Env) : outcome (option str) :=
  match env_getpwuid e with
  | PwError => Ok None
  | PwMissing => Stop (UB "pw_name of an unset struct passwd")
  | PwEntry _ name => Ok (Some name)
  end.

(** [string(ssh_get_local_username())] of a null pointer is undefined. *)
Definition local_username (e : Env) : outcome str :=
  name ← ssh_get_local_username e;
  match name with
  | Some name => Ok name
  | None => Stop (UB "std::string of a null pointer")
  end.

(** The home directory a path after its [~] stands in, and the part of the path behind it:
    [/...] and the empty path (also [user] without a slash) are in this user's home
    directory, [user/...] in that user's. *)
Definition home_part (e : Env) (d : str) : outcome (option str * str) :=
  match find_char "/"%char d with
  | Some (S _ as s) =>
    Ok (if decide (128 <= s)%nat then None else env_getpwnam e (take s d), drop s d)
  | _ => h ← ssh_get_user_home_dir e; Ok (h, d)
  end.

Definition ssh_path_expand_tilde (e : Env) (d : str) : outcome (option str) :=
  match d with
  | c :: d' =>
    if bool_decide (c = "~"%char) then
      '(h, p) ← home_part e d';
      Ok (match h with Some h => Some (h ++ p) | None => None end)
    else Ok (Some d)
  | [] => Ok (Some d)
  end.

(** [strdup] of a pointer that may be [NULL]. *)
Definition strdup (s : option str) : outcome (option str) :=
  match s with Some s => Ok (Some s) | None => Stop (UB "strdup(NULL)") end.

(** The text of an escape; [None] is the error return.  The size that is passed to
    [gethostname] is [sizeof(host) == 0], which is 0: the name is never written. *)
Definition escape_value (e : Env) (o : Options) (c : ascii) : outcome (option str) :=
  if bool_decide (c = "d"%char) then strdup (sshdir o)
  else if bool_decide (c = "u"%char) then ssh_get_local_username e
  else if bool_decide (c = "l"%char) then
    if env_gethostname_fails e then Stop (UB "strdup of an uninitialised buffer") else Ok None
  else if bool_decide (c = "h"%char) then strdup (host o)
  else if bool_decide (c = "r"%char) then strdup (username o)
  else if bool_decide (c = "p"%char) then Ok (if port o <? 65536 then Some (dec (port o)) else None)
  else Ok None.

Fixpoint escape_loop (e : Env) (o : Options) (p buf : str) : outcome (option str) :=
  match p with
  | [] => Ok (Some buf)
  | c :: p' =>
    if bool_decide (c = "%"%char) then
      match p' with
      | [] => Ok (Some buf)
      | d :: p'' =>
        x ← escape_value e o d;
        match x with
        | None => Ok None
        | Some x =>
          if MAX_BUF_SIZE <=? len buf + len x then Ok None else escape_loop e o p'' (buf ++ x)
        end
      end
    else if MAX_BUF_SIZE <=? len buf + 1 then Ok None
    else escape_loop e o p' (buf ++ [c])
  end.

Definition ssh_path_expand_escape (e : Env) (o : Options) (s : str) : outcome (option str) :=
  r ← ssh_path_expand_tilde e s;
  match r with
  | None => Ok None
  | Some r => if MAX_BUF_SIZE <? len r then Ok None else escape_loop e o r []
  end.

(** ** [ssh_options_set] *)

(** The [const void* value]: [NULL], or a pointer to a text, an [int] or a [long]. *)
Inductive option_value := VNull | VStr (s : str) | VInt (i : Z) | VLong (i : Z).

Definition as_text (v : option_value) : outcome (option str) :=
  match v with
  | VNull => Ok None
  | VStr s => Ok (Some s)
  | _ => Stop (UB "value is not a string")
  end.

Definition as_int (v : option_value) : outcome (option Z) :=
  match v with
  | VNull => Ok None
  | VInt i => Ok (Some i)
  | _ => Stop (UB "value is not an int")
  end.

Definition as_long (v : option_value) : outcome (option Z) :=
  match v with
  | VNull => Ok None
  | VLong i => Ok (Some i)
  | _ => Stop (UB "value is not a long")
  end.

(** The text behind the last [c] ([strrchr]), and the words [strtok] returns. *)
Fixpoint after_last (c : ascii) (s : str) : option str :=
  match s with
  | [] => None
  | x :: s' =>
    match after_last c s' with
    | Some t => Some t
    | None => if bool_decide (x = c) then Some s' else None
    end
  end.

Definition strtok (delim : ascii) (s : str) : list str := filter (λ w, w ≠ []) (split s delim).

(** Every case ends in its return value and the options it leaves. *)
Definition set_result : Type := Z * Options.
Definition invalid (o : Options) : outcome set_result := Ok (-1, o).
Definition done_with (o : Options) : outcome set_result := Ok (0, o).

(** The texts that must not be empty; [clear] is what happens before the test. *)
Definition set_text (clear : Options → Options) (f : str → Options → Options)
    (v : option_value) (o : Options) : outcome set_result :=
  s ← as_text v;
  let o := clear o in
  match s with
  | None | Some [] => invalid o
  | Some s => done_with (f s o)
  end.

Definition set_int (ok : Z → bool) (f : Z → Options → Options) (v : option_value) (o : Options)
    : outcome set_result :=
  i ← as_int v;
  match i with
  | None => invalid o
  | Some i => if ok i then done_with (f i o) else invalid o
  end.

(** [user@host] sets both. *)
Definition set_host_option (s : str) (o : Options) : Options :=
  match find_char "@"%char s with
  | Some p => set_username (Some (take p s)) (set_host (Some (drop (S p) s)) o)
  | None => set_host (Some s) o
  end.

Definition set_port_str (v : option_value) (o : Options) : outcome set_result :=
  s ← as_text v;
  match s with
  | None | Some [] => invalid o
  | Some s =>
    let i := default 0 (strtol s) in
    if i <=? 0 then invalid o else done_with (set_port (Z.land i 0xffff) o)
  end.

Definition set_user (e : Env) (v : option_value) (o : Options) : outcome set_result :=
  s ← as_text v;
  let o := set_username None o in
  match s with
  | None =>
    q ← ssh_get_local_username e;
    match q with None => invalid o | Some q => done_with (set_username (Some q) o) end
  | Some [] => invalid o
  | Some s => done_with (set_username (Some s) o)
  end.

Definition set_known_hosts (e : Env) (v : option_value) (o : Options) : outcome set_result :=
  s ← as_text v;
  let o := set_knownhosts None o in
  match s with
  | None =>
    k ← ssh_path_expand_escape e o (lit "%d/known_hosts");
    match k with None => invalid o | Some k => done_with (set_knownhosts (Some k) o) end
  | Some [] => invalid o
  | Some s => done_with (set_knownhosts (Some s) o)
  end.

Definition set_timeout_option (v : option_value) (o : Options) : outcome set_result :=
  i ← as_long v;
  match i with
  | None => invalid o
  | Some i => if i <? 0 then invalid o else done_with (set_timeout (Z.land i 0xffffffff) o)
  end.

(** [none] disables the command. *)
Definition set_proxy_command (s : str) (o : Options) : Options :=
  set_ProxyCommand (if strcaseeq s (lit "none") then None else Some s) o.

(** [[bind_address:]port host:hostport], in two words. *)
Definition add_local_forward (s : str) (o : Options) : Options :=
  match strtok " "%char s with
  | local_port :: remote_part :: _ =>
    match after_last ":"%char remote_part with
    | Some remote_port =>
      set_local_forwards (local_forwards o ++ [(atoi local_port, atoi remote_port)]) o
    | None => o
    end
  | _ => o
  end.

Definition add_env_var (s : str) (o : Options) : Options :=
  match find_char "="%char s with
  | Some p => set_env_vars (env_vars o ++ [(take p s, drop (S p) s)]) o
  | None => o
  end.

(** The cases that ask nothing of the system, from [SSH_OPTIONS_SSH1] on. *)
Definition set_plain_option (type : ssh_options_e) (value : option_value) (o : Options)
    : outcome set_result :=
  match type with
  | SSH_OPTIONS_SSH1 => set_int (λ x, negb (x <? 0)) set_ssh1 value o
  | SSH_OPTIONS_SSH2 => set_int (λ x, negb (x <? 0)) (λ x, set_ssh2 (Z.land x 0xffff)) value o
  | SSH_OPTIONS_STRICTHOSTKEYCHECK => set_int (λ _, true) set_StrictHostKeyChecking value o
  | SSH_OPTIONS_PROXYCOMMAND => set_text id set_proxy_command value o
  | SSH_OPTIONS_GSSAPI_SERVER_IDENTITY => set_text id (λ s, set_gss_server_identity (Some s)) value o
  | SSH_OPTIONS_GSSAPI_CLIENT_IDENTITY => set_text id (λ s, set_gss_client_identity (Some s)) value o
  | SSH_OPTIONS_GSSAPI_DELEGATE_CREDENTIALS =>
    set_int (λ _, true) (λ x, set_gss_delegate_creds (Z.land x 0xff)) value o
  | SSH_OPTIONS_FORWARDAGENT => set_int (λ _, true) (λ x, set_forward_agent (Z.land x 0xff)) value o
  | SSH_OPTIONS_IDENTITYAGENT => set_text id (λ s, set_identity_agent (Some s)) value o
  | SSH_OPTIONS_LOCALFORWARD => set_text id add_local_forward value o
  | SSH_OPTIONS_SETENV => set_text id add_env_var value o
  | _ => invalid o
  end.

Definition ssh_options_set (e : Env) (type : ssh_options_e) (value : option_value) (o : Options)
    : outcome set_result :=
  match type with
  | SSH_OPTIONS_HOST => set_text id set_host_option value o
  | SSH_OPTIONS_PORT => set_int (λ x, negb (x <=? 0)) (λ x, set_port (Z.land x 0xffff)) value o
  | SSH_OPTIONS_PORT_STR => set_port_str value o
  | SSH_OPTIONS_USER => set_user e value o
  | SSH_OPTIONS_PROXYJUMP => set_text (set_ProxyJump None) (λ s, set_ProxyJump (Some s)) value o
  | SSH_OPTIONS_KNOWNHOSTS => set_known_hosts e value o
  | SSH_OPTIONS_TIMEOUT => set_timeout_option value o
  | type => set_plain_option type value o
  end.
