(* ===== verification/EtTerminal.v ===== *)
(** * [terminal/TerminalMain]: the program [etterminal]

    What ssh starts on the server and on a jump host: it gets its key from the standard
    input, prints the one it goes by, and becomes the daemon that owns the shell
    ([UserTerm]) or the proxy to the destination ([JumpHost]).  What [cxxopts] makes of the
    command line is the record [TerminalOptions]. *)

From S2P Require Import Prelude Sockets Crypto Packets Wire CxxText Backed Connection ClientConnection UnixSockets.
From S2P Require Import TcpSockets SocketPromises Forwarding Router TerminalMessages FifoPath Loops UserTerminal ClientStart Jumphost SshSetup.
From S2P Require Import SshOptions LogFiles.

(** An option that is not given is [None]. *)
Record TerminalOptions := mkTermOpts {
  o_idpasskey : option str;
  o_idpasskeyfile : option str;
  o_jump : bool;
  o_dsthost : str;
  o_dstport : Z;
  o_serverfifo : str;
  o_logdir : str;
  o_logtostdout : bool;
}.

(** The standard streams and files, and [daemon(3)]. *)
Class Stdio (W : Type) := {
  (** [select] on the standard input for at most a second: whether it is readable *)
  in_select : M W (io_result bool);
  (** [getline(cin, s)]; [None] when it fails *)
  in_getline : M W (option str);
  (** the text of a file, nothing when it cannot be opened *)
  file_text : str → M W str;
  (** a line on the standard output *)
  out_line : str → M W unit;
  daemonize : M W (io_result unit);
}.

(** The destructor of [cin], the exit handlers and the log are not part of [exit(1)]: it is
    [None] below. *)
Module EtTerminal.
Section EtTerminal.
Context {W : Type} `{!Entropy W} `{!Stdio W} `{!Poll W}.

(** The call is repeated when it is interrupted. *)
Fixpoint wait_stdin (fuel : nat) : M W bool :=
  match fuel with
  | O => stop OutOfFuel
  | S fuel' =>
    selectResult ← in_select;
    match selectResult with
    | IoOk ready => mret ready
    | IoErr e => if e =? EINTR then wait_stdin fuel' else fatal "Error"
    end
  end.

(** A new client connects to a new server: its key is thrown away. *)
Definition regenerate (idpasskey : str) : M W str :=
  if decide (take 3 idpasskey = lit "XXX") then
    passkey ← genRandomAlphaNum 32;
    id ← genRandomAlphaNum 16;
    mret (id ++ lit "/" ++ passkey)
  else mret idpasskey.

(** The line [id/passkey_TERM]. *)
Definition key_of_line (stdinData : str) : M W str :=
  match split stdinData "_"%char with
  | [key; term] =>
    idpasskey ← regenerate key;
    _ ← poll_setenv (lit "TERM") (c_str term);
    mret idpasskey
  | _ => fatal "Invalid number of tokens"
  end.

(** The variable that holds the key of an option, or of its file, is declared in the
    branch and hides the one that is used later, which stays empty. *)
Definition read_key (fuel : nat) (o : TerminalOptions) : M W (option str) :=
  match o_idpasskey o, o_idpasskeyfile o with
  | None, None =>
    ready ← wait_stdin fuel;
    if ready : bool then
      stdinData ← in_getline;
      match stdinData with
      | None => mret None
      | Some stdinData => key ← key_of_line stdinData; mret (Some key)
      end
    else mret None
  | given, file =>
    hidden ← match file with
             | Some f => buffer ← file_text (c_str f); mret (rtrim buffer)
             | None => mret (default [] given)
             end;
    mret (Some [])
  end.

Definition create_session_leader : M W unit :=
  r ← daemonize;
  match r with IoOk _ => mret tt | IoErr _ => fatal "Error creating daemon" end.

Definition print_key (idpasskey : str) : M W unit := out_line (lit "IDPASSKEY:" ++ idpasskey).
End EtTerminal.

(** ** [main] *)

Section Main.
Context {W : Type} `{!Entropy W} `{!Stdio W} `{!Kernel W} `{!Poll W} `{!UserTerminal W} `{!FifoOs W} `{!LogOs W}.
Context `{!SecretBox} `{!Proto SequenceHeader} `{!Proto CatchupBuffer}.
Context `{!Proto ConnectRequest} `{!Proto ConnectResponse} `{!Proto TerminalUserInfo}.
Context `{!Proto InitialPayload} `{!Proto InitialResponse}.
Context `{!Proto TerminalBuffer} `{!Proto TerminalInfo} `{!Proto TermInit}.
(** The sockets of the jump host's client, and the pipe of the router. *)
Context (tcp pipe : SocketHandler W).
Variables (fuel attempts : nat) (env : process_env) (uid gid : Z).
(** What is known of the user, and the settings that easylogging starts from. *)
Variables (user : Env) (setToDefault : Configurations).
(** What other threads do to the proxy, and to its connection. *)
Variable others : list ((Client.ClientConnection → Client.ClientConnection) * (Client.ClientConnection → Client.ClientConnection)).
Variable finish : Client.ClientConnection → option Client.ClientConnection.
Variable between : nat → Client.ClientConnection → Client.ClientConnection.
Variable jump_env : list (JumpHost.UserJumphostHandler → JumpHost.UserJumphostHandler).
Variable term_env : list bool.

(** The pipe that the option names. *)
Definition server_fifo (o : TerminalOptions) : M W Fifo.ServerFifoPath :=
  match o_serverfifo o with
  | [] => mret (Fifo.mkFifo None)
  | path => r ← with_new (Fifo.mkFifo None) (Fifo.setPathOverride path); mret r.2
  end.

Definition start_log (o : TerminalOptions) (filenamePrefix : str) : M W unit :=
  Logs.log_to_files (o_logdir o) filenamePrefix (o_logtostdout o) false false Logs.MAX_LOG_SIZE
    (Logs.setupLogHandler setToDefault).

Definition run_jumphost (o : TerminalOptions) (p : Fifo.ServerFifoPath) (idpasskey : str) : M W unit :=
  _ ← print_key idpasskey;
  _ ← create_session_leader;
  fd ← JumpHost.UserJumphostHandler_new pipe env (Fifo.getEndpointForConnect p);
  JumpHost.run tcp pipe fuel others finish attempts jump_env between uid gid idpasskey
    (mkEndpoint (Some (o_dsthost o)) (Some (o_dstport o))) fd.

(** The handler lives as long as the program. *)
Definition run_terminal (p : Fifo.ServerFifoPath) (idpasskey : str) : M W unit :=
  uth ← UserTerm.UserTerminalHandler_new (H0 := pipe) fuel env uid gid true (Fifo.getEndpointForConnect p) idpasskey;
  _ ← print_key idpasskey;
  _ ← create_session_leader;
  scoped uth (UserTerm.run (H0 := pipe) fuel attempts term_env).

(** [false] is [exit(1)]. *)
Definition main (o : TerminalOptions) : M W bool :=
  _ ← Logs.setupStdoutLogger setToDefault;
  p ← server_fifo o;
  key ← read_key fuel o;
  match key with
  | None => mret false
  | Some idpasskey =>
    match split idpasskey "/"%char with
    | [] => undefined "split(idpasskey, '/')[0]"
    | id :: _ =>
      username ← lift (local_username user);
      let name := username ++ lit "-" ++ id in
      _ ← (if o_jump o then _ ← start_log o (lit "etjump-" ++ name); run_jumphost o p idpasskey
           else _ ← start_log o (lit "etterminal-" ++ name); run_terminal p idpasskey);
      mret true
    end
  end.
(** C22. A key that is given as an option, or as the name of a file, is lost: [main] keeps it
    in a variable that hides the one it goes on with, and then takes the first item of the
    empty text apart, which is not there. *)
Theorem option_key_lost o k :
  o_serverfifo o = [] → is_Some (o_idpasskey o) ∨ is_Some (o_idpasskeyfile o) →
  (∀ f k1, ∃ t k2, file_text f k1 = (Ok t, k2)) →
  (∃ k1, Logs.setupStdoutLogger setToDefault k = (Ok tt, k1)) →
  ∃ k', main o k = (Stop (UB "split(idpasskey, '/')[0]"), k').
Proof.
  intros Hfifo Hgiven Hfile [k1 Hlog]. unfold main, server_fifo. rewrite (M_bind_ok _ _ _ _ _ Hlog), Hfifo, run_ret.
  assert (∃ k', read_key fuel o k1 = (Ok (Some []), k')) as [k' Hkey].
  { unfold read_key. destruct (o_idpasskey o) as [s|], (o_idpasskeyfile o) as [f|].
    - rewrite M_bind_stop_inv. rewrite M_bind_stop_inv.
      destruct (Hfile (c_str f) k1) as (t & k2 & ->). by eexists.
    - by eexists.
    - rewrite M_bind_stop_inv. rewrite M_bind_stop_inv.
      destruct (Hfile (c_str f) k1) as (t & k2 & ->). by eexists.
    - by destruct Hgiven as [[? [=]]|[? [=]]]. }
  exists k'. by rewrite (M_bind_ok _ _ _ _ _ Hkey).
Qed.
End Main.
End EtTerminal.

(** ** A concrete run *)

Section Witnesses.
#[local] Existing Instance example_secretbox.
#[local] Instance e_request : Proto ConnectRequest := countable_proto (mkConnectRequest None None).
#[local] Instance e_response : Proto ConnectResponse := countable_proto (mkConnectResponse None None).
#[local] Instance e_info : Proto TerminalUserInfo := countable_proto (mkTui None None None None None).
#[local] Instance e_payload : Proto InitialPayload :=
  {| serialize _ := None; parse _ := None; proto_default := mkPayload None [] ∅ |}.
#[local] Instance e_initial : Proto InitialResponse :=
  {| serialize _ := None; parse _ := None; proto_default := mkResponse None |}.
#[local] Instance e_init : Proto TermInit := countable_proto (mkTermInit [] []).
#[export] Instance WireEntropy : Entropy Wire := {|
  randombytes_uniform n := (r ← sh_rand; mret (r mod n));
|}.
#[export] Instance WireStdio : Stdio Wire := {|
  in_select := mret (IoOk true);
  in_getline := mret (Some (lit "XXXd/abc_xterm"));
  file_text f := mret (lit "the key");
  out_line s := modify (λ w, with_out w 1 (wire_out w 1 ++ s ++ [LF]));
  daemonize := mret (IoOk tt);
|}.
#[local] Instance WireFifo : FifoOs Wire := {|
  fo_umask m := mret 0;
  fo_mkdir d m := mret (IoOk tt);
  fo_stat d := mret (IoErr 2);
|}.

#[local] Instance WireLogs : LogOs Wire := {|
  lo_now := mret ([], 0); lo_getpid := mret 1; lo_create_directories p := mret (IoOk tt);
  lo_open p m := mret (IoOk 3); lo_freopen p := mret true; lo_remove p := mret tt;
  lo_reconfigure l c := mret tt |}.
Definition t_user : Env :=
  SshOptions.mkEnv (PwEntry (lit "/home/me") (lit "me")) None (λ _, None) false (λ _, None) (λ _, None) (λ _, None).

Lemma option_key_lost_witness :
  ∃ k', EtTerminal.main WireSocket WireSocket 10 10 (FifoPath.mkEnv 1000 (λ _, None)) 1000 1000 t_user (mkConf ∅ []) [] (λ o, Some o)
          (λ _ o, o) [] [] (mkTermOpts (Some (lit "id/key")) None false [] 2022 [] [] false) wire0
        = (Stop (UB "split(idpasskey, '/')[0]"), k').
Proof.
  apply (EtTerminal.option_key_lost WireSocket WireSocket).
  - reflexivity.
  - left. eexists. reflexivity.
  - intros f k1. eexists _, _. reflexivity.
  - eexists. reflexivity.
Defined.
End Witnesses.
