(* ===== verification/KeyAgreement.v ===== *)
(** * The key of a session, from ssh to the terminal

    The client that runs ssh ([SshSetup]) and the program that ssh runs ([EtTerminal]) end
    up with the same id and pass key, on the server and on a jump host. *)

From S2P Require Import Prelude Sockets Wire CxxText HostParsing UnixSockets Loops SshSetup EtTerminal.
Import EtTerminal.

(** ** Keys *)

Definition is_alphanum (s : str) : Prop := Forall (λ c, c ∈ alphanum) s.

(** [id/passkey], as [etterminal] makes it. *)
Definition is_key (key id passkey : str) : Prop :=
  key = id ++ lit "/" ++ passkey ∧ length id = 16%nat ∧ length passkey = 32%nat ∧
  is_alphanum id ∧ is_alphanum passkey.

Lemma alphanum_without c s : (c ∉ alphanum) → is_alphanum s → c ∉ s.
Proof. unfold is_alphanum. rewrite list.Forall_forall. intros Hc Hs Hin. by apply Hc, Hs. Qed.

Ltac not_alphanum := by apply (bool_decide_eq_false_1 (_ ∈ alphanum)); vm_compute.

Lemma split_is_key key id passkey : is_key key id passkey → split_key key = Ok (id, passkey).
Proof.
  intros (-> & Hi & Hp & Ai & Ap). unfold split_key.
  change (id ++ lit "/" ++ passkey) with (id ++ "/"%char :: passkey).
  rewrite split_cons, split_one; [done|..].
  - apply alphanum_without; [not_alphanum|done].
  - by intros ->.
  - apply alphanum_without; [not_alphanum|done].
Qed.

Lemma length_key key id passkey : is_key key id passkey → length key = KEY_LENGTH.
Proof. intros (-> & Hi & Hp & _). rewrite !length_app, Hi, Hp. done. Qed.

Lemma key_chars key id passkey c :
  is_key key id passkey → c ∈ key → c = "/"%char ∨ c ∈ alphanum.
Proof.
  intros (-> & _ & _ & Hi & Hp). unfold is_alphanum in *. rewrite list.Forall_forall in Hi, Hp.
  rewrite !elem_of_app. intros [Hc|[Hc|Hc]]; [right; auto| |right; auto].
  left. by apply list_elem_of_singleton in Hc.
Qed.

Section Random.
Context {W : Type} `{!Entropy W}.

Lemma random_alphanum n k :
  finishes (genRandomAlphaNum n) (λ s _, length s = n ∧ is_alphanum s) k.
Proof.
  revert k. induction n as [|n IH]; intros k; cbn [genRandomAlphaNum].
  - apply finishes_ret. split; [done|constructor].
  - apply finishes_bind. intros i k1 _. destruct (alphanum !! Z.to_nat i) as [c|] eqn:Hc; [|apply finishes_stop].
    apply finishes_bind. intros s k2 Hs. destruct (IH _ _ _ Hs) as [Hl Ha]. apply finishes_ret.
    split; [cbn; by rewrite Hl|]. constructor; [|done]. by apply list_elem_of_lookup_2 in Hc.
Qed.
End Random.

(** ** What the answers say *)

Lemma find_prefix pat s : pat `prefix_of` s → find pat s = Some O.
Proof. intros Hp. destruct s; cbn [find]; by rewrite decide_True. Qed.

(** The first occurrence of a pattern whose last character is not in front of it. *)
Lemma find_after noise pat c rest :
  (c ∉ noise ++ pat) → find (pat ++ [c]) (noise ++ (pat ++ [c]) ++ rest) = Some (length noise).
Proof.
  induction noise as [|x noise IH]; intros Hc.
  - apply find_prefix. by eexists.
  - cbn [app find]. rewrite decide_False, IH; [done|by apply not_elem_of_cons in Hc as [_ ?]|].
    intros [t Ht]. apply Hc. cbn [app].
    assert ((x :: noise ++ (pat ++ [c]) ++ rest) !! length pat = Some c) as Hl.
    { rewrite Ht, <-app_assoc, lookup_app_r by done. by rewrite Nat.sub_diag. }
    change (x :: noise ++ (pat ++ [c]) ++ rest) with ((x :: noise) ++ (pat ++ [c]) ++ rest) in Hl.
    rewrite !app_assoc, <-!(app_assoc _ [c]) in Hl.
    rewrite lookup_app_l in Hl by (rewrite length_app; cbn; lia).
    change (x :: noise ++ pat) with ((x :: noise) ++ pat). by eapply list_elem_of_lookup_2.
Qed.

(** What [etterminal] prints, behind what the login shell prints. *)
Definition prints (o key : str) : Prop :=
  ∃ noise rest, (":"%char ∉ noise) ∧ o = noise ++ lit "IDPASSKEY:" ++ key ++ LF :: rest.

Lemma read_reply_prints o key id passkey :
  is_key key id passkey → prints o key → read_reply o = Ok (id, passkey).
Proof.
  intros Hk (noise & rest & Hn & ->). unfold read_reply.
  change (lit "IDPASSKEY:") with (lit "IDPASSKEY" ++ [":"%char]).
  rewrite find_after; [|rewrite elem_of_app; intros [?|Hin]; [done|]; revert Hin;
    by apply (bool_decide_eq_false_1 (_ ∈ _)); vm_compute].
  destruct (noise ++ (lit "IDPASSKEY" ++ [":"%char]) ++ key ++ LF :: rest) as [|c o] eqn:Ho;
    [by destruct noise|]. rewrite <-Ho.
  rewrite <-drop_drop, drop_app_length. change 10%nat with (length (lit "IDPASSKEY" ++ [":"%char])).
  rewrite drop_app_length, <-(length_key _ _ _ Hk), take_app_length. by apply split_is_key.
Qed.

Lemma rtrim_key s t : Forall (λ c, c ∉ [" "%char; LF; CR; TAB]) s → ∃ t', rtrim (s ++ t) = s ++ t'.
Proof.
  induction s as [|c s IH]; intros Hs; [by exists (rtrim t)|].
  apply Forall_cons_1 in Hs as [Hc [t' Ht]%IH]. cbn [app rtrim]. rewrite Ht.
  destruct s as [|x s]; [|by exists t']. cbn [app]. destruct t' as [|y t'].
  - rewrite decide_False by done. by exists [].
  - by exists (y :: t').
Qed.

Lemma key_not_space key id passkey :
  is_key key id passkey → Forall (λ c, c ∉ [" "%char; LF; CR; TAB]) key.
Proof.
  intros Hk. rewrite list.Forall_forall. intros c Hc Hs.
  assert (Forall (λ c, c ≠ "/"%char ∧ c ∉ alphanum) [" "%char; LF; CR; TAB]) as Hall.
  { apply (bool_decide_eq_true_1 (Forall _ _)). by vm_compute. }
  rewrite list.Forall_forall in Hall. destruct (Hall _ Hs), (key_chars _ _ _ _ Hk Hc); done.
Qed.

Lemma split_second delim a b s :
  delim ∉ a → (delim ∉ b) → b ≠ [] → ∃ t l, split (a ++ delim :: b ++ s) delim = a :: (b ++ t) :: l.
Proof.
  intros Ha Hb Hne. rewrite split_cons by done. unfold split.
  rewrite split_from_stretch, app_nil_l by done. revert b Hb Hne.
  induction s as [|c s IH]; intros b Hb Hne.
  - exists [], []. rewrite app_nil_r. cbn. by destruct b.
  - cbn [split_from]. case_decide as Hc.
    + exists [], (split_from delim [] s). by rewrite app_nil_r.
    + destruct (IH (b ++ [c])) as (t & l & ->); [set_solver|by destruct b|].
      exists (c :: t), l. by rewrite <-app_assoc.
Qed.

Lemma read_jump_reply_prints o key id passkey :
  is_key key id passkey → prints o key → read_jump_reply o = Ok (id, passkey).
Proof.
  intros Hk (noise & rest & Hn & ->). unfold read_jump_reply.
  assert (noise ++ lit "IDPASSKEY:" ++ key ++ LF :: rest =
          (noise ++ lit "IDPASSKEY") ++ ":"%char :: key ++ LF :: rest) as ->
    by by rewrite <-app_assoc.
  destruct (split_second ":"%char (noise ++ lit "IDPASSKEY") key (LF :: rest)) as (t & l & ->).
  - rewrite elem_of_app; intros [?|Hin]; [done|]; revert Hin;
      by apply (bool_decide_eq_false_1 (_ ∈ _)); vm_compute.
  - intros [?|?]%(key_chars _ _ _ _ Hk); [done|]. by apply (bool_decide_eq_false_1 (":"%char ∈ alphanum)).
  - intros ->. by apply length_key in Hk.
  - destruct (rtrim_key key t (key_not_space _ _ _ Hk)) as [t' ->].
    rewrite <-(length_key _ _ _ Hk), take_app_length. by apply split_is_key.
Qed.

(** ** What [etterminal] makes of a line *)

Section Line.
Context {W : Type} `{!Entropy W} `{!Poll W}.

Lemma key_of_line_key raw term k :
  "_"%char ∉ raw →
  finishes (key_of_line (raw ++ "_"%char :: term))
    (λ key _, if decide (take 3 raw = lit "XXX") then ∃ id passkey, is_key key id passkey else key = raw) k.
Proof.
  intros Hraw. unfold key_of_line. rewrite split_cons by done.
  destruct (split term "_"%char) as [|t [|]]; try apply finishes_stop.
  apply finishes_bind. intros key k1 Hkey. apply finishes_bind. intros [] k2 _. apply finishes_ret.
  revert Hkey. unfold regenerate. case_decide; [|by intros [= <- _]].
  intros Hrun. refine ((_ : finishes _ (λ key _, ∃ id passkey, is_key key id passkey) k) _ _ Hrun).
  apply finishes_bind. intros passkey k3 [Hp Ap]%random_alphanum.
  apply finishes_bind. intros id k4 [Hi Ai]%random_alphanum. apply finishes_ret.
  by exists id, passkey.
Qed.
End Line.

(** The line that a script gives to [etterminal]: the text between its first two quotes. *)
Definition echoed (script : str) : option str := split script "'"%char !! 1%nat.

Definition key_line (id passkey term : str) : str := id ++ lit "/" ++ passkey ++ "_"%char :: term.

Lemma echoed_genCommand passkey id term user kill path options :
  "'"%char ∉ user → "'"%char ∉ key_line id passkey term →
  echoed (genCommand passkey id term user kill path options) = Some (key_line id passkey term).
Proof.
  intros Hu Hl. unfold echoed, genCommand.
  set (tl := (match path with [] => ETTERMINAL_BIN | _ => path end) ++ lit " " ++ options).
  set (pre := if kill then _ else _).
  assert (pre ++ lit "echo '" ++ id ++ lit "/" ++ passkey ++ lit "_" ++ term ++ lit "' | " ++ tl =
    (pre ++ lit "echo ") ++ "'"%char :: key_line id passkey term ++ "'"%char :: lit " | " ++ tl) as ->.
  { unfold key_line. rewrite <-!app_assoc. reflexivity. }
  rewrite split_cons, split_cons; [done..|].
  assert (∀ s : str, bool_decide ("'"%char ∈ s) = false → "'"%char ∉ s) as Hb
    by (intros s; apply bool_decide_eq_false_1).
  rewrite elem_of_app. intros [Hin|Hin]; revert Hin; [|by apply Hb]. subst pre.
  destruct kill; [|by apply not_elem_of_nil].
  rewrite !elem_of_app. intros [Hin|[Hin|Hin]]; [|done|]; revert Hin; by apply Hb.
Qed.

(** ** The agreement *)

Section Agreement.
Context {W : Type} `{!Entropy W} `{!Subprocess W}.
(** The machines that ssh reaches. *)
Context {R : Type} `{!Entropy R} `{!Poll R}.

(** An [etterminal] that is fed by a script goes by [key]. *)
Definition started (script key : str) : Prop :=
  ∃ line k k', echoed script = Some line ∧ key_of_line line k = (Ok key, k').

(** The key [p] is the one of the [etterminal] that the script has started, if [o] is what that
    one has printed, behind what else the login on the other machine prints (without a colon). *)
Definition agrees (script o : str) (p : str * str) : Prop :=
  ∀ key, started script key → prints o key → is_key key p.1 p.2.

Lemma started_key script key id passkey term user kill path options :
  script = genCommand passkey id term user kill path options →
  "'"%char ∉ user → "'"%char ∉ term → ("'"%char ∉ id) → ("'"%char ∉ passkey) →
  ("_"%char ∉ id) → ("_"%char ∉ passkey) → (3 ≤ length id)%nat →
  started script key →
  if decide (take 3 id = lit "XXX") then ∃ id' passkey', is_key key id' passkey'
  else key = id ++ lit "/" ++ passkey.
Proof.
  intros -> Hu Ht Hi Hp Ui Up Hl (line & k & k' & Hline & Hkey).
  rewrite echoed_genCommand in Hline; [|done|].
  - injection Hline as <-. unfold key_line in Hkey.
    assert (id ++ lit "/" ++ passkey ++ "_"%char :: term = (id ++ lit "/" ++ passkey) ++ "_"%char :: term) as E
      by by rewrite <-!app_assoc.
    rewrite E in Hkey. apply key_of_line_key in Hkey.
    + rewrite take_app_le in Hkey by done. exact Hkey.
    + rewrite !elem_of_app. intros [?|[Hin|?]]; [done| |done]. by apply list_elem_of_singleton in Hin.
  - unfold key_line. rewrite !elem_of_app, elem_of_cons. intros [?|[Hin|[?|[?|?]]]]; try done.
    by apply list_elem_of_singleton in Hin.
Qed.

Lemma last_ssh_args user host_alias jumphost ssh_options script :
  list.last (ssh_args user host_alias jumphost ssh_options script) = Some script.
Proof. unfold ssh_args. by rewrite !app_assoc, last_snoc. Qed.

Lemma last_jump_ssh_args jumphost ssh_options script :
  list.last (jump_ssh_args jumphost ssh_options script) = Some script.
Proof.
  unfold jump_ssh_args. change ([?a; ?b]) with ([a] ++ [b]). rewrite !app_assoc. apply last_snoc.
Qed.

Variable getenv : str → option str.
Variables (user jumphost : str) (kill : bool).
Let term : str := default (lit "xterm-256color") (getenv (lit "TERM")).
Hypothesis user_plain : "'"%char ∉ user.
Hypothesis term_plain : "'"%char ∉ term.

Ltac no_quote Hs := apply alphanum_without; [not_alphanum|exact Hs].

(** What the id of a client that wants the server's key begins with. *)
Definition made_up (id passkey : str) : str * str := (lit "XXX" ++ drop 3 id, passkey).

Lemma made_up_key id passkey (k k1 k2 : W) :
  genRandomAlphaNum (W := W) 32 k = (Ok passkey, k1) → genRandomAlphaNum (W := W) 16 k1 = (Ok id, k2) →
  ∃ key, is_key key (made_up id passkey).1 (made_up id passkey).2.
Proof.
  intros [Hp Ap]%random_alphanum [Hi Ai]%random_alphanum. eexists. split; [done|]. cbn [made_up fst snd].
  split; [rewrite length_app, length_drop, Hi; done|]. split; [done|]. split; [|done].
  apply Forall_app. split; [apply (bool_decide_eq_true_1 (Forall _ _)); by vm_compute|by apply Forall_drop].
Qed.

(** A script with a key in it starts an [etterminal] with a key: a new one for an id that
    begins with XXX, and otherwise the one in the script. *)
Lemma script_key p key0 options path key :
  is_key key0 p.1 p.2 → started (genCommand p.2 p.1 term user kill path options) key →
  (∃ id passkey, is_key key id passkey) ∧ (take 3 p.1 ≠ lit "XXX" → key = key0).
Proof.
  intros Hk Hst. pose proof Hk as (E0 & Hi & Hp & Ai & Ap).
  pose proof (started_key _ key p.1 p.2 term user kill path options eq_refl user_plain term_plain
    ltac:(by no_quote Ai) ltac:(by no_quote Ap) ltac:(by no_quote Ai) ltac:(by no_quote Ap) ltac:(lia) Hst) as Hkey.
  case_decide; [by split|]. split; [|by rewrite Hkey, E0]. exists p.1, p.2. by rewrite Hkey, <-E0.
Qed.

Lemma setup_destination_run host_alias vlevel cmd_prefix serverFifo ssh_options k p k' :
  setup_destination term user host_alias jumphost kill vlevel cmd_prefix serverFifo ssh_options k = (Ok p, k') →
  ∃ passkey k1 id k2 o,
    genRandomAlphaNum 32 k = (Ok passkey, k1) ∧ genRandomAlphaNum 16 k1 = (Ok id, k2) ∧
    let script := genCommand passkey (made_up id passkey).1 term user kill cmd_prefix (cmd_options vlevel serverFifo) in
    SubprocessToStringInteractive (lit "ssh") (ssh_args user host_alias jumphost ssh_options script) k2 = (Ok o, k') ∧
    agrees script o p ∧ (find (lit "IDPASSKEY:") o = None → p = made_up id passkey).
Proof.
  unfold setup_destination. intros (passkey & k1 & E1 & E)%M_bind_inv.
  apply M_bind_inv in E as (id & k2 & E2 & E). cbv zeta in E. apply M_bind_inv in E as (o & k3 & E3 & E).
  assert (k3 = k') as ->.
  { revert E. unfold catch_runtime, lift. by destruct (read_reply o) as [q|[[[] why]| | |]]; intros [= _ <-]. }
  exists passkey, k1, id, k2, o. do 3 (split; [done|]). split.
  - intros key Hst Hpr. destruct (made_up_key _ _ _ _ _ E1 E2) as [key0 Hk0].
    destruct (script_key (made_up id passkey) key0 _ _ key Hk0 Hst) as [(id' & passkey' & Hk) _].
    unfold catch_runtime, lift in E. rewrite (read_reply_prints _ _ _ _ Hk Hpr) in E. by injection E as <-.
  - intros Hnone. unfold catch_runtime, lift, read_reply in E. rewrite Hnone in E.
    by destruct o; injection E as <-.
Qed.

Lemma setup_jumphost_run host port jServerFifo vlevel cmd_prefix ssh_options key k p k' :
  setup_jumphost term user host port jumphost jServerFifo kill vlevel cmd_prefix ssh_options key k = (Ok p, k') →
  ∃ o, let script := genCommand key.2 key.1 term user kill cmd_prefix (jump_cmdoptions vlevel jServerFifo host port) in
    SubprocessToStringInteractive (lit "ssh") (jump_ssh_args jumphost ssh_options script) k = (Ok o, k') ∧ o ≠ [] ∧
    ∀ key0, is_key key0 key.1 key.2 →
      agrees script o p ∧ (take 3 key.1 ≠ lit "XXX" → ∀ key2, started script key2 → key2 = key0).
Proof.
  unfold setup_jumphost. cbv zeta. intros (o & k1 & E1 & E)%M_bind_inv. destruct o as [|c o]; [done|].
  assert (k1 = k') as ->.
  { revert E. unfold catch_runtime, lift. by destruct (read_jump_reply _) as [q|[[[] why]| | |]]; intros [= _ <-]. }
  exists (c :: o). do 2 (split; [done|]). intros key0 Hk0. split.
  - intros key2 Hst Hpr. destruct (script_key key key0 _ _ key2 Hk0 Hst) as [(id' & passkey' & Hk) _].
    unfold catch_runtime, lift in E. rewrite (read_jump_reply_prints _ _ _ _ Hk Hpr) in E. by injection E as <-.
  - intros Hx key2 Hst. by apply (script_key key key0 _ _ key2 Hk0 Hst).
Qed.

(** C19. Client and server agree on the key.  When [SetupSsh] returns, it has drawn an id and a
    pass key, and has run ssh with a script that feeds them to an [etterminal] on the
    destination.  If what that run of ssh has given back is what this [etterminal] has
    printed (behind other output without a colon), then the id and the pass key go on as those
    of this [etterminal], which has made them itself; if there is no [IDPASSKEY:] in it (ssh
    or the login has failed), the client goes on with the ones it has drawn, which nobody else
    has.  Without a jump host these are the result.  With one, [SetupSsh] has run ssh
    again, with a script that feeds them to an [etterminal] on the jump host, and the
    result is the key of that one, if that run has given back what it has printed; it is the
    same key, unless its id begins with XXX, which stands for a client without a key. *)
Theorem setup_agrees host host_alias port jServerFifo vlevel cmd_prefix serverFifo ssh_options k p k' :
  SetupSsh getenv user host host_alias port jumphost jServerFifo kill vlevel cmd_prefix serverFifo ssh_options k
    = (Ok p, k') →
  ∃ passkey k1 id k2 o k3 p1,
    genRandomAlphaNum 32 k = (Ok passkey, k1) ∧ genRandomAlphaNum 16 k1 = (Ok id, k2) ∧
    (let script := genCommand passkey (made_up id passkey).1 term user kill cmd_prefix (cmd_options vlevel serverFifo) in
     SubprocessToStringInteractive (lit "ssh") (ssh_args user host_alias jumphost ssh_options script) k2 = (Ok o, k3) ∧
     agrees script o p1 ∧ (find (lit "IDPASSKEY:") o = None → p1 = made_up id passkey)) ∧
    match jumphost with
    | [] => p = p1 ∧ k' = k3
    | _ => ∃ o2,
        let script := genCommand p1.2 p1.1 term user kill cmd_prefix (jump_cmdoptions vlevel jServerFifo host port) in
        SubprocessToStringInteractive (lit "ssh") (jump_ssh_args jumphost ssh_options script) k3 = (Ok o2, k') ∧ o2 ≠ [] ∧
        ∀ key, is_key key p1.1 p1.2 →
          agrees script o2 p ∧ (take 3 p1.1 ≠ lit "XXX" → ∀ key2, started script key2 → key2 = key)
    end.
Proof.
  unfold SetupSsh. fold term. cbv zeta.
  intros (p1 & k3 & (passkey & k1 & id & k2 & o & E1 & E2 & E3)%setup_destination_run & E)%M_bind_inv.
  exists passkey, k1, id, k2, o, k3, p1. do 3 (split; [done|]).
  apply M_bind_inv in E as (q & k4 & E4 & E).
  assert (q = p ∧ k4 = k') as [-> ->] by (destruct q as [[|c i] [|d r]]; try done; by injection E).
  pose proof (setup_jumphost_run host port jServerFifo vlevel cmd_prefix ssh_options p1 k3 p k') as Hjump.
  destruct jumphost as [|c j]; [by injection E4 as -> ->|]. by apply Hjump.
Qed.
End Agreement.

(** [etterminal] refuses a [TERM] with an underscore in it, and an empty one. *)
Lemma term_underscore_aborts {W} `{!Entropy W} `{!Poll W} raw a b k :
  "_"%char ∉ raw → ("_"%char ∉ a) → b ≠ [] →
  key_of_line (W := W) (raw ++ "_"%char :: a ++ "_"%char :: b) k = (Stop (Fatal "Invalid number of tokens"), k) ∧
  key_of_line (W := W) (raw ++ ["_"%char]) k = (Stop (Fatal "Invalid number of tokens"), k).
Proof.
  intros Hr Ha Hb. unfold key_of_line. rewrite !split_cons by done. split; [|done].
  pose proof (split_ne "_"%char b Hb). by destruct (split b "_"%char).
Qed.

(** ** A concrete run *)

Section Witnesses.
(** ssh runs the script on another machine, which greets. *)
#[local] Instance z_ssh : Subprocess Wire := {|
  SubprocessToStringInteractive c args :=
    match list.last args with
    | Some script =>
      match echoed script with
      | Some line =>
        key ← key_of_line line;
        mret (lit "Welcome" ++ [LF] ++ lit "IDPASSKEY:" ++ key ++ [LF])
      | None => throw RuntimeError "no line"
      end
    | None => throw RuntimeError "no script"
    end;
|}.

Definition z_wire : Wire := with_rands wire0 (Z.of_nat <$> seq 0 200).
Definition z_setup := SetupSsh (λ _, None) (lit "me") (lit "10.0.0.1") (lit "dst") 2022 (lit "jump:22")
  [] false 0 [] [] [] z_wire.
Definition z_key : str * str := match z_setup.1 with Ok p => p | Stop _ => ([], []) end.

Definition z_script (options : str) (p : str * str) : str :=
  genCommand p.2 p.1 (lit "xterm-256color") (lit "me") false [] options.

Lemma setup_agrees_witness :
  z_key.1 = lit "IJKLMNOPQRSTUVWX" ∧
  ∃ passkey id o p1 o2,
    agrees (R := Wire) (z_script (cmd_options 0 []) (made_up id passkey)) o p1 ∧
    ∀ key, is_key key p1.1 p1.2 →
      agrees (R := Wire) (z_script (jump_cmdoptions 0 [] (lit "10.0.0.1") 2022) p1) o2 z_key.
Proof.
  split; [vm_compute; reflexivity|].
  destruct (setup_agrees (R := Wire) (λ _, None) (lit "me") (lit "jump:22") false) with
    (host := lit "10.0.0.1") (host_alias := lit "dst") (port := 2022) (jServerFifo := @nil ascii) (vlevel := 0)
    (cmd_prefix := @nil ascii) (serverFifo := @nil ascii) (ssh_options := @nil str)
    (k := z_wire) (p := z_key) (k' := z_setup.2)
    as (passkey & k1 & id & k2 & o & k3 & p1 & _ & _ & (_ & H1 & _) & o2 & _ & _ & H2).
  - apply (bool_decide_eq_false_1 (_ ∈ _)). vm_compute. reflexivity.
  - apply (bool_decide_eq_false_1 (_ ∈ _)). vm_compute. reflexivity.
  - vm_compute. reflexivity.
  - exists passkey, id, o, p1, o2. split; [exact H1|]. intros key Hk. exact (proj1 (H2 key Hk)).
Defined.
End Witnesses.
