(* ===== verification/EtServer.v ===== *)
(** * [terminal/TerminalServerMain]: the program [etserver]

    Its configuration, from the command line and a file, and the server it makes.  What
    [cxxopts] makes of the command line is the record [ServerOptions], what SimpleIni makes
    of the file is the record [Ini]. *)

From S2P Require Import Prelude Sockets Wire CxxText Backed Connection ServerConnection UnixSockets TcpSockets SocketPromises.
From S2P Require Import Forwarding Router FifoPath Loops TerminalServer Processes.
From S2P Require Import Telemetry LogFiles TelemetryStart.

(** An option that is not given is [None]. *)
Record ServerOptions := mkServerOpts {
  so_port : option Z;
  so_bindip : option str;
  so_daemon : bool;
  so_cfgfile : option str;
  so_logdir : option str;
  so_logtostdout : bool;
  so_pidfile : str;
  so_verbose : option Z;
  so_serverfifo : option str;
  so_telemetry : option bool;
}.

Module EtServer.

Record ServerConfig := mkConfig {
  port : Z;
  bindIp : str;
  enableTelemetry : bool;
  logDirectory : str;
  maxlogsize : str;
  verbose : Z;
  silent : bool;
  serverFifo : Fifo.ServerFifoPath;
}.

(** The file says nothing, or something that is not empty. *)
Definition nonempty (v : option str) : option str :=
  match v with Some [] => None | _ => v end.

Definition is_nonzero (v : option str) : bool :=
  match v with Some s => negb (atoi s =? 0) | None => false end.

Section EtServer.
Variable tmp : str.
Variable o : ServerOptions.

(** Before the file is read. *)
Definition initial_config : ServerConfig :=
  mkConfig 0 [] false tmp Logs.MAX_LOG_SIZE (default 0 (so_verbose o)) false (Fifo.mkFifo None).

Definition file_config (ini : Ini) (c : ServerConfig) : outcome ServerConfig :=
  port ← match so_port o, GetValue ini (lit "Networking") (lit "port") with
         | None, Some portString => stoi portString
         | _, _ => Ok (port c)
         end;
  let bindIp := match so_bindip o, GetValue ini (lit "Networking") (lit "bind_ip") with
                | None, Some ip => ip
                | _, _ => bindIp c
                end in
  let verbose := match so_verbose o, GetValue ini (lit "Debug") (lit "verbose") with
                 | Some v, _ => v
                 | None, Some vlevel => atoi vlevel
                 | None, None => verbose c
                 end in
  let fifo := match nonempty (GetValue ini (lit "Debug") (lit "serverfifo")) with
              | Some p => Fifo.mkFifo (Some p)
              | None => serverFifo c
              end in
  let logsize := GetValue ini (lit "Debug") (lit "logsize") in
  Ok (mkConfig port bindIp
        (GetBoolValue ini (lit "Debug") (lit "telemetry") false)
        (default (logDirectory c) (GetValue ini (lit "Debug") (lit "logdirectory")))
        (if is_nonzero logsize then default [] logsize else maxlogsize c)
        verbose
        (is_nonzero (GetValue ini (lit "Debug") (lit "silent")))
        fifo).

(** The options come after the file; the port 0 stands for 2022. *)
Definition final_config (c : ServerConfig) : ServerConfig :=
  let p := default (port c) (so_port o) in
  mkConfig (if p =? 0 then 2022 else p)
    (default (bindIp c) (so_bindip o))
    (default (enableTelemetry c) (so_telemetry o))
    (default (logDirectory c) (so_logdir o))
    (maxlogsize c) (verbose c) (silent c)
    (match nonempty (so_serverfifo o) with Some p => Fifo.mkFifo (Some p) | None => serverFifo c end).

Section Run.
Context {W : Type} `{!Process W} `{!IniFiles W} `{!FifoOs W} `{!TempFiles W}.
Context `{!LogOs W} `{!TelemetryOs W} `{!Telemetry W}.
Context (sock : handler_kind → SocketHandler W) (term_sock : SocketHandler W).
Variables (env : process_env) (uid gid : Z).
(** The settings that easylogging starts from; where the telemetry has its file; the build. *)
Variables (setToDefault : Configurations) (configHome : str) (rebuild : str → str) (USE_SENTRY : bool).

Definition read_config : M W ServerConfig :=
  c ← match so_cfgfile o with
      | None => mret initial_config
      | Some cfgfilename =>
        ini ← ini_LoadFile (c_str cfgfilename);
        match ini with
        | Some ini => lift (file_config ini initial_config)
        | None => fatal "Invalid config file"
        end
      end;
  mret (final_config c).

(** The endpoint that clients connect to. *)
Definition server_endpoint (c : ServerConfig) : SocketEndpoint :=
  mkEndpoint (match bindIp c with [] => None | ip => Some ip end) (Some (port c)).

Definition start_log (c : ServerConfig) : M W unit :=
  let defaultConf := Logs.setupLogHandler setToDefault in
  Logs.log_to_files (logDirectory c) (lit "etserver") (so_logtostdout o) (negb (so_logtostdout o)) true (maxlogsize c)
    (if silent c then Logs.setGlobally (lit "Enabled") (lit "false") defaultConf else defaultConf).

(** [main], up to [terminalServer.run()]; [None] is [exit].  The telemetry is the service of
    the process from then on. *)
Definition main : M W (option (Tele.TelemetryService * Term.TerminalServer)) :=
  _ ← Logs.setupStdoutLogger setToDefault;
  r ← (if so_daemon o then Daemon.create true (so_pidfile o) else mret (Some Daemon.CHILD));
  match r with
  | None => mret None
  | Some d =>
    if d =? -1 then fatal "Error creating daemon"
    else
      c ← read_config;
      _ ← start_log c;
      telemetry ← TeleStart.TelemetryService_new (getenv env) configHome rebuild USE_SENTRY (enableTelemetry c)
        (logDirectory c ++ lit "/.sentry-native-etserver") (lit "Server");
      _ ← Fifo.createDirectoriesIfRequired env (serverFifo c);
      path ← lift (Fifo.getPathForCreation env (serverFifo c));
      t ← Term.TerminalServer_new sock term_sock (server_endpoint c) (mkEndpoint (Some path) None) uid gid;
      mret (Some (telemetry, t))
  end.
End Run.
End EtServer.
End EtServer.
Import EtServer.

(** ** Which setting counts *)

(** What the first that speaks says. *)
Fixpoint first_of {A} (l : list (option A)) (d : A) : A :=
  match l with
  | [] => d
  | Some a :: _ => a
  | None :: l' => first_of l' d
  end.

Section Settings.
Context {W : Type} `{!IniFiles W}.
Variables (tmp : str) (o : ServerOptions).

(** The configuration of [etserver] when its file can be read: the command line counts
    before the file, the file before what is built in, an empty path of the pipe is none,
    and the port 0 stands for 2022.  A port of the file that is no number ends the program,
    when the command line has none. *)
Theorem server_settings f ini (k k1 : W) :
  so_cfgfile o = Some f → ini_LoadFile (c_str f) k = (Ok (Some ini), k1) →
  let says section key := GetValue ini (lit section) (lit key) in
  match so_port o, says "Networking" "port" with
  | None, Some text => ∀ e, stoi text = Stop e → read_config tmp o k = (Stop e, k1)
  | _, _ => True
  end ∧
  ∀ c k', read_config tmp o k = (Ok c, k') →
    (∃ p, port c = (if p =? 0 then 2022 else p) ∧
      match so_port o, says "Networking" "port" with
      | Some q, _ => p = q
      | None, Some text => stoi text = Ok p
      | None, None => p = 0
      end) ∧
    bindIp c = first_of [so_bindip o; says "Networking" "bind_ip"] [] ∧
    enableTelemetry c = first_of [so_telemetry o] (GetBoolValue ini (lit "Debug") (lit "telemetry") false) ∧
    logDirectory c = first_of [so_logdir o; says "Debug" "logdirectory"] tmp ∧
    verbose c = first_of [so_verbose o; atoi <$> says "Debug" "verbose"] 0 ∧
    Fifo.pathOverride (serverFifo c) = first_of [Some <$> nonempty (so_serverfifo o);
      Some <$> nonempty (says "Debug" "serverfifo")] None.
Proof.
  intros Hf Hini. cbv zeta. unfold read_config. rewrite Hf. split.
  - destruct (so_port o) eqn:Hp; [done|]. destruct (GetValue ini (lit "Networking") (lit "port")) as [text|] eqn:Ht; [|done].
    intros e He. rewrite !M_bind_stop_inv, Hini. unfold file_config. rewrite Hp, Ht, He. done.
  - intros c k'. rewrite !M_bind_stop_inv, Hini. unfold lift, file_config.
    destruct (match so_port o with Some _ => _ | None => _ end) as [p|e] eqn:Hp; [|done].
    cbn [mbind outcome_bind].
    assert (∀ (a b : ServerConfig) (x y : W), (Ok a, x) = (Ok b, y) → b = a) as same by congruence.
    intros ->%same. unfold final_config. cbn [port bindIp enableTelemetry logDirectory verbose serverFifo initial_config].
    split; [|split; [|split; [|split; [|split]]]].
    + destruct (so_port o) as [q|]; [by exists q|].
      exists p. split; [done|]. destruct (GetValue _ _ _); [done|by injection Hp as <-].
    + by destruct (so_bindip o), (GetValue ini (lit "Networking") (lit "bind_ip")).
    + by destruct (so_telemetry o).
    + destruct (so_logdir o); [done|]. cbn [default first_of]. by destruct (GetValue ini (lit "Debug") (lit "logdirectory")).
    + destruct (so_verbose o); [done|]. cbn [default first_of]. destruct (GetValue ini (lit "Debug") (lit "verbose")); reflexivity.
    + destruct (nonempty (so_serverfifo o)); [done|]. cbn [fmap option_fmap option_map first_of].
      by destruct (nonempty (GetValue ini (lit "Debug") (lit "serverfifo"))).
Qed.
End Settings.

Section Witness.
(** A file with a port and a verbosity, and a command line that says the verbosity too. *)
Definition x_ini : Ini :=
  mkIni (λ s k, if bool_decide (k = lit "port") then Some (lit "2323") else
                if bool_decide (k = lit "verbose") then Some (lit "9") else None) (λ _ _ d, d).
#[local] Instance unit_ini : IniFiles unit := {| ini_LoadFile p := λ k, (Ok (Some x_ini), k) |}.
Definition x_options : ServerOptions :=
  mkServerOpts None None false (Some (lit "/etc/et.cfg")) None false (lit "/run/et.pid") (Some 3) None None.
Definition x_config : ServerConfig :=
  mkConfig 2323 [] false (lit "/tmp") Logs.MAX_LOG_SIZE 3 false (Fifo.mkFifo None).

Lemma server_settings_witness :
  read_config (lit "/tmp") x_options tt = (Ok x_config, tt) ∧ port x_config = 2323 ∧ verbose x_config = 3.
Proof.
  split; [vm_compute; reflexivity|].
  destruct (server_settings (lit "/tmp") x_options (lit "/etc/et.cfg") x_ini tt tt) as [_ Hs];
    [reflexivity..|].
  destruct (Hs x_config tt) as ((p & Hp & Htext) & _ & _ & _ & Hv & _); [vm_compute; reflexivity|].
  split; [|exact Hv]. reflexivity.
Defined.
End Witness.
