(* ===== verification/SshConfig.v ===== *)
(** * The ssh configuration parser ([terminal/ParseConfigFile.hpp])

    The parser of a line ([ssh_config_parse_line]) with its [Host] sections, its [Include]
    and [Match] recursion and the table of the keywords already seen; and the files. *)

From S2P Require Import Prelude CxxText SshPattern SshTokens SshOptions.

(** ** State *)

(** What the calls share: the options, [*parsing] (0 or 1), and the keywords whose [seen]
    entry is 1. *)
Record ParseState := mkParse {
  options : Options;
  parsing : bool;
  seen : list ssh_config_opcode_e;
}.

Definition set_options (o : Options) (st : ParseState) : ParseState :=
  mkParse o (parsing st) (seen st).
Definition set_parsing (b : bool) (st : ParseState) : ParseState :=
  mkParse (options st) b (seen st).
Definition set_seen (op : ssh_config_opcode_e) (st : ParseState) : ParseState :=
  mkParse (options st) (parsing st) (op :: seen st).

(** The keywords that count only once. *)
Definition once_only (op : ssh_config_opcode_e) : bool :=
  match op with
  | SOC_HOST | SOC_MATCH | SOC_UNSUPPORTED | SOC_INCLUDE | SOC_LOCALFORWARD | SOC_SETENV => false
  | _ => true
  end.

(** "Remove trailing spaces": the first character always stays. *)
Fixpoint drop_spaces (s : str) : str :=
  match s with
  | c :: s' => if isspace c then drop_spaces s' else s
  | [] => []
  end.

Definition remove_trailing (s : str) : str :=
  match s with
  | [] => []
  | c :: s' => c :: rev (drop_spaces (rev s'))
  end.

(** [filename()] and [parent_path()] of a [std::filesystem::path]. *)
Definition path_filename (p : str) : str := default p (after_last "/"%char p).

Fixpoint drop_slashes (s : str) : str :=
  match s with
  | c :: s' => if bool_decide (c = "/"%char) then drop_slashes s' else s
  | [] => []
  end.

Definition path_parent (p : str) : str :=
  let dir := take (length p - length (path_filename p)) p in
  match rev (drop_slashes (rev dir)) with
  | [] => match dir with [] => [] | _ => lit "/" end
  | d => d
  end.

(** [dir / name] for a relative name. *)
Definition path_append (dir name : str) : str :=
  match list.last dir with
  | None => name
  | Some c => if bool_decide (c = "/"%char) then dir ++ name else dir ++ "/"%char :: name
  end.

(** The regular expression for a file pattern: [.] is escaped, [*] becomes [.*], and [?] is
    left as it is. *)
Definition glob_regex (pattern : str) : str :=
  concat ((λ c, if bool_decide (c = "."%char) then lit "\."
                else if bool_decide (c = "*"%char) then lit ".*" else [c]) <$> pattern).

Section Parser.
Context (e : Env) (targethost : option str).

Definition set_option (t : ssh_options_e) (v : option_value) : M ParseState unit :=
  st ← get;
  r ← lift (ssh_options_set e t v (options st));
  modify (set_options r.2).

(** [if (p && *parsing) { f(p) }] *)
Definition when_parsing (p : option str) (f : str → M ParseState unit) : M ParseState unit :=
  st ← get;
  match p with
  | Some p => if parsing st then f p else mret tt
  | None => mret tt
  end.

Definition set_text_option (t : ssh_options_e) (p : option str) : M ParseState unit :=
  when_parsing p (λ p, set_option t (VStr p)).

(** [if (i >= 0 && *parsing)] *)
Definition set_int_option (t : ssh_options_e) (to : Z → option_value) (i : Z) : M ParseState unit :=
  st ← get;
  if (0 <=? i) && parsing st then set_option t (to i) else mret tt.

(** The loop over the patterns of a [Host] line: the value of [*parsing] at its end. *)
Fixpoint host_loop (fuel : nat) (host : option str) (s : str) (ok : Z) (parsing : bool) : bool :=
  match fuel with
  | O => parsing
  | S fuel' =>
    let '(p, s) := ssh_config_get_str_tok s None in
    match p with
    | None => parsing
    | Some p =>
      if 0 <=? ok then
        let ok := match_hostname host p in
        host_loop fuel' host s ok (if ok <? 0 then false else if 0 <? ok then true else parsing)
      else host_loop fuel' host s ok parsing
    end
  end.

(** Every word takes at least a character of the line. *)
Definition host_line (s : str) : bool :=
  host_loop (S (length s)) (ssh_lowercase <$> targethost) s 0 false.

Definition hostname_line (s : str) : M ParseState unit :=
  when_parsing (ssh_config_get_str_tok s None).1 (λ p,
    st ← get;
    z ← lift (ssh_path_expand_escape e (options st) p);
    set_option SSH_OPTIONS_HOST (VStr (default p z))).

Fixpoint protocol_loop (words : list str) : M ParseState unit :=
  match words with
  | [] => mret tt
  | a :: words' =>
    _ ← (if atoi a =? 1 then set_option SSH_OPTIONS_SSH1 (VInt 1)
         else if atoi a =? 2 then set_option SSH_OPTIONS_SSH2 (VInt 1)
         else mret tt);
    protocol_loop words'
  end.

Definition protocol_line (s : str) : M ParseState unit :=
  when_parsing (ssh_config_get_str_tok s None).1 (λ p,
    _ ← set_option SSH_OPTIONS_SSH1 (VInt 0);
    _ ← set_option SSH_OPTIONS_SSH2 (VInt 0);
    protocol_loop (strtok ","%char p)).

Definition identity_agent_line (s : str) : M ParseState unit :=
  when_parsing (ssh_config_get_str_tok s None).1 (λ p,
    filename ← lift (ssh_path_expand_tilde e p);
    match filename with
    | Some filename => set_option SSH_OPTIONS_IDENTITYAGENT (VStr filename)
    | None => mret tt
    end).

Definition local_forward_line (s : str) : M ParseState unit :=
  let '(p, s) := ssh_config_get_str_tok s None in
  when_parsing p (λ p,
    match (ssh_config_get_str_tok s None).1 with
    | Some remote_part =>
      set_option SSH_OPTIONS_LOCALFORWARD (VStr (take 1023 (p ++ " "%char :: remote_part)))
    | None => mret tt
    end).

(** The lines with one effect on the options.  A line whose option is set already
    ([port], [username], [ProxyJump]) is not read on. *)
Definition option_line (opcode : ssh_config_opcode_e) (s : str) : M ParseState unit :=
  let p := (ssh_config_get_str_tok s None).1 in
  match opcode with
  | SOC_HOSTNAME => hostname_line s
  | SOC_PORT =>
    st ← get;
    if port (options st) =? 0 then set_text_option SSH_OPTIONS_PORT_STR p else mret tt
  | SOC_USERNAME =>
    st ← get;
    match username (options st) with
    | None => set_text_option SSH_OPTIONS_USER p
    | Some _ => mret tt
    end
  | SOC_PROXYJUMP =>
    st ← get;
    match ProxyJump (options st) with
    | None => set_text_option SSH_OPTIONS_PROXYJUMP p
    | Some _ => mret tt
    end
  | SOC_PROTOCOL => protocol_line s
  | SOC_TIMEOUT => set_int_option SSH_OPTIONS_TIMEOUT VLong (ssh_config_get_int s (-1)).1
  | SOC_STRICTHOSTKEYCHECK =>
    set_int_option SSH_OPTIONS_STRICTHOSTKEYCHECK VInt (ssh_config_get_yesno s (-1)).1
  | SOC_KNOWNHOSTS => set_text_option SSH_OPTIONS_KNOWNHOSTS p
  | SOC_PROXYCOMMAND => set_text_option SSH_OPTIONS_PROXYCOMMAND (Some (ssh_config_get_cmd s))
  | SOC_GSSAPISERVERIDENTITY => set_text_option SSH_OPTIONS_GSSAPI_SERVER_IDENTITY p
  | SOC_GSSAPICLIENTIDENTITY => set_text_option SSH_OPTIONS_GSSAPI_CLIENT_IDENTITY p
  | SOC_GSSAPIDELEGATECREDENTIALS =>
    set_int_option SSH_OPTIONS_GSSAPI_DELEGATE_CREDENTIALS VInt (ssh_config_get_yesno s (-1)).1
  | SOC_FORWARDAGENT =>
    set_int_option SSH_OPTIONS_FORWARDAGENT VInt (ssh_config_get_yesno s (-1)).1
  | SOC_IDENTITYAGENT => identity_agent_line s
  | SOC_LOCALFORWARD => local_forward_line s
  | SOC_SETENV => set_text_option SSH_OPTIONS_SETENV p
  | _ => mret tt
  end.

(** The loop over the lines of a file: a negative result of a line ends it. *)
Fixpoint parse_lines (parse : str → M ParseState Z) (lines : list str) : M ParseState Z :=
  match lines with
  | [] => mret 0
  | line :: lines' =>
    r ← parse line;
    if r <? 0 then mret (-1) else parse_lines parse lines'
  end.

Definition local_parse_file (parse : str → M ParseState Z) (filename : str) : M ParseState unit :=
  match env_file e filename with
  | None => mret tt
  | Some lines => _ ← parse_lines parse lines; mret tt
  end.

(** The files of a directory whose names match. *)
Fixpoint include_matching (parse : str → M ParseState Z) (dir : str) (matches : str → bool)
    (names : list str) : M ParseState unit :=
  match names with
  | [] => mret tt
  | name :: names' =>
    _ ← (if matches name then local_parse_file parse (path_append dir name) else mret tt);
    include_matching parse dir matches names'
  end.

Definition include_line (parse : str → M ParseState Z) (s : str) : M ParseState unit :=
  match (ssh_config_get_str_tok s None).1 with
  | None => mret tt
  | Some p =>
    filename ← lift (ssh_path_expand_tilde e p);
    match filename with
    | None => mret tt
    | Some filename =>
      if contains "*"%char filename || contains "?"%char filename then
        let dir := match path_parent filename with [] => lit "." | d => d end in
        match env_regex e (glob_regex (path_filename filename)) with
        | None => throw RuntimeError "regex_error"
        | Some matches =>
          match env_directory e dir with
          | None => throw RuntimeError "filesystem_error"
          | Some names => include_matching parse dir matches names
          end
        end
      else local_parse_file parse filename
    end
  end.

(** The early returns for comments, empty lines and keywords already seen come first. *)
Definition skip_line (keyword : str) : bool :=
  match keyword with
  | [] => true
  | c :: _ => bool_decide (c = "#"%char) || bool_decide (c = LF)
  end.

(** [fuel] bounds the nesting of [Match] and [Include]. *)
Fixpoint ssh_config_parse_line (fuel : nat) (line : str) : M ParseState Z :=
  match fuel with
  | O => stop OutOfFuel
  | S fuel' =>
    let '(keyword, s) := ssh_config_get_token (remove_trailing (c_str line)) in
    if skip_line keyword then mret 0
    else
      let opcode := ssh_config_get_opcode keyword in
      st ← get;
      if parsing st && once_only opcode && bool_decide (opcode ∈ seen st) then mret 0
      else
        _ ← (if parsing st && once_only opcode then modify (set_seen opcode) else mret tt);
        match opcode with
        | SOC_INCLUDE => _ ← include_line (ssh_config_parse_line fuel') s; mret 0
        | SOC_HOST => _ ← modify (set_parsing (host_line s)); mret 0
        | SOC_MATCH => ssh_config_parse_line fuel' s
        | opcode => _ ← option_line opcode s; mret 0
        end
  end.

(** The result, and the options. *)
Definition parse_ssh_config_file (fuel : nat) (filename : str) (o : Options)
    : outcome (Z * Options) :=
  expanded ← ssh_path_expand_tilde e (c_str filename);
  match expanded with
  | None => Ok (0, o)
  | Some expanded =>
    match env_file e expanded with
    | None => Ok (0, o)
    | Some lines =>
      match parse_lines (ssh_config_parse_line fuel) lines (mkParse o true []) with
      | (Ok r, st) => Ok (r, options st)
      | (Stop f, _) => Stop f
      end
    end
  end.
End Parser.
