(* ===== verification/SshConfigSpec.v ===== *)
(** * The meaning of an ssh configuration

    Lines are rendered from a keyword and words; the theorems say what such lines and
    whole files do to the options: which sections apply, that the first value counts, and that
    nothing else changes them. *)

From S2P Require Import Prelude CxxText SshPattern SshTokens SshOptions SshConfig.

(** ** Rendered lines *)

(** A word that survives the line handling around it. *)
Definition clean_word (w : word) : Prop :=
  word_ok w ∧ (NUL ∉ word_text w) ∧
  match w with Bare t => Forall (λ c, isspace c = false) t | Quoted _ => True end.

Definition render_words (ws : list word) : str := join " "%char (render_word <$> ws).

(** Indentation, the keyword, blanks or an equals sign, the words. *)
Definition render_line (indent kw sep : str) (ws : list word) : str :=
  indent ++ kw ++ sep ++ render_words ws.

Record line_ok (indent kw sep : str) (ws : list word) : Prop := {
  line_indent : Forall (λ c, isblank c = true) indent;
  line_kw : clean_word (Bare kw);
  line_comment : head kw ≠ Some "#"%char;
  line_sep : separator false sep;
  line_sep_ne : sep ≠ [];
  line_ws_ne : ws ≠ [];
  line_words : Forall clean_word ws;
}.

Lemma c_str_id s : NUL ∉ s → c_str s = s.
Proof.
  induction s as [|c s IH]; [done|]. intros [Hc Hs]%not_elem_of_cons. cbn.
  rewrite decide_False by congruence. by rewrite IH.
Qed.

Lemma remove_trailing_id s c : list.last s = Some c → isspace c = false → remove_trailing s = s.
Proof.
  intros Hl Hc. destruct s as [|d s]; [done|]. cbn. f_equal.
  destruct (rev s) as [|x l] eqn:Hr; [by rewrite <-(rev_involutive s), Hr|].
  assert (s = rev l ++ [x]) as -> by by rewrite <-(rev_involutive s), Hr.
  rewrite app_comm_cons, list.last_snoc in Hl. injection Hl as ->.
  cbn. rewrite Hc. done.
Qed.

Lemma last_app_ne {A} (a b : list A) : b ≠ [] → list.last (a ++ b) = list.last b.
Proof.
  intros Hb. destruct (exists_last Hb) as (b' & x & ->).
  by rewrite app_assoc, !list.last_snoc.
Qed.

Lemma separator_no_nul b sep : separator b sep → NUL ∉ sep.
Proof.
  induction 1 as [b|b c sep Hc Hsep IH|sep Hsep IH]; [by apply not_elem_of_nil| |];
    apply not_elem_of_cons; (split; [|done]); [by intros <-|done].
Qed.

Lemma clean_render w :
  clean_word w → (NUL ∉ render_word w) ∧ render_word w ≠ [] ∧
    ∃ c, list.last (render_word w) = Some c ∧ isspace c = false.
Proof.
  intros ([Hne Hok] & Hnul & Hsp). destruct w as [t|t]; cbn in *.
  - split; [done|]. split; [done|]. destruct (exists_last Hne) as (t' & c & ->).
    exists c. rewrite list.last_snoc. split; [done|]. by apply Forall_app in Hsp as [_ [? _]%Forall_cons_1].
  - split; [|split; [done|]].
    + rewrite not_elem_of_cons, not_elem_of_app, list_elem_of_singleton. done.
    + exists QUOTE. by rewrite app_comm_cons, list.last_snoc.
Qed.

Lemma render_words_cons w ws :
  render_words (w :: ws) = render_word w ++ match ws with [] => [] | _ => " "%char :: render_words ws end.
Proof. destruct ws; cbn; [by rewrite app_nil_r|done]. Qed.

Lemma clean_words ws :
  ws ≠ [] → Forall clean_word ws → (NUL ∉ render_words ws) ∧ render_words ws ≠ [] ∧
    ∃ c, list.last (render_words ws) = Some c ∧ isspace c = false.
Proof.
  induction ws as [|w ws IH]; [done|]. intros _ [Hw Hws]%Forall_cons_1.
  destruct (clean_render w Hw) as (Hn & Hne & Hlast). rewrite render_words_cons.
  destruct ws as [|w' ws]; [by rewrite app_nil_r|].
  destruct IH as (Hn' & Hne' & c & Hl & Hc); [done|done|].
  split; [|split; [by destruct (render_word w)|]].
  - rewrite not_elem_of_app, not_elem_of_cons. done.
  - exists c. split; [|done]. rewrite last_app_ne by done. rewrite list.last_cons, Hl. done.
Qed.

Lemma starts_words ws : Forall clean_word ws → starts_word (render_words ws).
Proof.
  intros Hws. destruct Hws as [|w ws [Hw _] _]; [done|]. rewrite render_words_cons. by apply starts_render.
Qed.

Lemma skip_indent indent s : Forall (λ c, isblank c = true) indent → starts_word s → skip_blanks (indent ++ s) = s.
Proof.
  intros Hi Hs. induction Hi as [|c i Hc Hi IH]; [by apply skip_blanks_word|]. cbn. by rewrite Hc.
Qed.

Lemma get_token_indent indent s :
  Forall (λ c, isblank c = true) indent → starts_word s →
  ssh_config_get_token (indent ++ s) = ssh_config_get_token s.
Proof. intros Hi Hs. unfold ssh_config_get_token. by rewrite skip_indent, skip_blanks_word. Qed.

Lemma get_token_words w ws :
  Forall clean_word (w :: ws) →
  ssh_config_get_token (render_words (w :: ws)) = (word_text w, render_words ws).
Proof.
  intros [[Hw Hcl] Hws]%Forall_cons_1. rewrite render_words_cons. destruct ws as [|w' ws].
  - change (render_word w ++ []) with (render_word w ++ [] ++ []).
    apply get_token_word; [done|constructor|done|done].
  - apply (get_token_word w [" "%char]); [done|by repeat constructor|by apply starts_words|done].
Qed.

Lemma get_str_tok_word w ws def :
  Forall clean_word (w :: ws) →
  ssh_config_get_str_tok (render_words (w :: ws)) def = (Some (word_text w), render_words ws).
Proof.
  intros Hws. unfold ssh_config_get_str_tok. rewrite get_token_words by done.
  apply Forall_cons_1 in Hws as [[[Hne _] _] _]. by destruct (word_text w).
Qed.

(** The keyword and the words of a rendered line are what the parser works on. *)
Lemma line_token indent kw sep ws :
  line_ok indent kw sep ws →
  ssh_config_get_token (remove_trailing (c_str (render_line indent kw sep ws))) = (kw, render_words ws).
Proof.
  intros [Hi Hkw Hcom Hsep Hsne Hwne Hws].
  destruct (clean_words ws Hwne Hws) as (Hn & Hne & c & Hl & Hc).
  destruct (clean_render _ Hkw) as (Hnk & _ & _). destruct Hkw as (Hok & _).
  unfold render_line. rewrite c_str_id.
  - rewrite (remove_trailing_id _ c); [|by rewrite !app_assoc, last_app_ne|done].
    rewrite get_token_indent; [|done|by apply (starts_render (Bare kw))].
    apply (get_token_word (Bare kw)); [done|done|by apply starts_words|done].
  - rewrite !not_elem_of_app. split; [|split; [done|split; [by eapply separator_no_nul|done]]].
    intros Hin. eapply list.Forall_forall in Hin; [|exact Hi]. done.
Qed.

Lemma keyword_not_skipped kw : clean_word (Bare kw) → head kw ≠ Some "#"%char → skip_line kw = false.
Proof.
  intros ((Hne & Hp & _) & _ & _) Hcom. destruct kw as [|c kw]; [done|]. cbn in *.
  apply Forall_cons_1 in Hp as [(_ & _ & Hl) _]. rewrite !bool_decide_false; [done|done|congruence].
Qed.

Lemma line_not_skipped indent kw sep ws : line_ok indent kw sep ws → skip_line kw = false.
Proof. intros [? ? ? ? ? ? ?]. by apply keyword_not_skipped. Qed.

(** ** Lines *)

(** A [Host] line selects the target: some pattern list matches and none rules it out. *)
Definition host_selected (targethost : option str) (ws : list word) : bool :=
  let result w := match_hostname (ssh_lowercase <$> targethost) (word_text w) in
  existsb (λ w, 0 <? result w) ws && negb (existsb (λ w, result w <? 0) ws).

(** The state in which the options of a line are handled. *)
Definition noting (opcode : ssh_config_opcode_e) (st : ParseState) : ParseState :=
  if parsing st && once_only opcode then set_seen opcode st else st.

Definition dropped (opcode : ssh_config_opcode_e) (st : ParseState) : Prop :=
  parsing st = true ∧ once_only opcode = true ∧ opcode ∈ seen st.

#[global] Instance dropped_dec opcode st : Decision (dropped opcode st).
Proof. unfold dropped. apply _. Defined.

Section Lines.
Context (e : Env) (targethost : option str).
Implicit Types (st : ParseState).

Lemma host_loop_words fuel host ws ok b :
  Forall clean_word ws → (length ws < fuel)%nat →
  host_loop fuel host (render_words ws) ok b =
  if 0 <=? ok then
    if existsb (λ w, match_hostname host (word_text w) <? 0) ws then false
    else existsb (λ w, 0 <? match_hostname host (word_text w)) ws || b
  else b.
Proof.
  revert fuel ok b. induction ws as [|w ws IH]; intros fuel ok b Hws Hf;
    (destruct fuel as [|fuel]; [cbn in Hf; lia|]).
  - cbn. by destruct (0 <=? ok).
  - cbn [host_loop]. rewrite get_str_tok_word by done. apply Forall_cons_1 in Hws as [_ Hws].
    cbn [length] in Hf. destruct (0 <=? ok) eqn:Hok; rewrite IH by (done || lia); cbn [existsb];
      [|by rewrite Hok].
    set (m := match_hostname host (word_text w)).
    destruct (m <? 0) eqn:Hneg, (0 <=? m) eqn:Hle, (0 <? m) eqn:Hpos; b2p; try lia; cbn; try done.
    by rewrite ?orb_true_r.
Qed.

Lemma render_words_length ws : Forall clean_word ws → (length ws <= length (render_words ws))%nat.
Proof.
  induction 1 as [|w ws Hw Hws IH]; [done|]. destruct (clean_render w Hw) as (_ & Hne & _).
  rewrite render_words_cons, length_app. destruct (render_word w); [done|]. destruct ws; cbn in *; lia.
Qed.

Lemma host_line_words ws : Forall clean_word ws → host_line targethost (render_words ws) = host_selected targethost ws.
Proof.
  intros Hws. pose proof (render_words_length ws Hws). unfold host_line, host_selected.
  rewrite host_loop_words by (done || lia). cbn [Z.leb Z.compare].
  destruct (existsb (λ w, _ <? 0) ws); cbn; [by rewrite andb_false_r|].
  by rewrite orb_false_r, andb_true_r.
Qed.

(** A rendered line, by its keyword. *)
Lemma parse_line_run fuel indent kw sep ws st :
  line_ok indent kw sep ws →
  ssh_config_parse_line e targethost (S fuel) (render_line indent kw sep ws) st =
  let opcode := ssh_config_get_opcode kw in
  if decide (dropped opcode st) then (Ok 0, st)
  else
    (match opcode with
     | SOC_INCLUDE =>
       _ ← include_line e (ssh_config_parse_line e targethost fuel) (render_words ws); mret 0
     | SOC_HOST => _ ← modify (set_parsing (host_selected targethost ws)); mret 0
     | SOC_MATCH => ssh_config_parse_line e targethost fuel (render_words ws)
     | opcode => _ ← option_line e opcode (render_words ws); mret 0
     end) (noting opcode st).
Proof.
  intros Hl. cbn [ssh_config_parse_line]. rewrite (line_token _ _ _ _ Hl), (line_not_skipped _ _ _ _ Hl).
  rewrite run_get. cbv zeta. unfold dropped, noting.
  rewrite (host_line_words ws (line_words _ _ _ _ Hl)).
  destruct (decide _) as [(-> & -> & Hin)|Hd]; [by rewrite bool_decide_true|].
  destruct (parsing st && once_only _) eqn:Hpo; cbn [andb]; [|by rewrite run_ret].
  apply andb_true_iff in Hpo as [Hp Ho]. rewrite bool_decide_false by naive_solver.
  by rewrite run_modify.
Qed.

(** *** Lines without an effect *)

Definition line_opcode (line : str) : ssh_config_opcode_e :=
  ssh_config_get_opcode (ssh_config_get_token (remove_trailing (c_str line))).1.

Lemma when_parsing_off p f st : parsing st = false → when_parsing p f st = (Ok tt, st).
Proof. intros Hp. unfold when_parsing. rewrite run_get, Hp. by destruct p. Qed.

Lemma set_int_option_off t to i st : parsing st = false → set_int_option e t to i st = (Ok tt, st).
Proof. intros Hp. unfold set_int_option. by rewrite run_get, Hp, andb_false_r. Qed.

Lemma option_line_off opcode s st : parsing st = false → option_line e opcode s st = (Ok tt, st).
Proof.
  intros Hp. destruct opcode; cbn [option_line]; unfold hostname_line, protocol_line,
    identity_agent_line, set_text_option; try done;
    rewrite ?run_get; repeat case_match; try done;
    first [by rewrite when_parsing_off|by rewrite set_int_option_off|idtac].
  unfold local_forward_line. destruct (ssh_config_get_str_tok s None). by rewrite when_parsing_off.
Qed.

(** A line of a section that does not apply, or whose keyword has had its value. *)
Definition no_effect (line : str) (st : ParseState) : Prop :=
  (parsing st = false ∧ line_opcode line ∉ [SOC_HOST; SOC_MATCH; SOC_INCLUDE]) ∨
  dropped (line_opcode line) st.

Lemma parse_line_no_effect fuel line st :
  no_effect line st → ssh_config_parse_line e targethost (S fuel) line st = (Ok 0, st).
Proof.
  unfold no_effect, line_opcode, dropped. intros Hn. cbn [ssh_config_parse_line].
  destruct (ssh_config_get_token _) as [kw s]. cbn [fst] in Hn. destruct (skip_line kw); [done|].
  rewrite run_get. cbv zeta. destruct Hn as [[Hp Ho]|(Hp & Ho & Hin)].
  - rewrite Hp. cbn [andb]. rewrite run_ret.
    destruct (ssh_config_get_opcode kw); try (set_solver);
      (erewrite M_bind_ok by by apply option_line_off); done.
  - by rewrite Hp, Ho, bool_decide_true.
Qed.

(** *** The result of a line is never an error *)

Lemma parse_line_result fuel line st r st' :
  ssh_config_parse_line e targethost fuel line st = (Ok r, st') → r = 0.
Proof.
  revert line st. induction fuel as [|fuel IH]; intros line st; [done|].
  assert (∀ (m : M ParseState unit) s r' s', (m ≫= λ _, mret 0 : M ParseState Z) s = (Ok r', s') → r' = 0) as Hret.
  { intros m s r' s'. rewrite M_bind_stop_inv. destruct (m s) as [[]]; [by intros [= <- _]|done]. }
  cbn [ssh_config_parse_line]. destruct (ssh_config_get_token _) as [kw s].
  destruct (skip_line kw); [by intros [= <- _]|]. rewrite run_get. cbv zeta.
  destruct (_ && _ && _); [by intros [= <- _]|]. rewrite M_bind_stop_inv.
  match goal with |- context [match ?x with _ => _ end] => destruct x as [[|] st1] end; [|done].
  destruct (ssh_config_get_opcode kw); try apply Hret. apply IH.
Qed.

Lemma parse_lines_result fuel lines st r st' :
  parse_lines (ssh_config_parse_line e targethost fuel) lines st = (Ok r, st') → r = 0.
Proof.
  revert st. induction lines as [|line lines IH]; intros st; cbn [parse_lines]; [by intros [= <- _]|].
  rewrite M_bind_stop_inv. destruct (ssh_config_parse_line _ _ _ _ _) as [[r1|] st1] eqn:Hline; [|done].
  apply parse_line_result in Hline as ->. apply IH.
Qed.

(** ** Files *)

(** A line of a file, with its layout. *)
Record config_line := mkLine { indent : str; kw : str; sep : str; words : list word }.

Definition config_line_ok (l : config_line) : Prop := line_ok (indent l) (kw l) (sep l) (words l).
Definition render_config (l : config_line) : str := render_line (indent l) (kw l) (sep l) (words l).
Definition opcode_of (l : config_line) : ssh_config_opcode_e := ssh_config_get_opcode (kw l).
Definition first_text (ws : list word) : str := default [] (word_text <$> head ws).
Definition first_word (l : config_line) : str := first_text (words l).

(** Host names that are taken as they are: no [~], no escapes, no [user@]. *)
Definition plain_host (h : str) : Prop :=
  head h ≠ Some "~"%char ∧ ("%"%char ∉ h) ∧ ("@"%char ∉ h) ∧ len h < MAX_BUF_SIZE.

(** All lines but those with [Include] and [Match], a host name that is expanded, and a
    socket of an agent that is below the home directory of a user. *)
Definition simple_line (l : config_line) : Prop :=
  match opcode_of l with
  | SOC_INCLUDE | SOC_MATCH => False
  | SOC_HOSTNAME => plain_host (first_word l)
  | SOC_IDENTITYAGENT => head (first_word l) ≠ Some "~"%char
  | _ => True
  end.

(** The value of a port and of a yes-or-no word; [None] leaves the option alone. *)
Definition port_of (w : str) : option Z :=
  let i := default 0 (strtol w) in if i <=? 0 then None else Some (Z.land i 0xffff).
Definition yesno_of (w : str) : option Z :=
  if strncaseeq w (lit "yes") then Some 1 else if strncaseeq w (lit "no") then Some 0 else None.

(** The number of a timeout, the versions of the protocol in a list. *)
Definition timeout_of (w : str) : option Z :=
  let i := match strtol w with Some i => to_i32 i | None => -1 end in
  if i <? 0 then None else Some (Z.land i 0xffffffff).
Definition set_protocol (o : Options) (a : str) : Options :=
  if atoi a =? 1 then set_ssh1 1 o else if atoi a =? 2 then set_ssh2 1 o else o.

(** The ports of a [LocalForward] line, and the variable of a [SetEnv] line. *)
Definition forward_of (ws : list word) : option (Z * Z) :=
  match ws with
  | w1 :: w2 :: _ =>
    match strtok " "%char (take 1023 (word_text w1 ++ " "%char :: word_text w2)) with
    | local_port :: remote_part :: _ =>
      remote_port ← after_last ":"%char remote_part; Some (atoi local_port, atoi remote_port)
    | _ => None
    end
  | _ => None
  end.
Definition variable_of (ws : list word) : option (str * str) :=
  p ← find_char "="%char (first_text ws); Some (take p (first_text ws), drop (S p) (first_text ws)).

Definition effect (op : ssh_config_opcode_e) (ws : list word) (o : Options) : Options :=
  let w := first_text ws in
  match op with
  | SOC_HOSTNAME => set_host (Some w) o
  | SOC_PORT =>
    if port o =? 0 then match port_of w with Some p => set_port p o | None => o end else o
  | SOC_USERNAME => match username o with None => set_username (Some w) o | Some _ => o end
  | SOC_PROXYJUMP => match ProxyJump o with None => set_ProxyJump (Some w) o | Some _ => o end
  | SOC_PROTOCOL => foldl set_protocol (set_ssh2 0 (set_ssh1 0 o)) (strtok ","%char w)
  | SOC_TIMEOUT => match timeout_of w with Some i => set_timeout i o | None => o end
  | SOC_KNOWNHOSTS => set_knownhosts (Some w) o
  | SOC_PROXYCOMMAND =>
    match ssh_config_get_cmd (render_words ws) with [] => o | s => set_proxy_command s o end
  | SOC_GSSAPISERVERIDENTITY => set_gss_server_identity (Some w) o
  | SOC_GSSAPICLIENTIDENTITY => set_gss_client_identity (Some w) o
  | SOC_FORWARDAGENT => match yesno_of w with Some b => set_forward_agent b o | None => o end
  | SOC_GSSAPIDELEGATECREDENTIALS =>
    match yesno_of w with Some b => set_gss_delegate_creds b o | None => o end
  | SOC_STRICTHOSTKEYCHECK =>
    match yesno_of w with Some b => set_StrictHostKeyChecking b o | None => o end
  | SOC_IDENTITYAGENT => set_identity_agent (Some w) o
  | SOC_LOCALFORWARD =>
    match forward_of ws with
    | Some f => set_local_forwards (local_forwards o ++ [f]) o
    | None => o
    end
  | SOC_SETENV =>
    match variable_of ws with
    | Some v => set_env_vars (env_vars o ++ [v]) o
    | None => o
    end
  | _ => o
  end.

Lemma escape_loop_plain o p buf :
  ("%"%char ∉ p) → len buf + len p < MAX_BUF_SIZE → escape_loop e o p buf = Ok (Some (buf ++ p)).
Proof.
  revert buf. induction p as [|c p IH]; intros buf Hp Hl; [by rewrite app_nil_r|].
  apply not_elem_of_cons in Hp as [Hc Hp]. cbn [escape_loop length] in *.
  rewrite bool_decide_false by congruence. rewrite (proj2 (Z.leb_gt _ _)) by lia.
  rewrite IH; [by rewrite <-app_assoc|done|rewrite length_app; cbn; lia].
Qed.

Lemma expand_plain o h : plain_host h → ssh_path_expand_escape e o h = Ok (Some h).
Proof.
  intros (Ht & Hp & _ & Hl). unfold ssh_path_expand_escape, ssh_path_expand_tilde.
  destruct h as [|c h].
  - done.
  - rewrite bool_decide_false by (by intros ->). cbn [mbind outcome_bind].
    rewrite (proj2 (Z.ltb_ge _ _)) by lia. apply escape_loop_plain; [done|cbn in *; lia].
Qed.

Lemma set_host_plain h o : h ≠ [] → plain_host h → ssh_options_set e SSH_OPTIONS_HOST (VStr h) o = Ok (0, set_host (Some h) o).
Proof.
  intros Hne (_ & _ & Ha & _). cbn. destruct h as [|c h]; [done|].
  unfold done_with, set_host_option. by rewrite (proj2 (find_char_None _ _)).
Qed.

Lemma set_option_run t v o' st :
  ssh_options_set e t v (options st) = Ok o' → set_option e t v st = (Ok tt, set_options o'.2 st).
Proof. intros Hs. unfold set_option. by rewrite run_get, Hs, run_lift_ok. Qed.

Lemma set_options_id st : set_options (options st) st = st.
Proof. by destruct st. Qed.

Lemma first_word_ne l : config_line_ok l → first_word l ≠ [].
Proof.
  intros [_ _ _ _ _ Hne Hws]. unfold first_word. destruct (words l) as [|w ws]; [done|].
  by apply Forall_cons_1 in Hws as [[[? _] _] _].
Qed.

Lemma line_word l :
  config_line_ok l → ssh_config_get_str_tok (render_words (words l)) None =
    (Some (first_word l), render_words (drop 1 (words l))).
Proof.
  intros [_ _ _ _ _ Hne Hws]. unfold first_word. destruct (words l) as [|w ws]; [done|].
  by rewrite get_str_tok_word.
Qed.

Lemma yesno_word l d : config_line_ok l →
  (ssh_config_get_yesno (render_words (words l)) d).1 = default d (yesno_of (first_word l)).
Proof.
  intros Hl. unfold ssh_config_get_yesno, yesno_of. rewrite line_word by done. cbn [fst].
  by repeat case_match.
Qed.

Lemma set_text_run t l st :
  config_line_ok l → parsing st = true →
  set_text_option e t (Some (first_word l)) st = set_option e t (VStr (first_word l)) st.
Proof. intros Hl Hp. unfold set_text_option, when_parsing. by rewrite run_get, Hp. Qed.

Lemma set_yesno_run t (f : Z → Options → Options) l st :
  config_line_ok l → parsing st = true →
  (∀ i o, i = 0 ∨ i = 1 → ssh_options_set e t (VInt i) o = Ok (0, f i o)) →
  set_int_option e t VInt (ssh_config_get_yesno (render_words (words l)) (-1)).1 st =
    (Ok tt, set_options (match yesno_of (first_word l) with Some b => f b (options st) | None => options st end) st).
Proof.
  intros Hl Hp Hf. rewrite yesno_word by done. unfold set_int_option. rewrite run_get, Hp.
  unfold yesno_of.
  destruct (strncaseeq (first_word l) (lit "yes"));
    [cbn [default andb id Z.leb Z.compare]; by rewrite (set_option_run _ _ _ _ (Hf 1 _ (or_intror eq_refl)))|].
  destruct (strncaseeq (first_word l) (lit "no"));
    [cbn [default andb id Z.leb Z.compare]; by rewrite (set_option_run _ _ _ _ (Hf 0 _ (or_introl eq_refl)))|].
  cbn. by rewrite set_options_id.
Qed.

Lemma set_port_run w o :
  w ≠ [] → ssh_options_set e SSH_OPTIONS_PORT_STR (VStr w) o =
    Ok (match port_of w with Some p => (0, set_port p o) | None => (-1, o) end).
Proof.
  intros Hw. destruct w as [|c w]; [done|]. cbn. unfold set_port_str, port_of. cbn.
  by destruct (_ <=? 0).
Qed.

Lemma set_text_ne clear f w o : w ≠ [] → set_text clear f (VStr w) o = Ok (0, f w (clear o)).
Proof. by destruct w. Qed.

Lemma set_known_hosts_ne w o :
  w ≠ [] → set_known_hosts e (VStr w) o = Ok (0, set_knownhosts (Some w) (set_knownhosts None o)).
Proof. by destruct w. Qed.

Lemma set_user_ne w o :
  w ≠ [] → set_user e (VStr w) o = Ok (0, set_username (Some w) (set_username None o)).
Proof. by destruct w. Qed.

Lemma line_first l :
  config_line_ok l →
  ssh_config_get_token (render_words (words l)) = (first_word l, render_words (drop 1 (words l))).
Proof.
  intros [_ _ _ _ _ Hne Hws]. unfold first_word. destruct (words l) as [|w ws]; [done|]. by rewrite get_token_words.
Qed.

Lemma timeout_line_run l st :
  config_line_ok l → parsing st = true →
  set_int_option e SSH_OPTIONS_TIMEOUT VLong (ssh_config_get_int (render_words (words l)) (-1)).1 st =
    (Ok tt, set_options (match timeout_of (first_word l) with
                         | Some i => set_timeout i (options st) | None => options st end) st).
Proof.
  intros Hl Hp. pose proof (first_word_ne l Hl) as Hne. unfold ssh_config_get_int, set_int_option, timeout_of.
  rewrite line_first by done. destruct (first_word l) as [|c w]; [done|]. cbn [fst]. rewrite run_get, Hp, andb_true_r.
  set (i := match strtol (c :: w) with Some i => to_i32 i | None => -1 end).
  destruct (Z.ltb_spec i 0) as [Hi|Hi].
  - rewrite (proj2 (Z.leb_gt 0 i)) by done. by rewrite set_options_id.
  - rewrite (proj2 (Z.leb_le 0 i)) by done. rewrite (set_option_run _ _ (0, set_timeout (Z.land i 0xffffffff) (options st))); [done|].
    cbn. unfold set_timeout_option. cbn. by rewrite (proj2 (Z.ltb_ge i 0)).
Qed.

Lemma protocol_loop_run ws st :
  protocol_loop e ws st = (Ok tt, set_options (foldl set_protocol (options st) ws) st).
Proof.
  revert st. induction ws as [|a ws IH]; intros st; cbn [protocol_loop foldl]; [by rewrite set_options_id|].
  assert (∃ r, (if atoi a =? 1 then set_option e SSH_OPTIONS_SSH1 (VInt 1)
    else if atoi a =? 2 then set_option e SSH_OPTIONS_SSH2 (VInt 1) else mret tt) st = (Ok tt, r) ∧
    r = set_options (set_protocol (options st) a) st) as (r & E & ->).
  { eexists. split; [|reflexivity]. unfold set_protocol.
    destruct (atoi a =? 1); [by rewrite (set_option_run _ _ (0, set_ssh1 1 (options st)))|].
    destruct (atoi a =? 2); [by rewrite (set_option_run _ _ (0, set_ssh2 1 (options st)))|by rewrite set_options_id]. }
  rewrite (M_bind_ok _ _ _ _ _ E). by rewrite IH.
Qed.

Lemma protocol_line_run l st :
  config_line_ok l → parsing st = true →
  protocol_line e (render_words (words l)) st =
    (Ok tt, set_options (foldl set_protocol (set_ssh2 0 (set_ssh1 0 (options st))) (strtok ","%char (first_word l))) st).
Proof.
  intros Hl Hp. unfold protocol_line, when_parsing. rewrite line_word by done. cbn [fst]. rewrite run_get, Hp.
  rewrite (M_bind_ok _ _ _ _ _ (set_option_run SSH_OPTIONS_SSH1 (VInt 0) (0, set_ssh1 0 (options st)) st eq_refl)).
  rewrite (M_bind_ok _ _ _ _ _ (set_option_run SSH_OPTIONS_SSH2 (VInt 0)
    (0, set_ssh2 0 (set_ssh1 0 (options st))) (set_options (set_ssh1 0 (options st)) st) eq_refl)).
  by rewrite protocol_loop_run.
Qed.

Lemma proxy_command_run c st :
  parsing st = true →
  set_text_option e SSH_OPTIONS_PROXYCOMMAND (Some c) st =
    (Ok tt, set_options (match c with [] => options st | x :: s => set_proxy_command (x :: s) (options st) end) st).
Proof.
  intros Hp. unfold set_text_option, when_parsing. rewrite run_get, Hp.
  destruct c as [|c s]; [by rewrite (set_option_run _ _ (-1, options st))|].
  by rewrite (set_option_run _ _ (0, set_proxy_command (c :: s) (options st))).
Qed.

Lemma identity_agent_run l st :
  config_line_ok l → head (first_word l) ≠ Some "~"%char → parsing st = true →
  identity_agent_line e (render_words (words l)) st =
    (Ok tt, set_options (set_identity_agent (Some (first_word l)) (options st)) st).
Proof.
  intros Hl Ht Hp. pose proof (first_word_ne l Hl) as Hne. unfold identity_agent_line, when_parsing.
  rewrite line_word by done. cbn [fst]. rewrite run_get, Hp.
  assert (ssh_path_expand_tilde e (first_word l) = Ok (Some (first_word l))) as ->.
  { unfold ssh_path_expand_tilde. destruct (first_word l) as [|c w]; [done|]. by rewrite bool_decide_false by (by intros ->). }
  rewrite run_lift_ok. by erewrite set_option_run by by apply set_text_ne.
Qed.

Lemma add_local_forward_words w1 w2 ws o :
  add_local_forward (take 1023 (word_text w1 ++ " "%char :: word_text w2)) o =
  match forward_of (w1 :: w2 :: ws) with
  | Some f => set_local_forwards (local_forwards o ++ [f]) o
  | None => o
  end.
Proof.
  unfold add_local_forward, forward_of. destruct (strtok _ _) as [|p [|r l]]; [done..|].
  by destruct (after_last ":"%char r).
Qed.

Lemma local_forward_run l st :
  config_line_ok l → parsing st = true →
  local_forward_line e (render_words (words l)) st =
    (Ok tt, set_options (effect SOC_LOCALFORWARD (words l) (options st)) st).
Proof.
  intros Hl Hp. unfold local_forward_line. rewrite line_word by done. unfold when_parsing. rewrite run_get, Hp.
  pose proof (line_words _ _ _ _ Hl) as Hws. unfold first_word, effect.
  destruct (words l) as [|w1 [|w2 ws]] eqn:Hw; [by destruct Hl|cbn; by rewrite set_options_id|].
  apply Forall_cons_1 in Hws as [_ Hws]. cbn [drop]. rewrite get_str_tok_word by done. cbn [fst].
  rewrite <-(add_local_forward_words w1 w2 ws). cbn [first_text fmap option_fmap option_map head default id].
  set (s := take 1023 (word_text w1 ++ " "%char :: word_text w2)).
  rewrite (set_option_run _ _ (0, add_local_forward s (options st))); [done|].
  apply set_text_ne. subst s. by destruct (word_text w1).
Qed.

Lemma add_env_var_words ws o :
  add_env_var (first_text ws) o =
  match variable_of ws with
  | Some v => set_env_vars (env_vars o ++ [v]) o
  | None => o
  end.
Proof. unfold add_env_var, variable_of. by destruct (find_char _ _). Qed.

(** A simple line of a section that applies. *)
Lemma option_line_effect l st :
  config_line_ok l → simple_line l → parsing st = true → opcode_of l ≠ SOC_HOST →
  option_line e (opcode_of l) (render_words (words l)) st =
    (Ok tt, set_options (effect (opcode_of l) (words l) (options st)) st).
Proof.
  intros Hl Hs Hp Hh. unfold simple_line in Hs. pose proof (first_word_ne l Hl) as Hne.
  destruct (opcode_of l); try done; cbn [option_line effect]; fold (first_word l); rewrite ?line_word by done; cbn [fst].
  - by rewrite set_options_id.
  - unfold hostname_line, when_parsing. rewrite line_word by done. cbn [fst].
    rewrite run_get, Hp, run_get, expand_plain, run_lift_ok by done. cbn [default id].
    by erewrite set_option_run by by apply set_host_plain.
  - rewrite run_get. destruct (port (options st) =? 0); [|by rewrite set_options_id].
    rewrite set_text_run by done. erewrite set_option_run by by apply set_port_run.
    by destruct (port_of _).
  - rewrite run_get. destruct (username (options st)); [by rewrite set_options_id|].
    rewrite set_text_run by done. by erewrite set_option_run by by apply set_user_ne.
  - by apply timeout_line_run.
  - by apply protocol_line_run.
  - apply set_yesno_run; [done..|]. by intros i o [-> | ->].
  - rewrite set_text_run by done. by erewrite set_option_run by by apply set_known_hosts_ne.
  - by apply proxy_command_run.
  - rewrite set_text_run by done. by erewrite set_option_run by by apply set_text_ne.
  - rewrite set_text_run by done. by erewrite set_option_run by by apply set_text_ne.
  - apply set_yesno_run; [done..|]. by intros i o [-> | ->].
  - rewrite run_get. destruct (ProxyJump (options st)); [by rewrite set_options_id|].
    rewrite set_text_run by done. by erewrite set_option_run by by apply set_text_ne.
  - apply set_yesno_run; [done..|]. by intros i o [-> | ->].
  - by apply identity_agent_run.
  - by apply local_forward_run.
  - rewrite set_text_run by done. erewrite set_option_run by by apply set_text_ne.
    unfold first_word. by rewrite add_env_var_words.
Qed.

(** The line that sets an option of a file: the first one with its keyword in a section
    that applies ([b] is whether the current one does). *)
Fixpoint first_active (op : ssh_config_opcode_e) (b : bool) (lines : list config_line)
    : option str :=
  match lines with
  | [] => None
  | l :: lines' =>
    if decide (opcode_of l = SOC_HOST) then first_active op (host_selected targethost (words l)) lines'
    else if decide (b = true ∧ opcode_of l = op) then Some (first_word l)
    else first_active op b lines'
  end.

(** All the lines with a keyword in the sections that apply. *)
Fixpoint active (op : ssh_config_opcode_e) (b : bool) (lines : list config_line) : list config_line :=
  match lines with
  | [] => []
  | l :: lines' =>
    if decide (opcode_of l = SOC_HOST) then active op (host_selected targethost (words l)) lines'
    else if decide (b = true ∧ opcode_of l = op) then l :: active op b lines'
    else active op b lines'
  end.

(** Reading a simple line. *)
Definition after_line (l : config_line) (st : ParseState) : ParseState :=
  if decide (opcode_of l = SOC_HOST) then set_parsing (host_selected targethost (words l)) st
  else if parsing st then
    if decide (dropped (opcode_of l) st) then st
    else noting (opcode_of l) (set_options (effect (opcode_of l) (words l) (options st)) st)
  else st.

Lemma simple_line_run fuel l st :
  config_line_ok l → simple_line l →
  ssh_config_parse_line e targethost (S fuel) (render_config l) st = (Ok 0, after_line l st).
Proof.
  intros Hl Hs. unfold render_config, after_line. rewrite parse_line_run by done.
  fold (opcode_of l). cbv zeta. destruct (decide (opcode_of l = SOC_HOST)) as [Hh|Hh].
  - rewrite Hh. rewrite decide_False by by intros (_ & ? & _). unfold noting.
    by rewrite andb_false_r.
  - destruct (decide (dropped _ st)) as [Hd|Hd]; [by destruct Hd as (-> & _)|].
    assert (option_line e (opcode_of l) (render_words (words l)) (noting (opcode_of l) st) =
      (Ok tt, if parsing st then noting (opcode_of l)
                (set_options (effect (opcode_of l) (words l) (options st)) st) else st)) as Hrun.
    { unfold noting. destruct (parsing st) eqn:Hp; cbn [andb].
      - rewrite option_line_effect; [|done|done|by destruct (once_only _)|done].
        f_equal. destruct (once_only _) eqn:Ho; cbn; by rewrite ?Hp.
      - by rewrite option_line_off. }
    unfold simple_line in Hs. destruct (opcode_of l); try done;
      by (erewrite M_bind_ok by exact Hrun).
Qed.

(** The text of a file: its lines, with comments and blank lines among them. *)
Definition remark (t : str) : Prop :=
  ∃ blanks rest, Forall (λ c, isblank c = true) blanks ∧ (t = blanks ∨ t = blanks ++ "#"%char :: rest).

Inductive file_text : list config_line → list str → Prop :=
| text_end : file_text [] []
| text_remark t lines text : remark t → file_text lines text → file_text lines (t :: text)
| text_line l lines text :
    config_line_ok l → simple_line l → file_text lines text →
    file_text (l :: lines) (render_config l :: text).

Lemma file_text_lines lines :
  Forall config_line_ok lines → Forall simple_line lines → file_text lines (render_config <$> lines).
Proof.
  induction lines as [|l lines IH]; [intros _ _; apply text_end|].
  intros [Hl Hls]%Forall_cons_1 [Hs Hss]%Forall_cons_1. apply text_line; auto.
Qed.

Lemma blanks_no_nul blanks : Forall (λ c, isblank c = true) blanks → NUL ∉ blanks.
Proof. intros Hb Hin. eapply list.Forall_forall in Hb; [|exact Hin]. done. Qed.

Lemma c_str_app a s : NUL ∉ a → c_str (a ++ s) = a ++ c_str s.
Proof.
  induction a as [|c a IH]; [done|]. intros [Hc Ha]%not_elem_of_cons. cbn.
  rewrite decide_False by congruence. by rewrite IH.
Qed.

Lemma drop_spaces_app a s c : isspace c = false → ∃ t, drop_spaces (a ++ c :: s) = t ++ c :: s.
Proof.
  intros Hc. induction a as [|x a [t IH]]; cbn; [rewrite Hc; by exists []|].
  destruct (isspace x); [by exists t|]. by exists (x :: a).
Qed.

Lemma remove_trailing_hash blanks s :
  ∃ rest, remove_trailing (blanks ++ "#"%char :: s) = blanks ++ "#"%char :: rest.
Proof.
  destruct blanks as [|b blanks]; cbn [app remove_trailing]; [by eexists|].
  rewrite rev_app_distr. cbn [rev]. rewrite <-app_assoc. cbn [app].
  destruct (drop_spaces_app (rev s) (rev blanks) "#"%char eq_refl) as [t ->].
  exists (rev t). rewrite rev_app_distr. cbn [rev]. rewrite rev_involutive, <-app_assoc. done.
Qed.

Lemma skip_blanks_all blanks : Forall (λ c, isblank c = true) blanks → skip_blanks blanks = [].
Proof. induction 1 as [|c s Hc Hs IH]; [done|]. cbn. by rewrite Hc. Qed.

Lemma remove_trailing_blanks blanks :
  Forall (λ c, isblank c = true) blanks → Forall (λ c, isblank c = true) (remove_trailing blanks).
Proof.
  intros Hb. destruct Hb as [|c s Hc Hs]; [constructor|]. cbn. constructor; [done|].
  rewrite list.Forall_forall in Hs |- *.
  assert (∀ t x, x ∈ drop_spaces t → x ∈ t) as Hd.
  { induction t as [|y t IH]; [done|]. intros x. cbn. destruct (isspace y); [|done]. intros ?%IH. by right. }
  intros x Hx. apply Hs. rewrite list_elem_of_In, <-in_rev, <-list_elem_of_In in Hx.
  by apply Hd in Hx; rewrite list_elem_of_In, <-in_rev, <-list_elem_of_In in Hx.
Qed.

Lemma skip_blanks_app blanks s :
  Forall (λ c, isblank c = true) blanks → skip_blanks (blanks ++ s) = skip_blanks s.
Proof. induction 1 as [|c b Hc Hb IH]; [done|]. cbn. by rewrite Hc. Qed.

Lemma remark_skipped t : remark t → skip_line (ssh_config_get_token (remove_trailing (c_str t))).1 = true.
Proof.
  intros (blanks & rest & Hb & [->| ->]).
  - rewrite c_str_id by by apply blanks_no_nul. unfold ssh_config_get_token.
    by rewrite skip_blanks_all by by apply remove_trailing_blanks.
  - rewrite c_str_app by by apply blanks_no_nul. cbn [c_str]. rewrite decide_False by done.
    destruct (remove_trailing_hash blanks (c_str rest)) as [rest' ->].
    unfold ssh_config_get_token. rewrite skip_blanks_app by done. cbn [skip_blanks].
    change (isblank "#"%char) with false. cbn iota. rewrite bool_decide_false by done. cbn [span_until].
    change (isblank "#"%char || bool_decide ("#"%char = "="%char) || bool_decide ("#"%char = LF)) with false. cbn iota.
    match goal with |- context [span_until ?f rest'] => by destruct (span_until f rest') as [[r d] q] end.
Qed.

Lemma remark_run fuel t st :
  remark t → ssh_config_parse_line e targethost (S fuel) t st = (Ok 0, st).
Proof.
  intros Hr%remark_skipped. cbn [ssh_config_parse_line].
  destruct (ssh_config_get_token _) as [kw s]. cbn [fst] in Hr. by rewrite Hr.
Qed.

Lemma file_text_run fuel lines text st :
  file_text lines text →
  parse_lines (ssh_config_parse_line e targethost (S fuel)) text st = (Ok 0, foldl (flip after_line) st lines).
Proof.
  intros Ht. revert st. induction Ht as [|t lines text Hr _ IH|l lines text Hl Hs _ IH]; intros st;
    [done|..]; cbn [parse_lines foldl].
  - by erewrite M_bind_ok by by apply remark_run.
  - by erewrite M_bind_ok by by apply simple_line_run.
Qed.

(** An option that the keyword [op] alone sets. *)
Lemma field_after {A} op (get : Options → A) (upd : str → A → A) lines st :
  once_only op = true → op ≠ SOC_HOST →
  (∀ ws o, get (effect op ws o) = upd (first_text ws) (get o)) →
  (∀ op' ws o, op' ≠ op → get (effect op' ws o) = get o) →
  get (options (foldl (flip after_line) st lines)) =
  if decide (op ∈ seen st) then get (options st)
  else match first_active op (parsing st) lines with
       | Some w => upd w (get (options st))
       | None => get (options st)
       end.
Proof.
  intros Honce Hop Hself Hother. revert st.
  induction lines as [|l lines IH]; intros st; cbn [foldl flip first_active]; [by case_decide|].
  rewrite IH. unfold after_line. destruct (decide (opcode_of l = SOC_HOST)) as [Hh|Hh]; [done|].
  destruct (parsing st) eqn:Hp.
  2: { rewrite Hp. destruct (decide (false = true ∧ _)) as [[? _]|_]; [done|done]. }
  destruct (decide (dropped (opcode_of l) st)) as [(_ & _ & Hin)|Hd].
  - rewrite Hp. destruct (decide (op ∈ seen st)) as [|Hn]; [done|].
    rewrite (decide_False (P := true = true ∧ _)); [done|]. intros [_ <-]. done.
  - unfold noting. cbn [parsing options seen set_options]. rewrite Hp. cbn [andb].
    destruct (decide (opcode_of l = op)) as [<-|Hne].
    + rewrite Honce. cbn [seen set_seen options parsing set_options]. rewrite decide_True by by left.
      rewrite (decide_True (P := true = true ∧ _)) by done. rewrite Hself.
      rewrite decide_False; [done|]. intros Hin. by destruct Hd.
    + rewrite (decide_False (P := true = true ∧ _)) by naive_solver.
      destruct (once_only (opcode_of l)); cbn [seen set_seen options parsing set_options];
        rewrite Hother, ?Hp by done; [|done].
      repeat case_decide; set_solver.
Qed.

(** What the lines with a keyword that counts each time add up to. *)
Lemma gathered_after {A} op (get : Options → A) (add : A → list word → A) lines st :
  once_only op = false → op ≠ SOC_HOST →
  (∀ ws o, get (effect op ws o) = add (get o) ws) →
  (∀ op' ws o, op' ≠ op → get (effect op' ws o) = get o) →
  get (options (foldl (flip after_line) st lines)) =
  foldl add (get (options st)) (words <$> active op (parsing st) lines).
Proof.
  intros Honce Hop Hself Hother. revert st.
  induction lines as [|l lines IH]; intros st; cbn [foldl flip active]; [done|].
  rewrite IH. unfold after_line. destruct (decide (opcode_of l = SOC_HOST)) as [Hh|Hh]; [done|].
  destruct (parsing st) eqn:Hp.
  2: { rewrite Hp. by destruct (decide (false = true ∧ _)) as [[? _]|_]. }
  destruct (decide (dropped (opcode_of l) st)) as [(_ & Ho & _)|Hd].
  - rewrite Hp. rewrite (decide_False (P := true = true ∧ _)); [done|]. intros [_ E]. congruence.
  - unfold noting. cbn [parsing options seen set_options]. rewrite Hp. cbn [andb].
    destruct (decide (opcode_of l = op)) as [<-|Hne].
    + rewrite Honce. cbn [options parsing set_options]. rewrite Hp.
      rewrite (decide_True (P := true = true ∧ _)) by done. cbn [fmap list_fmap foldl]. by rewrite Hself.
    + rewrite (decide_False (P := true = true ∧ _)) by naive_solver.
      by destruct (once_only (opcode_of l)); cbn [seen set_seen options parsing set_options];
        rewrite Hother, ?Hp by done.
Qed.

(** Values that are put at the end of a list. *)
Lemma foldl_snoc {A B} (f : A → option B) xs ys :
  foldl (λ ys x, match f x with Some y => ys ++ [y] | None => ys end) ys xs = ys ++ omap f xs.
Proof.
  revert ys. induction xs as [|x xs IH]; intros ys; cbn; [by rewrite app_nil_r|].
  rewrite IH. destruct (f x); [by rewrite <-app_assoc|done].
Qed.

(** ** Properties *)

Lemma parse_file_run fuel filename f lines text o :
  ssh_path_expand_tilde e (c_str filename) = Ok (Some f) →
  env_file e f = Some text → file_text lines text →
  parse_ssh_config_file e targethost (S fuel) filename o =
    Ok (0, options (foldl (flip after_line) (mkParse o true []) lines)).
Proof.
  intros Ht Hf Hl. unfold parse_ssh_config_file. rewrite Ht. cbn [mbind outcome_bind].
  by rewrite Hf, (file_text_run _ _ _ _ Hl).
Qed.

Lemma field_of_file {A} op (get : Options → A) (upd : str → A → A) lines o :
  once_only op = true → op ≠ SOC_HOST →
  (∀ ws o, get (effect op ws o) = upd (first_text ws) (get o)) →
  (∀ op' ws o, op' ≠ op → get (effect op' ws o) = get o) →
  get (options (foldl (flip after_line) (mkParse o true []) lines)) =
  match first_active op true lines with Some w => upd w (get o) | None => get o end.
Proof.
  intros. rewrite (field_after op get upd) by done. by rewrite decide_False by apply not_elem_of_nil.
Qed.

Lemma set_protocol_field {A} (get : Options → A) ws o :
  (∀ v o, get (set_ssh1 v o) = get o) → (∀ v o, get (set_ssh2 v o) = get o) →
  get (foldl set_protocol (set_ssh2 0 (set_ssh1 0 o)) ws) = get o.
Proof.
  intros H1 H2. assert (∀ o, get (foldl set_protocol o ws) = get o) as Hf.
  { induction ws as [|a ws IH]; intros o'; [done|]. cbn. rewrite IH. unfold set_protocol. by repeat case_match. }
  by rewrite Hf, H2, H1.
Qed.

#[local] Ltac other_field :=
  intros op' ws' o' Hne; destruct op'; cbn;
    first [done|by apply set_protocol_field|by repeat case_match].

Lemma config_fields fuel filename f lines text o :
  ssh_path_expand_tilde e (c_str filename) = Ok (Some f) →
  env_file e f = Some text → file_text lines text →
  let first op := first_active op true lines in
  ∃ o', parse_ssh_config_file e targethost (S fuel) filename o = Ok (0, o') ∧
    username o' = match username o with Some u => Some u | None => first SOC_USERNAME end ∧
    ProxyJump o' = match ProxyJump o with Some j => Some j | None => first SOC_PROXYJUMP end ∧
    port o' = (if port o =? 0 then default 0 (first SOC_PORT ≫= port_of) else port o) ∧
    host o' = match first SOC_HOSTNAME with Some h => Some h | None => host o end ∧
    knownhosts o' = match first SOC_KNOWNHOSTS with Some k => Some k | None => knownhosts o end ∧
    forward_agent o' = default (forward_agent o) (first SOC_FORWARDAGENT ≫= yesno_of) ∧
    local_forwards o' = local_forwards o ++ omap forward_of (words <$> active SOC_LOCALFORWARD true lines) ∧
    env_vars o' = env_vars o ++ omap variable_of (words <$> active SOC_SETENV true lines).
Proof.
  intros Ht Hf Hl first. eexists. split; [by eapply parse_file_run|]. subst first. cbv beta.
  repeat split.
  - rewrite (field_of_file SOC_USERNAME username (λ w old, match old with None => Some w | _ => old end));
      [by destruct (username o), (first_active _ _ _)|done..| |other_field].
    intros ws o'. cbn. by destruct (username o') eqn:E; cbn; rewrite ?E.
  - rewrite (field_of_file SOC_PROXYJUMP ProxyJump (λ w old, match old with None => Some w | _ => old end));
      [by destruct (ProxyJump o), (first_active _ _ _)|done..| |other_field].
    intros ws o'. cbn. by destruct (ProxyJump o') eqn:E; cbn; rewrite ?E.
  - rewrite (field_of_file SOC_PORT port (λ w old, if old =? 0 then default old (port_of w) else old));
      [|done..| |other_field].
    + destruct (port o =? 0) eqn:Hz; b2p; destruct (first_active _ _ _) as [w|]; cbn; try done.
      by rewrite Hz.
    + intros ws o'. cbn. by destruct (port o' =? 0) eqn:Hz; [destruct (port_of _)|].
  - rewrite (field_of_file SOC_HOSTNAME host (λ w _, Some w)); by done || other_field.
  - rewrite (field_of_file SOC_KNOWNHOSTS knownhosts (λ w _, Some w)); by done || other_field.
  - rewrite (field_of_file SOC_FORWARDAGENT forward_agent (λ w old, default old (yesno_of w)));
      [by destruct (first_active _ _ _)|done..| |other_field].
    intros ws o'. cbn. by destruct (yesno_of _).
  - rewrite (gathered_after SOC_LOCALFORWARD local_forwards
      (λ old ws, match forward_of ws with Some f => old ++ [f] | None => old end));
      [by rewrite foldl_snoc|done..| |other_field].
    intros ws o'. cbn [effect]. by destruct (forward_of ws).
  - rewrite (gathered_after SOC_SETENV env_vars
      (λ old ws, match variable_of ws with Some v => old ++ [v] | None => old end));
      [by rewrite foldl_snoc|done..| |other_field].
    intros ws o'. cbn [effect]. by destruct (variable_of ws).
Qed.

(** C29. The first value wins.  After a configuration file has been read, the user, the jump
    host, the port, the host name, the file of known hosts and the forwarding of the agent
    each have the value of the first line with their keyword in a section whose [Host] line
    selects the target (the lines before the first [Host] line apply to every target); a user,
    a jump host or a port that was set before the file was read stays, and so does an option
    without a line, or whose first line has no number, no yes and no no.  [LocalForward] and
    [SetEnv] lines of these sections add up, in their order.  The lines may be in any
    layout and case of keywords, with comments and blank lines among them; repetitions,
    other sections, other options and unsupported keywords do not matter.  The files have no
    [Include] and [Match] lines ([Match] tests nothing, [match_user_sets]), and host names in
    them are plain (no [~], no escapes, no [user@]). *)
Theorem config_first_value_wins fuel filename f lines text o :
  ssh_path_expand_tilde e (c_str filename) = Ok (Some f) →
  env_file e f = Some text → file_text lines text →
  let first op := first_active op true lines in
  ∃ o', parse_ssh_config_file e targethost (S fuel) filename o = Ok (0, o') ∧
    username o' = match username o with Some u => Some u | None => first SOC_USERNAME end ∧
    ProxyJump o' = match ProxyJump o with Some j => Some j | None => first SOC_PROXYJUMP end ∧
    port o' = (if port o =? 0 then default 0 (first SOC_PORT ≫= port_of) else port o) ∧
    host o' = match first SOC_HOSTNAME with Some h => Some h | None => host o end ∧
    knownhosts o' = match first SOC_KNOWNHOSTS with Some k => Some k | None => knownhosts o end ∧
    forward_agent o' = default (forward_agent o) (first SOC_FORWARDAGENT ≫= yesno_of) ∧
    local_forwards o' = local_forwards o ++ omap forward_of (words <$> active SOC_LOCALFORWARD true lines) ∧
    env_vars o' = env_vars o ++ omap variable_of (words <$> active SOC_SETENV true lines).
Proof. apply config_fields. Qed.

(** The items of all the lists of a [Host] line, against the host in lower case. *)
Definition selects (items : list pattern_item) : bool :=
  let hit i := item_matches (ssh_lowercase <$> targethost) true i in
  existsb (λ i, negb (negated i) && hit i) items && negb (existsb (λ i, negated i && hit i) items).

Lemma list_result_negative s l :
  (list_result s true l <? 0) = existsb (λ i, negated i && item_matches s true i) l.
Proof. unfold list_result. by repeat case_match. Qed.

Lemma list_results_negative s lists :
  existsb (λ l, list_result s true l <? 0) lists =
  existsb (λ i, negated i && item_matches s true i) (concat lists).
Proof.
  induction lists as [|l lists IH]; [done|]. cbn [existsb concat].
  by rewrite existsb_app, list_result_negative, IH.
Qed.

Lemma list_results_positive s lists :
  existsb (λ l, list_result s true l <? 0) lists = false →
  existsb (λ l, 0 <? list_result s true l) lists =
  existsb (λ i, negb (negated i) && item_matches s true i) (concat lists).
Proof.
  induction lists as [|l lists IH]; [done|]. cbn [existsb concat].
  rewrite existsb_app, list_result_negative. intros [Hn Hls]%orb_false_iff.
  rewrite <-IH by done. f_equal. unfold list_result. rewrite Hn. by case_match.
Qed.

Lemma list_results lists :
  existsb (λ l, 0 <? list_result (ssh_lowercase <$> targethost) true l) lists &&
    negb (existsb (λ l, list_result (ssh_lowercase <$> targethost) true l <? 0) lists) =
  selects (concat lists).
Proof.
  unfold selects. rewrite <-list_results_negative.
  destruct (existsb (λ l, list_result _ _ l <? 0) lists) eqn:Hn; cbn; [by rewrite !andb_false_r|].
  by rewrite list_results_positive.
Qed.

Lemma host_words_lists (f : Z → bool) s lists :
  Forall (Forall item_ok) lists →
  existsb (λ w, f (match_hostname s (word_text w)))
    ((λ its, Bare (join ","%char (render_item <$> its))) <$> lists) =
  existsb (λ l, f (list_result s true l)) lists.
Proof.
  induction 1 as [|its lists Hits Hi IH]; [done|]. cbn [existsb fmap list_fmap word_text].
  unfold match_hostname at 1, match_pattern_list at 1. rewrite pattern_list_items by done. by rewrite <-IH.
Qed.

(** A [Host] line decides whether the lines behind it apply: they do when a pattern of
    the line that is not negated matches the target and no negated one does, wherever
    they stand in the line; nothing else changes. *)
Theorem host_line_selects fuel l lists st :
  config_line_ok l → opcode_of l = SOC_HOST → Forall (Forall item_ok) lists →
  words l = (λ its, Bare (join ","%char (render_item <$> its))) <$> lists →
  ssh_config_parse_line e targethost (S fuel) (render_config l) st =
    (Ok 0, set_parsing (selects (concat lists)) st).
Proof.
  intros Hl Hop Hi Hw. rewrite simple_line_run; [|done|by unfold simple_line; rewrite Hop].
  unfold after_line. rewrite decide_True by done. rewrite <-list_results, Hw. unfold host_selected.
  by rewrite (host_words_lists (λ r, 0 <? r)), (host_words_lists (λ r, r <? 0)).
Qed.

(** What a line cannot do.  In a section that does not apply, only [Host], [Match] and
    [Include] lines have any effect; in one that applies, a second line with a keyword
    that counts only once has none; and no line ever makes the parser report an error. *)
Theorem lines_ignored fuel line st :
  (no_effect line st → ssh_config_parse_line e targethost (S fuel) line st = (Ok 0, st)) ∧
  (∀ r st', ssh_config_parse_line e targethost fuel line st = (Ok r, st') → r = 0).
Proof. split; [apply parse_line_no_effect|intros r st'; apply parse_line_result]. Qed.
End Lines.
