(* ===== verification/SshTermination.v ===== *)
(** * Termination of the ssh configuration parser

    The parser recurses through [Match] (into the rest of the line) and [Include] (into
    other files).  It terminates when the files do not include each other in a circle, and
    does not when they do. *)

From S2P Require Import Prelude CxxText SshPattern SshTokens SshOptions SshConfig.

(** ** More fuel *)

(** [m'] has the results of [m] wherever [m] has fuel enough. *)
Definition refined {S A} (m m' : M S A) : Prop :=
  ∀ s, (m s).1 ≠ Stop OutOfFuel → m' s = m s.

(** [m] never runs out of fuel. *)
Definition ends {S A} (m : M S A) : Prop := ∀ s, (m s).1 ≠ Stop OutOfFuel.

Lemma refined_refl {S A} (m : M S A) : refined m m.
Proof. done. Qed.

Lemma refined_bind {S A B} (m m' : M S A) (f f' : A → M S B) :
  refined m m' → (∀ a, refined (f a) (f' a)) → refined (m ≫= f) (m' ≫= f').
Proof.
  intros Hm Hf s. rewrite !M_bind_stop_inv. specialize (Hm s).
  destruct (m s) as [[a|x] s1]; cbn in *; intros Hs; rewrite Hm by (done || congruence); [by apply Hf|done].
Qed.

Lemma refined_ends {S A} (m m' : M S A) : refined m m' → ends m → ends m'.
Proof. intros Hr He s. rewrite Hr by apply He. apply He. Qed.

Lemma ends_ret {S A} (a : A) : ends (S := S) (mret a).
Proof. done. Qed.

Lemma ends_bind {S A B} (m : M S A) (f : A → M S B) : ends m → (∀ a, ends (f a)) → ends (m ≫= f).
Proof.
  intros Hm Hf s. rewrite M_bind_stop_inv. specialize (Hm s).
  destruct (m s) as [[a|x] s1]; [apply Hf|cbn in *; congruence].
Qed.

Lemma ends_get {S A} (f : S → M S A) : (∀ s, ends (f s)) → ends (get ≫= f).
Proof. intros Hf s. apply Hf. Qed.

Lemma ends_lift {S A} (o : outcome A) : o ≠ Stop OutOfFuel → ends (S := S) (lift o).
Proof. by intros Ho s. Qed.

#[export] Hint Resolve refined_refl ends_ret ends_bind ends_get ends_lift : et.

Section Termination.
Context (e : Env) (targethost : option str).
Implicit Types (parse : str → M ParseState Z).

Lemma parse_lines_refined parse parse' lines :
  (∀ line, refined (parse line) (parse' line)) →
  refined (parse_lines parse lines) (parse_lines parse' lines).
Proof.
  intros Hp. induction lines as [|line lines IH]; [done|]. cbn.
  apply refined_bind; [done|]. intros r. by case_match.
Qed.

Lemma local_parse_file_refined parse parse' f :
  (∀ line, refined (parse line) (parse' line)) →
  refined (local_parse_file e parse f) (local_parse_file e parse' f).
Proof.
  intros Hp. unfold local_parse_file. destruct (env_file e f); [|done].
  apply refined_bind; [by apply parse_lines_refined|done].
Qed.

Lemma include_matching_refined parse parse' dir matches names :
  (∀ line, refined (parse line) (parse' line)) →
  refined (include_matching e parse dir matches names) (include_matching e parse' dir matches names).
Proof.
  intros Hp. induction names as [|name names IH]; [done|]. cbn. apply refined_bind; [|done].
  case_match; [by apply local_parse_file_refined|done].
Qed.

Lemma include_line_refined parse parse' s :
  (∀ line, refined (parse line) (parse' line)) →
  refined (include_line e parse s) (include_line e parse' s).
Proof.
  intros Hp. unfold include_line. case_match; [|done]. apply refined_bind; [done|].
  intros [f|]; [|done]. case_match; [|by apply local_parse_file_refined].
  do 2 (case_match; [|done]).
  by apply include_matching_refined.
Qed.

Lemma parse_line_refined fuel line :
  refined (ssh_config_parse_line e targethost fuel line)
    (ssh_config_parse_line e targethost (S fuel) line).
Proof.
  revert line. induction fuel as [|fuel IH]; intros line; [by intros s|].
  remember (S fuel) as fuel' eqn:Hf. rewrite Hf at 1. cbn [ssh_config_parse_line].
  destruct (ssh_config_get_token _) as [kw s]. case_match; [done|].
  apply refined_bind; [done|]. intros st. cbv zeta. case_match; [done|].
  apply refined_bind; [done|]. intros []. subst fuel'.
  destruct (ssh_config_get_opcode kw); try done.
  apply refined_bind; [by apply include_line_refined|done].
Qed.

Lemma refined_trans {S A} (m1 m2 m3 : M S A) : refined m1 m2 → refined m2 m3 → refined m1 m3.
Proof. intros H12 H23 s Hs. rewrite H23; [by apply H12|]. by rewrite H12. Qed.

Lemma parse_line_more fuel fuel' line :
  (fuel <= fuel')%nat → refined (ssh_config_parse_line e targethost fuel line)
                           (ssh_config_parse_line e targethost fuel' line).
Proof.
  induction 1 as [|fuel' Hle IH]; [done|]. eapply refined_trans; [exact IH|apply parse_line_refined].
Qed.

(** ** What needs no fuel *)

Definition fuelless {A} (o : outcome A) : Prop := o ≠ Stop OutOfFuel.

Lemma fuelless_bind {A B} (o : outcome A) (f : A → outcome B) :
  fuelless o → (∀ a, fuelless (f a)) → fuelless (o ≫= f).
Proof. unfold fuelless. destruct o as [a|x]; [intros _ Hf; apply Hf|cbn; congruence]. Qed.

Lemma home_dir_fuelless : fuelless (ssh_get_user_home_dir e).
Proof. unfold ssh_get_user_home_dir. by case_match. Qed.

Lemma username_fuelless : fuelless (ssh_get_local_username e).
Proof. unfold ssh_get_local_username. by case_match. Qed.

Lemma tilde_fuelless d : fuelless (ssh_path_expand_tilde e d).
Proof.
  unfold ssh_path_expand_tilde, home_part. destruct d as [|c d]; [done|]. case_match; [|done].
  apply fuelless_bind; [|by intros []]. case_match; [case_match; [|done]|];
    (apply fuelless_bind; [apply home_dir_fuelless|done]).
Qed.

Lemma escape_loop_fuelless o p buf : fuelless (escape_loop e o p buf).
Proof.
  revert buf. induction p as [p IH] using (induction_ltof1 _ length). intros buf.
  destruct p as [|c p]; [done|]. cbn [escape_loop]. case_match.
  - destruct p as [|d p]; [done|]. apply fuelless_bind.
    + unfold escape_value. repeat case_match; try done;
        first [apply username_fuelless|unfold strdup; by case_match].
    + intros [x|]; [|done]. case_match; [done|]. apply IH. unfold ltof. cbn. lia.
  - case_match; [done|]. apply IH. unfold ltof. cbn. lia.
Qed.

Lemma escape_fuelless o s : fuelless (ssh_path_expand_escape e o s).
Proof.
  apply fuelless_bind; [apply tilde_fuelless|]. intros [r|]; [|done].
  case_match; [done|apply escape_loop_fuelless].
Qed.

Lemma options_set_fuelless t v o : fuelless (ssh_options_set e t v o).
Proof.
  assert (∀ v, fuelless (as_text v)) by by intros [].
  assert (∀ v, fuelless (as_int v)) by by intros [].
  assert (∀ v, fuelless (as_long v)) by by intros [].
  destruct t; cbn [ssh_options_set set_plain_option]; try done;
    unfold set_text, set_int, set_port_str, set_user, set_known_hosts, set_timeout_option;
    (apply fuelless_bind; [done|]); intros [x|]; try done; repeat case_match; try done.
  - apply fuelless_bind; [apply username_fuelless|]. by intros [].
  - apply fuelless_bind; [apply escape_fuelless|]. by intros [].
Qed.

Lemma set_option_ends t v : ends (set_option e t v).
Proof. apply ends_get. intros st. apply ends_bind; [apply ends_lift, options_set_fuelless|done]. Qed.

Lemma when_parsing_ends p f : (∀ p, ends (f p)) → ends (when_parsing p f).
Proof. intros Hf. apply ends_get. intros st. destruct p; [by case_match|done]. Qed.

Lemma set_text_option_ends t p : ends (set_text_option e t p).
Proof. apply when_parsing_ends. intros w. apply set_option_ends. Qed.

Lemma set_int_option_ends t to i : ends (set_int_option e t to i).
Proof. apply ends_get. intros st. case_match; [apply set_option_ends|done]. Qed.

#[local] Hint Resolve set_option_ends set_text_option_ends set_int_option_ends : et.

Lemma protocol_loop_ends ws : ends (protocol_loop e ws).
Proof.
  induction ws as [|w ws IH]; [done|]. cbn. apply ends_bind; [|done]. repeat case_match; auto with et.
Qed.

Lemma option_line_ends opcode s : ends (option_line e opcode s).
Proof.
  destruct opcode; cbn [option_line]; auto with et.
  - apply when_parsing_ends. intros p. apply ends_get. intros st.
    apply ends_bind; [apply ends_lift, escape_fuelless|auto with et].
  - apply ends_get. intros st. case_match; auto with et.
  - apply ends_get. intros st. case_match; auto with et.
  - apply when_parsing_ends. intros p. do 2 (apply ends_bind; [auto with et|intros _]).
    apply protocol_loop_ends.
  - apply ends_get. intros st. case_match; auto with et.
  - apply when_parsing_ends. intros p. apply ends_bind; [apply ends_lift, tilde_fuelless|].
    intros [f|]; auto with et.
  - unfold local_forward_line. destruct (ssh_config_get_str_tok s None). apply when_parsing_ends.
    intros p. case_match; auto with et.
Qed.

(** ** The files a line includes *)

Definition include_files (s : str) : list str :=
  match (ssh_config_get_str_tok s None).1 with
  | None => []
  | Some p =>
    match ssh_path_expand_tilde e p with
    | Ok (Some f) =>
      if contains "*"%char f || contains "?"%char f then
        let dir := match path_parent f with [] => lit "." | d => d end in
        match env_regex e (glob_regex (path_filename f)), env_directory e dir with
        | Some matches, Some names => path_append dir <$> filter (λ n, matches n = true) names
        | _, _ => []
        end
      else [f]
    | _ => []
    end
  end.

Inductive includes : str → str → Prop :=
| includes_here line kw s f :
    ssh_config_get_token (remove_trailing (c_str line)) = (kw, s) →
    ssh_config_get_opcode kw = SOC_INCLUDE → f ∈ include_files s → includes line f
| includes_match line kw s f :
    ssh_config_get_token (remove_trailing (c_str line)) = (kw, s) →
    ssh_config_get_opcode kw = SOC_MATCH → includes s f → includes line f.

(** The files do not include each other in a circle. *)
Definition ranked (rank : str → nat) : Prop :=
  ∀ f lines line g, env_file e f = Some lines → line ∈ lines → includes line g →
    (rank g < rank f)%nat.

Lemma include_matching_ends parse dir matches names :
  (∀ n, n ∈ names → matches n = true → ends (local_parse_file e parse (path_append dir n))) →
  ends (include_matching e parse dir matches names).
Proof.
  induction names as [|n names IH]; intros Hn; [done|]. cbn. apply ends_bind.
  - destruct (matches n) eqn:Hm; [apply Hn; [by left|done]|done].
  - intros _. apply IH. intros n' Hin. apply Hn. by right.
Qed.

Lemma include_line_ends parse s :
  (∀ f, f ∈ include_files s → ends (local_parse_file e parse f)) → ends (include_line e parse s).
Proof.
  unfold include_line, include_files. destruct (ssh_config_get_str_tok s None).1 as [p|]; [|done].
  pose proof (tilde_fuelless p) as Ht. destruct (ssh_path_expand_tilde e p) as [[f|]|x]; intros Hf.
  - intros st. rewrite run_lift_ok. revert st. change (ends (S := ParseState) (A := unit)) with (@ends ParseState unit).
    destruct (_ || _); [|by apply Hf; left].
    destruct (env_regex e _) as [m|]; [|done]. destruct (env_directory e _) as [names|]; [|done].
    apply include_matching_ends. intros n Hn Hm. apply Hf, list_elem_of_fmap.
    exists n. split; [done|]. by apply list_elem_of_filter.
  - done.
  - intros st. rewrite run_lift_stop. cbn. congruence.
Qed.

(** A bound for finitely many files. *)
Lemma common_fuel (P : nat → str → Prop) (l : list str) :
  (∀ n m x, (n <= m)%nat → P n x → P m x) →
  (∀ x, x ∈ l → ∃ n, P n x) → ∃ n, ∀ x, x ∈ l → P n x.
Proof.
  intros Hmono. induction l as [|y l IH]; intros Hl; [exists O; by intros x ?%not_elem_of_nil|].
  destruct (Hl y) as [n Hn]; [by left|]. destruct IH as [m Hm]; [intros x Hx; apply Hl; by right|].
  exists (n `max` m)%nat. intros x [->|Hx]%elem_of_cons; [eapply Hmono; [|done]; lia|].
  eapply Hmono; [|by apply Hm]. lia.
Qed.

Definition file_ends (fuel : nat) (f : str) : Prop :=
  ends (local_parse_file e (ssh_config_parse_line e targethost fuel) f).

Lemma file_ends_more n m f : (n <= m)%nat → file_ends n f → file_ends m f.
Proof.
  intros Hle. apply refined_ends, local_parse_file_refined. intros line. by apply parse_line_more.
Qed.

Lemma token_shorter line kw s :
  ssh_config_get_token (remove_trailing (c_str line)) = (kw, s) → kw ≠ [] →
  (length s < length line)%nat.
Proof.
  intros Ht Hkw. assert (length (remove_trailing (c_str line)) <= length line)%nat as Hl.
  { etrans; [|]. 2: { instantiate (1 := length (c_str line)). clear. induction line as [|c l IH]; cbn; [lia|]. case_decide; cbn; lia. }
    destruct (c_str line) as [|c l]; [done|]. cbn. rewrite length_rev.
    assert (∀ t, (length (drop_spaces t) <= length t)%nat) as Hd
      by (clear; induction t as [|c t IH]; cbn; [lia|]; case_match; cbn; lia).
    specialize (Hd (rev l)). rewrite length_rev in Hd. lia. }
  destruct (get_token_progress (remove_trailing (c_str line))) as [_ Hp]. rewrite Ht in Hp.
  assert (remove_trailing (c_str line) ≠ []) as Hne by (intros Hr; rewrite Hr in Ht; cbn in Ht; congruence).
  specialize (Hp Hne). cbn in Hp. lia.
Qed.

Lemma body_ends fuel line kw s :
  ssh_config_get_token (remove_trailing (c_str line)) = (kw, s) →
  (ssh_config_get_opcode kw = SOC_INCLUDE →
     ends (include_line e (ssh_config_parse_line e targethost fuel) s)) →
  (ssh_config_get_opcode kw = SOC_MATCH → ends (ssh_config_parse_line e targethost fuel s)) →
  ends (ssh_config_parse_line e targethost (S fuel) line).
Proof.
  intros Ht Hinc Hmatch. cbn [ssh_config_parse_line]. rewrite Ht. case_match; [done|].
  apply ends_get. intros st. cbv zeta. case_match; [done|]. apply ends_bind; [by case_match|intros _].
  destruct (ssh_config_get_opcode kw); try by apply Hmatch.
  all: apply ends_bind; [|done].
  all: first [by apply Hinc|apply option_line_ends|done].
Qed.

(** A line terminates when the files it includes do. *)
Lemma line_ends line :
  (∀ f, includes line f → ∃ fuel, file_ends fuel f) →
  ∃ fuel, ends (ssh_config_parse_line e targethost fuel line).
Proof.
  induction line as [line IH] using (induction_ltof1 _ length). intros Hinc.
  destruct (ssh_config_get_token (remove_trailing (c_str line))) as [kw s] eqn:Ht.
  destruct (decide (ssh_config_get_opcode kw = SOC_INCLUDE)) as [Hop|Hop].
  - destruct (common_fuel file_ends (include_files s)) as [fuel Hfuel];
      [by apply file_ends_more|intros f Hf; apply Hinc; by eapply includes_here|].
    exists (S fuel). eapply body_ends; [exact Ht| |by rewrite Hop].
    intros _. apply include_line_ends, Hfuel.
  - destruct (decide (ssh_config_get_opcode kw = SOC_MATCH)) as [Hm|Hm].
    + destruct (IH s) as [fuel Hfuel].
      * eapply token_shorter; [exact Ht|]. by intros ->.
      * intros f Hf. apply Hinc. by eapply includes_match.
      * exists (S fuel). by eapply body_ends; [exact Ht| |].
    + exists 1%nat. by eapply body_ends; [exact Ht| |].
Qed.

Lemma parse_lines_ends fuel lines :
  (∀ line, line ∈ lines → ends (ssh_config_parse_line e targethost fuel line)) →
  ends (parse_lines (ssh_config_parse_line e targethost fuel) lines).
Proof.
  induction lines as [|line lines IH]; intros Hl; [done|]. cbn.
  apply ends_bind; [apply Hl; by left|]. intros r. case_match; [done|].
  apply IH. intros l Hin. apply Hl. by right.
Qed.

Lemma lines_end lines :
  (∀ line f, line ∈ lines → includes line f → ∃ fuel, file_ends fuel f) →
  ∃ fuel, ends (parse_lines (ssh_config_parse_line e targethost fuel) lines).
Proof.
  intros Hl. destruct (common_fuel (λ n l, ends (ssh_config_parse_line e targethost n l)) lines) as [fuel Hf].
  - intros n m line Hle. apply refined_ends. by apply parse_line_more.
  - intros line Hin. apply line_ends. intros f. by apply Hl.
  - exists fuel. by apply parse_lines_ends.
Qed.

Lemma ranked_file_ends rank f : ranked rank → ∃ fuel, file_ends fuel f.
Proof.
  intros Hr. induction f as [f IH] using (induction_ltof1 _ rank). unfold file_ends, local_parse_file.
  destruct (env_file e f) as [lines|] eqn:Hf; [|by exists O].
  destruct (lines_end lines) as [fuel Hfuel].
  - intros line g Hin Hg. apply IH. by eapply Hr.
  - exists fuel. apply ends_bind; [done|]. done.
Qed.

(** ** Properties *)

(** C31. The parser terminates: when the configuration files do not include each other in a
    circle, some fuel is enough for a file, whatever the options are, and any more fuel
    gives the same result. *)
Theorem parse_terminates rank filename :
  ranked rank → ∃ fuel, ∀ o, parse_ssh_config_file e targethost fuel filename o ≠ Stop OutOfFuel ∧
    ∀ more, parse_ssh_config_file e targethost (fuel + more) filename o =
            parse_ssh_config_file e targethost fuel filename o.
Proof.
  intros Hr. unfold parse_ssh_config_file. pose proof (tilde_fuelless (c_str filename)) as Ht.
  destruct (ssh_path_expand_tilde _ _) as [[f|]|x]; cbn; [|by exists O|by exists O; split; [congruence|]].
  destruct (env_file e f) as [lines|] eqn:Hf; [|by exists O].
  destruct (lines_end lines) as [fuel Hfuel].
  { intros line g Hin Hg. by eapply ranked_file_ends. }
  exists fuel. intros o. specialize (Hfuel (mkParse o true [])). split.
  - destruct (parse_lines _ _ _) as [[|]]; cbn in *; congruence.
  - intros more. rewrite (parse_lines_refined (ssh_config_parse_line e targethost fuel)
      (ssh_config_parse_line e targethost (fuel + more))); [done| |done].
    intros line. apply parse_line_more. lia.
Qed.
End Termination.
