(* ===== verification/SshClient.v ===== *)
(** * The client's destination ([terminal/TerminalClientMain.cpp])

    How the client reads its host argument, and how it resolves a host through the user's
    and the system's ssh configuration. *)

From S2P Require Import Prelude CxxText SshPattern SshTokens SshOptions SshConfig SshConfigSpec.

(** ** Definitions *)

Definition SYSTEM_SSH_CONFIG_PATH : str := lit "/etc/ssh/ssh_config".
Definition USER_SSH_CONFIG_PATH : str := lit "/.ssh/config".

Record ResolvedSshConfig := mkResolved { resolved_hostname : str; resolved_username : str }.

(** [string(home_dir)] of a null pointer is undefined. *)
Definition resolveSshConfigHost (e : Env) (fuel : nat) (hostAlias : str) : outcome ResolvedSshConfig :=
  home_dir ← ssh_get_user_home_dir e;
  '(_, opts) ← ssh_options_set e SSH_OPTIONS_HOST (VStr (c_str hostAlias)) empty_options;
  match home_dir with
  | None => Stop (UB "std::string of a null pointer")
  | Some home_dir =>
    let target := Some (c_str hostAlias) in
    '(_, opts) ← parse_ssh_config_file e target fuel (home_dir ++ USER_SSH_CONFIG_PATH) opts;
    '(_, opts) ← parse_ssh_config_file e target fuel SYSTEM_SSH_CONFIG_PATH opts;
    Ok (mkResolved (default hostAlias (host opts)) (default [] (username opts)))
  end.

(** The host argument of the client: the user, the host and the port (which have the values
    of the other arguments before); [None] when the client exits with an error. *)
Record Destination := mkDestination { d_username : str; d_host : str; d_port : Z }.

Definition count_char (c : ascii) (s : str) : nat := length (filter (λ x, x = c) s).

(** A user name before the first [@] replaces the one that is given. *)
Definition split_user (u s : str) : str * str :=
  match find_char "@"%char s with
  | Some i => (take i s, drop (S i) s)
  | None => (u, s)
  end.

(** The text before and after the last colon. *)
Definition cut_port (s : str) : outcome (str * Z) :=
  match after_last ":"%char s with
  | Some t => port ← stoi t; Ok (take (length s - length t - 1) s, port)
  | None => Ok (s, 0)
  end.

Definition parse_host_arg (d : Destination) : outcome (option Destination) :=
  let '(u, h) := split_user (d_username d) (d_host d) in
  let as_is := mkDestination u h (d_port d) in
  let with_port := '(h, p) ← cut_port h; Ok (Some (mkDestination u h p)) in
  let colon_count := count_char ":"%char h in
  if decide (colon_count = 0)%nat then Ok (Some as_is)
  else if decide (colon_count = 1)%nat then with_port
  else
    match find (lit "::") h with
    | Some _ => Ok (Some as_is)
    | None =>
      if decide (colon_count = 7)%nat then Ok (Some as_is)
      else if decide (colon_count = 8)%nat then with_port
      else Ok None
    end.

(** ** Resolution *)

Section Resolve.
Context (e : Env).

(** What a configuration file holds; a file that cannot be read holds nothing. *)
Definition file_lines (f : str) (lines : list config_line) : Prop :=
  (∃ text, env_file e f = Some text ∧ file_text lines text) ∨ (env_file e f = None ∧ lines = []).

(** The value that the user's file has for a keyword that counts once, else the system's. *)
Definition user_first (ulines slines : list config_line) (alias : str) (op : ssh_config_opcode_e) : option str :=
  match first_active (Some alias) op true ulines with
  | Some v => Some v
  | None => first_active (Some alias) op true slines
  end.

(** The value that the system's file has, else the user's. *)
Definition system_first (ulines slines : list config_line) (alias : str) (op : ssh_config_opcode_e) : option str :=
  match first_active (Some alias) op true slines with
  | Some v => Some v
  | None => first_active (Some alias) op true ulines
  end.

Definition plain_alias (alias : str) : Prop := alias ≠ [] ∧ (NUL ∉ alias) ∧ ("@"%char ∉ alias).

Lemma set_host_alias alias :
  plain_alias alias →
  ssh_options_set e SSH_OPTIONS_HOST (VStr alias) empty_options = Ok (0, set_host (Some alias) empty_options).
Proof.
  intros (Hne & _ & Hat). destruct alias; [done|]. cbn. unfold set_host_option, done_with.
  by rewrite (proj2 (find_char_None _ _)).
Qed.

Lemma file_fields fuel alias f lines o :
  (NUL ∉ f) → head f = Some "/"%char → file_lines f lines →
  let first op := first_active (Some alias) op true lines in
  ∃ o', parse_ssh_config_file e (Some alias) (S fuel) f o = Ok (0, o') ∧
    host o' = match first SOC_HOSTNAME with Some h => Some h | None => host o end ∧
    username o' = match username o with Some u => Some u | None => first SOC_USERNAME end ∧
    ProxyJump o' = match ProxyJump o with Some j => Some j | None => first SOC_PROXYJUMP end ∧
    local_forwards o' = local_forwards o
      ++ omap forward_of (words <$> active (Some alias) SOC_LOCALFORWARD true lines).
Proof.
  intros Hf Hr [(text & Hl & Hok)|[Hn ->]] first.
  all: assert (ssh_path_expand_tilde e (c_str f) = Ok (Some f)) as Htilde
    by (rewrite c_str_id by done; destruct f as [|c f]; [done|by injection Hr as ->]).
  - destruct (config_fields e (Some alias) fuel f f lines text o Htilde Hl Hok)
      as (o' & Hp & Hun & Hj & _ & Hh & _ & _ & Hlf & _). by exists o'.
  - exists o. unfold parse_ssh_config_file. rewrite Htilde. cbn. rewrite Hn.
    split; [done|]. split; [done|]. rewrite app_nil_r. by destruct (username o), (ProxyJump o).
Qed.

Section Files.
Variables (home : str) (ulines slines : list config_line).
Hypothesis home_ok : (NUL ∉ home) ∧ head home = Some "/"%char.
Hypothesis user_file : file_lines (home ++ USER_SSH_CONFIG_PATH) ulines.
Hypothesis system_file : file_lines SYSTEM_SSH_CONFIG_PATH slines.

(** Both files, as [main] and [resolveSshConfigHost] read them. *)
Lemma both_files_fields fuel alias :
  plain_alias alias →
  ∃ o1 o2, parse_ssh_config_file e (Some alias) (S fuel) (home ++ USER_SSH_CONFIG_PATH) (set_host (Some alias) empty_options) = Ok (0, o1) ∧
    parse_ssh_config_file e (Some alias) (S fuel) SYSTEM_SSH_CONFIG_PATH o1 = Ok (0, o2) ∧
    host o2 = Some (default alias (system_first ulines slines alias SOC_HOSTNAME)) ∧
    username o2 = user_first ulines slines alias SOC_USERNAME ∧
    ProxyJump o2 = user_first ulines slines alias SOC_PROXYJUMP ∧
    local_forwards o2 = omap forward_of (words <$>
      (active (Some alias) SOC_LOCALFORWARD true ulines ++ active (Some alias) SOC_LOCALFORWARD true slines)).
Proof.
  intros Halias. destruct home_ok as [Hnul Hroot].
  destruct (file_fields fuel alias (home ++ USER_SSH_CONFIG_PATH) ulines (set_host (Some alias) empty_options))
    as (o1 & Hp1 & Hh1 & Hu1 & Hj1 & Hf1); [|by destruct home|done|].
  { rewrite not_elem_of_app. split; [done|]. apply (bool_decide_eq_false_1 (NUL ∈ _)). by vm_compute. }
  destruct (file_fields fuel alias SYSTEM_SSH_CONFIG_PATH slines o1) as (o2 & Hp2 & Hh2 & Hu2 & Hj2 & Hf2); [|done|done|].
  { apply (bool_decide_eq_false_1 (NUL ∈ _)). by vm_compute. }
  exists o1, o2. rewrite Hh2, Hu2, Hj2, Hf2, Hh1, Hu1, Hj1, Hf1. unfold user_first, system_first. cbn.
  split_and!; [done|done|..].
  - by destruct (first_active (Some alias) SOC_HOSTNAME true slines), (first_active (Some alias) SOC_HOSTNAME true ulines).
  - by destruct (first_active (Some alias) SOC_USERNAME true ulines).
  - by destruct (first_active (Some alias) SOC_PROXYJUMP true ulines).
  - by rewrite fmap_app, omap_app.
Qed.

Lemma resolve_alias fuel alias :
  ssh_get_user_home_dir e = Ok (Some home) → plain_alias alias →
  resolveSshConfigHost e (S fuel) alias =
    Ok (mkResolved (default alias (system_first ulines slines alias SOC_HOSTNAME))
                   (default [] (user_first ulines slines alias SOC_USERNAME))).
Proof.
  intros Hhome Halias. unfold resolveSshConfigHost. rewrite Hhome, c_str_id by apply Halias. cbn [mbind outcome_bind].
  rewrite set_host_alias by done. cbn [mbind outcome_bind].
  destruct (both_files_fields fuel alias Halias) as (o1 & o2 & -> & H2 & Hh & Hu & _).
  cbn [mbind outcome_bind]. rewrite H2. cbn [mbind outcome_bind]. by rewrite Hh, Hu.
Qed.
End Files.
(** The resolution of a host alias.  The user name is the one of the user's
    configuration, else the system's.  But the host name is the one of the system's
    configuration when that has one: the keywords that count once are forgotten between
    the two files, and a host name that is set does not stop the second file, so the
    system's overrides the user's, unlike in ssh. *)
Theorem resolve_host_result fuel alias home ulines slines :
  ssh_get_user_home_dir e = Ok (Some home) → (NUL ∉ home) → head home = Some "/"%char →
  alias ≠ [] → (NUL ∉ alias) → ("@"%char ∉ alias) →
  file_lines (home ++ USER_SSH_CONFIG_PATH) ulines →
  file_lines SYSTEM_SSH_CONFIG_PATH slines →
  let first op lines := first_active (Some alias) op true lines in
  resolveSshConfigHost e (S fuel) alias =
    Ok (mkResolved
      (default (default alias (first SOC_HOSTNAME ulines)) (first SOC_HOSTNAME slines))
      (default (default [] (first SOC_USERNAME slines)) (first SOC_USERNAME ulines))).
Proof.
  intros Hhome Hnul Hroot Hne Hal Hat Hu Hs first.
  rewrite (resolve_alias home ulines slines) by done. subst first. unfold system_first, user_first. do 2 f_equal.
  - by destruct (first_active _ SOC_HOSTNAME _ slines).
  - by destruct (first_active _ SOC_USERNAME _ ulines).
Qed.
End Resolve.

(** ** The host argument *)

Lemma after_last_none c t : c ∉ t → after_last c t = None.
Proof.
  induction t as [|x t IH]; [done|]. intros [Hx Ht]%not_elem_of_cons. cbn.
  rewrite IH by done. by rewrite bool_decide_false.
Qed.

Lemma after_last_app c h t : c ∉ t → after_last c (h ++ c :: t) = Some t.
Proof.
  intros Ht. induction h as [|x h IH]; cbn; [|by rewrite IH].
  rewrite after_last_none by done. by rewrite bool_decide_true.
Qed.

Lemma find_colons s :
  find (lit "::") s = None ↔ ∀ k, ¬ (s !! k = Some ":"%char ∧ s !! S k = Some ":"%char).
Proof.
  induction s as [|c s IH]; [split; [by intros _ k []|done]|]. cbn [find].
  destruct (decide (lit "::" `prefix_of` c :: s)) as [[k Hk]|Hp].
  - split; [done|]. intros Hn. destruct (Hn 0%nat). cbn in *. by injection Hk as -> ->.
  - rewrite fmap_None, IH. split; [|intros Hn k; exact (Hn (S k))].
    intros Hn [|k]; [|exact (Hn k)]. cbn. intros [[= ->] H2]. destruct Hp.
    destruct s as [|d s]; [done|]. injection H2 as ->. by exists s.
Qed.

Lemma count_char_app c a b : count_char c (a ++ b) = (count_char c a + count_char c b)%nat.
Proof. unfold count_char. by rewrite list.filter_app, length_app. Qed.

Lemma count_char_none c s : c ∉ s → count_char c s = 0%nat.
Proof.
  unfold count_char. induction s as [|x s IH]; [done|]. intros [Hx Hs]%not_elem_of_cons.
  rewrite filter_cons_False by congruence. by apply IH.
Qed.

Lemma cut_port_dec h p :
  0 <= p < 2 ^ 31 → cut_port (h ++ ":"%char :: dec p) = Ok (h, p).
Proof.
  intros Hp. unfold cut_port. rewrite after_last_app by by apply dec_not_in.
  rewrite stoi_dec by lia. cbn [mbind outcome_bind]. do 2 f_equal.
  rewrite length_app. cbn [length]. replace (_ - _ - 1)%nat with (length h) by lia.
  apply take_app_length.
Qed.

(** A host of the argument: a name or IPv4 address, a full IPv6 address, or (without a
    port) an abbreviated one. *)
Definition host_ok (h : str) (port : option Z) : Prop :=
  ("@"%char ∉ h) ∧
  ((":"%char ∉ h) ∨
   (count_char ":"%char h = 7%nat ∧ find (lit "::") h = None ∧ list.last h ≠ Some ":"%char) ∨
   (find (lit "::") h ≠ None ∧ port = None)).

Definition render_host_arg (u : option str) (h : str) (port : option Z) : str :=
  match u with Some u => u ++ ["@"%char] | None => [] end ++
  h ++ match port with Some p => ":"%char :: dec p | None => [] end.

Lemma find_colons_port h p :
  find (lit "::") h = None → list.last h ≠ Some ":"%char → find (lit "::") (h ++ ":"%char :: dec p) = None.
Proof.
  rewrite !find_colons. intros Hn Hl k [H1 H2].
  destruct (decide (S k < length h)%nat) as [Hk|Hk].
  - rewrite lookup_app_l in H1, H2 by lia. by destruct (Hn k).
  - destruct (decide (S k = length h)) as [He|He].
    + rewrite lookup_app_l in H1 by lia. destruct Hl. rewrite list.last_lookup, <-He. done.
    + rewrite lookup_app_r in H2 by lia. destruct (S k - length h)%nat as [|j] eqn:Hj; [lia|].
      cbn in H2. apply list_elem_of_lookup_2 in H2. by apply dec_not_in in H2.
Qed.

Lemma count_double h : find (lit "::") h ≠ None → (2 <= count_char ":"%char h)%nat.
Proof.
  induction h as [|c h IH]; [by intros []|]. cbn [find]. case_decide as Hp.
  - intros _. destruct Hp as [k [= -> ->]]. unfold count_char.
    rewrite !filter_cons_True by done. cbn. lia.
  - intros Hf. unfold count_char in *. rewrite filter_cons. destruct (find (lit "::") h) eqn:E; [|done].
    case_decide; cbn; specialize (IH ltac:(done)); lia.
Qed.

Lemma split_user_render u0 u s :
  (∀ v, u = Some v → "@"%char ∉ v) → ("@"%char ∉ s) →
  split_user u0 (match u with Some u => u ++ ["@"%char] | None => [] end ++ s) = (default u0 u, s).
Proof.
  intros Hu Hs. unfold split_user. destruct u as [v|]; [|by rewrite (proj2 (find_char_None _ _))].
  rewrite <-app_assoc. cbn [app]. rewrite find_char_app by by apply Hu.
  rewrite take_app_length. f_equal.
  by rewrite cons_middle, app_assoc, drop_app_length' by (rewrite length_app; cbn; lia).
Qed.

(** C32. The host argument [[user@]host[:port]] is read as it is meant, for names, IPv4
    addresses and IPv6 addresses in full, with or without a user and a port, and for
    abbreviated IPv6 addresses without a port (a port behind one could not be told from
    the address); what is not given stays as the other arguments set it. *)
Theorem parse_host_arg_render u0 p0 u h port :
  (∀ v, u = Some v → "@"%char ∉ v) → host_ok h port → (∀ p, port = Some p → 0 <= p < 2 ^ 31) →
  parse_host_arg (mkDestination u0 (render_host_arg u h port) p0) =
    Ok (Some (mkDestination (default u0 u) h (default p0 port))).
Proof.
  intros Hu [Hat Hh] Hp. unfold render_host_arg, parse_host_arg. cbn [d_host d_username d_port].
  set (tail := match port with Some p => ":"%char :: dec p | None => [] end).
  assert (("@"%char) ∉ h ++ tail) as Htail.
  { rewrite not_elem_of_app. split; [done|]. subst tail. destruct port as [p|]; [|by apply not_elem_of_nil].
    rewrite not_elem_of_cons. split; [done|]. by apply dec_not_in. }
  rewrite split_user_render by done.
  rewrite count_char_app. subst tail. destruct port as [p|]; cbn [default id].
  - change (":"%char :: dec p) with ([":"%char] ++ dec p). rewrite count_char_app, (count_char_none _ (dec p))
      by by apply dec_not_in. change (count_char ":"%char [":"%char]) with 1%nat. cbn [app].
    destruct Hh as [Hn|[(H7 & Hf & Hl)|[_ ?]]]; [| |done].
    + rewrite (count_char_none _ h) by done. cbn [Nat.add]. rewrite decide_False, decide_True by lia.
      by rewrite cut_port_dec by by apply Hp.
    + rewrite H7. cbn [Nat.add]. rewrite decide_False, decide_False by lia.
      rewrite find_colons_port by done. rewrite decide_False, decide_True by lia.
      by rewrite cut_port_dec by by apply Hp.
  - rewrite app_nil_r. change (count_char ":"%char []) with 0%nat. rewrite Nat.add_0_r.
    destruct Hh as [Hn|[(H7 & Hf & Hl)|[Hf _]]].
    + by rewrite (count_char_none _ h), decide_True.
    + rewrite H7, Hf. by rewrite decide_False, decide_False, decide_True by lia.
    + pose proof (count_double h Hf). rewrite decide_False, decide_False by lia.
      by destruct (find (lit "::") h).
Qed.

Lemma parse_host_arg_render_witness :
  parse_host_arg (mkDestination [] (lit "me@1:2:3:4:5:6:7:8:2022") 22) =
    Ok (Some (mkDestination (lit "me") (lit "1:2:3:4:5:6:7:8") 2022)).
Proof.
  refine (parse_host_arg_render [] 22 (Some (lit "me")) (lit "1:2:3:4:5:6:7:8") (Some 2022) _ _ _).
  - intros v [= <-]. apply (bool_decide_eq_false_1 ("@"%char ∈ _)). vm_compute. reflexivity.
  - split; [apply (bool_decide_eq_false_1 ("@"%char ∈ _)); vm_compute; reflexivity|].
    right. left. split; [vm_compute; reflexivity|]. split; [vm_compute; reflexivity|discriminate].
  - intros p [= <-]. lia.
Defined.
