(* ===== verification/SshMisread.v ===== *)
(** * Configuration lines that do not do what they say

    Escapes and ports are read as numbers and texts of the given bounds; [SetEnv] wants
    quotes, [Match] does not test anything, and a file that includes itself is read
    without end. *)

From S2P Require Import Prelude CxxText SshPattern SshTokens SshOptions SshConfig SshConfigSpec.

(** ** Escapes *)

Inductive piece := Text (t : str) | Escape (c : ascii).

Definition render_piece (p : piece) : str :=
  match p with Text t => t | Escape c => ["%"%char; c] end.

(** The text of a piece, when the escape has one. *)
Definition piece_value (e : Env) (o : Options) (p : piece) (v : str) : Prop :=
  match p with
  | Text t => v = t ∧ ("%"%char ∉ t)
  | Escape c => escape_value e o c = Ok (Some v)
  end.

Section Misread.
Context (e : Env) (targethost : option str).

Lemma escape_loop_text o t rest buf :
  ("%"%char ∉ t) → len buf + len t < MAX_BUF_SIZE →
  escape_loop e o (t ++ rest) buf = escape_loop e o rest (buf ++ t).
Proof.
  revert buf. induction t as [|c t IH]; intros buf Ht Hl; [by rewrite app_nil_r|].
  apply not_elem_of_cons in Ht as [Hc Ht]. cbn [app escape_loop length] in *.
  rewrite bool_decide_false by congruence. rewrite (proj2 (Z.leb_gt _ _)) by lia.
  rewrite IH; [by rewrite <-app_assoc|done|rewrite length_app; cbn; lia].
Qed.

Lemma escape_loop_pieces o ps vs buf :
  Forall2 (piece_value e o) ps vs → len buf + len (concat vs) < MAX_BUF_SIZE →
  escape_loop e o (concat (render_piece <$> ps)) buf = Ok (Some (buf ++ concat vs)).
Proof.
  intros Hps. revert buf. induction Hps as [|p v ps vs Hp Hps IH]; intros buf Hl;
    [by rewrite app_nil_r|]. cbn [concat fmap list_fmap] in *. rewrite length_app in Hl.
  destruct p as [t|c]; cbn in Hp.
  - destruct Hp as [-> Ht]. cbn [render_piece]. rewrite escape_loop_text by (done || lia).
    rewrite IH by (rewrite length_app; lia). by rewrite app_assoc.
  - cbn [render_piece app escape_loop]. rewrite bool_decide_true by done. rewrite Hp.
    cbn [mbind outcome_bind]. rewrite (proj2 (Z.leb_gt _ _)) by lia.
    rewrite IH by (rewrite length_app; lia). by rewrite app_assoc.
Qed.

Lemma escape_loop_bounded o p buf r :
  len buf < MAX_BUF_SIZE → escape_loop e o p buf = Ok (Some r) → len r < MAX_BUF_SIZE.
Proof.
  revert buf. induction p as [p IH] using (induction_ltof1 _ length). intros buf Hb.
  destruct p as [|c p]; [by intros [= <-]|]. cbn [escape_loop]. case_bool_decide.
  - destruct p as [|d p]; [by intros [= <-]|]. destruct (escape_value e o d) as [[x|]|]; try done.
    cbn [mbind outcome_bind]. case_match; [done|]. b2p.
    apply IH; [unfold ltof; cbn; lia|]. rewrite length_app. lia.
  - case_match; [done|]. b2p. apply IH; [unfold ltof; cbn; lia|]. rewrite length_app. cbn. lia.
Qed.

(** Escapes are replaced by their values, and everything else is kept, as long as the
    result is shorter than the buffer (a longer one is an error, never an overflow). *)
Theorem expand_escape_pieces o ps vs :
  Forall2 (piece_value e o) ps vs →
  head (concat (render_piece <$> ps)) ≠ Some "~"%char →
  len (concat (render_piece <$> ps)) <= MAX_BUF_SIZE →
  (len (concat vs) < MAX_BUF_SIZE →
     ssh_path_expand_escape e o (concat (render_piece <$> ps)) = Ok (Some (concat vs))) ∧
  (∀ r, ssh_path_expand_escape e o (concat (render_piece <$> ps)) = Ok (Some r) →
     len r < MAX_BUF_SIZE).
Proof.
  intros Hps Ht Hl.
  assert (ssh_path_expand_escape e o (concat (render_piece <$> ps)) =
          escape_loop e o (concat (render_piece <$> ps)) []) as ->.
  { unfold ssh_path_expand_escape, ssh_path_expand_tilde.
    destruct (concat _) as [|c t]; [done|]. rewrite bool_decide_false by (by intros ->).
    cbn [mbind outcome_bind]. by rewrite (proj2 (Z.ltb_ge _ _)) by lia. }
  split; [intros Hlen; by rewrite (escape_loop_pieces o ps vs [])|]. intros r. by apply escape_loop_bounded.
Qed.

(** ** Numbers *)

(** A port is taken modulo 2^16 without a complaint: [Port 65536] sets it to 0, which
    means that it is not set. *)
Theorem port_wraps z o :
  0 < z < 2 ^ 63 →
  ssh_options_set e SSH_OPTIONS_PORT_STR (VStr (dec z)) o = Ok (0, set_port (z mod 65536) o).
Proof.
  intros Hz. rewrite set_port_run by apply dec_ne. unfold port_of. rewrite strtol_dec by lia.
  cbn [default id]. rewrite (proj2 (Z.leb_gt _ _)) by lia.
  by change 0xffff with (Z.ones 16); rewrite Z.land_ones.
Qed.

(** ** [Match], [SetEnv], [Include] *)

Lemma match_line_run fuel l st :
  config_line_ok l → opcode_of l = SOC_MATCH →
  ssh_config_parse_line e targethost (S fuel) (render_config l) st =
    ssh_config_parse_line e targethost fuel (render_words (words l)) st.
Proof.
  intros Hl Hop. unfold render_config. rewrite parse_line_run by done. fold (opcode_of l).
  rewrite Hop. cbv zeta. rewrite decide_False by by intros (_ & ? & _).
  unfold noting. by rewrite andb_false_r.
Qed.

(** [Match] tests nothing: what follows it is parsed as a line of its own.  So
    [Match user NAME], a condition on the user, sets the user name to log in with. *)
Theorem match_user_sets fuel l k u st :
  config_line_ok l → opcode_of l = SOC_MATCH → words l = [Bare k; Bare u] →
  ssh_config_get_opcode k = SOC_USERNAME → head k ≠ Some "#"%char →
  parsing st = true → username (options st) = None → SOC_USERNAME ∉ seen st →
  ∃ st', ssh_config_parse_line e targethost (S (S fuel)) (render_config l) st = (Ok 0, st') ∧
    username (options st') = Some u.
Proof.
  intros Hl Hop Hw Hk Hcom Hp Hu Hs. rewrite match_line_run by done. rewrite Hw.
  pose proof (line_words _ _ _ _ Hl) as Hws. rewrite Hw in Hws.
  apply Forall_cons_1 in Hws as [Hkw Hws].
  set (l' := mkLine [] k [" "%char] [Bare u]).
  assert (config_line_ok l') as Hl' by (constructor; try done; by repeat constructor).
  assert (simple_line l') as Hsim by (unfold simple_line, opcode_of; cbn [kw l']; by rewrite Hk).
  change (render_words [Bare k; Bare u]) with (render_config l').
  rewrite simple_line_run by done. eexists. split; [done|]. unfold after_line, opcode_of. cbn [kw l'].
  rewrite Hk. rewrite decide_False by done. rewrite Hp.
  rewrite decide_False by by intros (_ & _ & ?). unfold noting. cbn. rewrite Hp. cbn. by rewrite Hu.
Qed.

Lemma bare_no_equal t : clean_word (Bare t) → "="%char ∉ t.
Proof.
  intros [[_ [Hp _]] _] Hin. cbn in Hp. eapply list.Forall_forall in Hp; [|exact Hin].
  by destruct Hp as (_ & ? & _).
Qed.

Lemma bare_no_lf t : clean_word (Bare t) → LF ∉ t.
Proof.
  intros [[_ [Hp _]] _] Hin. cbn in Hp. eapply list.Forall_forall in Hp; [|exact Hin].
  by destruct Hp as (_ & _ & ?).
Qed.

(** The line [SetEnv NAME=value] is read as the word [NAME]. *)
Lemma setenv_line_run fuel k name value st :
  clean_word (Bare k) → ssh_config_get_opcode k = SOC_SETENV → head k ≠ Some "#"%char →
  clean_word (Bare name) → clean_word (Bare value) →
  ssh_config_parse_line e targethost (S fuel) (k ++ " "%char :: name ++ "="%char :: value) st =
    (_ ← set_text_option e SSH_OPTIONS_SETENV (Some name); mret 0) st.
Proof.
  intros Hk Hop Hcom Hn Hv. pose proof (keyword_not_skipped k Hk Hcom) as Hskip.
  destruct (clean_render _ Hk) as (Hnk & _).
  destruct (clean_render _ Hn) as (Hnn & _). destruct (clean_render _ Hv) as (Hnv & Hne & c & Hl & Hc).
  cbn [render_word] in *. destruct Hk as [Hwk _], Hn as [Hwn _], Hv as [Hwv _].
  set (rest := name ++ "="%char :: value).
  assert (ssh_config_get_token (remove_trailing (c_str (k ++ " "%char :: rest))) = (k, rest)) as Htok.
  { rewrite c_str_id by (subst rest; rewrite !not_elem_of_app, !not_elem_of_cons, not_elem_of_app, not_elem_of_cons; done).
    rewrite (remove_trailing_id _ c).
    - apply (get_token_word (Bare k) [" "%char]); [done|by repeat constructor| |done].
      by apply (starts_render (Bare name)).
    - subst rest. rewrite cons_middle, app_assoc, app_assoc, cons_middle, app_assoc.
      by rewrite last_app_ne.
    - done. }
  assert (ssh_config_get_str_tok rest None = (Some name, value)) as Hword.
  { unfold ssh_config_get_str_tok, rest.
    assert (ssh_config_get_token (name ++ "="%char :: value) = (name, value)) as ->.
    { apply (get_token_word (Bare name) ["="%char]); [done|by repeat constructor| |done].
      pose proof (starts_render (Bare value) [] Hwv) as Hst. cbn in Hst. by rewrite app_nil_r in Hst. }
    destruct Hwn as [? _]. by destruct name. }
  cbn [ssh_config_parse_line]. rewrite Htok, Hskip, run_get, Hop. cbn [once_only].
  rewrite andb_false_r. cbn [andb]. rewrite run_ret. cbn [option_line]. by rewrite Hword.
Qed.

Lemma set_text_line t w st r :
  parsing st = true → ssh_options_set e t (VStr w) (options st) = Ok r →
  (set_text_option e t (Some w) ≫= λ _, mret 0 : M ParseState Z) st = (Ok 0, set_options r.2 st).
Proof.
  intros Hp Hr. erewrite M_bind_ok; [reflexivity|]. unfold set_text_option, when_parsing.
  rewrite run_get, Hp. by apply set_option_run.
Qed.

(** [SetEnv NAME=value] is ignored as it is written in ssh: the word ends at the equals
    sign, and what is left is no assignment.  Only in quotes does it set the variable. *)
Theorem setenv_needs_quotes fuel k name value st :
  clean_word (Bare k) → ssh_config_get_opcode k = SOC_SETENV → head k ≠ Some "#"%char →
  clean_word (Bare name) → clean_word (Bare value) → QUOTE ∉ name ++ value → parsing st = true →
  ssh_config_parse_line e targethost (S fuel) (k ++ " "%char :: name ++ "="%char :: value) st =
    (Ok 0, st) ∧
  ssh_config_parse_line e targethost (S fuel)
    (k ++ " "%char :: QUOTE :: (name ++ "="%char :: value) ++ [QUOTE]) st =
    (Ok 0, set_options (set_env_vars (env_vars (options st) ++ [(name, value)]) (options st)) st).
Proof.
  intros Hk Hop Hcom Hn Hv Hq Hp. apply not_elem_of_app in Hq as [Hqn Hqv].
  pose proof (bare_no_equal name Hn) as Heq. split.
  - rewrite setenv_line_run by done. assert (name ≠ []) as Hne by (by destruct Hn as [[? _] _]).
    erewrite set_text_line by (done || by apply set_text_ne).
    unfold add_env_var. cbn [id snd]. rewrite (proj2 (find_char_None _ _)) by done.
    by rewrite set_options_id.
  - set (l := mkLine [] k [" "%char] [Quoted (name ++ "="%char :: value)]).
    assert (config_line_ok l) as Hl.
    { constructor; try done; [by repeat constructor|]. repeat constructor; cbn.
      - by destruct name.
      - rewrite not_elem_of_app, not_elem_of_cons. done.
      - rewrite not_elem_of_app, not_elem_of_cons. split; [|split; [done|]]; by apply bare_no_lf.
      - rewrite not_elem_of_app, not_elem_of_cons. split; [apply Hn|split; [done|apply Hv]]. }
    change (k ++ _) with (render_line [] k [" "%char] (words l)). rewrite parse_line_run by done.
    rewrite Hop. cbv zeta. rewrite decide_False by by intros (_ & ? & _). unfold noting.
    rewrite andb_false_r. cbn [option_line words l]. rewrite get_str_tok_word by apply Hl. cbn [fst word_text].
    erewrite set_text_line by (done || (apply set_text_ne; by destruct name)).
    unfold add_env_var. cbn [id snd]. rewrite find_char_app by done.
    rewrite take_app_length. do 5 f_equal.
    by rewrite cons_middle, app_assoc, drop_app_length' by (rewrite length_app; cbn; lia).
Qed.

(** A file that includes itself is never read to its end: no fuel is enough. *)
Theorem include_cycle_diverges fuel filename f l w o :
  ssh_path_expand_tilde e (c_str filename) = Ok (Some f) →
  env_file e f = Some [render_config l] →
  config_line_ok l → opcode_of l = SOC_INCLUDE → words l = [w] →
  ssh_path_expand_tilde e (word_text w) = Ok (Some f) → ("*"%char ∉ f) → ("?"%char ∉ f) →
  parse_ssh_config_file e targethost fuel filename o = Stop OutOfFuel.
Proof.
  intros Hf Hfile Hl Hop Hw Htilde Hstar Hq.
  assert (∀ st, ∃ st', ssh_config_parse_line e targethost fuel (render_config l) st = (Stop OutOfFuel, st'))
    as Hstuck.
  { induction fuel as [|fuel IH]; intros st; [by exists st|]. destruct (IH st) as [st' Hst'].
    exists st'. unfold render_config. rewrite parse_line_run by done. fold (opcode_of l).
    rewrite Hop. cbv zeta. rewrite decide_False by by intros (_ & ? & _).
    unfold noting. rewrite andb_false_r. apply M_bind_stop. unfold include_line.
    pose proof (line_words _ _ _ _ Hl) as Hws. rewrite Hw in Hws. rewrite Hw, get_str_tok_word by done.
    cbn [fst]. rewrite Htilde, run_lift_ok. unfold contains. rewrite !bool_decide_false by done.
    cbn [orb]. unfold local_parse_file. rewrite Hfile. apply M_bind_stop. cbn [parse_lines].
    by apply M_bind_stop. }
  unfold parse_ssh_config_file. rewrite Hf. cbn [mbind outcome_bind]. rewrite Hfile. cbn [parse_lines].
  destruct (Hstuck (mkParse o true [])) as [st' Hst]. by erewrite M_bind_stop.
Qed.
End Misread.
