(* ===== verification/SshExamples.v ===== *)
(** * The ssh configuration theorems at work

    A user's configuration, a system's and one that includes itself, and the theorems
    about the parser applied to them. *)

From S2P Require Import Prelude CxxText SshPattern SshTokens SshOptions SshConfig SshConfigSpec.
From S2P Require Import SshTermination SshClient SshMisread.

(** ** Deciding that lines are well formed *)

#[local] Instance word_ok_dec w : Decision (word_ok w).
Proof. unfold word_ok. destruct w; apply _. Defined.

#[local] Instance clean_word_dec w : Decision (clean_word w).
Proof. unfold clean_word. destruct w; apply _. Defined.

Fixpoint is_separator (b : bool) (s : str) : bool :=
  match s with
  | [] => true
  | c :: s' =>
    if isblank c then is_separator b s' else bool_decide (c = "="%char) && negb b && is_separator true s'
  end.

Lemma is_separator_spec b s : is_separator b s = true → separator b s.
Proof.
  revert b. induction s as [|c s IH]; intros b; [constructor|]. cbn.
  destruct (isblank c) eqn:Hc; [intros Hs; apply sep_blank; [done|by apply IH]|].
  intros Hs. b2p. subst. by apply sep_equal, IH.
Qed.

Definition line_okb (l : config_line) : bool :=
  bool_decide (Forall (λ c, isblank c = true) (indent l)) &&
  bool_decide (clean_word (Bare (kw l))) && bool_decide (head (kw l) ≠ Some "#"%char) &&
  is_separator false (sep l) && bool_decide (sep l ≠ []) && bool_decide (words l ≠ []) &&
  bool_decide (Forall clean_word (words l)).

Lemma line_okb_spec l : line_okb l = true → config_line_ok l.
Proof.
  unfold line_okb. intros H. b2p. constructor; try done. by apply is_separator_spec.
Qed.

Lemma lines_okb_spec ls : forallb line_okb ls = true → Forall config_line_ok ls.
Proof.
  intros H. apply list.Forall_forall. intros l Hl. apply line_okb_spec.
  rewrite forallb_forall in H. by apply H, list_elem_of_In.
Qed.

(** ** The files *)

Definition line (i k s : String.string) (ws : list word) : config_line :=
  mkLine (lit i) (lit k) (lit s) ws.

Definition u_lines : list config_line :=
  [line "" "Host" " " [Bare (lit "*.corp,!old.*"); Bare (lit "web")];
   line "  " "HostName" " " [Bare (lit "web.example.com")];
   line "  " "USER" " = " [Quoted (lit "bob")];
   line "  " "LocalForward" " " [Bare (lit "8000"); Bare (lit "db:5432")];
   line "  " "SetEnv" " " [Quoted (lit "LANG=C")];
   line "" "Host" " " [Bare (lit "*")];
   line "  " "User" " " [Bare (lit "other")];
   line "  " "LocalForward" " " [Bare (lit "3000"); Bare (lit "localhost:3001")];
   line "  " "Port" " " [Bare (lit "2222")]].

Definition s_lines : list config_line :=
  [line "" "HostName" "=" [Bare (lit "proxy.example.com")];
   line "" "User" " " [Bare (lit "guest")]].

(** The user's file, with a comment and a blank line. *)
Definition u_text : list str := lit "  # the web server" :: [] :: (render_config <$> u_lines).

Definition loop_line : config_line := line "" "Include" " " [Bare (lit "/loop")].

Definition x_files (f : str) : option (list str) :=
  if bool_decide (f = lit "/home/me/.ssh/config") then Some u_text
  else if bool_decide (f = SYSTEM_SSH_CONFIG_PATH) then Some (render_config <$> s_lines)
  else if bool_decide (f = lit "/loop") then Some [render_config loop_line]
  else None.

Definition x_env : Env :=
  mkEnv (PwEntry (lit "/home/me") (lit "me")) None (λ _, None) true x_files (λ _, None) (λ _, None).

Definition web : option str := Some (lit "web").

Lemma u_lines_ok : Forall config_line_ok u_lines ∧ Forall simple_line u_lines.
Proof.
  split; [apply lines_okb_spec; vm_compute; reflexivity|].
  repeat apply Forall_cons_2; try apply Forall_nil_2; try exact I.
  split; [discriminate|]. split; [apply (bool_decide_eq_false_1 ("%"%char ∈ _)); vm_compute; reflexivity|].
  split; [apply (bool_decide_eq_false_1 ("@"%char ∈ _)); vm_compute; reflexivity|vm_compute; reflexivity].
Qed.

Lemma s_lines_ok : Forall config_line_ok s_lines ∧ Forall simple_line s_lines.
Proof.
  split; [apply lines_okb_spec; vm_compute; reflexivity|].
  repeat apply Forall_cons_2; try apply Forall_nil_2; try exact I.
  split; [discriminate|]. split; [apply (bool_decide_eq_false_1 ("%"%char ∈ _)); vm_compute; reflexivity|].
  split; [apply (bool_decide_eq_false_1 ("@"%char ∈ _)); vm_compute; reflexivity|vm_compute; reflexivity].
Qed.

Lemma u_file : file_text u_lines u_text.
Proof.
  apply text_remark; [|apply text_remark].
  - exists (lit "  "), (lit " the web server"). split; [by repeat constructor|by right].
  - exists [], []. split; [constructor|by left].
  - apply file_text_lines; apply u_lines_ok.
Qed.

Lemma s_file : file_text s_lines (render_config <$> s_lines).
Proof. apply file_text_lines; apply s_lines_ok. Qed.

(** ** Witnesses *)

Lemma config_first_value_wins_witness :
  ∃ o', parse_ssh_config_file x_env web 9 (lit "~/.ssh/config") empty_options = Ok (0, o') ∧
    username o' = Some (lit "bob") ∧ host o' = Some (lit "web.example.com") ∧ port o' = 2222 ∧
    local_forwards o' = [(8000, 5432); (3000, 3001)] ∧ env_vars o' = [(lit "LANG", lit "C")].
Proof.
  destruct (config_first_value_wins x_env web 8 (lit "~/.ssh/config") (lit "/home/me/.ssh/config")
    u_lines u_text empty_options) as (o' & Hp & Hu & _ & Hport & Hh & _ & _ & Hf & He);
    [vm_compute; reflexivity|vm_compute; reflexivity|apply u_file|].
  exists o'. split; [exact Hp|]. split; [rewrite Hu; vm_compute; reflexivity|].
  split; [rewrite Hh; vm_compute; reflexivity|]. split; [rewrite Hport; vm_compute; reflexivity|].
  split; [rewrite Hf; vm_compute; reflexivity|rewrite He; vm_compute; reflexivity].
Defined.

Lemma host_line_selects_witness :
  ssh_config_parse_line x_env web 1 (lit "Host *.corp,!old.* web") (mkParse empty_options false []) =
    (Ok 0, mkParse empty_options true []).
Proof.
  refine (host_line_selects x_env web 0 (line "" "Host" " " [Bare (lit "*.corp,!old.*"); Bare (lit "web")])
    [[mkItem false (lit "*.corp"); mkItem true (lit "old.*")]; [mkItem false (lit "web")]]
    (mkParse empty_options false []) _ eq_refl _ eq_refl); [apply line_okb_spec; vm_compute; reflexivity|].
  repeat (apply Forall_cons_2 || apply Forall_nil_2); (split; [discriminate|split]);
    try (apply (bool_decide_eq_false_1 (","%char ∈ _)); vm_compute; reflexivity);
    (split; [vm_compute; lia|discriminate]).
Defined.

Lemma lines_ignored_witness :
  ssh_config_parse_line x_env web 1 (lit "User bob") (mkParse empty_options false []) =
    (Ok 0, mkParse empty_options false []) ∧
  ∀ r st', ssh_config_parse_line x_env web 1 (lit "Port x") (mkParse empty_options true []) = (Ok r, st') → r = 0.
Proof.
  split.
  - apply (lines_ignored x_env web 0 (lit "User bob") (mkParse empty_options false [])). left.
    split; [reflexivity|].
    apply (bool_decide_eq_false_1 (line_opcode _ ∈ [SOC_HOST; SOC_MATCH; SOC_INCLUDE])). vm_compute. reflexivity.
  - apply (lines_ignored x_env web 1).
Defined.

(** The user's and the system's files include nothing; [/loop] must be left out. *)
Definition y_env : Env :=
  mkEnv (PwEntry (lit "/home/me") (lit "me")) None (λ _, None) true
    (λ f, if bool_decide (f = lit "/a") then Some [lit "Include /b"]
          else if bool_decide (f = lit "/b") then Some [lit "User bob"] else None)
    (λ _, None) (λ _, None).

Definition y_rank (f : str) : nat := if bool_decide (f = lit "/a") then 1%nat else 0%nat.

Lemma includes_inv e l g :
  includes e l g →
  let '(kw, s) := ssh_config_get_token (remove_trailing (c_str l)) in
  (ssh_config_get_opcode kw = SOC_INCLUDE ∧ g ∈ include_files e s) ∨
  (ssh_config_get_opcode kw = SOC_MATCH ∧ includes e s g).
Proof. intros H. inversion H as [? ? ? ? Ht|? ? ? ? Ht]; subst; rewrite Ht; auto. Qed.

Lemma y_ranked : ranked y_env y_rank.
Proof.
  intros f lines l g Hf Hl Hg. cbn in Hf. apply includes_inv in Hg.
  destruct (decide (f = lit "/a")) as [->|Ha].
  - rewrite bool_decide_true in Hf by done. injection Hf as <-.
    apply list_elem_of_singleton in Hl as ->. vm_compute in Hg. destruct Hg as [[_ Hg]|[? _]]; [|done].
    apply list_elem_of_singleton in Hg as ->. vm_compute. lia.
  - rewrite bool_decide_false in Hf by done. case_bool_decide; [|done]. injection Hf as <-.
    apply list_elem_of_singleton in Hl as ->. vm_compute in Hg. by destruct Hg as [[? _]|[? _]].
Qed.

Lemma parse_terminates_witness :
  ∃ fuel, parse_ssh_config_file y_env web fuel (lit "/a") empty_options ≠ Stop OutOfFuel.
Proof.
  destruct (parse_terminates y_env web y_rank (lit "/a") y_ranked) as [fuel Hf].
  exists fuel. apply (Hf empty_options).
Defined.

Lemma resolve_host_result_witness :
  resolveSshConfigHost x_env 9 (lit "web") = Ok (mkResolved (lit "proxy.example.com") (lit "bob")).
Proof.
  refine (resolve_host_result x_env 8 (lit "web") (lit "/home/me") u_lines s_lines _ _ _ _ _ _ _ _);
    try reflexivity; try discriminate.
  - apply (bool_decide_eq_false_1 (NUL ∈ _)). vm_compute. reflexivity.
  - apply (bool_decide_eq_false_1 (NUL ∈ _)). vm_compute. reflexivity.
  - apply (bool_decide_eq_false_1 ("@"%char ∈ _)). vm_compute. reflexivity.
  - left. exists u_text. split; [reflexivity|apply u_file].
  - left. exists (render_config <$> s_lines). split; [reflexivity|apply s_file].
Defined.

Lemma expand_escape_pieces_witness :
  ssh_path_expand_escape x_env (set_host web empty_options) (lit "%h.example.com") =
    Ok (Some (lit "web.example.com")).
Proof.
  refine (proj1 (expand_escape_pieces x_env (set_host web empty_options)
    [Escape "h"; Text (lit ".example.com")] [lit "web"; lit ".example.com"] _ _ _) _);
    [|discriminate|vm_compute; discriminate|vm_compute; reflexivity].
  repeat (apply Forall2_cons || apply Forall2_nil_2); try reflexivity; try split; try reflexivity.
  apply (bool_decide_eq_false_1 ("%"%char ∈ _)). vm_compute. reflexivity.
Defined.

Lemma port_wraps_witness :
  ssh_options_set x_env SSH_OPTIONS_PORT_STR (VStr (dec 65536)) empty_options = Ok (0, set_port 0 empty_options).
Proof. refine (port_wraps x_env 65536 empty_options _). lia. Defined.

Lemma match_user_sets_witness :
  ∃ st', ssh_config_parse_line x_env web 2 (lit "Match user bob") (mkParse empty_options true []) = (Ok 0, st') ∧
    username (options st') = Some (lit "bob").
Proof.
  refine (match_user_sets x_env web 0 (line "" "Match" " " [Bare (lit "user"); Bare (lit "bob")])
    (lit "user") (lit "bob") (mkParse empty_options true []) _ eq_refl eq_refl eq_refl _ eq_refl eq_refl _);
    [apply line_okb_spec; vm_compute; reflexivity|discriminate|apply not_elem_of_nil].
Defined.

Lemma setenv_needs_quotes_witness :
  ssh_config_parse_line x_env web 1 (lit "SetEnv LANG=C") (mkParse empty_options true []) =
    (Ok 0, mkParse empty_options true []).
Proof.
  refine (proj1 (setenv_needs_quotes x_env web 0 (lit "SetEnv") (lit "LANG") (lit "C")
    (mkParse empty_options true []) _ eq_refl _ _ _ _ eq_refl)); try discriminate.
  - apply (bool_decide_unpack (clean_word _)). vm_compute. exact I.
  - apply (bool_decide_unpack (clean_word _)). vm_compute. exact I.
  - apply (bool_decide_unpack (clean_word _)). vm_compute. exact I.
  - apply (bool_decide_eq_false_1 (QUOTE ∈ _)). vm_compute. reflexivity.
Defined.

Lemma include_cycle_diverges_witness :
  parse_ssh_config_file x_env web 100 (lit "/loop") empty_options = Stop OutOfFuel.
Proof.
  refine (include_cycle_diverges x_env web 100 (lit "/loop") (lit "/loop") loop_line (Bare (lit "/loop"))
    empty_options eq_refl eq_refl _ eq_refl eq_refl eq_refl _ _); [apply line_okb_spec; vm_compute; reflexivity|..].
  - apply (bool_decide_eq_false_1 ("*"%char ∈ _)). vm_compute. reflexivity.
  - apply (bool_decide_eq_false_1 ("?"%char ∈ _)). vm_compute. reflexivity.
Defined.
