(* ===== verification/EtClient.v ===== *)
(** * [terminal/TerminalClientMain]: the program [et]

    From the command line and the ssh configuration to the session: whom to connect to, as
    whom, over which jump host and with which tunnels; then the key through ssh
    ([SshSetup]) and the client itself ([TermClient]).  What [cxxopts] makes of the command
    line is the record [ClientOptions]. *)

From S2P Require Import Prelude Sockets Crypto Packets Wire CxxText HostParsing TunnelUtils Backed Connection.
From S2P Require Import ClientConnection UnixSockets TcpSockets SocketPromises Forwarding TerminalMessages Loops ClientStart TerminalClient.
From S2P Require Import SshPattern SshTokens SshOptions SshConfig SshClient SshSetup Telemetry LogFiles TelemetryStart.

(** An option that is not given is [None], and the list of its values where it must be
    given only once. *)
Record ClientOptions := mkClientOpts {
  co_username : option str;
  co_host : option str;
  co_port : Z;
  co_command : option str;
  co_noexit : bool;
  co_terminal_path : option str;
  co_tunnel : list str;
  co_reversetunnel : list str;
  co_jumphost : list str;
  co_jport : Z;
  co_jserverfifo : str;
  co_kill : bool;
  co_macserver : bool;
  co_verbose : Z;
  co_keepalive : list Z;
  co_no_terminal : bool;
  co_forward_agent : bool;
  co_ssh_socket : option str;
  co_serverfifo : str;
  co_ssh_option : list str;
  co_logdir : str;
  co_logtostdout : bool;
  co_silent : bool;
  co_telemetry : bool;
}.

Definition MAX_CLIENT_KEEP_ALIVE_DURATION : Z := 5.

Module EtClient.

(** [None] is [exit(0)]. *)
Definition extractSingleOptionWithDefault {T} (values : list T) (defaultValue : T) : option T :=
  match values with
  | [] => Some defaultValue
  | [v] => Some v
  | _ => None
  end.

(** Whom to connect to. *)
Record Target := mkTarget {
  t_username : str;
  t_host : str;
  t_alias : str;
  t_port : Z;
  t_jumphost : str;
  t_keepalive : Z;
  t_endpoint : SocketEndpoint;
}.

Definition is_jumphost (t : Target) : bool := match t_jumphost t with [] => false | _ => true end.

Section EtClient.
Variable e : Env.
(** How deep configuration files may include each other. *)
Variable depth : nat.

(** The configuration of the user, then the system's, for the host of the command line. *)
Definition read_ssh_config (destinationHost : str) : outcome Options :=
  home_dir ← ssh_get_user_home_dir e;
  '(_, opts) ← ssh_options_set e SSH_OPTIONS_HOST (VStr (c_str destinationHost)) empty_options;
  match home_dir with
  | None => Stop (UB "std::string of a null pointer")
  | Some home_dir =>
    let target := Some (c_str destinationHost) in
    '(_, opts) ← parse_ssh_config_file e target depth (home_dir ++ USER_SSH_CONFIG_PATH) opts;
    '(_, opts) ← parse_ssh_config_file e target depth SYSTEM_SSH_CONFIG_PATH opts;
    Ok opts
  end.

(** The name for the server: of the command line, the configuration, this user. *)
Definition choose_username (given : str) (opts : Options) : outcome str :=
  match given with
  | [] => match username opts with Some u => Ok u | None => local_username e end
  | _ => Ok given
  end.

(** The jump host as ssh gets it, and the host that it is. *)
Definition resolve_jumphost (jumphost : str) : outcome (str * str) :=
  let parsed := parseHostString jumphost in
  resolved ← resolveSshConfigHost e depth (HostParsing.host parsed);
  jumphostUser ← match user parsed with
                 | [] => match resolved_username resolved with
                         | [] => local_username e
                         | u => Ok u
                         end
                 | u => Ok u
                 end;
  Ok (jumphostUser ++ lit "@" ++ resolved_hostname resolved ++ portSuffix parsed, resolved_hostname resolved).

(** [None] is [exit]. *)
Definition client_target (o : ClientOptions) : outcome (option (Target * Options)) :=
  match co_host o with
  | None => Ok None
  | Some host_arg =>
    d ← parse_host_arg (mkDestination (default [] (co_username o)) host_arg (co_port o));
    match d, extractSingleOptionWithDefault (co_jumphost o) [],
          extractSingleOptionWithDefault (co_keepalive o) MAX_CLIENT_KEEP_ALIVE_DURATION with
    | Some d, Some jumphost, Some keepaliveDuration =>
      if (keepaliveDuration <? 1) || (MAX_CLIENT_KEEP_ALIVE_DURATION <? keepaliveDuration) then Ok None
      else
        opts ← read_ssh_config (d_host d);
        let destinationHost := default (d_host d) (SshOptions.host opts) in
        name ← choose_username (d_username d) opts;
        let jumphost := match jumphost with [] => default [] (ProxyJump opts) | _ => jumphost end in
        match jumphost with
        | [] =>
          Ok (Some (mkTarget name destinationHost (d_host d) (d_port d) [] keepaliveDuration
                      (mkEndpoint (Some destinationHost) (Some (d_port d))), opts))
        | _ =>
          '(jump, jump_host) ← resolve_jumphost jumphost;
          Ok (Some (mkTarget name destinationHost (d_host d) (d_port d) jump keepaliveDuration
                      (mkEndpoint (Some jump_host) (Some (co_jport o))), opts))
        end
    | _, _, _ => Ok None
    end
  end.

(** The tunnels of the configuration follow those of the command line. *)
Fixpoint add_forwards (tunnel_arg : str) (forwards : list (Z * Z)) : str :=
  match forwards with
  | [] => tunnel_arg
  | localForward :: forwards' =>
    let tunnelEntry := to_string localForward.1 ++ lit ":" ++ to_string localForward.2 in
    add_forwards (match tunnel_arg with
                  | [] => tunnelEntry
                  | _ => tunnel_arg ++ lit "," ++ tunnelEntry
                  end) forwards'
  end.

Definition etterminal_path (o : ClientOptions) : str :=
  match co_terminal_path o with
  | Some p => p
  | None => if co_macserver o then lit "/usr/local/bin/etterminal" else []
  end.

(** Whether the agent is forwarded, and its socket. *)
Definition agent (o : ClientOptions) (opts : Options) : bool * str :=
  (co_forward_agent o || negb (forward_agent opts =? 0),
   match co_ssh_socket o with Some s => s | None => default [] (identity_agent opts) end).

Section Run.
Context {W : Type} `{!Kernel W} `{!Poll W} `{!Console W} `{!SecretBox} `{!TempFiles W}.
Context `{!Entropy W} `{!Subprocess W} `{!LogOs W}.
Context `{!IniFiles W} `{!TelemetryOs W} `{!Telemetry W}.
Context (sock : handler_kind → SocketHandler W) (raw : SocketHandler W).
Context `{!Proto SequenceHeader} `{!Proto CatchupBuffer}.
Context `{!Proto ConnectRequest} `{!Proto ConnectResponse}.
Context `{!Proto PortForwardData} `{!Proto PortForwardDestinationRequest}.
Context `{!Proto PortForwardDestinationResponse}.
Context `{!Proto TerminalBuffer} `{!Proto TerminalInfo}.
Context `{!Proto InitialPayload} `{!Proto InitialResponse}.
Variable strerror : Z → str.
Variables (order : gmap Z Z → list (Z * Z))
  (order' : gmap Z Destination.ForwardDestinationHandler → list Z).
Variables (getenv : str → option str) (fuel : nat).
(** What other threads do to the client and to its connection. *)
Variable others : list ((Client.ClientConnection → Client.ClientConnection) * (Client.ClientConnection → Client.ClientConnection)).
Variable finish : Client.ClientConnection → option Client.ClientConnection.
Variable between : nat → Client.ClientConnection → Client.ClientConnection.
Variable env : list (TermClient.TerminalClient → TermClient.TerminalClient).

(** The directory for temporary files, the settings that easylogging starts from, where the
    telemetry has its file, and the build. *)
Variables (tmpDir : str) (setToDefault : Configurations) (configHome : str) (rebuild : str → str)
  (ET_VERSION : str) (USE_SENTRY : bool).
(** What other threads do to the telemetry at its end, and the place of the message below. *)
Variables (tele_env : list ((Tele.TelemetryService → Tele.TelemetryService) * (Tele.TelemetryService → Tele.TelemetryService)))
  (here : str * Z).

Definition ping (socketEndpoint : SocketEndpoint) : M W bool :=
  r ← @sh_connect W (sock Network) socketEndpoint;
  match r with
  | IoErr _ => mret false
  | IoOk socketFd =>
    if socketFd =? -1 then mret false
    else _ ← @sh_close W (sock Network) socketFd; mret true
  end.

(** The client lives as long as its session. *)
Definition session (o : ClientOptions) (client : TermClient.TerminalClient)
    : M (Forward.PortForwardHandler * W) unit := λ p,
  let '(r, (h, (_, k))) :=
    (_ ← TermClient.run sock raw strerror order order' fuel others finish env (default [] (co_command o)) (co_noexit o);
     on_snd (TermClient.TerminalClient_destroy sock finish)) (p.1, (client, p.2)) in
  (r, (h, k)).

(** The key through ssh, and the client. *)
Definition start_session (o : ClientOptions) (t : Target) (opts : Options) (tunnel_arg r_tunnel_arg : str)
    : M (Forward.PortForwardHandler * W) bool :=
  idpasskeypair ← on_snd (SetupSsh getenv (t_username t) (t_host t) (t_alias t) (t_port t) (t_jumphost t)
    (co_jserverfifo o) (co_kill o) (co_verbose o) (etterminal_path o) (co_serverfifo o) (co_ssh_option o));
  let '(forwardAgent, sshSocket) := agent o opts in
  client ← TermClient.TerminalClient_new sock fuel others getenv between (t_endpoint t) idpasskeypair.1 idpasskeypair.2
    (negb (co_no_terminal o)) (is_jumphost t) tunnel_arg r_tunnel_arg forwardAgent sshSocket (t_keepalive t)
    (env_vars opts);
  match client with
  | None => mret false
  | Some client => _ ← session o client; mret true
  end.

Definition session_started : M (Tele.TelemetryService * W) unit :=
  on_fst (modify (Tele.logToDatadog ET_VERSION (lit "Session Started") InfoLevel here.1 here.2)).

(** From the options to the end of the session; [false] is [exit]. *)
Definition main_body (o : ClientOptions) : M (Tele.TelemetryService * W) bool :=
  t ← lift (client_target o);
  match t with
  | None => mret false
  | Some (t, opts) =>
    reached ← on_snd (ping (t_endpoint t));
    if reached : bool then
      _ ← session_started;
      match extractSingleOptionWithDefault (co_tunnel o) [],
            extractSingleOptionWithDefault (co_reversetunnel o) [] with
      | Some tunnel_arg, Some r_tunnel_arg =>
        on_snd (scoped Forward.init
          (start_session o t opts (add_forwards tunnel_arg (local_forwards opts)) r_tunnel_arg))
      | _, _ => mret false
      end
    else mret false
  end.

(** A [TunnelParseException] ends in [exit]. *)
Definition catch_parse_exception {S} (m : M S bool) : M S bool := λ s,
  match m s with
  | (Stop (Throw (Exn TunnelParseException _)), s') => (Ok false, s')
  | r => r
  end.

Definition start_log (o : ClientOptions) : M W unit :=
  let defaultConf := Logs.setupLogHandler setToDefault in
  Logs.log_to_files (co_logdir o) (lit "etclient") (co_logtostdout o) (negb (co_logtostdout o)) false Logs.MAX_LOG_SIZE
    (if co_silent o then Logs.setGlobally (lit "Enabled") (lit "false") defaultConf else defaultConf).

(** The telemetry is shut down at the end, and by [exit] when there is one. *)
Definition main (o : ClientOptions) : M W bool :=
  _ ← Logs.setupStdoutLogger setToDefault;
  _ ← start_log o;
  telemetry ← TeleStart.TelemetryService_new getenv configHome rebuild USE_SENTRY (co_telemetry o)
    (tmpDir ++ lit "/.sentry-native-et") (lit "Client");
  scoped telemetry
    (returned ← catch_parse_exception (main_body o);
     t ← on_fst get;
     _ ← (if returned || Tele.allowed t then Tele.shutdown USE_SENTRY tele_env else mret tt);
     mret returned).
End Run.
End EtClient.
End EtClient.
