(* ===== verification/EtClientSpec.v ===== *)
(** * What the client makes of its command line and configuration

    The target of [et] for any command line and any two configuration files, and the
    tunnels that it opens. *)

From S2P Require Import Prelude Sockets Wire CxxText HostParsing TunnelUtils Forwarding.
From S2P Require Import SshPattern SshTokens SshOptions SshConfig SshConfigSpec SshClient SshSetup EtClient SshExamples.
Import EtClient.

(** ** The target *)

Section Target.
Context (e : Env) (fuel : nat).
Variables (home me : str) (ulines slines : list config_line).
Hypothesis home_dir : ssh_get_user_home_dir e = Ok (Some home).
Hypothesis home_ok : (NUL ∉ home) ∧ head home = Some "/"%char.
Hypothesis local_user : ssh_get_local_username e = Ok (Some me).
Hypothesis user_file : file_lines e (home ++ USER_SSH_CONFIG_PATH) ulines.
Hypothesis system_file : file_lines e SYSTEM_SSH_CONFIG_PATH slines.

(** What the configuration says of an alias. *)
Definition conf_user (alias : str) : option str := user_first ulines slines alias SOC_USERNAME.
Definition conf_jump (alias : str) : option str := user_first ulines slines alias SOC_PROXYJUMP.
Definition conf_host (alias : str) : str := default alias (system_first ulines slines alias SOC_HOSTNAME).

(** The [LocalForward] lines for an alias, of both files. *)
Definition conf_forwards (alias : str) : list config_line :=
  active (Some alias) SOC_LOCALFORWARD true ulines ++ active (Some alias) SOC_LOCALFORWARD true slines.

(** The first of the texts that is not empty. *)
Definition or_else (a b : str) : str := match a with [] => b | _ => a end.

Lemma read_ssh_config_fields alias :
  plain_alias alias →
  ∃ opts, read_ssh_config e (S fuel) alias = Ok opts ∧
    SshOptions.host opts = Some (conf_host alias) ∧ username opts = conf_user alias ∧ ProxyJump opts = conf_jump alias ∧
    local_forwards opts = omap forward_of (words <$> conf_forwards alias).
Proof.
  intros Halias. unfold read_ssh_config. rewrite home_dir, c_str_id by apply Halias. cbn [mbind outcome_bind].
  rewrite set_host_alias by done. cbn [mbind outcome_bind].
  destruct (both_files_fields e home ulines slines home_ok user_file system_file fuel alias Halias)
    as (o1 & o2 & -> & H2 & Hh & Hu & Hj & Hf).
  cbn [mbind outcome_bind]. rewrite H2. by exists o2.
Qed.

Lemma choose_username_name given opts :
  choose_username e given opts = Ok (match given with [] => default me (username opts) | _ => given end).
Proof.
  destruct given; [|done]. cbn. destruct (username opts); [done|].
  unfold SshOptions.local_username. by rewrite local_user.
Qed.

Lemma resolve_jumphost_result jump :
  plain_alias (HostParsing.host (parseHostString jump)) →
  let p := parseHostString jump in
  let name := or_else (user p) (or_else (default [] (conf_user (HostParsing.host p))) me) in
  resolve_jumphost e (S fuel) jump =
    Ok (name ++ lit "@" ++ conf_host (HostParsing.host p) ++ portSuffix p, conf_host (HostParsing.host p)).
Proof.
  intros Halias p name. unfold resolve_jumphost. fold p.
  rewrite (resolve_alias e home ulines slines) by done. cbn [mbind outcome_bind resolved_username resolved_hostname].
  subst name. unfold conf_user. destruct (user p) as [|c u]; cbn [or_else]; [|done].
  destruct (user_first _ _ _ _) as [[|c u]|]; cbn [default or_else]; try done;
    unfold SshOptions.local_username; rewrite local_user; done.
Qed.

(** C20. Whom the client connects to.  The host argument gives the alias, a port and perhaps
    a user; the user's configuration decides before the system's on the user name and the
    jump host, but the system's before the user's on the host name.  The session goes to the
    host and port of the destination, or to the host of the jump host and the port of the
    option, and ssh is given the jump host with its user and ssh port. *)
Theorem target_resolved o arg d keep jump0 :
  co_host o = Some arg →
  parse_host_arg (mkDestination (default [] (co_username o)) arg (co_port o)) = Ok (Some d) →
  plain_alias (d_host d) →
  extractSingleOptionWithDefault (co_keepalive o) MAX_CLIENT_KEEP_ALIVE_DURATION = Some keep →
  1 <= keep <= MAX_CLIENT_KEEP_ALIVE_DURATION →
  extractSingleOptionWithDefault (co_jumphost o) [] = Some jump0 →
  let jump := or_else jump0 (default [] (conf_jump (d_host d))) in
  let p := parseHostString jump in
  (jump ≠ [] → plain_alias (HostParsing.host p)) →
  let name := match d_username d with [] => default me (conf_user (d_host d)) | _ => d_username d end in
  let dest := conf_host (d_host d) in
  let jump_user := or_else (user p) (or_else (default [] (conf_user (HostParsing.host p))) me) in
  let jump_host := conf_host (HostParsing.host p) in
  ∃ opts, client_target e (S fuel) o = Ok (Some (match jump with
    | [] => mkTarget name dest (d_host d) (d_port d) [] keep (mkEndpoint (Some dest) (Some (d_port d)))
    | _ => mkTarget name dest (d_host d) (d_port d) (jump_user ++ lit "@" ++ jump_host ++ portSuffix p) keep
             (mkEndpoint (Some jump_host) (Some (co_jport o)))
    end, opts)).
Proof.
  intros Harg Hd Halias Hkeep Hrange Hjump jump p Hplain name dest jump_user jump_host.
  unfold client_target. rewrite Harg, Hd. cbn [mbind outcome_bind]. rewrite Hjump, Hkeep.
  rewrite (proj2 (Z.ltb_ge keep 1)), (proj2 (Z.ltb_ge MAX_CLIENT_KEEP_ALIVE_DURATION keep)) by apply Hrange.
  cbn [orb].
  destruct (read_ssh_config_fields (d_host d) Halias) as (opts & -> & Hh & Hu & Hj & _). cbn [mbind outcome_bind].
  rewrite Hh, Hj, choose_username_name, Hu. cbn [mbind outcome_bind default].
  assert ((match jump0 with [] => default [] (conf_jump (d_host d)) | _ => jump0 end) = jump) as ->
    by (unfold jump, or_else; by destruct jump0).
  clearbody jump. destruct jump as [|c j] eqn:Ej; [by exists opts|].
  rewrite resolve_jumphost_result by by apply Hplain. cbn [mbind outcome_bind]. by exists opts.
Qed.
(** ** The tunnels *)

Lemma join_snoc delim l x : l ≠ [] → join delim (l ++ [x]) = join delim l ++ delim :: x.
Proof.
  induction l as [|a [|b l] IH]; intros Hl; [done|done|].
  change ((a :: b :: l) ++ [x]) with (a :: (b :: l) ++ [x]). cbn [join app]. rewrite <-app_assoc. cbn [app].
  do 2 f_equal. by apply IH.
Qed.

Lemma to_string_dec z : 0 <= z → to_string z = dec z.
Proof. intros Hz. unfold to_string. by rewrite (proj2 (Z.ltb_ge _ _)). Qed.

Lemma join_text_ne l : Forall well_formed l → l ≠ [] → join ","%char (TunnelUtils.text <$> l) ≠ [].
Proof.
  intros Hw Hl. destruct l as [|t l]; [done|]. apply Forall_cons_1 in Hw as [Ht _].
  destruct (sides_words t Ht) as [(_ & _ & _) (_ & _ & Hc)].
  assert (TunnelUtils.text t ≠ []) as Hne.
  { assert (TunnelUtils.text t = (sides t).1 ++ ":"%char :: (sides t).2) as -> by by destruct t. by destruct (sides t).1. }
  cbn. destruct (TunnelUtils.text <$> l); [done|]. by destruct (TunnelUtils.text t).
Qed.

Lemma add_forwards_text l (fws : list (Z * Z)) :
  Forall well_formed l → Forall (λ p, is_int p.1 ∧ is_int p.2) fws →
  add_forwards (join ","%char (TunnelUtils.text <$> l)) fws =
    join ","%char (TunnelUtils.text <$> (l ++ ((λ p, OnePort p.1 p.2) <$> fws))).
Proof.
  intros Hl Hf. revert l Hl. induction Hf as [|[a b] fws [Ha Hb] Hf IH]; intros l Hl.
  - cbn. by rewrite app_nil_r.
  - cbn [add_forwards fst snd fmap list_fmap]. rewrite !to_string_dec by apply Ha || apply Hb.
    change (dec a ++ lit ":" ++ dec b) with (TunnelUtils.text (OnePort a b)).
    assert ((match join ","%char (TunnelUtils.text <$> l) with [] => TunnelUtils.text (OnePort a b)
             | _ => join ","%char (TunnelUtils.text <$> l) ++ lit "," ++ TunnelUtils.text (OnePort a b) end) =
            join ","%char (TunnelUtils.text <$> (l ++ [OnePort a b]))) as ->.
    { rewrite fmap_app. destruct l as [|t l]; [done|]. pose proof (join_text_ne (t :: l) Hl ltac:(done)) as Hne.
      cbn [fmap list_fmap] in *. rewrite (join_snoc _ (TunnelUtils.text t :: (TunnelUtils.text <$> l))) by done.
      by destruct (join ","%char (TunnelUtils.text t :: (TunnelUtils.text <$> l))). }
    rewrite IH; [by rewrite <-app_assoc|]. apply Forall_app. split; [done|]. constructor; [by split|constructor].
Qed.

(** An argument of [-t]: elements with commas between them, or one ssh-style tunnel
    [bind:port:host:hostport], whose hosts may be in brackets. *)
Inductive argument :=
| Elements (l : list tunnel)
| SshStyle (bracket1 : bool) (bind : str) (port : Z) (bracket2 : bool) (host : str) (hostport : Z).

Definition argument_text (a : argument) : str :=
  match a with
  | Elements l => join ","%char (TunnelUtils.text <$> l)
  | SshStyle b1 a p b2 h q => ssh_text b1 a (dec p) b2 h (dec q)
  end.

Definition argument_requests (a : argument) : list PortForwardSourceRequest :=
  match a with
  | Elements l => concat (requests <$> l)
  | SshStyle _ a p _ h q => [forward_request (mkEndpoint (Some a) (Some p)) (mkEndpoint (Some h) (Some q))]
  end.

(** Well-formed, beside the tunnels of the configuration. *)
Definition argument_ok (forwards : list (Z * Z)) (a : argument) : Prop :=
  match a with
  | Elements l => Forall well_formed l ∧ (l ≠ [] ∨ forwards ≠ [])
  | SshStyle b1 a p b2 h q =>
    TunnelUtils.host_ok b1 a ∧ TunnelUtils.host_ok b2 h ∧ is_int p ∧ is_int q ∧ forwards = []
  end.

(** A line [LocalForward port host:hostport]. *)
Definition says_forward (l : config_line) (p : Z * Z) : Prop :=
  ∃ w1 w2 h, words l = [w1; w2] ∧ word_text w1 = dec p.1 ∧ word_text w2 = h ++ ":"%char :: dec p.2 ∧
    (" "%char ∉ h) ∧ is_int p.1 ∧ is_int p.2 ∧ (length (word_text w1) + length (word_text w2) < 1023)%nat.

Lemma forward_of_said l p : says_forward l p → forward_of (words l) = Some p.
Proof.
  intros (w1 & w2 & h & -> & E1 & E2 & Hh & H1 & H2 & Hl). unfold forward_of.
  rewrite take_ge by (rewrite length_app; cbn [length]; lia). rewrite E1, E2. unfold strtok.
  assert (" "%char ∉ (h ++ ":"%char :: dec p.2)) as Hn.
  { rewrite elem_of_app, elem_of_cons. intros [?|[?|Hin]]; [done..|]. revert Hin. by apply dec_not_in. }
  assert (h ++ ":"%char :: dec p.2 ≠ []) as Hne by by destruct h.
  rewrite split_two by (by apply dec_not_in || done).
  rewrite filter_cons_True by apply dec_ne. rewrite filter_cons_True by done.
  rewrite after_last_app by by apply dec_not_in. cbn [mbind option_bind].
  rewrite !atoi_dec by done. by destruct p.
Qed.

Lemma forwards_said ls fws : Forall2 says_forward ls fws → omap forward_of (words <$> ls) = fws.
Proof.
  induction 1 as [|l p ls fws Hp _ IH]; [done|]. cbn. by rewrite (forward_of_said _ _ Hp), IH.
Qed.

Lemma said_ports ls fws : Forall2 says_forward ls fws → Forall (λ p, is_int p.1 ∧ is_int p.2) fws.
Proof.
  induction 1 as [|l p ls fws (w1 & w2 & h & _ & _ & _ & _ & H1 & H2 & _) _ IH]; by constructor.
Qed.

Lemma parse_with_forwards arg (fws : list (Z * Z)) :
  argument_ok fws arg → Forall (λ p, is_int p.1 ∧ is_int p.2) fws →
  parseRangesToRequests (add_forwards (argument_text arg) fws) =
    Ok (argument_requests arg ++ ((λ p, forward_request (localhost p.1) (port_only p.2)) <$> fws)).
Proof.
  destruct arg as [l|b1 a p b2 h q]; intros Ha Hf; cbn [argument_text argument_requests].
  - destruct Ha as [Hl Hne]. rewrite add_forwards_text by done. rewrite parseRangesToRequests_text.
    + f_equal. rewrite fmap_app, concat_app. f_equal. clear. by induction fws as [|[a b] fws IH]; cbn; [|rewrite <-IH].
    + intros [-> E]%app_nil. apply fmap_nil_inv in E. by destruct Hne.
    + apply Forall_app. split; [done|]. by apply Forall_fmap.
  - destruct Ha as (H1 & H2 & Hp & Hq & ->). by apply parse_ssh_style.
Qed.

(** C21. The tunnels of the client.  The requests that [main] makes of the argument of [-t]
    and of the ssh configuration are those of the argument, and then one for each
    [LocalForward port host:hostport] line that applies to the alias (in the user's
    configuration, then in the system's), from the local port to the port on the server
    itself (the host in the line is not kept).  The argument is a comma-separated list of port
    pairs, port ranges, environment variables, socket pairs and pairs of a port and a socket;
    or, only when there is no such line, one ssh-style tunnel (with one, it is misread,
    [ssh_tunnel_misread]). *)
Theorem configured_tunnels alias arg (fws : list (Z * Z)) :
  plain_alias alias → Forall2 says_forward (conf_forwards alias) fws → argument_ok fws arg →
  ∃ opts, read_ssh_config e (S fuel) alias = Ok opts ∧
    parseRangesToRequests (add_forwards (argument_text arg) (local_forwards opts)) =
      Ok (argument_requests arg ++ ((λ p, forward_request (localhost p.1) (port_only p.2)) <$> fws)).
Proof.
  intros Halias Hsaid Harg.
  destruct (read_ssh_config_fields alias Halias) as (opts & Hr & _ & _ & _ & Hf).
  exists opts. split; [done|]. rewrite Hf, (forwards_said _ _ Hsaid). apply parse_with_forwards; [done|].
  by eapply said_ports.
Qed.
End Target.

(** An ssh-style argument of the command line is misread when the configuration adds a
    tunnel to it: of its four parts the first two count, and the address becomes the port 0. *)
Lemma ssh_tunnel_misread :
  parseRangesToRequests (lit "0.0.0.0:8080:db:5432") =
    Ok [forward_request (mkEndpoint (Some (lit "0.0.0.0")) (Some 8080)) (mkEndpoint (Some (lit "db")) (Some 5432))] ∧
  parseRangesToRequests (add_forwards (lit "0.0.0.0:8080:db:5432") [(3000, 3001)]) =
    Ok [forward_request (localhost 0) (port_only 8080); forward_request (localhost 3000) (port_only 3001)].
Proof. split; vm_compute; reflexivity. Qed.

(** ** Witnesses *)

(** [et me@web:8080 --jumphost jump:22 -k 3] *)
Definition w_options : ClientOptions :=
  mkClientOpts None (Some (lit "me@web:8080")) 2022 None false None [] [] [lit "jump:22"] 2022 [] false false 0
    [3] false false None [] [] (lit "/tmp") false false true.

Ltac decided := apply (bool_decide_eq_false_1 (_ ∈ _)); vm_compute; reflexivity.

Lemma target_resolved_witness :
  ∃ opts, client_target x_env 9 w_options = Ok (Some (mkTarget (lit "me") (lit "proxy.example.com") (lit "web") 8080
    (lit "other@proxy.example.com:22") 3 (mkEndpoint (Some (lit "proxy.example.com")) (Some 2022)), opts)).
Proof.
  refine (target_resolved x_env 8 (lit "/home/me") (lit "me") u_lines s_lines _ _ _ _ _ w_options (lit "me@web:8080")
    (mkDestination (lit "me") (lit "web") 8080) 3 (lit "jump:22") _ _ _ _ _ _ _).
  - reflexivity.
  - split; [decided|reflexivity].
  - reflexivity.
  - left. exists u_text. split; [reflexivity|apply u_file].
  - left. exists (render_config <$> s_lines). split; [reflexivity|apply s_file].
  - reflexivity.
  - vm_compute. reflexivity.
  - split; [discriminate|split; decided].
  - reflexivity.
  - vm_compute. split; discriminate.
  - reflexivity.
  - intros _. split; [discriminate|split; decided].
Defined.

(** [et web -t 8080:80,/tmp/s:9000], with the forwards that the configuration has for web. *)
Lemma configured_tunnels_witness :
  ∃ opts, read_ssh_config x_env 9 (lit "web") = Ok opts ∧
    parseRangesToRequests (add_forwards (lit "8080:80,/tmp/s:9000") (local_forwards opts)) =
      Ok (concat (requests <$> [OnePort 8080 80; SocketToPort (lit "/tmp/s") 9000])
          ++ ((λ p, forward_request (localhost p.1) (port_only p.2)) <$> [(8000, 5432); (3000, 3001)])).
Proof.
  refine (configured_tunnels x_env 8 (lit "/home/me") u_lines s_lines _ _ _ _
    (lit "web") (Elements [OnePort 8080 80; SocketToPort (lit "/tmp/s") 9000]) [(8000, 5432); (3000, 3001)] _ _ _).
  - reflexivity.
  - split; [decided|reflexivity].
  - left. exists u_text. split; [reflexivity|apply u_file].
  - left. exists (render_config <$> s_lines). split; [reflexivity|apply s_file].
  - split; [discriminate|split; decided].
  - assert (conf_forwards u_lines s_lines (lit "web") =
      [line "  " "LocalForward" " " [Bare (lit "8000"); Bare (lit "db:5432")];
       line "  " "LocalForward" " " [Bare (lit "3000"); Bare (lit "localhost:3001")]]) as ->
      by (vm_compute; reflexivity).
    constructor; [|constructor; [|constructor]].
    + exists (Bare (lit "8000")), (Bare (lit "db:5432")), (lit "db").
      split; [reflexivity|]. split; [vm_compute; reflexivity|]. split; [vm_compute; reflexivity|].
      split; [decided|]. split; [vm_compute; split; congruence|]. split; [vm_compute; split; congruence|cbn; lia].
    + exists (Bare (lit "3000")), (Bare (lit "localhost:3001")), (lit "localhost").
      split; [reflexivity|]. split; [vm_compute; reflexivity|]. split; [vm_compute; reflexivity|].
      split; [decided|]. split; [vm_compute; split; congruence|]. split; [vm_compute; split; congruence|cbn; lia].
  - split; [|left; discriminate]. apply Forall_cons_2; [split; unfold is_int; lia|]. apply Forall_cons_2; [|constructor].
    split; [|split; [reflexivity|unfold is_int; lia]]. split; [discriminate|split; decided].
Defined.
